(* ===== verification/_CoqProject ===== *)
-Q . S2P
Prelude.v
RustString.v
RustFloat.v
SortedVec.v
Manifest.v
Json.v
ManifestJson.v
ManifestSchema.v
ManifestExamples.v
Messages.v
Config.v
Agent.v
Cache.v
CacheFacts.v
Scheduling.v
SchedulingFacts.v
SchedHandlers.v
SchedInv.v
Capacity.v
SchedThms.v
Updaters.v
Witnesses.v
Accounting.v
Cluster.v
ClusterExamples.v
SchedulerTests.v
ManifestTests.v
Discovery.v
Services.v
Console.v
ConsoleLive.v
Lifecycle.v
ChConfig.v
Transform.v
Storage.v
StorageFacts.v
StorageExamples.v
StorageCommands.v
ApiProxy.v
VmInstance.v
InstanceOps.v
Network.v
NetworkFacts.v
NetworkExamples.v
VmActor.v
VmExamples.v
ComputeNode.v
NodeExamples.v
Process.v
HttpApi.v
HttpFacts.v
Cli.v
HttpExamples.v
EndToEnd.v
EndToEndExamples.v
Types.v
ConfigJson.v
DriverTests.v
CliTests.v
