(* ===== verification/Prelude.v ===== *)
(** * Odorobo: a verified model of the VM orchestrator

    Odorobo runs virtual machines on a set of nodes. A manager node runs the
    scheduler, every node runs an agent, and every VM is an actor that owns one
    Cloud Hypervisor process. The sources are under [odorobo/src/].

    ** How the program works

    The command line client [odoroboctl] or another HTTP client posts a manifest
    (the desired state of a VM) to the manager's HTTP API, whose actor forwards it
    to the scheduler as a [CreateVM]. The scheduler keeps the manifest as intent, scores the agents
    it knows by capacity, pending reservations and affinity, reserves the
    resources on the best one and asks it to create the VM. The agent spawns a
    VM actor, which converts the manifest to a hypervisor configuration, adapts
    it to the node (storage, console, network names, path checks), starts the
    hypervisor and boots the VM. Polling tasks report VMs and agents back to the
    scheduler as revisioned full snapshots or deltas; a periodic reconciliation
    expires placements that were not confirmed and dispatches VMs without
    placement again. Deaths of agents and VM actors remove observations, never
    intent. Each agent has a network actor that sets up the node's bridge, NAT
    rules and DHCP and plugs the TAP devices of the VMs into the bridge. A node's
    process holds a lock file while it serves.

    ** Files, in dependency order

    - [Prelude]: results and errors, saturating arithmetic at its width, time,
      the iteration order of hash maps ([IterOrder]), shared lemmas and tactics.
    - [RustString], [RustFloat], [SortedVec]: what the sources use of Rust's
      strings, paths, number parsing, IEEE floats, binary search and sorting.
    - [Manifest] ([manifest.rs]): the manifest types and their validation.
    - [Json]: JSON values and the codecs serde derives; [ManifestJson]: the codecs
      of the manifest's types and [Deserialize for VmManifest]; [ManifestSchema]:
      the fields it accepts; [ManifestExamples]: the documented fixtures.
    - [Messages] ([messages/agent.rs], [messages/vm.rs]): message types and
      [apply_status_update]. [Config] ([config.rs]): configuration and defaults;
      [ConfigJson]: its JSON file and [Config::init]. [Types] ([types.rs]): the
      public types and their JSON forms.
    - [Agent] ([actors/agent_actor.rs]): the agent's registry of VMs, usage
      counters, membership history and handlers; runs of agent events.
    - [Cache] ([actors/scheduler_actor.rs], [scheduler_actor/cache.rs]): the
      scheduler's state and the operations on it; [CacheFacts]: what they do to
      each placement.
    - [Scheduling] ([scheduler_actor/scheduling.rs]): capacity, affinity, scores,
      the choice of an agent; [SchedulingFacts]: its correctness.
    - [SchedHandlers] ([scheduler_actor/handlers.rs],
      [scheduler_actor/discovery.rs]): every message handler of the scheduler,
      the updater tasks, and the step function [scheduler_handle] on events.
    - [SchedInv], [Capacity], [SchedThms]: the invariant of reachable states, no
      overcommit, and what each handler guarantees. [Updaters]: the failure
      budget of the polling tasks and the composition of agent, updater and
      scheduler. [Witnesses]: concrete runs. [Accounting], [Cluster]: the
      scheduler and its agents composed; [ClusterExamples]: a cluster of two
      nodes. [Discovery]
      ([scheduler_actor/discovery.rs]): the finder passes. [Services]
      ([actors/ip_management_actor.rs] and the actors that only start).
    - [Console] ([ch_driver/actor.rs]): the bounded serial history;
      [ConsoleLive]: its live subscribers. [Lifecycle] ([actors/agent_actor.rs],
      [actors/http_actor.rs]): panics, pings and the start of the HTTP server.
    - [ChConfig] ([ch_driver/manifest.rs]): conversion of a manifest.
    - [Transform] ([ch_driver/transform/]): the chain of config transforms with
      network, console and path transforms; [Storage] ([transform/storage/]):
      file, RBD and iSCSI drivers; [StorageFacts], [StorageExamples];
      [StorageCommands]: the command lines the drivers run.
    - [ApiProxy] ([ch_driver/api.rs]): the proxy to a VM's hypervisor API.
    - [VmInstance] ([ch_driver/instance.rs], [ch_driver/provisioning/hooks/]):
      starting, booting, migrating and destroying a hypervisor process, and the
      hooks; [InstanceOps] ([ch_driver/instance.rs], [ch_driver/devices.rs]): its
      other operations; [VmActor] ([ch_driver/actor.rs]): the VM actor's handlers
      and the theorems on instances; [VmExamples]. [ComputeNode]: the agent and
      its VM actors composed, as a step relation; [NodeExamples].
    - [Network] ([networking/actor_linux.rs]): the network and DHCP actors;
      [NetworkFacts]: what they establish, with the hooks of [VmInstance] on top;
      [NetworkExamples]: a small kernel.
    - [Process] ([main.rs], [utils/lockfile.rs], [utils/mod.rs]): the lock file,
      the main thread, logging and the swarm, and competing processes.
    - [HttpApi] ([http_api/], [actors/http_actor.rs], [types.rs]): routes, handlers
      and errors; [HttpFacts]: their composition with the scheduler; [Cli]
      ([odoroboctl/src/cli.rs]): the client, connected to the server;
      [HttpExamples]. [EndToEnd]: client, API, scheduler and agents composed;
      [EndToEndExamples].
    - [SchedulerTests], [ManifestTests], [DriverTests], [CliTests]: the unit tests
      of the sources as executable definitions, which hold on the model, with
      the texts of the errors they look at.

    ** How code is modelled

    Structs are records, enums are inductive types, hash maps are [gmap] and hash
    sets [gset]. Where the result of a traversal of a hash map may depend on its
    order, the order is the class [IterOrder], and theorems hold for every
    order. Integers are [N] or [Z] with saturation and range checks written out;
    scores are IEEE binary32 values and affinity numbers binary64. Handlers are
    functions from the state to the new state, the reply and the effects
    (messages sent, tasks spawned or aborted). Answers of remote actors, registry
    lookups, clock readings and spawned actor identities are arguments, so
    theorems hold for all of them. The hypervisor API, processes, the file
    system, URL parsing and the storage commands are the classes [Hypervisor],
    [Node] (with the instance [shell_node] on a [Shell]), [UrlOps] on an abstract
    node state; [UrlLaws] states what storage
    teardown relies on of URLs. The kernel's links, addresses and firewall are the
    class [NetKernel] with [NetKernelLaws]; the HTTP libraries are [HttpClient] of
    the proxy, [Axum] with [AxumLaws] of the server and [HttpSend] with [Connected]
    of the client; the text of a ULID is [UlidText] with [UlidTextLaws]. Every
    class of laws has an instance in an examples file. Mutexes make console
    operations atomic. A JSON text is the value it is parsed to, with the entries
    of an object in order, so that repeated and unknown keys are visible.

    ** Composition

    [Cluster.cluster_handle] executes one event of a cluster, and events come in
    any order: agents start and crash, the scheduler handles a create, a
    reconciliation pass, a poll or any other message, an agent any other message.
    Every request the scheduler sends has a [Fate]: whether it is executed and
    whether its sender learns of it, independently. The guarantee on the agents'
    real load does not hold for all sequences of events, and the condition
    [Cluster.careful] says event by event what it needs: a reservation of a VM
    that its agent holds is not dropped before the agent was polled (by an expiry,
    a delete, a lost acknowledgement, or an answer lost while the VM's actor is
    not found); a poll is answered and handled as one event; an agent that joins
    fits its own limits; an agent executes a create on its own only for a
    reserved VM and receives no migration. [ClusterExamples] shows runs that
    overcommit a node when one of these fails.

    [ComputeNode.node_step] interleaves, on one node, the agent's messages with
    the starts, stops and own messages of its VM actors, the exits of hypervisor
    processes and the notices of dead actors. A migration received for a VM the
    node already runs displaces its actor, which no one stops; the displaced
    actors are an index of the relation, and the theorem on the registry is about
    the others. [EndToEnd.create_end_to_end] follows one create through client,
    API, scheduler and agents, with any fate of the request and any outcome of
    the lookup after a failure.

    ** What the theorems show

    - The whole system: what a success printed by [odoroboctl create] and an
      error mean for the agents and the scheduler; under the conditions above,
      what the agents really hold stays within their nodes; an accepted create of
      a new VM is executed by one agent and confirmed by its next poll; the VMs of
      a dead agent are dispatched again, to a best eligible survivor; the registry
      of an agent and the VM actors of its node that no migration displaced agree
      in every interleaving.
    - Manifests: validation decides the contract; what is read from JSON has the
      widths of its fields and satisfies the contract, unknown fields are refused
      everywhere but in the payload of a [preferred] strictness, and writing and
      reading is the identity, also for the node's configuration and the public
      types.
    - Clients: a command of [odoroboctl] and a request to the HTTP API do exactly
      what the scheduler's handler of that message does; successes are real,
      refused requests change nothing; [create] validates before it sends; the
      proxy forwards to the resource a path addresses and passes the answer
      through.
    - Nodes: at most one process owns the lock file in any interleaving; the main
      thread ends, with the stated result and lock file for every outcome of its
      system calls; the network agent's start establishes its
      network and is idempotent, and the hooks plug and unplug the TAP devices.
    - Agents: usage counters are exact; a client that applies the reply to its
      poll has the agent's VM list; creates are idempotent.
    - Scheduler: the chosen agent is eligible and of maximal score, and a
      request is refused only if no agent qualifies; reported plus reserved
      resources never exceed the limits through the scheduler's own actions;
      reachable states satisfy [sched_inv]; intent survives failures, failed
      creates leave no trace, removed VMs stay removed; full snapshots, deltas,
      deaths and reconciliation change exactly the stated placements; the
      snapshot kept of an agent follows the agent through any number of polls.
    - VM actors: the console keeps exactly the last mebibyte and its subscribers
      are told what they miss; conversion succeeds
      exactly on representable manifests; the network transform changes only
      interfaces and names their TAP devices validly, and the hooks handle one
      device per network; storage teardown releases what was resolved, and the
      list of mapped images is read whatever its padding; a failed start kills its
      process; destroying makes the stated calls once the VM is stopped, in order
      and whatever fails, as recorded by [VmActor.recorded_node].

    ** Fuel

    [Console.evict] gets one unit per chunk and one for the last test, which
    [evict_spec] proves enough; [ConsoleLive.recv_all] needs one more than the
    chunks to read. [SortedVec.binary_search] gets the length of the
    vector, and [RustString.show_N] the number of binary digits; their
    specifications show that the fuel does not run out. The updater tasks consume
    a list of poll outcomes, one per iteration; [await_socket] has the 31
    attempts of the source. [Process.mainloop_from] polls for ever when nothing
    happens; [main_terminates] gives the turn at which it returns and that every
    larger fuel gives the same result.

    ** Not modelled

    JSON text and URL parsing, command line parsing and its merging with the file
    (a procedural macro), the actor runtime itself (its mailboxes and links appear
    only where components are composed), the contents of the libp2p swarm, of the
    log filter and of error reports, and the generated OpenAPI document: they are
    calls into other packages, whose results are parameters where they matter.
    Vector capacities are not observable, so [shrink_non_migrating_entries] has
    no definition; neither have the messages without a handler
    ([CloudHypervisorDeleteVMConfig], [MigrateVMSend] and the status messages of
    [networking/messages.rs]). *)

From stdpp Require Export base list gmap sets sorting strings.
From Stdlib Require Export NArith ZArith Lia.

(** ** Notation scope and tactics of the development *)

Declare Scope odorobo_scope.
Delimit Scope odorobo_scope with odorobo.

Open Scope N_scope.

(** Case analysis on the first [match] or [if] of the goal or a hypothesis. *)
Ltac split_match :=
  match goal with
  | |- context [match ?x with _ => _ end] => destruct x eqn:?
  | H : context [match ?x with _ => _ end] |- _ => destruct x eqn:?
  end.

Ltac split_matches := repeat (split_match; simplify_eq/=).

(** Turn boolean tests of the source into propositions. *)
Ltac bool_to_prop :=
  repeat match goal with
  | H : (_ <=? _) = true |- _ => apply N.leb_le in H
  | H : (_ <=? _) = false |- _ => apply N.leb_gt in H
  | H : (_ <? _) = true |- _ => apply N.ltb_lt in H
  | H : (_ <? _) = false |- _ => apply N.ltb_ge in H
  | H : (_ =? _) = true |- _ => apply N.eqb_eq in H
  | H : (_ =? _) = false |- _ => apply N.eqb_neq in H
  | H : bool_decide _ = true |- _ => apply bool_decide_eq_true in H
  | H : bool_decide _ = false |- _ => apply bool_decide_eq_false in H
  | H : (_ && _)%bool = true |- _ => apply andb_true_iff in H as [? ?]
  | H : (_ || _)%bool = false |- _ => apply orb_false_iff in H as [? ?]
  | H : negb _ = true |- _ => apply negb_true_iff in H
  | H : negb _ = false |- _ => apply negb_false_iff in H
  end.

(** ** Rust's [Result] *)

Inductive result (E A : Type) : Type :=
| Ok (a : A)
| Err (e : E).
Arguments Ok {E A} a.
Arguments Err {E A} e.

#[global] Instance result_ret {E} : MRet (result E) := λ A a, Ok a.
#[global] Instance result_bind {E} : MBind (result E) := λ A B f r,
  match r with Ok a => f a | Err e => Err e end.
#[global] Instance result_fmap {E} : FMap (result E) := λ A B f r,
  match r with Ok a => Ok (f a) | Err e => Err e end.
#[global] Instance result_eq_dec `{EqDecision E, EqDecision A} : EqDecision (result E A).
Proof. solve_decision. Defined.

Definition is_ok {E A} (r : result E A) : bool :=
  match r with Ok _ => true | Err _ => false end.
Definition is_err {E A} (r : result E A) : bool := negb (is_ok r).
Definition ok {E A} (r : result E A) : option A :=
  match r with Ok a => Some a | Err _ => None end.
Definition ok_or {E A} (o : option A) (e : E) : result E A :=
  match o with Some a => Ok a | None => Err e end.

Lemma result_bind_ok {E A B} (r : result E A) (f : A → result E B) b :
  r ≫= f = Ok b ↔ ∃ a, r = Ok a ∧ f a = Ok b.
Proof. destruct r as [a|e]; cbn; naive_solver. Qed.

Lemma is_ok_spec {E A} (r : result E A) : is_ok r = true ↔ ∃ a, r = Ok a.
Proof. destruct r; cbn; naive_solver. Qed.

(** ** Machine integers

    Unsigned integers of width [w] are values of [N] at most [2^w - 1]; the
    saturating operations of the Rust standard library are written out. *)

Definition u32_max : N := 4294967295.
Definition u64_max : N := 18446744073709551615.
Definition i32_max : N := 2147483647.
Definition i64_max : Z := 9223372036854775807.
Definition i64_min : Z := (-9223372036854775808)%Z.

Definition u32_saturating_add (a b : N) : N := N.min u32_max (a + b).
Definition u64_saturating_add (a b : N) : N := N.min u64_max (a + b).
Definition u32_saturating_mul (a b : N) : N := N.min u32_max (a * b).
(** [saturating_sub] stops at zero, like subtraction on [N]. *)
Definition saturating_sub (a b : N) : N := a - b.

Definition i64_clamp (z : Z) : Z := Z.max i64_min (Z.min i64_max z).
Definition i64_saturating_add (a b : Z) : Z := i64_clamp (a + b).
Definition i64_saturating_mul (a b : Z) : Z := i64_clamp (a * b).

Definition u32_ok (n : N) : Prop := n ≤ u32_max.
Definition u64_ok (n : N) : Prop := n ≤ u64_max.
Definition i64_ok (z : Z) : Prop := (i64_min ≤ z ≤ i64_max)%Z.

Create HintDb odorobo.

Lemma u32_saturating_add_ok a b : u32_ok (u32_saturating_add a b).
Proof. unfold u32_ok, u32_saturating_add. lia. Qed.
Lemma u64_saturating_add_ok a b : u64_ok (u64_saturating_add a b).
Proof. unfold u64_ok, u64_saturating_add. lia. Qed.
Lemma i64_clamp_ok z : i64_ok (i64_clamp z).
Proof. unfold i64_ok, i64_clamp, i64_min, i64_max. lia. Qed.
#[export] Hint Resolve u32_saturating_add_ok u64_saturating_add_ok i64_clamp_ok : odorobo.

(** A saturating sum below the maximum did not saturate. *)
Lemma u32_saturating_add_le a b m :
  m < u32_max → u32_saturating_add a b ≤ m → a + b ≤ m.
Proof. unfold u32_saturating_add. lia. Qed.
Lemma u64_saturating_add_le a b m :
  m < u64_max → u64_saturating_add a b ≤ m → a + b ≤ m.
Proof. unfold u64_saturating_add. lia. Qed.

(** A left fold of saturating additions is the saturated sum, in any order. *)
Definition sum_N (l : list N) : N := foldr N.add 0 l.

Lemma sum_N_app l k : sum_N (l ++ k) = sum_N l + sum_N k.
Proof. unfold sum_N. induction l as [|x l IH]; cbn in *; lia. Qed.

#[global] Instance sum_N_perm : Proper ((≡ₚ) ==> (=)) sum_N.
Proof. unfold sum_N. induction 1; cbn in *; lia. Qed.

Lemma foldl_saturating (mx : N) l a :
  foldl (λ t x, N.min mx (t + x)) (N.min mx a) l = N.min mx (a + sum_N l).
Proof.
  unfold sum_N. revert a; induction l as [|x l IH]; intros a; cbn; [f_equal; lia|].
  replace (N.min mx (N.min mx a + x)) with (N.min mx (a + x)) by lia.
  rewrite IH. f_equal. lia.
Qed.

(** ** Lists *)

Section filter.
Context {A : Type} (P : A → Prop) `{∀ x, Decision (P x)}.

Lemma filter_none l : Forall (λ x, ¬ P x) l → filter P l = [].
Proof.
  induction 1 as [|x l Hx Hl IH]; [done|]. by rewrite filter_cons_False.
Qed.

Lemma filter_all l : Forall P l → filter P l = l.
Proof.
  induction 1 as [|x l Hx Hl IH]; [done|]. by rewrite filter_cons_True, IH.
Qed.
End filter.

(** The last [n] elements. *)
Definition lastn {A} (n : nat) (l : list A) : list A := drop (length l - n) l.

Lemma lastn_app_ge {A} n (a b : list A) : (n ≤ length b)%nat → lastn n (a ++ b) = lastn n b.
Proof.
  intros Hle. unfold lastn. rewrite length_app, drop_app_ge by lia. f_equal. lia.
Qed.

Lemma lastn_app_lastn {A} n (l k : list A) : lastn n (lastn n l ++ k) = lastn n (l ++ k).
Proof.
  unfold lastn at 2. destruct (decide (length l ≤ n)%nat) as [Hle|Hgt].
  { replace (length l - n)%nat with 0%nat by lia. by rewrite drop_0. }
  rewrite <-(take_drop (length l - n) l) at 3. rewrite <-(assoc_L (++)).
  symmetry. apply lastn_app_ge. rewrite length_app, length_drop. lia.
Qed.

Lemma lastn_le {A} n (l : list A) : (length l ≤ n)%nat → lastn n l = l.
Proof. intros H. unfold lastn. replace (length l - n)%nat with 0%nat by lia. apply drop_0. Qed.

(** ** Identities

    A ULID is a 128-bit integer; an actor identity of the actor runtime is only
    compared and hashed by the program. Both are kept as numbers. *)
Notation Ulid := N (only parsing).
Notation ActorId := N (only parsing).

(** [Instant] in nanoseconds of a monotonic clock; [duration_since] saturates. *)
Notation Instant := N (only parsing).
Definition from_secs (s : N) : N := s * 1000000000.
Definition duration_since (now earlier : Instant) : N := now - earlier.

(** ** Hash-map iteration order

    The order in which a hash map or hash set is traversed is unspecified. It
    is an argument of every definition that depends on it, and the theorems
    hold for all orders. *)
Class IterOrder := {
  iter_map : ∀ {A : Type}, gmap N A → list (N * A);
  iter_set : gset N → list N;
  iter_map_perm : ∀ {A : Type} (m : gmap N A), iter_map m ≡ₚ map_to_list m;
  iter_set_perm : ∀ s : gset N, iter_set s ≡ₚ elements s }.

Definition canonical_order : IterOrder := {|
  iter_map := λ A m, map_to_list m;
  iter_set := elements;
  iter_map_perm := λ A m, reflexivity _;
  iter_set_perm := λ s, reflexivity _ |}.

Section iter_order.
Context `{IterOrder}.

Definition iter_keys {A} (m : gmap N A) : list N := (iter_map m).*1.
Definition iter_values {A} (m : gmap N A) : list A := (iter_map m).*2.

Lemma elem_of_iter_map {A} (m : gmap N A) k x : (k, x) ∈ iter_map m ↔ m !! k = Some x.
Proof. rewrite iter_map_perm. apply elem_of_map_to_list. Qed.

Lemma elem_of_iter_set (s : gset N) k : k ∈ iter_set s ↔ k ∈ s.
Proof. rewrite iter_set_perm. apply elem_of_elements. Qed.

Lemma NoDup_iter_set (s : gset N) : NoDup (iter_set s).
Proof. rewrite iter_set_perm. apply NoDup_elements. Qed.

Lemma NoDup_iter_keys {A} (m : gmap N A) : NoDup (iter_keys m).
Proof. unfold iter_keys. rewrite iter_map_perm. apply NoDup_fst_map_to_list. Qed.

Lemma elem_of_iter_keys {A} (m : gmap N A) k : k ∈ iter_keys m ↔ is_Some (m !! k).
Proof.
  unfold iter_keys. rewrite list_elem_of_fmap. split.
  - intros [[k' x] [-> ?%elem_of_iter_map]]. eauto.
  - intros [x ?]. exists (k, x). by rewrite elem_of_iter_map.
Qed.

Lemma elem_of_iter_values {A} (m : gmap N A) x :
  x ∈ iter_values m ↔ ∃ k, m !! k = Some x.
Proof.
  unfold iter_values. rewrite list_elem_of_fmap. split.
  - intros [[k' y] [-> ?%elem_of_iter_map]]. eauto.
  - intros [k ?]. exists (k, x). by rewrite elem_of_iter_map.
Qed.
End iter_order.
