(* ===== verification/RustString.v ===== *)
(** * Rust strings

    A Rust [String] is modelled as the list of its Unicode scalar values. The
    file holds the operations of [str], [char] and [Path] the program uses:
    trimming, prefixes, splitting, decimal printing and parsing. Operations on
    byte positions are used by the program on ASCII strings only, where a
    scalar value is one byte. *)

From Stdlib Require Import Ascii.
From S2P Require Import Prelude.
Open Scope N_scope.

Notation rstring := (list N) (only parsing).

(** The literal [s] of the source. *)
Definition lit (s : string) : rstring := N_of_ascii <$> String.list_ascii_of_string s.
Arguments lit s%_string : simpl never.

(** ** Characters *)

(** [char::is_whitespace]: the Unicode [White_Space] property. *)
Definition is_whitespace (c : N) : bool :=
  ((9 <=? c) && (c <=? 13)) || (c =? 32) || (c =? 133) || (c =? 160) || (c =? 5760) ||
  ((8192 <=? c) && (c <=? 8202)) || (c =? 8232) || (c =? 8233) || (c =? 8239) ||
  (c =? 8287) || (c =? 12288).

Definition is_ascii_digit (c : N) : bool := (48 <=? c) && (c <=? 57).
Definition is_ascii_uppercase (c : N) : bool := (65 <=? c) && (c <=? 90).
Definition is_ascii_lowercase (c : N) : bool := (97 <=? c) && (c <=? 122).
Definition is_ascii_alphanumeric (c : N) : bool :=
  is_ascii_digit c || is_ascii_uppercase c || is_ascii_lowercase c.
Definition to_ascii_lowercase (c : N) : N := if is_ascii_uppercase c then c + 32 else c.

(** ** Trimming and prefixes *)

Definition is_empty {A} (l : list A) : bool := match l with [] => true | _ => false end.

Fixpoint trim_start_by (p : N → bool) (s : rstring) : rstring :=
  match s with
  | [] => []
  | c :: s' => if p c then trim_start_by p s' else s
  end.
Definition trim_start (s : rstring) : rstring := trim_start_by is_whitespace s.
Definition trim (s : rstring) : rstring := reverse (trim_start (reverse (trim_start s))).

Fixpoint strip_prefix (s pre : rstring) : option rstring :=
  match pre, s with
  | [], _ => Some s
  | p :: pre', c :: s' => if p =? c then strip_prefix s' pre' else None
  | _ :: _, [] => None
  end.
Definition starts_with (s pre : rstring) : bool :=
  match strip_prefix s pre with Some _ => true | None => false end.

(** [Path::is_absolute] on Unix. *)
Definition is_absolute (path : rstring) : bool :=
  match path with c :: _ => c =? 47 | [] => false end.

Lemma is_empty_spec {A} (l : list A) : is_empty l = true ↔ l = [].
Proof. destruct l; cbn; naive_solver. Qed.

Lemma strip_prefix_spec s pre r : strip_prefix s pre = Some r ↔ s = pre ++ r.
Proof.
  revert s; induction pre as [|p pre IH]; intros [|c s]; cbn; try naive_solver.
  destruct (N.eqb_spec p c) as [->|Hne]; [rewrite IH|]; naive_solver.
Qed.

Lemma starts_with_spec s pre : starts_with s pre = true ↔ pre `prefix_of` s.
Proof.
  unfold starts_with, prefix. destruct (strip_prefix s pre) as [r|] eqn:E.
  - apply strip_prefix_spec in E. naive_solver.
  - split; [done|]. intros [r Hr%strip_prefix_spec]. congruence.
Qed.

(** A trimmed string is empty exactly when it holds whitespace only. *)
Lemma trim_start_by_empty p s : trim_start_by p s = [] ↔ Forall (λ c, p c = true) s.
Proof.
  induction s as [|c s IH]; cbn; [by split|]. destruct (p c) eqn:E.
  - rewrite IH, Forall_cons. naive_solver.
  - rewrite Forall_cons. split; [done|]. intros [? _]. congruence.
Qed.

Lemma trim_start_by_suffix p s : ∃ k, s = k ++ trim_start_by p s ∧ Forall (λ c, p c = true) k.
Proof.
  induction s as [|c s IH]; cbn; [by exists []|]. destruct (p c) eqn:E; [|by exists []].
  destruct IH as (k & Hk & HF). exists (c :: k). cbn. rewrite <-Hk. auto.
Qed.

Lemma trim_empty s : is_empty (trim s) = true ↔ Forall (λ c, is_whitespace c = true) s.
Proof.
  rewrite is_empty_spec. unfold trim, trim_start. split.
  - intros H. apply (f_equal reverse) in H. rewrite reverse_involutive in H.
    apply trim_start_by_empty, Forall_reverse in H. rewrite reverse_involutive in H.
    destruct (trim_start_by_suffix is_whitespace s) as (k & Hk & HF).
    rewrite Hk, Forall_app. auto.
  - intros H. apply trim_start_by_empty in H. by rewrite H.
Qed.

(** ** Decimal numbers *)

(** The leading ASCII digits of [s], as digit values, and the rest. *)
Fixpoint span_digits (s : rstring) : list N * rstring :=
  match s with
  | c :: s' =>
      if is_ascii_digit c then let '(ds, r) := span_digits s' in (c - 48 :: ds, r)
      else ([], s)
  | [] => ([], [])
  end.
Definition digits_value (ds : list N) : N := foldl (λ a d, a * 10 + d) 0 ds.

(** [str::parse::<u32>()]: an optional plus sign, digits, no overflow. *)
Definition parse_u32 (s : rstring) : option N :=
  let s := match s with 43 :: s' => s' | _ => s end in
  match span_digits s with
  | ([], _) => None
  | (ds, []) => if digits_value ds <=? u32_max then Some (digits_value ds) else None
  | (_, _ :: _) => None
  end.

(** [Display] of an unsigned integer. *)
Fixpoint show_fuel (fuel : nat) (n : N) (acc : rstring) : rstring :=
  let acc := (48 + n mod 10) :: acc in
  match fuel with
  | O => acc
  | S fuel' => if n <? 10 then acc else show_fuel fuel' (n / 10) acc
  end.
Definition show_N (n : N) : rstring := show_fuel (N.to_nat (N.size n)) n [].

Lemma digits_value_snoc ds d : digits_value (ds ++ [d]) = digits_value ds * 10 + d.
Proof. unfold digits_value. by rewrite foldl_app. Qed.

(** Printing puts the decimal digits of a number in front of [acc]. *)
Lemma show_fuel_spec fuel n acc :
  n < 10 * 2 ^ N.of_nat fuel →
  ∃ ds, show_fuel fuel n acc = ((λ d, 48 + d) <$> ds) ++ acc ∧
        ds ≠ [] ∧ Forall (λ d, d < 10) ds ∧ digits_value ds = n.
Proof.
  revert n acc. induction fuel as [|fuel IH]; intros n acc Hn; cbn [show_fuel].
  - exists [n]. cbn in Hn. assert (n < 10) by lia.
    rewrite N.mod_small by done. split_and!; [done|done|by constructor|cbn; lia].
  - destruct (N.ltb_spec n 10) as [Hlt|Hge].
    + exists [n]. rewrite N.mod_small by done.
      split_and!; [done|done|by constructor|cbn; lia].
    + destruct (IH (n / 10) ((48 + n mod 10) :: acc)) as (ds & -> & Hne & Hlt & Hv).
      { rewrite Nat2N.inj_succ, N.pow_succ_r' in Hn.
        apply N.Div0.div_lt_upper_bound. nia. }
      exists (ds ++ [n mod 10]). rewrite fmap_app, <-(assoc_L (++)). split_and!.
      * done.
      * by destruct ds.
      * apply Forall_app. split; [done|]. constructor; [|done]. apply N.mod_lt. lia.
      * rewrite digits_value_snoc, Hv. pose proof (N.div_mod n 10). lia.
Qed.

Lemma show_N_spec n :
  ∃ ds, show_N n = (λ d, 48 + d) <$> ds ∧ ds ≠ [] ∧ Forall (λ d, d < 10) ds ∧ digits_value ds = n.
Proof.
  destruct (show_fuel_spec (N.to_nat (N.size n)) n []) as (ds & H & ?).
  { rewrite N2Nat.id. pose proof (N.size_gt n). lia. }
  exists ds. unfold show_N. by rewrite H, app_nil_r.
Qed.

Lemma show_N_digits n : Forall (λ c, is_ascii_digit c = true) (show_N n) ∧ show_N n ≠ [].
Proof.
  destruct (show_N_spec n) as (ds & -> & Hne & Hlt & _). split; [|by destruct ds].
  apply Forall_fmap. eapply Forall_impl; [exact Hlt|]. intros d Hd. cbn in *.
  unfold is_ascii_digit. apply andb_true_iff. split; apply N.leb_le; lia.
Qed.

Lemma span_digits_all ds :
  Forall (λ d, d < 10) ds → span_digits ((λ d, 48 + d) <$> ds) = (ds, []).
Proof.
  induction 1 as [|d ds Hd _ IH]; [done|]. cbn [fmap list_fmap span_digits].
  assert (is_ascii_digit (48 + d) = true) as ->.
  { unfold is_ascii_digit. apply andb_true_iff. split; apply N.leb_le; lia. }
  change (span_digits (list_fmap _ _ (λ d, 48 + d) ds)) with (span_digits ((λ d, 48 + d) <$> ds)).
  rewrite IH. f_equal. f_equal. lia.
Qed.

(** Parsing what was printed gives the number back. *)
Lemma parse_show_u32 n : n ≤ u32_max → parse_u32 (show_N n) = Some n.
Proof.
  intros Hn. destruct (show_N_spec n) as (ds & -> & Hne & Hlt & Hv). unfold parse_u32.
  destruct ds as [|d ds]; [done|].
  assert (match (λ d, 48 + d) <$> d :: ds with 43 :: s' => s' | _ => (λ d, 48 + d) <$> d :: ds end
    = (λ d, 48 + d) <$> d :: ds) as ->.
  { cbn. apply Forall_cons in Hlt as [Hd _].
    destruct (48 + d) as [|p] eqn:He; [done|].
    assert (Npos p ≠ 43) as Hp by lia. repeat (destruct p as [p|p|]; try done). }
  rewrite span_digits_all by done. by rewrite Hv, (proj2 (N.leb_le _ _)).
Qed.

(** ** Splitting *)

(** [str::split_once] and [str::rsplit_once] at a string. *)
Fixpoint split_once (s sep : rstring) : option (rstring * rstring) :=
  match strip_prefix s sep with
  | Some rest => Some ([], rest)
  | None =>
      match s with
      | [] => None
      | c :: s' => match split_once s' sep with
                   | Some (a, b) => Some (c :: a, b)
                   | None => None
                   end
      end
  end.
Fixpoint rsplit_once (s sep : rstring) : option (rstring * rstring) :=
  match s with
  | [] => match strip_prefix [] sep with Some rest => Some ([], rest) | None => None end
  | c :: s' =>
      match rsplit_once s' sep with
      | Some (a, b) => Some (c :: a, b)
      | None => match strip_prefix s sep with Some rest => Some ([], rest) | None => None end
      end
  end.

(** [str::split] at a character. *)
Fixpoint split_char (sep : N) (s : rstring) : list rstring :=
  match s with
  | [] => [[]]
  | c :: s =>
      if c =? sep then [] :: split_char sep s
      else match split_char sep s with
           | w :: ws => (c :: w) :: ws
           | [] => [[c]]
           end
  end.

(** [Path::file_name]: the last component, if it names a file. *)
Definition file_name (path : rstring) : option rstring :=
  match last (filter (λ w, w ≠ [] ∧ w ≠ lit ".") (split_char 47 path)) with
  | Some name => if decide (name = lit "..") then None else Some name
  | None => None
  end.

(** [str::split_whitespace]. *)
Fixpoint split_whitespace_acc (word : rstring) (s : rstring) : list rstring :=
  match s with
  | [] => match word with [] => [] | _ => [reverse word] end
  | c :: s =>
      if is_whitespace c
      then match word with
           | [] => split_whitespace_acc [] s
           | _ => reverse word :: split_whitespace_acc [] s
           end
      else split_whitespace_acc (c :: word) s
  end.
Definition split_whitespace (s : rstring) : list rstring := split_whitespace_acc [] s.

(** [str::lines]: lines end in a newline, a preceding carriage return is
    dropped, and a final empty line is not reported. *)
Definition drop_cr (rev_line : rstring) : rstring :=
  match rev_line with 13 :: l => reverse l | l => reverse l end.
Fixpoint lines_acc (line : rstring) (s : rstring) : list rstring :=
  match s with
  | [] => match line with [] => [] | _ => [reverse line] end
  | c :: s => if c =? 10 then drop_cr line :: lines_acc [] s else lines_acc (c :: line) s
  end.
Definition lines (s : rstring) : list rstring := lines_acc [] s.

(** [str::trim_start_matches(c)]. *)
Definition trim_start_matches (c : N) (s : rstring) : rstring := trim_start_by (N.eqb c) s.

(** Splitting at the first occurrence. *)
Lemma split_once_first a b sep :
  sep ≠ [] → (∀ k l, a ++ sep ++ b = k ++ sep ++ l → (length a ≤ length k)%nat) →
  split_once (a ++ sep ++ b) sep = Some (a, b).
Proof.
  intros Hsep. induction a as [|c a IH]; intros Hfirst.
  - cbn [app]. destruct sep as [|x sep]; [done|].
    assert (strip_prefix ((x :: sep) ++ b) (x :: sep) = Some b) as Hs by by apply strip_prefix_spec.
    cbn [app] in *. cbn [split_once]. by rewrite Hs.
  - cbn [app split_once]. destruct (strip_prefix (c :: a ++ sep ++ b) sep) as [r|] eqn:Hr.
    + apply strip_prefix_spec in Hr. specialize (Hfirst [] r Hr). cbn in Hfirst. lia.
    + rewrite IH; [done|]. intros k l Hk. specialize (Hfirst (c :: k) l).
      cbn in Hfirst. rewrite Hk in Hfirst. specialize (Hfirst eq_refl). lia.
Qed.

Lemma rsplit_once_None s sep :
  (∀ k l, s ≠ k ++ sep ++ l) → rsplit_once s sep = None.
Proof.
  induction s as [|c s IH]; intros Hno; cbn [rsplit_once].
  - destruct (strip_prefix [] sep) as [r|] eqn:Hr; [|done].
    apply strip_prefix_spec in Hr. by destruct (Hno [] r).
  - rewrite IH by (intros k l ->; by apply (Hno (c :: k) l)).
    destruct (strip_prefix (c :: s) sep) as [r|] eqn:Hr; [|done].
    apply strip_prefix_spec in Hr. by destruct (Hno [] r).
Qed.

(** Splitting at the last occurrence. *)
Lemma rsplit_once_last a b sep :
  sep ≠ [] → (∀ k l, sep ++ b = k ++ sep ++ l → k = []) →
  rsplit_once (a ++ sep ++ b) sep = Some (a, b).
Proof.
  intros Hsep Hlast. induction a as [|c a IH]; cbn [app rsplit_once]; [|by rewrite IH].
  destruct sep as [|x sep]; [done|]. cbn [app rsplit_once].
  rewrite rsplit_once_None.
  - assert (strip_prefix (x :: sep ++ b) (x :: sep) = Some b) as -> by by apply strip_prefix_spec.
    done.
  - intros k l Hk. specialize (Hlast (x :: k) l). cbn in Hlast. rewrite Hk in Hlast.
    by specialize (Hlast eq_refl).
Qed.

(** Words separated by whitespace. *)
Definition is_word (s : rstring) : Prop := s ≠ [] ∧ Forall (λ c, is_whitespace c = false) s.

Lemma split_whitespace_word w word s :
  Forall (λ c, is_whitespace c = false) w →
  split_whitespace_acc word (w ++ s) = split_whitespace_acc (reverse w ++ word) s.
Proof.
  intros Hw. revert word. induction Hw as [|c w Hc _ IH]; intros word; [done|].
  cbn [app split_whitespace_acc]. rewrite Hc, IH, reverse_cons. by rewrite <-(assoc_L (++)).
Qed.

Lemma split_whitespace_cons w c s :
  is_word w → is_whitespace c = true → split_whitespace (w ++ c :: s) = w :: split_whitespace s.
Proof.
  intros [Hne Hw] Hc. unfold split_whitespace. rewrite split_whitespace_word by done.
  rewrite app_nil_r. cbn. rewrite Hc. destruct (reverse w) as [|x r] eqn:Hr.
  - apply (f_equal reverse) in Hr. rewrite reverse_involutive in Hr. done.
  - rewrite <-Hr, reverse_involutive. done.
Qed.

Lemma split_whitespace_last w : is_word w → split_whitespace w = [w].
Proof.
  intros [Hne Hw]. unfold split_whitespace. rewrite <-(app_nil_r w) at 1.
  rewrite split_whitespace_word by done. rewrite app_nil_r. cbn.
  destruct (reverse w) as [|x r] eqn:Hr.
  - apply (f_equal reverse) in Hr. rewrite reverse_involutive in Hr. done.
  - rewrite <-Hr, reverse_involutive. done.
Qed.

Lemma split_whitespace_blank k s :
  Forall (λ c, is_whitespace c = true) k → split_whitespace (k ++ s) = split_whitespace s.
Proof. induction 1 as [|c k Hc _ IH]; [done|]. unfold split_whitespace in *. cbn. by rewrite Hc. Qed.

(** Words laid out on a line: runs of whitespace of any length between them, and
    any whitespace before the first and after the last. *)
Inductive laid_out : list rstring → rstring → Prop :=
| lo_blank k : Forall (λ c, is_whitespace c = true) k → laid_out [] k
| lo_last k w : Forall (λ c, is_whitespace c = true) k → is_word w → laid_out [w] (k ++ w)
| lo_cons k w c ws s :
    Forall (λ c, is_whitespace c = true) k → is_word w → is_whitespace c = true →
    laid_out ws s → laid_out (w :: ws) (k ++ w ++ c :: s).

Lemma split_whitespace_laid_out ws s : laid_out ws s → split_whitespace s = ws.
Proof.
  induction 1 as [k Hk|k w Hk Hw|k w c ws s Hk Hw Hc _ IH].
  - rewrite <-(app_nil_r k). by rewrite split_whitespace_blank.
  - rewrite split_whitespace_blank by done. by apply split_whitespace_last.
  - rewrite split_whitespace_blank by done. by rewrite split_whitespace_cons, IH.
Qed.

(** The last component of a path. *)
Lemma split_char_not_nil sep s : split_char sep s ≠ [].
Proof. destruct s as [|c s]; cbn; [done|]. destruct (c =? sep); [done|]. by destruct (split_char sep s). Qed.

Lemma split_char_none sep s : sep ∉ s → split_char sep s = [s].
Proof.
  induction s as [|c s IH]; intros Hs; [done|]. cbn.
  destruct (N.eqb_spec c sep) as [->|]; [set_solver|]. by rewrite IH by set_solver.
Qed.

Lemma split_char_app sep a b : split_char sep (a ++ sep :: b) = split_char sep a ++ split_char sep b.
Proof.
  induction a as [|c a IH]; cbn; [by rewrite N.eqb_refl|].
  destruct (c =? sep); [by rewrite IH|]. rewrite IH.
  pose proof (split_char_not_nil sep a). by destruct (split_char sep a).
Qed.

Lemma file_name_last dir name :
  47 ∉ name → name ≠ [] → name ≠ lit "." → name ≠ lit ".." →
  file_name (dir ++ 47 :: name) = Some name.
Proof.
  intros Hs Hne Hdot Hdots. unfold file_name.
  rewrite split_char_app, (split_char_none 47 name) by done.
  rewrite filter_app, filter_cons, decide_True, filter_nil by done.
  by rewrite last_snoc, decide_False.
Qed.
