(* ===== verification/RustFloat.v ===== *)
(** * Rust floating point

    IEEE 754 [f32] and [f64] as the program uses them, on the Standard
    Library's executable [SpecFloat]: conversion of integers with [as f32],
    addition, division, the partial order, and [str::parse::<f64>()] with
    correct rounding. The lemmas show that headroom ratios are never NaN and
    that the comparison of non-NaN floats is a total preorder. *)

From Stdlib Require Export SpecFloat.
From S2P Require Import Prelude RustString.
Open Scope N_scope.

(** ** Formats *)

Notation f32_prec := 24%Z (only parsing).
Notation f32_emax := 128%Z (only parsing).
Notation f64_prec := 53%Z (only parsing).
Notation f64_emax := 1024%Z (only parsing).

Definition f32_of_N (n : N) : spec_float := binary_normalize f32_prec f32_emax (Z.of_N n) 0 false.
Definition f32_add : spec_float → spec_float → spec_float := SFadd f32_prec f32_emax.
Definition f32_div : spec_float → spec_float → spec_float := SFdiv f32_prec f32_emax.
Definition f32_zero : spec_float := S754_zero false.
Definition f32_neg_infinity : spec_float := S754_infinity true.

(** [partial_cmp] of floats: [None] when an operand is NaN. *)
Definition float_partial_cmp : spec_float → spec_float → option comparison := SFcompare.
Definition float_lt (x y : spec_float) : bool := SFltb x y.
Definition float_gt (x y : spec_float) : bool := SFltb y x.

Definition is_nan (x : spec_float) : bool := match x with S754_nan => true | _ => false end.
Definition is_finite (x : spec_float) : bool :=
  match x with S754_nan | S754_infinity _ => false | _ => true end.

(** ** Parsing

    [Number ::= (Digit+ | Digit+ '.' Digit* | Digit* '.' Digit+) Exp?], or a
    case-insensitive [inf], [infinity] or [nan], with an optional sign. *)

(** The double nearest to [(-1)^neg * m * 10^e], ties to even. A quotient is
    computed to at least 64 bits with a sticky bit, so that one rounding is
    enough. Exponents far outside the range give infinity or zero at once. *)
Definition f64_of_decimal (neg : bool) (m : N) (e : Z) : spec_float :=
  match m with
  | 0 => S754_zero neg
  | Npos p =>
      if (400 <? e)%Z then S754_infinity neg
      else if (e + Z.log2 (Zpos p) <? -1500)%Z then S754_zero neg
      else if (0 <=? e)%Z then
        binary_round f64_prec f64_emax neg (Z.to_pos (Zpos p * 10 ^ e)) 0
      else
        let d := (10 ^ (- e))%Z in
        let k := Z.max 0 (66 + Z.log2 d - Z.log2 (Zpos p))%Z in
        let '(q, r) := Z.div_eucl (Z.shiftl (Zpos p) k) d in
        let sticky := if (r =? 0)%Z then 0%Z else 1%Z in
        binary_round f64_prec f64_emax neg (Z.to_pos (2 * q + sticky)) (- (k + 1))
  end.

Definition split_sign (s : rstring) : bool * rstring :=
  match s with 45 :: s' => (true, s') | 43 :: s' => (false, s') | _ => (false, s) end.

(** The exponent part: nothing, or [e] with an optional sign and digits. *)
Definition parse_exponent (s : rstring) : option Z :=
  match s with
  | [] => Some 0%Z
  | c :: s' =>
      if (c =? 101) || (c =? 69) then
        let '(neg, s'') := split_sign s' in
        match span_digits s'' with
        | ((_ :: _) as ds, []) =>
            Some (if neg then - Z.of_N (digits_value ds) else Z.of_N (digits_value ds))%Z
        | _ => None
        end
      else None
  end.

Definition parse_f64 (s : rstring) : option spec_float :=
  let '(neg, s) := split_sign s in
  let lower := to_ascii_lowercase <$> s in
  if bool_decide (lower = lit "inf") || bool_decide (lower = lit "infinity") then
    Some (S754_infinity neg)
  else if bool_decide (lower = lit "nan") then Some S754_nan
  else
    let '(int_part, r) := span_digits s in
    let '(frac_part, r) := match r with 46 :: r' => span_digits r' | _ => ([], r) end in
    match int_part ++ frac_part with
    | [] => None
    | ds => e ← parse_exponent r;
            Some (f64_of_decimal neg (digits_value ds) (e - Z.of_nat (length frac_part)))
    end.

(** ** The order of non-NaN floats

    A float is ranked by a triple compared lexicographically. *)

Definition float_key (x : spec_float) : Z * Z * Z :=
  match x with
  | S754_infinity true => (-2, 0, 0)
  | S754_finite true m e => (-1, - e, - Zpos m)
  | S754_zero _ | S754_nan => (0, 0, 0)
  | S754_finite false m e => (1, e, Zpos m)
  | S754_infinity false => (2, 0, 0)
  end%Z.

Definition lex3 (x y : Z * Z * Z) : comparison :=
  let '(a, b, c) := x in
  let '(a', b', c') := y in
  match (a ?= a')%Z with
  | Eq => match (b ?= b')%Z with Eq => (c ?= c')%Z | r => r end
  | r => r
  end.

Lemma float_partial_cmp_key x y :
  is_nan x = false → is_nan y = false →
  float_partial_cmp x y = Some (lex3 (float_key x) (float_key y)).
Proof.
  intros Hx Hy. destruct x as [[]|[]| |[] mx ex], y as [[]|[]| |[] my ey]; try done; cbn.
  replace (- ex ?= - ey)%Z with (CompOpp (ex ?= ey))%Z
    by (rewrite <-Z.compare_antisym; symmetry; apply Z.compare_opp).
  by destruct (ex ?= ey)%Z.
Qed.

Lemma lex3_le a b c a' b' c' :
  lex3 (a, b, c) (a', b', c') ≠ Gt ↔
  (a < a' ∨ a = a' ∧ (b < b' ∨ b = b' ∧ c ≤ c'))%Z.
Proof.
  cbn. destruct (Z.compare_spec a a'), (Z.compare_spec b b'), (Z.compare_spec c c');
    split; intros; try done; lia.
Qed.

Lemma lex3_trans x y z : lex3 x y ≠ Gt → lex3 y z ≠ Gt → lex3 x z ≠ Gt.
Proof. destruct x as [[??]?], y as [[??]?], z as [[??]?]. rewrite !lex3_le. lia. Qed.

Lemma lex3_antisym x y : lex3 y x = CompOpp (lex3 x y).
Proof.
  destruct x as [[a b] c], y as [[a' b'] c']; cbn.
  rewrite (Z.compare_antisym a a'), (Z.compare_antisym b b'), (Z.compare_antisym c c').
  by destruct (a ?= a')%Z, (b ?= b')%Z, (c ?= c')%Z.
Qed.

Lemma lex3_refl x : lex3 x x = Eq.
Proof. destruct x as [[a b] c]; cbn. by rewrite !Z.compare_refl. Qed.

Lemma lex3_gt_trans x y z : lex3 x y = Gt → lex3 y z = Gt → lex3 x z = Gt.
Proof.
  destruct x as [[a b] c], y as [[a' b'] c'], z as [[a'' b''] c'']; cbn.
  destruct (Z.compare_spec a a'), (Z.compare_spec b b'), (Z.compare_spec c c'),
    (Z.compare_spec a' a''), (Z.compare_spec b' b''), (Z.compare_spec c' c''),
    (Z.compare_spec a a''), (Z.compare_spec b b''), (Z.compare_spec c c'');
    intros; try done; lia.
Qed.

Lemma float_partial_cmp_nan x y c :
  float_partial_cmp x y = Some c → is_nan x = false ∧ is_nan y = false.
Proof. by destruct x as [[]|[]| |[] ??], y as [[]|[]| |[] ??]. Qed.

(** Being strictly greater is transitive and irreflexive, NaN included. *)
Lemma float_gt_trans x y z :
  float_partial_cmp x y = Some Gt → float_partial_cmp y z = Some Gt →
  float_partial_cmp x z = Some Gt.
Proof.
  intros Hxy Hyz. destruct (float_partial_cmp_nan _ _ _ Hxy), (float_partial_cmp_nan _ _ _ Hyz).
  rewrite float_partial_cmp_key in * by done. f_equal. simplify_eq.
  by eapply lex3_gt_trans.
Qed.

Lemma float_gt_irrefl x : float_partial_cmp x x ≠ Some Gt.
Proof.
  destruct (is_nan x) eqn:Hx; [by destruct x|]. by rewrite float_partial_cmp_key, lex3_refl by done.
Qed.

(** ** Rounding keeps nonnegative values nonnegative *)

(** Zero, a positive finite number or positive infinity. *)
Definition is_nonneg (x : spec_float) : bool :=
  match x with S754_zero _ | S754_infinity false | S754_finite false _ _ => true | _ => false end.

Lemma is_nonneg_not_nan x : is_nonneg x = true → is_nan x = false.
Proof. by destruct x as [| | |]. Qed.

Lemma shr_1_shr_m mrs : (0 ≤ shr_m mrs)%Z → shr_m (shr_1 mrs) = Z.shiftr (shr_m mrs) 1.
Proof. destruct mrs as [[|[]|] r s]; done. Qed.

Lemma iter_shr_1_shr_m p mrs :
  (0 ≤ shr_m mrs)%Z → shr_m (SpecFloat.iter_pos shr_1 p mrs) = Z.shiftr (shr_m mrs) (Zpos p).
Proof.
  revert mrs; induction p as [p IH|p IH|]; intros mrs Hm; cbn [SpecFloat.iter_pos].
  - rewrite !IH, shr_1_shr_m, !Z.shiftr_shiftr; rewrite ?shr_1_shr_m by done;
      rewrite ?IH; rewrite ?shr_1_shr_m by done; rewrite ?Z.shiftr_nonneg; try lia.
    f_equal. lia.
  - rewrite !IH, Z.shiftr_shiftr; rewrite ?IH; rewrite ?Z.shiftr_nonneg; try lia. f_equal. lia.
  - by apply shr_1_shr_m.
Qed.

Lemma shr_record_of_loc_m m l : shr_m (shr_record_of_loc m l) = m.
Proof. by destruct l as [|[]]. Qed.

(** The mantissa after [shr] is the mantissa shifted right. *)
Lemma shr_spec mrs e n :
  (0 ≤ shr_m mrs)%Z →
  shr_m (shr mrs e n).1 = Z.shiftr (shr_m mrs) (Z.max 0 n) ∧ (shr mrs e n).2 = (e + Z.max 0 n)%Z.
Proof.
  intros Hm. destruct n as [|p|p]; cbn [shr fst snd].
  - rewrite Z.shiftr_0_r. split; [done|lia].
  - rewrite iter_shr_1_shr_m by done. split; [f_equal; lia|lia].
  - rewrite Z.max_l, Z.shiftr_0_r by lia. split; [done|lia].
Qed.

Lemma round_nearest_even_bounds m l :
  (0 ≤ m)%Z → (m ≤ round_nearest_even m l ≤ m + 1)%Z.
Proof. destruct l as [|[]]; cbn; try lia. destruct (Z.even m); lia. Qed.

Lemma shr_fexp_nonneg prec emax m e l r e' :
  (0 ≤ m)%Z → shr_fexp prec emax m e l = (r, e') → (0 ≤ shr_m r)%Z.
Proof.
  intros Hm H. unfold shr_fexp in H.
  edestruct (shr_spec (shr_record_of_loc m l)) as [Hr _]; [by rewrite shr_record_of_loc_m|].
  rewrite H, shr_record_of_loc_m in Hr. cbn in Hr. rewrite Hr. by apply Z.shiftr_nonneg.
Qed.

Lemma binary_round_aux_nonneg prec emax mx ex lx :
  (0 ≤ mx)%Z → is_nonneg (binary_round_aux prec emax false mx ex lx) = true.
Proof.
  intros Hm. unfold binary_round_aux.
  destruct (shr_fexp _ _ mx ex lx) as [r1 e1] eqn:E1. apply shr_fexp_nonneg in E1; [|done].
  pose proof (round_nearest_even_bounds (shr_m r1) (loc_of_shr_record r1) E1).
  destruct (shr_fexp _ _ (round_nearest_even _ _) e1 _) as [r2 e2] eqn:E2.
  apply shr_fexp_nonneg in E2; [|lia].
  destruct (shr_m r2); [done| |lia]. by destruct (_ <=? _)%Z.
Qed.

Lemma digits2_log2 p : Zpos (digits2_pos p) = (Z.log2 (Zpos p) + 1)%Z.
Proof.
  induction p as [p IH|p IH|]; cbn [digits2_pos]; [| |done].
  - rewrite Pos2Z.inj_succ, IH, Pos2Z.inj_xI, Z.log2_succ_double by lia. lia.
  - rewrite Pos2Z.inj_succ, IH, Pos2Z.inj_xO, Z.log2_double by lia. lia.
Qed.

Lemma shiftr_log2_pos m s : (0 < m)%Z → (0 ≤ s ≤ Z.log2 m)%Z → (0 < Z.shiftr m s)%Z.
Proof.
  intros Hm Hs. rewrite Z.shiftr_div_pow2 by lia. apply Z.div_str_pos.
  destruct (Z.log2_spec m Hm) as [Hl _]. split; [apply Z.pow_pos_nonneg; lia|].
  etrans; [|exact Hl]. apply Z.pow_le_mono_r; lia.
Qed.

(** One [shr_fexp] of a positive [f32] mantissa in the normal range. *)
Lemma f32_shr_fexp m e l r e' :
  (0 < m)%Z → (-125 ≤ Z.log2 m + e)%Z →
  shr_fexp f32_prec f32_emax m e l = (r, e') →
  (0 < shr_m r)%Z ∧ e' = Z.max e (Z.log2 m + e - 23) ∧ (Z.log2 (shr_m r) + e' = Z.log2 m + e)%Z.
Proof.
  intros Hm Hn H. unfold shr_fexp in H.
  assert (Zdigits2 m = Z.log2 m + 1)%Z as Hd by (destruct m; [lia|apply digits2_log2|lia]).
  rewrite Hd in H. change (fexp f32_prec f32_emax) with (λ e, Z.max (e - 24) (-149))%Z in H.
  cbv beta in H. pose proof (Z.log2_nonneg m) as Hl.
  match type of H with shr _ _ ?n = _ => assert (n = Z.log2 m - 23)%Z as Hs by lia end.
  rewrite Hs in H.
  edestruct (shr_spec (shr_record_of_loc m l) e (Z.log2 m - 23)) as [H1 H2];
    [rewrite shr_record_of_loc_m; lia|]. rewrite H in H1, H2. cbn in H1, H2.
  rewrite shr_record_of_loc_m in H1. subst e'. rewrite H1. split.
  - apply shiftr_log2_pos; lia.
  - split; [lia|]. rewrite Z.log2_shiftr by lia. lia.
Qed.

Lemma f32_round_finite m e :
  (0 < m)%Z → (e ≤ 64)%Z → (0 ≤ Z.log2 m + e ≤ 64)%Z →
  ∃ p e', binary_round_aux f32_prec f32_emax false m e loc_Exact = S754_finite false p e'.
Proof.
  intros Hm He Hn. unfold binary_round_aux.
  destruct (shr_fexp f32_prec f32_emax m e loc_Exact) as [r1 e1] eqn:E1.
  apply f32_shr_fexp in E1 as (Hr1 & He1 & Hn1); [|lia..].
  pose proof (round_nearest_even_bounds (shr_m r1) (loc_of_shr_record r1) ltac:(lia)) as Hb.
  set (m1 := round_nearest_even _ _) in *.
  pose proof (Z.log2_le_mono _ _ (proj1 Hb)) as Hlo.
  pose proof (Z.log2_le_mono _ _ (proj2 Hb)) as Hhi.
  pose proof (Z.log2_succ_le (shr_m r1)) as Hs. rewrite <-Z.add_1_r in Hs.
  destruct (shr_fexp f32_prec f32_emax m1 e1 loc_Exact) as [r2 e2] eqn:E2.
  apply f32_shr_fexp in E2 as (Hr2 & He2 & Hn2); [|lia..].
  destruct (shr_m r2) as [|p|p]; [lia| |lia].
  exists p, e2. replace (e2 <=? f32_emax - f32_prec)%Z with true; [done|].
  symmetry. apply Z.leb_le. lia.
Qed.

Lemma pos_iter_xO p d : Zpos (Pos.iter xO p d) = (Zpos p * 2 ^ Zpos d)%Z.
Proof.
  induction d using Pos.peano_ind; [cbn; lia|].
  rewrite Pos.iter_succ, Pos2Z.inj_xO, IHd, Pos2Z.inj_succ, Z.pow_succ_r; lia.
Qed.

(** [n as f32] is a positive finite float for every positive [u64]. *)
Lemma f32_of_N_finite n : 0 < n → n ≤ u64_max → ∃ m e, f32_of_N n = S754_finite false m e.
Proof.
  intros Hp Hn. destruct n as [|p]; [lia|]. unfold f32_of_N, binary_normalize. cbn [Z.of_N].
  unfold binary_round, shl_align.
  change (fexp f32_prec f32_emax) with (λ e, Z.max (e - 24) (-149))%Z. cbv beta.
  rewrite digits2_log2. pose proof (Z.log2_nonneg (Zpos p)) as Hl.
  assert (Z.log2 (Zpos p) ≤ 63)%Z as Hu.
  { transitivity (Z.log2 (Z.of_N u64_max)); [apply Z.log2_le_mono; lia|done]. }
  destruct (Z.max _ _ - 0)%Z as [|d|d] eqn:E; try (apply f32_round_finite; lia).
  apply f32_round_finite; try lia.
  rewrite pos_iter_xO, Z.log2_mul_pow2 by lia. lia.
Qed.

(** [0 as f32] is zero. *)
Lemma f32_of_N_0 : f32_of_N 0 = f32_zero.
Proof. done. Qed.

(** A ratio of a [u64] to a positive [u64] is not NaN and not negative. *)
Lemma f32_ratio_nonneg a b :
  a ≤ u64_max → 0 < b → b ≤ u64_max → is_nonneg (f32_div (f32_of_N a) (f32_of_N b)) = true.
Proof.
  intros Ha Hb Hb'. destruct (f32_of_N_finite b) as (mb & eb & ->); [done..|].
  destruct (decide (a = 0)) as [->|Hz]; [done|].
  destruct (f32_of_N_finite a) as (ma & ea & ->); [lia|done|].
  unfold f32_div, SFdiv. destruct (SFdiv_core_binary _ _ _ _ _ _) as [[mz ez] lz] eqn:E.
  apply binary_round_aux_nonneg. unfold SFdiv_core_binary in E.
  match type of E with context [Z.div_eucl ?x ?y] =>
    pose proof (Z_div_mod x y ltac:(lia)) as Hq; destruct (Z.div_eucl x y) as [q r];
    assert (0 ≤ x)%Z end.
  { destruct (_ - _ - _)%Z; [lia| |lia]. apply Z.shiftl_nonneg. lia. }
  simplify_eq. nia.
Qed.

Lemma f32_add_nonneg x y :
  is_nonneg x = true → is_nonneg y = true → is_nonneg (f32_add x y) = true.
Proof.
  destruct x as [sx|[]| |[] mx ex], y as [sy|[]| |[] my ey]; try done; intros _ _.
  - by destruct sx, sy.
  - unfold f32_add, SFadd. cbn [cond_Zopp]. rewrite <-Pos2Z.inj_add. unfold binary_normalize,
      binary_round. destruct (shl_align _ _ _). by apply binary_round_aux_nonneg.
Qed.
