(* ===== verification/SortedVec.v ===== *)
(** * Sorted vectors

    The slice operations of the Rust standard library that keep an agent's VM
    list sorted: [binary_search] (the loop of [core::slice]), [Vec::insert],
    [Vec::remove] and [sort_unstable], with their contracts on strictly
    sorted vectors. *)

From S2P Require Import Prelude.
Open Scope nat_scope.

Notation sorted_strict := (StronglySorted N.lt).

(** ** Operations *)

(** The [while size > 1] loop of [binary_search_by]. *)
Fixpoint binary_search_loop (fuel : nat) (l : list N) (x : N) (base size : nat) : nat :=
  match fuel with
  | O => base
  | S fuel' =>
      if 1 <? size then
        let half := size / 2 in
        let mid := base + half in
        let base' := match l !! mid with
                     | Some y => if (x <? y)%N then base else mid
                     | None => base
                     end in
        binary_search_loop fuel' l x base' (size - half)
      else base
  end.

(** [slice::binary_search]: [Ok] the index of [x], or [Err] the index where
    [x] can be inserted. *)
Definition binary_search (l : list N) (x : N) : result nat nat :=
  if length l =? 0 then Err 0
  else
    let base := binary_search_loop (length l) l x 0 (length l) in
    match l !! base with
    | Some y => if (y =? x)%N then Ok base else Err (base + if (y <? x)%N then 1 else 0)
    | None => Err base
    end.

(** [Vec::insert] at an index within bounds. *)
Definition vec_insert {A} (i : nat) (x : A) (l : list A) : list A := take i l ++ x :: drop i l.
(** [Vec::remove] at an index within bounds. *)
Definition vec_remove {A} (i : nat) (l : list A) : list A := delete i l.
(** [sort_unstable] of integers: stability is not observable. *)
Definition sort_unstable (l : list N) : list N := merge_sort N.le l.

(** ** Sorted lists are determined by their elements *)

Lemma sorted_strict_NoDup l : sorted_strict l → NoDup l.
Proof.
  induction 1 as [|x l Hs IH HF]; constructor; [|done].
  intros Hin. rewrite Forall_forall in HF. specialize (HF x Hin). lia.
Qed.

Lemma sorted_strict_ext l k :
  sorted_strict l → sorted_strict k → (∀ x, x ∈ l ↔ x ∈ k) → l = k.
Proof.
  intros Hl Hk Hext. apply (StronglySorted_unique_strong N.lt); [|done..|].
  - intros x y _ _ ? ?. lia.
  - apply NoDup_Permutation; auto using sorted_strict_NoDup.
Qed.

Lemma sorted_strict_lookup l i j x y :
  sorted_strict l → i < j → l !! i = Some x → l !! j = Some y → (x < y)%N.
Proof.
  intros Hs. revert i j; induction Hs as [|z l Hs IH HF]; intros i j Hij Hi Hj; [done|].
  destruct j as [|j]; [lia|]. destruct i as [|i]; cbn in *.
  - simplify_eq. rewrite Forall_forall in HF. apply HF, list_elem_of_lookup. eauto.
  - apply (IH i j); [lia|done..].
Qed.

Lemma sort_unstable_elem_of l x : x ∈ sort_unstable l ↔ x ∈ l.
Proof. unfold sort_unstable. by rewrite merge_sort_Permutation. Qed.

Lemma sort_unstable_sorted l : NoDup l → sorted_strict (sort_unstable l).
Proof.
  intros Hnd. unfold sort_unstable.
  assert (NoDup (merge_sort N.le l)) as Hnd' by by rewrite merge_sort_Permutation.
  assert (StronglySorted N.le (merge_sort N.le l)) as Hs.
  { apply StronglySorted_merge_sort; [intros ???; lia|intros ??; lia]. }
  induction Hs as [|x k Hs IH HF]; constructor; apply NoDup_cons in Hnd' as [Hni ?]; [by apply IH|].
  rewrite Forall_forall in *. intros y Hy. specialize (HF y Hy).
  assert (x ≠ y) by by intros ->. lia.
Qed.

(** ** Binary search *)

(** What the loop maintains: [x] is not before [base] unless [base] is 0, and
    everything from [base + size] on is larger. *)
Definition search_window (l : list N) (x : N) (base size : nat) : Prop :=
  0 < size ∧ base + size ≤ length l ∧
  (base = 0 ∨ ∃ y, l !! base = Some y ∧ (y ≤ x)%N) ∧
  (∀ j y, base + size ≤ j → l !! j = Some y → (x < y)%N).

Lemma binary_search_loop_spec fuel l x base size :
  sorted_strict l → size ≤ S fuel → search_window l x base size →
  search_window l x (binary_search_loop fuel l x base size) 1.
Proof.
  intros Hs. revert base size; induction fuel as [|fuel IH]; intros base size Hf (Hp & Hb & Hlo & Hhi).
  { assert (size = 1) as -> by lia. done. }
  cbn [binary_search_loop]. destruct (Nat.ltb_spec 1 size) as [H1|H1].
  2: { assert (size = 1) as -> by lia. done. }
  assert (0 < size / 2 < size) as Hh.
  { split; [apply Nat.div_str_pos|apply Nat.div_lt]; lia. }
  apply IH; [lia|].
  destruct (lookup_lt_is_Some_2 l (base + size / 2)) as [y Hy]; [lia|]. rewrite Hy.
  destruct (N.ltb_spec x y) as [Hxy|Hxy].
  - split_and!; [lia|lia|done|]. intros j z Hj Hz.
    pose proof (Nat.Div0.mul_div_le size 2) as Hh2.
    destruct (decide (j = base + size / 2)) as [->|Hne]; [naive_solver|].
    assert (base + size / 2 < j) as Hlt by lia.
    pose proof (sorted_strict_lookup _ _ _ _ _ Hs Hlt Hy Hz). lia.
  - split_and!; [lia|lia|right; eauto|]. intros j z Hj Hz. apply (Hhi j z); [lia|done].
Qed.

(** The documented contract of [binary_search] on a strictly sorted slice. *)
Lemma binary_search_spec l x :
  sorted_strict l →
  match binary_search l x with
  | Ok i => l !! i = Some x
  | Err i => i ≤ length l ∧ (∀ j y, j < i → l !! j = Some y → (y < x)%N)
             ∧ (∀ j y, i ≤ j → l !! j = Some y → (x < y)%N)
  end.
Proof.
  intros Hs. unfold binary_search. destruct (Nat.eqb_spec (length l) 0) as [Hz|Hz].
  { apply length_zero_iff_nil in Hz as ->. split_and!; [lia|lia|done]. }
  destruct (binary_search_loop_spec (length l) l x 0 (length l)) as (_ & Hb & Hlo & Hhi);
    [done|lia| |].
  { split_and!; [lia|lia|by left|]. intros j y Hj Hy%lookup_lt_Some. lia. }
  set (b := binary_search_loop _ _ _ _ _) in *.
  destruct (lookup_lt_is_Some_2 l b) as [y Hy]; [lia|]. rewrite Hy.
  destruct (N.eqb_spec y x) as [->|Hyx]; [done|].
  destruct (N.ltb_spec y x) as [Hlt|Hlt].
  - split_and!; [lia| |intros j z Hj Hz'; apply (Hhi j z); [lia|done]].
    intros j z Hj Hz'. destruct (decide (j = b)) as [->|Hjb]; [naive_solver|].
    assert (j < b) as Hjb' by lia.
    pose proof (sorted_strict_lookup _ _ _ _ _ Hs Hjb' Hz' Hy). lia.
  - assert (b = 0) as Hb0.
    { destruct Hlo as [->|(y' & Hy' & ?)]; [done|]. simplify_eq. lia. }
    split_and!; [lia|lia|]. intros j z Hj Hz'.
    destruct (decide (j = b)) as [->|Hjb]; [simplify_eq; lia|].
    apply (Hhi j z); [lia|done].
Qed.

Lemma binary_search_ok l x i :
  sorted_strict l → binary_search l x = Ok i → l !! i = Some x.
Proof. intros Hs H. pose proof (binary_search_spec l x Hs) as Hx. by rewrite H in Hx. Qed.

Lemma binary_search_err l x i : sorted_strict l → binary_search l x = Err i → x ∉ l.
Proof.
  intros Hs H. pose proof (binary_search_spec l x Hs) as Hx. rewrite H in Hx.
  destruct Hx as (_ & Hlo & Hhi). intros [j Hj]%list_elem_of_lookup.
  destruct (decide (j < i)) as [Hlt|Hge].
  - specialize (Hlo j x Hlt Hj). lia.
  - specialize (Hhi j x ltac:(lia) Hj). lia.
Qed.

(** ** Sorted insertion and removal *)

Definition sorted_insert (x : N) (l : list N) : list N :=
  match binary_search l x with Ok _ => l | Err i => vec_insert i x l end.
Definition sorted_remove (x : N) (l : list N) : list N :=
  match binary_search l x with Ok i => vec_remove i l | Err _ => l end.

Lemma sorted_insert_elem_of x y l :
  sorted_strict l → y ∈ sorted_insert x l ↔ y = x ∨ y ∈ l.
Proof.
  intros Hs. unfold sorted_insert. destruct (binary_search l x) as [i|i] eqn:E.
  - apply binary_search_ok in E; [|done]. apply list_elem_of_lookup_2 in E. naive_solver.
  - unfold vec_insert. rewrite <-(take_drop i l) at 3. set_solver.
Qed.

Lemma sorted_insert_sorted x l : sorted_strict l → sorted_strict (sorted_insert x l).
Proof.
  intros Hs. unfold sorted_insert. pose proof (binary_search_spec l x Hs) as Hx.
  destruct (binary_search l x) as [i|i]; [done|]. destruct Hx as (Hi & Hlo & Hhi).
  unfold vec_insert. rewrite <-(take_drop i l) in Hs.
  apply StronglySorted_app in Hs as (Hc & Ht & Hd).
  assert (∀ y, y ∈ take i l → (y < x)%N) as Hlt.
  { intros y [j Hj]%list_elem_of_lookup. apply lookup_take_Some in Hj as [Hj ?].
    by apply (Hlo j). }
  assert (∀ y, y ∈ drop i l → (x < y)%N) as Hgt.
  { intros y [j Hj]%list_elem_of_lookup. rewrite lookup_drop in Hj.
    apply (Hhi (i + j)); [lia|done]. }
  apply StronglySorted_app. split_and!; [|done|].
  - intros y z Hy [->|Hz]%elem_of_cons; [by apply Hlt|by apply Hc].
  - constructor; [done|]. apply Forall_forall, Hgt.
Qed.

Lemma sorted_remove_spec x l :
  sorted_strict l →
  sorted_strict (sorted_remove x l) ∧ ∀ y, y ∈ sorted_remove x l ↔ y ∈ l ∧ y ≠ x.
Proof.
  intros Hs. unfold sorted_remove. destruct (binary_search l x) as [i|i] eqn:E.
  2: { apply binary_search_err in E; [|done]. split; [done|]. intros y. split; [|tauto].
       intros Hy. split; [done|]. by intros ->. }
  apply binary_search_ok in E; [|done]. unfold vec_remove. rewrite delete_take_drop.
  pose proof (sorted_strict_NoDup _ Hs) as Hnd.
  rewrite <-(take_drop_middle l i x E) in Hs, Hnd.
  apply NoDup_app in Hnd as (_ & Hni & (Hnx & _)%NoDup_cons).
  apply StronglySorted_app in Hs as (Hc & Ht & (HF & Hd)%StronglySorted_cons). split.
  - apply StronglySorted_app. split_and!; [|done..]. intros y z Hy Hz. apply Hc; [done|by right].
  - intros y. rewrite <-(take_drop_middle l i x E) at 3. set_solver.
Qed.
