(* ===== verification/Manifest.v ===== *)
(** * The VM manifest

    The provider-neutral intent of [odorobo/src/manifest.rs]: its data types,
    [VmManifest::validate] with every error branch in the order of the source,
    and the declarative contract [manifest_wf] the validation decides. *)

From S2P Require Import Prelude RustString RustFloat.
Open Scope N_scope.

Definition MANIFEST_VERSION : N := 1.

Inductive ManifestError :=
| UnsupportedVersion (v : N)
| EmptyMetadataName
| NoVcpus
| MaxVcpusLessThanBoot (vcpus max : N)
| NoMemory
| EmptyStorageId
| InvalidStorageSource (id : rstring)
| DuplicateStorageId (id : rstring)
| NetworkWithoutId (index : nat)
| IncompleteCloudInit
| EmptyCloudInitData
| InvalidVsockCid
| InvalidVsockSocket
| InvalidAffinityComparison (key : rstring).

(** ** Data *)

Record Metadata := {
  metadata_name : rstring;
  metadata_labels : gmap rstring rstring;
  metadata_annotations : gmap rstring rstring }.

Record Compute := {
  compute_vcpus : N;
  compute_max_vcpus : option N;
  compute_memory_bytes : N }.

Record Storage := {
  storage_id : rstring;
  storage_uri : option rstring;
  storage_volume_id : option Ulid;
  storage_read_only : bool }.

Record Network := {
  network_id : rstring;
  network_mac_address : option rstring }.

Inductive AffinityStrictness := Required | Preferred (weight : Z).
Inductive AffinityType := VirtualMachine | Agent.
Inductive MetadataTable := Label | Annotation.
Inductive Operator := OpIn | OpNotIn | OpLt | OpGt.

Record AffinityRequirement := {
  requirement_key : rstring;
  requirement_table : MetadataTable;
  requirement_operator : Operator;
  requirement_values : list rstring }.

Record AffinityRule := {
  rule_strictness : AffinityStrictness;
  rule_affinity_type : AffinityType;
  rule_inverse : bool;
  rule_requirements : list AffinityRequirement }.

Record Placement := {
  placement_node : option rstring;
  placement_required_labels : gmap rstring rstring;
  placement_affinity : list AffinityRule }.

Record Boot := {
  boot_start : bool;
  boot_firmware : option rstring;
  boot_kernel : option rstring;
  boot_cmdline : option rstring }.

Record CloudInit := {
  cloud_user_data : option rstring;
  cloud_meta_data : option rstring }.

Record Vsock := {
  vsock_guest_cid : N;
  vsock_socket : rstring }.

Record DesiredState := {
  metadata : Metadata;
  compute : Compute;
  storage : list Storage;
  networks : list Network;
  placement : Placement;
  boot : Boot;
  cloud_init : option CloudInit;
  vsock : option Vsock }.

Inductive ObservedStatus := Unknown | StatusPending | StatusRunning | Stopped | Error.

Record ObservedState := {
  observed_status : ObservedStatus;
  observed_node : option rstring;
  cloud_hypervisor_state : option rstring;
  observed_error : option rstring }.

Record VmManifest := {
  api_version : N;
  manifest_id : Ulid;
  desired : DesiredState;
  observed : option ObservedState }.

#[global] Instance ManifestError_eq_dec : EqDecision ManifestError.
Proof. solve_decision. Defined.
#[global] Instance Metadata_eq_dec : EqDecision Metadata.
Proof. solve_decision. Defined.
#[global] Instance Compute_eq_dec : EqDecision Compute.
Proof. solve_decision. Defined.
#[global] Instance Storage_eq_dec : EqDecision Storage.
Proof. solve_decision. Defined.
#[global] Instance Network_eq_dec : EqDecision Network.
Proof. solve_decision. Defined.
#[global] Instance AffinityStrictness_eq_dec : EqDecision AffinityStrictness.
Proof. solve_decision. Defined.
#[global] Instance AffinityType_eq_dec : EqDecision AffinityType.
Proof. solve_decision. Defined.
#[global] Instance MetadataTable_eq_dec : EqDecision MetadataTable.
Proof. solve_decision. Defined.
#[global] Instance Operator_eq_dec : EqDecision Operator.
Proof. solve_decision. Defined.
#[global] Instance AffinityRequirement_eq_dec : EqDecision AffinityRequirement.
Proof. solve_decision. Defined.
#[global] Instance AffinityRule_eq_dec : EqDecision AffinityRule.
Proof. solve_decision. Defined.
#[global] Instance Placement_eq_dec : EqDecision Placement.
Proof. solve_decision. Defined.
#[global] Instance Boot_eq_dec : EqDecision Boot.
Proof. solve_decision. Defined.
#[global] Instance CloudInit_eq_dec : EqDecision CloudInit.
Proof. solve_decision. Defined.
#[global] Instance Vsock_eq_dec : EqDecision Vsock.
Proof. solve_decision. Defined.
#[global] Instance DesiredState_eq_dec : EqDecision DesiredState.
Proof. solve_decision. Defined.
#[global] Instance ObservedStatus_eq_dec : EqDecision ObservedStatus.
Proof. solve_decision. Defined.
#[global] Instance ObservedState_eq_dec : EqDecision ObservedState.
Proof. solve_decision. Defined.
#[global] Instance VmManifest_eq_dec : EqDecision VmManifest.
Proof. solve_decision. Defined.

(** ** Validation *)

(** [s.trim().is_empty()] *)
Definition blank (s : rstring) : bool := is_empty (trim s).

(** [o.as_deref().is_some_and(|s| s.trim().is_empty())] *)
Definition some_blank (o : option rstring) : bool :=
  match o with Some s => blank s | None => false end.

Definition is_some {A} (o : option A) : bool := match o with Some _ => true | None => false end.

(** The storage loop, with the [storage_ids] set seen so far. *)
Fixpoint validate_storage (storage_ids : gset rstring) (l : list Storage) : result ManifestError () :=
  match l with
  | [] => Ok ()
  | s :: l' =>
      if blank (storage_id s) then Err EmptyStorageId
      else if bool_decide (storage_id s ∈ storage_ids) then Err (DuplicateStorageId (storage_id s))
      else if some_blank (storage_uri s)
           || eqb (is_some (storage_uri s)) (is_some (storage_volume_id s))
      then Err (InvalidStorageSource (storage_id s))
      else validate_storage ({[storage_id s]} ∪ storage_ids) l'
  end.

Fixpoint validate_networks (index : nat) (l : list Network) : result ManifestError () :=
  match l with
  | [] => Ok ()
  | n :: l' =>
      if blank (network_id n) then Err (NetworkWithoutId index)
      else validate_networks (S index) l'
  end.

(** [value.parse::<f64>().is_ok_and(f64::is_finite)] *)
Definition finite_number (value : rstring) : bool :=
  match parse_f64 value with Some x => is_finite x | None => false end.

Definition valid_comparison (values : list rstring) : bool :=
  match values with [value] => finite_number value | _ => false end.

Definition is_comparison (op : Operator) : bool :=
  match op with OpLt | OpGt => true | OpIn | OpNotIn => false end.

Fixpoint validate_requirements (l : list AffinityRequirement) : result ManifestError () :=
  match l with
  | [] => Ok ()
  | r :: l' =>
      if is_comparison (requirement_operator r) && negb (valid_comparison (requirement_values r))
      then Err (InvalidAffinityComparison (requirement_key r))
      else validate_requirements l'
  end.

Fixpoint validate_affinity (l : list AffinityRule) : result ManifestError () :=
  match l with
  | [] => Ok ()
  | rule :: l' => _ ← validate_requirements (rule_requirements rule); validate_affinity l'
  end.

Definition validate_cloud_init (o : option CloudInit) : result ManifestError () :=
  match o with
  | None => Ok ()
  | Some cloud =>
      if negb (eqb (is_some (cloud_user_data cloud)) (is_some (cloud_meta_data cloud)))
         || (negb (is_some (cloud_user_data cloud)) && negb (is_some (cloud_meta_data cloud)))
      then Err IncompleteCloudInit
      else if some_blank (cloud_user_data cloud) || some_blank (cloud_meta_data cloud)
      then Err EmptyCloudInitData
      else Ok ()
  end.

Definition validate_vsock (o : option Vsock) : result ManifestError () :=
  match o with
  | None => Ok ()
  | Some v =>
      if vsock_guest_cid v =? 0 then Err InvalidVsockCid
      else if blank (vsock_socket v) || negb (is_absolute (vsock_socket v))
      then Err InvalidVsockSocket
      else Ok ()
  end.

(** The compute part: vCPU count, scaling ceiling, memory. *)
Definition validate_compute (c : Compute) : result ManifestError () :=
  if compute_vcpus c =? 0 then Err NoVcpus
  else
    _ ← match compute_max_vcpus c with
        | Some max =>
            if max <? compute_vcpus c then Err (MaxVcpusLessThanBoot (compute_vcpus c) max)
            else Ok ()
        | None => Ok ()
        end;
    if compute_memory_bytes c =? 0 then Err NoMemory else Ok ().

Definition desired_validate (d : DesiredState) : result ManifestError () :=
  if blank (metadata_name (metadata d)) then Err EmptyMetadataName
  else
    _ ← validate_compute (compute d);
    _ ← validate_storage ∅ (storage d);
    _ ← validate_networks 0 (networks d);
    _ ← validate_affinity (placement_affinity (placement d));
    _ ← validate_cloud_init (cloud_init d);
    validate_vsock (vsock d).

Definition validate (m : VmManifest) : result ManifestError () :=
  if negb (api_version m =? MANIFEST_VERSION) then Err (UnsupportedVersion (api_version m))
  else desired_validate (desired m).

(** [Deserialize for VmManifest]: the fields as decoded, then the validation. *)
Definition deserialize (fields : VmManifest) : result ManifestError VmManifest :=
  _ ← validate fields; Ok fields.

(** ** The contract of [docs/manifest.md] *)

Definition not_blank (s : rstring) : Prop := ∃ c, c ∈ s ∧ is_whitespace c = false.

(** Exactly one source, and a URI source that is not blank. *)
Definition storage_source_wf (s : Storage) : Prop :=
  match storage_uri s, storage_volume_id s with
  | Some uri, None => not_blank uri
  | None, Some _ => True
  | _, _ => False
  end.

Definition requirement_wf (r : AffinityRequirement) : Prop :=
  requirement_operator r = OpLt ∨ requirement_operator r = OpGt →
  ∃ value x, requirement_values r = [value] ∧ parse_f64 value = Some x ∧ is_finite x = true.

Record manifest_wf (m : VmManifest) : Prop := {
  wf_version : api_version m = MANIFEST_VERSION;
  wf_name : not_blank (metadata_name (metadata (desired m)));
  wf_vcpus : 0 < compute_vcpus (compute (desired m));
  wf_max_vcpus : ∀ mx, compute_max_vcpus (compute (desired m)) = Some mx →
                 compute_vcpus (compute (desired m)) ≤ mx;
  wf_memory : 0 < compute_memory_bytes (compute (desired m));
  wf_storage_ids : NoDup (storage_id <$> storage (desired m));
  wf_storage : ∀ s, s ∈ storage (desired m) → not_blank (storage_id s) ∧ storage_source_wf s;
  wf_networks : ∀ n, n ∈ networks (desired m) → not_blank (network_id n);
  wf_affinity : ∀ rule r, rule ∈ placement_affinity (placement (desired m)) →
                r ∈ rule_requirements rule → requirement_wf r;
  wf_cloud_init : ∀ c, cloud_init (desired m) = Some c →
                  ∃ u d, cloud_user_data c = Some u ∧ cloud_meta_data c = Some d
                         ∧ not_blank u ∧ not_blank d;
  wf_vsock : ∀ v, vsock (desired m) = Some v →
             0 < vsock_guest_cid v ∧ not_blank (vsock_socket v)
             ∧ is_absolute (vsock_socket v) = true }.

(** ** Validation decides the contract *)

Lemma blank_false s : blank s = false ↔ not_blank s.
Proof.
  unfold blank, not_blank. rewrite <-not_true_iff_false, trim_empty. split.
  - intros H%(not_Forall_Exists _)%Exists_exists.
    destruct H as (c & Hc & Hw). exists c. split; [done|]. by apply not_true_iff_false.
  - intros (c & Hc & Hw) HF. rewrite Forall_forall in HF. specialize (HF c Hc). congruence.
Qed.

Lemma some_blank_false o : some_blank o = false ↔ ∀ s, o = Some s → not_blank s.
Proof. destruct o as [s|]; cbn; [rewrite blank_false|]; naive_solver. Qed.

Lemma validate_storage_ok ids l :
  validate_storage ids l = Ok () ↔
  (∀ s, s ∈ l → not_blank (storage_id s) ∧ storage_source_wf s ∧ storage_id s ∉ ids)
  ∧ NoDup (storage_id <$> l).
Proof.
  revert ids; induction l as [|s l IH]; intros ids; cbn.
  { split; [|done]. intros _. split; [|constructor]. by intros s ?%not_elem_of_nil. }
  rewrite NoDup_cons. destruct (blank (storage_id s)) eqn:Hb.
  { split; [done|]. intros [H _]. destruct (H s) as [Hn _]; [left|].
    apply blank_false in Hn. congruence. }
  apply blank_false in Hb. case_bool_decide as Hd.
  { split; [done|]. intros [H _]. destruct (H s) as (_ & _ & ?); [left|done]. }
  assert (some_blank (storage_uri s)
          || eqb (is_some (storage_uri s)) (is_some (storage_volume_id s)) = false
          ↔ storage_source_wf s) as Hsrc.
  { unfold storage_source_wf. rewrite orb_false_iff, some_blank_false.
    destruct (storage_uri s), (storage_volume_id s); cbn; naive_solver. }
  destruct (_ || _) eqn:Ho.
  { split; [done|]. intros [H _]. destruct (H s) as (_ & Hs & _); [left|].
    apply Hsrc in Hs. congruence. }
  rewrite IH. split.
  - intros [H Hnd]. split; [|split; [|done]].
    + intros s' [->|Hin]%elem_of_cons; [naive_solver|]. specialize (H _ Hin). set_solver.
    + intros (s' & Heq & Hin)%list_elem_of_fmap. specialize (H _ Hin). set_solver.
  - intros [H [Hni Hnd]]. split; [|done]. intros s' Hin.
    destruct (H s') as (? & ? & ?); [by right|]. repeat split; try done.
    assert (storage_id s ≠ storage_id s'); [|set_solver].
    intros Heq. apply Hni. rewrite Heq. by apply list_elem_of_fmap_2.
Qed.

Lemma validate_networks_ok i l :
  validate_networks i l = Ok () ↔ ∀ n, n ∈ l → not_blank (network_id n).
Proof.
  revert i; induction l as [|n l IH]; intros i; cbn.
  { split; [|done]. by intros _ n ?%not_elem_of_nil. }
  destruct (blank (network_id n)) eqn:Hb.
  - split; [done|]. intros H. specialize (H n (list_elem_of_here _ _)).
    apply blank_false in H. congruence.
  - apply blank_false in Hb. rewrite IH. setoid_rewrite elem_of_cons. naive_solver.
Qed.

Lemma requirement_wf_spec r :
  is_comparison (requirement_operator r) && negb (valid_comparison (requirement_values r)) = false
  ↔ requirement_wf r.
Proof.
  unfold requirement_wf, valid_comparison, finite_number.
  destruct (requirement_operator r); cbn; try (split; [|done]; intros _ [?|?]; done);
    rewrite negb_false_iff;
    (split; [intros Hv _|intros H; destruct H as (v & x & -> & -> & ->); [tauto|done]]);
    (destruct (requirement_values r) as [|v [|]]; try done);
    (destruct (parse_f64 v) eqn:Hp; [|done]; eauto 10).
Qed.

Lemma validate_requirements_ok l :
  validate_requirements l = Ok () ↔ ∀ r, r ∈ l → requirement_wf r.
Proof.
  induction l as [|r l IH]; cbn.
  { split; [|done]. by intros _ r ?%not_elem_of_nil. }
  pose proof (requirement_wf_spec r) as Hr. setoid_rewrite elem_of_cons.
  destruct (_ && _); [|rewrite IH; naive_solver].
  split; [done|]. intros H. assert (true = false); [|done]. apply Hr, H. by left.
Qed.

Lemma validate_affinity_ok l :
  validate_affinity l = Ok () ↔
  ∀ rule r, rule ∈ l → r ∈ rule_requirements rule → requirement_wf r.
Proof.
  induction l as [|rule l IH]; cbn [validate_affinity].
  { split; [|done]. by intros _ rule r ?%not_elem_of_nil. }
  rewrite result_bind_ok. setoid_rewrite IH. setoid_rewrite elem_of_cons.
  pose proof (validate_requirements_ok (rule_requirements rule)) as Hr. split.
  - intros ([] & Hv & H) rule' r [->|Hin]; [by apply Hr|by apply H].
  - intros H. exists (). rewrite Hr. naive_solver.
Qed.

Lemma validate_cloud_init_ok o :
  validate_cloud_init o = Ok () ↔
  ∀ c, o = Some c → ∃ u d, cloud_user_data c = Some u ∧ cloud_meta_data c = Some d
                           ∧ not_blank u ∧ not_blank d.
Proof.
  destruct o as [[u d]|]; cbn; [|naive_solver].
  destruct u as [u|], d as [d|]; cbn; try naive_solver.
  pose proof (blank_false u) as Hu. pose proof (blank_false d) as Hd.
  destruct (blank u), (blank d); cbn; split; try done;
    try (intros H; destruct (H _ eq_refl) as (?&?&?&?&?&?); simplify_eq/=; naive_solver).
  intros _ c [= <-]. exists u, d. naive_solver.
Qed.

Lemma validate_vsock_ok o :
  validate_vsock o = Ok () ↔
  ∀ v, o = Some v → 0 < vsock_guest_cid v ∧ not_blank (vsock_socket v)
                    ∧ is_absolute (vsock_socket v) = true.
Proof.
  destruct o as [v|]; cbn; [|naive_solver].
  destruct (N.eqb_spec (vsock_guest_cid v) 0) as [Hz|Hz].
  { split; [done|]. intros H. destruct (H v eq_refl). lia. }
  pose proof (blank_false (vsock_socket v)).
  destruct (blank _) eqn:?, (is_absolute _) eqn:?; cbn; split; try done;
    try (intros H'; destruct (H' v eq_refl) as (?&?&?); exfalso; intuition congruence).
  intros _ v' [= <-]. split; [lia|]. naive_solver.
Qed.

Lemma validate_compute_ok c :
  validate_compute c = Ok () ↔
  0 < compute_vcpus c ∧ (∀ mx, compute_max_vcpus c = Some mx → compute_vcpus c ≤ mx)
  ∧ 0 < compute_memory_bytes c.
Proof.
  unfold validate_compute.
  destruct (N.eqb_spec (compute_vcpus c) 0) as [Hv|Hv]; [split; [done|lia]|].
  destruct (compute_max_vcpus c) as [mx|]; cbn.
  - destruct (N.ltb_spec mx (compute_vcpus c)) as [Hm|Hm]; cbn.
    { split; [done|]. intros (_ & H & _). specialize (H mx eq_refl). lia. }
    destruct (N.eqb_spec (compute_memory_bytes c) 0); split; try done; try lia.
    intros _. split; [lia|]. split; [naive_solver|lia].
  - destruct (N.eqb_spec (compute_memory_bytes c) 0); split; try done; try lia.
    intros _. split; [lia|]. split; [naive_solver|lia].
Qed.

Lemma validate_wf m : validate m = Ok () ↔ manifest_wf m.
Proof.
  unfold validate, desired_validate.
  destruct (N.eqb_spec (api_version m) MANIFEST_VERSION) as [Hver|Hver]; cbn [negb].
  2: { split; [done|]. intros [H]. done. }
  destruct (blank _) eqn:Hb.
  { split; [done|]. intros [_ H]. apply blank_false in H. congruence. }
  apply blank_false in Hb.
  split.
  - intros ([] & Hc & ([] & Hs & ([] & Hn & ([] & Ha & ([] & Hci &
      Hv)%result_bind_ok)%result_bind_ok)%result_bind_ok)%result_bind_ok)%result_bind_ok.
    apply validate_compute_ok in Hc as (?&?&?). apply validate_storage_ok in Hs as [Hs ?].
    rewrite validate_networks_ok in Hn. rewrite validate_affinity_ok in Ha.
    rewrite validate_cloud_init_ok in Hci. rewrite validate_vsock_ok in Hv.
    constructor; try done. intros s Hin. destruct (Hs s Hin) as (?&?&?). done.
  - intros []. repeat setoid_rewrite result_bind_ok.
    exists (). rewrite validate_compute_ok. split; [done|].
    exists (). rewrite validate_storage_ok. split.
    { split; [|done]. intros s Hin. destruct (wf_storage0 s Hin). set_solver. }
    exists (). rewrite validate_networks_ok. split; [done|].
    exists (). rewrite validate_affinity_ok. split; [done|].
    exists (). rewrite validate_cloud_init_ok. split; [done|]. by apply validate_vsock_ok.
Qed.

(** C28. [VmManifest::validate] accepts a manifest exactly when it satisfies the
    documented contract: supported version, non-blank name, at least one vCPU,
    a scaling ceiling no lower than the boot vCPUs, memory, unique non-blank
    storage ids each with exactly one usable source, non-blank network ids,
    one finite number per ordering requirement, paired non-blank cloud-init
    data and a usable vsock. Whether a storage attachment is writable is no part
    of it, although the comment on [DesiredState::validate] names a boot storage
    attachment needing a writable source. *)
Theorem validate_decides_contract m : validate m = Ok () ↔ manifest_wf m.
Proof. apply validate_wf. Qed.

(** ** A small manifest for concrete runs *)

Definition minimal_manifest (id vcpus memory : N) : VmManifest := {|
  api_version := MANIFEST_VERSION;
  manifest_id := id;
  desired := {|
    metadata := {| metadata_name := lit "test"; metadata_labels := ∅; metadata_annotations := ∅ |};
    compute := {| compute_vcpus := vcpus; compute_max_vcpus := None; compute_memory_bytes := memory |};
    storage := [];
    networks := [];
    placement := {| placement_node := None; placement_required_labels := ∅; placement_affinity := [] |};
    boot := {| boot_start := false; boot_firmware := None; boot_kernel := None; boot_cmdline := None |};
    cloud_init := None;
    vsock := None |};
  observed := None |}.

Example minimal_manifest_valid : validate (minimal_manifest 1 2 1024) = Ok ().
Proof. vm_compute. reflexivity. Qed.
