(* ===== verification/Json.v ===== *)
(** * JSON values and serde codecs

    The wire format of the program's data: a JSON value as [serde_json] sees
    it, and what [#[derive(Serialize, Deserialize)]] generates for the shapes
    the sources use: machine integers, strings, options, vectors, string maps,
    externally tagged enums and structs with [default],
    [skip_serializing_if = "Option::is_none"] and [deny_unknown_fields].
    A codec is a pair of functions; [codec_ok] says that the values a
    predicate holds of survive the trip, [codec_sound] that whatever is
    decoded satisfies the predicate. *)

From stdpp Require Import sorting.
From S2P Require Import Prelude RustString.
Open Scope N_scope.

(** An object is kept as the list of its entries, in the order of the text. *)
Inductive Json :=
| JNull
| JBool (b : bool)
| JInt (z : Z)
| JFloat (bits : N)
| JStr (s : rstring)
| JArr (l : list Json)
| JObj (kvs : list (rstring * Json)).

Record Codec (A : Type) := { enc : A → Json; dec : Json → option A }.
Arguments Build_Codec {A} _ _.
Arguments enc {A} _ _.
Arguments dec {A} _ _.

Definition codec_ok {A} (c : Codec A) (P : A → Prop) : Prop := ∀ a, P a → dec c (enc c a) = Some a.
Definition codec_sound {A} (c : Codec A) (P : A → Prop) : Prop := ∀ j a, dec c j = Some a → P a.

(** ** Scalars *)

Definition bool_codec : Codec bool :=
  Build_Codec JBool (λ j, match j with JBool b => Some b | _ => None end).

Definition string_codec : Codec rstring :=
  Build_Codec JStr (λ j, match j with JStr s => Some s | _ => None end).

(** [u8], [u32] and [u64] with their maximum. *)
Definition uint_codec (max : N) : Codec N :=
  Build_Codec (λ n, JInt (Z.of_N n))
    (λ j, match j with
          | JInt z => if (0 <=? z)%Z && (Z.to_N z <=? max) then Some (Z.to_N z) else None
          | _ => None
          end).
Definition u8_codec : Codec N := uint_codec 255.
Definition u32_codec : Codec N := uint_codec u32_max.
Definition u64_codec : Codec N := uint_codec u64_max.

Definition i64_codec : Codec Z :=
  Build_Codec JInt
    (λ j, match j with
          | JInt z => if (i64_min <=? z)%Z && (z <=? i64_max)%Z then Some z else None
          | _ => None
          end).

(** ** Containers *)

Definition option_codec {A} (c : Codec A) : Codec (option A) :=
  Build_Codec (λ o, match o with Some a => enc c a | None => JNull end)
    (λ j, match j with JNull => Some None | _ => Some <$> dec c j end).

Definition vec_codec {A} (c : Codec A) : Codec (list A) :=
  Build_Codec (λ l, JArr (enc c <$> l))
    (λ j, match j with JArr l => mapM (dec c) l | _ => None end).

(** [BTreeMap<String, _>] is written in the order of its keys; a key read
    twice keeps its last value. *)
Fixpoint str_le (s t : rstring) : bool :=
  match s, t with
  | [], _ => true
  | _ :: _, [] => false
  | a :: s, b :: t => (a <? b) || ((a =? b) && str_le s t)
  end.
Definition entry_le {A} (x y : rstring * A) : Prop := str_le x.1 y.1 = true.
#[export] Instance entry_le_dec {A} (x y : rstring * A) : Decision (entry_le x y) :=
  decide (str_le x.1 y.1 = true).
Definition map_entries {A} (m : gmap rstring A) : list (rstring * A) :=
  merge_sort entry_le (map_to_list m).

Definition map_codec {A} (c : Codec A) : Codec (gmap rstring A) :=
  Build_Codec (λ m, JObj (prod_map id (enc c) <$> map_entries m))
    (λ j, match j with
          | JObj kvs =>
              foldl (λ m kv, <[kv.1 := kv.2]> m) ∅ <$>
                mapM (λ kv, pair kv.1 <$> dec c kv.2) kvs
          | _ => None
          end).

(** ** Structs *)

(** The entries of a serialized struct: a skipped field is [None]. *)
Definition obj_of (fields : list (rstring * option Json)) : Json :=
  JObj (omap (λ f, pair f.1 <$> f.2) fields).

Definition assoc (k : rstring) (kvs : list (rstring * Json)) : option Json :=
  snd <$> find (λ kv, bool_decide (kv.1 = k)) kvs.

(** The fields of a struct as a derived visitor finds them: by name in an
    object, where a known field may not come twice and an unknown one is an
    error under [deny_unknown_fields]; by position in an array, which may be
    shorter and not longer than the struct. *)
Definition struct_fields (deny : bool) (names : list rstring) (j : Json) :
    option (list (option Json)) :=
  match j with
  | JObj kvs =>
      let known := filter (λ k, k ∈ names) kvs.*1 in
      if bool_decide (NoDup known) &&
         (negb deny || bool_decide (Forall (λ k, k ∈ names) kvs.*1))
      then Some ((λ n, assoc n kvs) <$> names)
      else None
  | JArr l =>
      if bool_decide (length l ≤ length names)%nat
      then Some ((Some <$> l) ++ replicate (length names - length l) None)
      else None
  | _ => None
  end.

(** A field without and with [#[serde(default)]]. *)
Definition required {A} (c : Codec A) (v : option Json) : option A := v ≫= dec c.
Definition defaulted {A} (c : Codec A) (d : A) (v : option Json) : option A :=
  match v with Some j => dec c j | None => Some d end.
(** [default] on an [Option] with [skip_serializing_if]. *)
Definition optional {A} (c : Codec A) (v : option Json) : option (option A) :=
  defaulted (option_codec c) None v.
Definition skip_none {A} (c : Codec A) (o : option A) : option Json := enc c <$> o.

(** ** Enums *)

(** A unit variant is its name; an object with that one key and [null] is
    read as the variant too. *)
Definition tag (j : Json) : option (rstring * option Json) :=
  match j with
  | JStr s => Some (s, None)
  | JObj [(k, v)] => Some (k, Some v)
  | _ => None
  end.
Definition unit_payload (v : option Json) : bool :=
  match v with None | Some JNull => true | _ => false end.

(** An enum of unit variants, by the table of their names. *)
Definition enum_codec {A} `{EqDecision A} (variants : list (rstring * A)) (d : rstring) : Codec A :=
  Build_Codec
    (λ a, JStr (default d (fst <$> find (λ v, bool_decide (v.2 = a)) variants)))
    (λ j, '(k, v) ← tag j;
          if unit_payload v then snd <$> find (λ v, bool_decide (v.1 = k)) variants else None).

(** ** Laws of the scalars and containers *)

Definition always {A} : A → Prop := λ _, True.
Definition opt_all {A} (P : A → Prop) : option A → Prop := λ o, ∀ a, o = Some a → P a.
Definition uint_le (max : N) : N → Prop := λ n, n ≤ max.

Lemma bool_codec_ok : codec_ok bool_codec always.
Proof. done. Qed.
Lemma string_codec_ok : codec_ok string_codec always.
Proof. done. Qed.

Lemma uint_codec_ok max : codec_ok (uint_codec max) (uint_le max).
Proof.
  intros n Hn. cbn. destruct (Z.leb_spec 0 (Z.of_N n)); [|lia].
  rewrite N2Z.id. unfold uint_le in Hn. destruct (N.leb_spec n max); [done|lia].
Qed.
Lemma uint_codec_sound max : codec_sound (uint_codec max) (uint_le max).
Proof.
  intros [| |z| | | |] n; cbn; try done. destruct (_ && _) eqn:E; [|done].
  apply andb_true_iff in E as [_ E%N.leb_le]. by intros [= <-].
Qed.

Lemma i64_codec_ok : codec_ok i64_codec i64_ok.
Proof.
  intros z [H1 H2]. cbn. destruct (Z.leb_spec i64_min z), (Z.leb_spec z i64_max); try done; lia.
Qed.
Lemma i64_codec_sound : codec_sound i64_codec i64_ok.
Proof.
  intros [| |z| | | |] n; cbn [dec i64_codec]; try done.
  destruct (_ && _) eqn:E; [|done]. apply andb_true_iff in E as [E1%Z.leb_le E2%Z.leb_le].
  by intros [= <-].
Qed.

Lemma codec_sound_always {A} (c : Codec A) : codec_sound c always.
Proof. done. Qed.

(** An option of values that are never written as [null]. *)
Definition non_null {A} (c : Codec A) : Prop := ∀ a, enc c a ≠ JNull.

Lemma option_codec_ok {A} (c : Codec A) P :
  non_null c → codec_ok c P → codec_ok (option_codec c) (opt_all P).
Proof.
  intros Hn Hc [a|] Ha; [|done]. cbn. specialize (Hc a (Ha a eq_refl)).
  destruct (enc c a) eqn:E; try (by rewrite Hc). by apply Hn in E.
Qed.
Lemma option_codec_sound {A} (c : Codec A) P :
  codec_sound c P → codec_sound (option_codec c) (opt_all P).
Proof.
  intros Hc j o Hj a ->. destruct j; cbn in Hj; try done;
    apply fmap_Some in Hj as (a' & Hj & [= ->]); by eapply Hc.
Qed.

Lemma vec_codec_ok {A} (c : Codec A) P : codec_ok c P → codec_ok (vec_codec c) (Forall P).
Proof.
  intros Hc l Hl. cbn. apply mapM_Some, Forall2_fmap_l, Forall_Forall2_diag.
  eapply Forall_impl; [exact Hl|]. intros a Ha. by apply Hc.
Qed.
Lemma vec_codec_sound {A} (c : Codec A) P : codec_sound c P → codec_sound (vec_codec c) (Forall P).
Proof.
  intros Hc [| | | | |js|] l Hl; try done. cbn in Hl. apply mapM_Some in Hl.
  induction Hl; constructor; eauto.
Qed.

Lemma map_entries_perm {A} (m : gmap rstring A) : map_entries m ≡ₚ map_to_list m.
Proof. apply merge_sort_Permutation. Qed.

(** Inserting entries with distinct keys one by one is the map of the list. *)
Lemma foldl_insert_list_to_map {A} (l : list (rstring * A)) (m : gmap rstring A) :
  NoDup l.*1 → foldl (λ m kv, <[kv.1 := kv.2]> m) m l = list_to_map l ∪ m.
Proof.
  revert m. induction l as [|[k v] l IH]; intros m; cbn; [by rewrite (left_id_L ∅ (∪))|].
  intros [Hk Hl]%NoDup_cons. rewrite IH by done.
  rewrite <-insert_union_l. rewrite <-insert_union_r; [done|].
  by apply not_elem_of_list_to_map.
Qed.

Lemma map_codec_ok {A} (c : Codec A) P :
  codec_ok c P → codec_ok (map_codec c) (λ m, map_Forall (λ _, P) m).
Proof.
  intros Hc m Hm. cbn. assert (mapM (λ kv, pair kv.1 <$> dec c kv.2)
    (prod_map id (enc c) <$> map_entries m) = Some (map_entries m)) as ->.
  { apply mapM_Some, Forall2_fmap_l, Forall_Forall2_diag, Forall_forall.
    intros [k v] Hin. rewrite map_entries_perm in Hin. apply elem_of_map_to_list in Hin.
    cbn. rewrite (Hc v); [done|]. by eapply Hm. }
  cbn. f_equal. rewrite foldl_insert_list_to_map.
  - rewrite (right_id_L ∅ (∪)). rewrite <-(list_to_map_to_list m) at 2.
    apply list_to_map_proper; [|apply map_entries_perm].
    rewrite map_entries_perm. apply NoDup_fst_map_to_list.
  - rewrite map_entries_perm. apply NoDup_fst_map_to_list.
Qed.

Lemma map_codec_strings : codec_ok (map_codec string_codec) always.
Proof. intros m _. apply (map_codec_ok string_codec always); [done|]. by intros k v. Qed.

(** ** Laws of structs and enums *)

Lemma assoc_omap n fields :
  NoDup fields.*1 →
  assoc n (omap (λ f : rstring * option Json, pair f.1 <$> f.2) fields) =
  mjoin (snd <$> find (λ f, bool_decide (f.1 = n)) fields).
Proof.
  unfold assoc. induction fields as [|[k v] fields IH]; cbn; [done|].
  intros [Hk Hnd]%NoDup_cons. specialize (IH Hnd).
  case_bool_decide as Hd; destruct v as [v|]; cbn;
    rewrite ?bool_decide_eq_true_2, ?bool_decide_eq_false_2 by done; try done.
  subst n. rewrite IH. clear -Hk. induction fields as [|[k' v] fields IH]; [done|].
  cbn in *. rewrite bool_decide_eq_false_2 by set_solver. apply IH. set_solver.
Qed.

Lemma assoc_fields fields :
  NoDup fields.*1 →
  (λ n, assoc n (omap (λ f : rstring * option Json, pair f.1 <$> f.2) fields)) <$> fields.*1 =
  fields.*2.
Proof.
  intros Hnd. rewrite (list_fmap_ext _ (λ n, mjoin (snd <$> find (λ f, bool_decide (f.1 = n)) fields)))
    by (intros ???; by apply assoc_omap).
  induction fields as [|[k v] fields IH]; [done|]. apply NoDup_cons in Hnd as [Hk Hnd].
  cbn [fmap list_fmap fst snd find]. rewrite bool_decide_eq_true_2 by done. f_equal.
  rewrite <-IH by done. apply list_fmap_ext. intros i n Hn.
  rewrite bool_decide_eq_false_2; [done|]. intros <-.
  apply Hk. by apply list_elem_of_lookup_2 in Hn.
Qed.

Lemma omap_fst_sublist (fields : list (rstring * option Json)) :
  sublist (omap (λ f, pair f.1 <$> f.2) fields).*1 fields.*1.
Proof. induction fields as [|[k [v|]] fields IH]; cbn; by constructor. Qed.

(** What a struct wrote is what its visitor finds. *)
Lemma struct_fields_obj deny fields :
  NoDup fields.*1 → struct_fields deny fields.*1 (obj_of fields) = Some fields.*2.
Proof.
  intros Hnd. unfold struct_fields, obj_of.
  pose proof (omap_fst_sublist fields) as Hsub. set (kvs := omap _ fields) in *.
  assert (Forall (λ k, k ∈ fields.*1) kvs.*1) as Hall.
  { apply Forall_forall. intros k Hk. by eapply elem_of_submseteq, sublist_submseteq. }
  rewrite !bool_decide_eq_true_2; [|done|]; cycle 1.
  { rewrite filter_all by done. by eapply sublist_NoDup. }
  rewrite orb_true_r. cbn. f_equal. by apply assoc_fields.
Qed.

Lemma struct_fields_length deny names j vs :
  struct_fields deny names j = Some vs → length vs = length names.
Proof.
  destruct j; cbn; try done; case_match eqn:E; try done; intros [= <-].
  - rewrite length_app, length_fmap, length_replicate. apply bool_decide_eq_true in E. lia.
  - by rewrite length_fmap.
Qed.

(** An object with a field the struct does not have is refused. *)
Lemma struct_fields_unknown names kvs k v :
  (k, v) ∈ kvs → k ∉ names → struct_fields true names (JObj kvs) = None.
Proof.
  intros Hin Hk. cbn. rewrite (bool_decide_eq_false_2 (Forall _ _)).
  - by rewrite andb_false_r.
  - rewrite Forall_forall. intros H. apply Hk, H. by apply (list_elem_of_fmap_2 fst) in Hin.
Qed.

Lemma required_ok {A} (c : Codec A) P a : codec_ok c P → P a → required c (Some (enc c a)) = Some a.
Proof. intros Hc Ha. by apply Hc. Qed.
Lemma defaulted_ok {A} (c : Codec A) P d a :
  codec_ok c P → P a → defaulted c d (Some (enc c a)) = Some a.
Proof. intros Hc Ha. by apply Hc. Qed.
Lemma optional_ok {A} (c : Codec A) P o :
  non_null c → codec_ok c P → opt_all P o → optional c (skip_none c o) = Some o.
Proof.
  intros Hn Hc Ho. destruct o as [a|]; [|done].
  apply (option_codec_ok c P Hn Hc (Some a) Ho).
Qed.

Lemma required_sound {A} (c : Codec A) P v a :
  codec_sound c P → required c v = Some a → P a.
Proof. intros Hc Hv. destruct v as [j|]; [|done]. by eapply Hc. Qed.
Lemma defaulted_sound {A} (c : Codec A) P d v a :
  codec_sound c P → P d → defaulted c d v = Some a → P a.
Proof. intros Hc Hd Hv. destruct v as [j|]; [by eapply Hc|]. by injection Hv as <-. Qed.
Lemma optional_sound {A} (c : Codec A) P v o :
  codec_sound c P → optional c v = Some o → opt_all P o.
Proof.
  intros Hc. apply defaulted_sound; [by apply option_codec_sound|]. by intros a.
Qed.

Lemma string_non_null : non_null string_codec.
Proof. done. Qed.
Lemma uint_non_null max : non_null (uint_codec max).
Proof. done. Qed.

(** The variants of an enum are listed once, under different names. *)
Lemma enum_codec_ok {A} `{EqDecision A} (variants : list (rstring * A)) d :
  (∀ a, ∃ k, find (λ v, bool_decide (v.2 = a)) variants = Some (k, a) ∧
             find (λ v, bool_decide (v.1 = k)) variants = Some (k, a)) →
  codec_ok (enum_codec variants d) always.
Proof.
  intros Hv a _. destruct (Hv a) as (k & H1 & H2). cbn. rewrite H1. cbn. by rewrite H2.
Qed.

Create HintDb codec.
#[export] Hint Resolve bool_codec_ok string_codec_ok uint_codec_ok i64_codec_ok vec_codec_ok
  map_codec_strings string_non_null uint_non_null : codec.
#[export] Hint Resolve uint_codec_sound i64_codec_sound codec_sound_always vec_codec_sound
  option_codec_sound : codec.
