(* ===== verification/ManifestJson.v ===== *)
(** * The manifest on the wire

    The serde codecs of the types of [odorobo/src/manifest.rs], field by field
    with the attributes of the source, and [Deserialize for VmManifest], which
    validates what it read. The text of a ULID is the [ulid] library's. *)

From S2P Require Import Prelude RustString RustFloat Manifest Json.
Open Scope N_scope.

(** ** ULIDs *)

Class UlidText := {
  ulid_to_string : Ulid → rstring;
  ulid_from_string : rstring → option Ulid }.

Definition ulid_ok (u : Ulid) : Prop := u < 2 ^ 128.

(** The documented behaviour of the text format: 26 characters of Crockford's
    base 32, read back as the identifier they were printed from. *)
Class UlidTextLaws `{UlidText} : Prop := {
  ulid_text_roundtrip u : ulid_ok u → ulid_from_string (ulid_to_string u) = Some u;
  ulid_text_range s u : ulid_from_string s = Some u → ulid_ok u;
  ulid_text_length u : length (ulid_to_string u) = 26%nat;
  ulid_text_plain u : Forall (λ c, is_ascii_alphanumeric c = true) (ulid_to_string u) }.

Section codecs.
Context `{UlidText}.

Definition ulid_codec : Codec Ulid :=
  Build_Codec (λ u, JStr (ulid_to_string u))
    (λ j, match j with JStr s => ulid_from_string s | _ => None end).

(** ** Leaf types *)

Definition Metadata_codec : Codec Metadata := Build_Codec
  (λ m, obj_of
    [(lit "name", Some (enc string_codec (metadata_name m)));
     (lit "labels", Some (enc (map_codec string_codec) (metadata_labels m)));
     (lit "annotations", Some (enc (map_codec string_codec) (metadata_annotations m)))])
  (λ j, vs ← struct_fields true [lit "name"; lit "labels"; lit "annotations"] j;
    match vs with
    | [name; labels; annotations] =>
        name ← required string_codec name;
        labels ← defaulted (map_codec string_codec) ∅ labels;
        annotations ← defaulted (map_codec string_codec) ∅ annotations;
        Some {| metadata_name := name; metadata_labels := labels;
                metadata_annotations := annotations |}
    | _ => None
    end).

Definition Compute_codec : Codec Compute := Build_Codec
  (λ c, obj_of
    [(lit "vcpus", Some (enc u32_codec (compute_vcpus c)));
     (lit "max_vcpus", skip_none u32_codec (compute_max_vcpus c));
     (lit "memory_bytes", Some (enc u64_codec (compute_memory_bytes c)))])
  (λ j, vs ← struct_fields true [lit "vcpus"; lit "max_vcpus"; lit "memory_bytes"] j;
    match vs with
    | [vcpus; max_vcpus; memory_bytes] =>
        vcpus ← required u32_codec vcpus;
        max_vcpus ← optional u32_codec max_vcpus;
        memory_bytes ← required u64_codec memory_bytes;
        Some {| compute_vcpus := vcpus; compute_max_vcpus := max_vcpus;
                compute_memory_bytes := memory_bytes |}
    | _ => None
    end).

Definition Storage_codec : Codec Storage := Build_Codec
  (λ s, obj_of
    [(lit "id", Some (enc string_codec (storage_id s)));
     (lit "uri", skip_none string_codec (storage_uri s));
     (lit "volume_id", skip_none ulid_codec (storage_volume_id s));
     (lit "read_only", Some (enc bool_codec (storage_read_only s)))])
  (λ j, vs ← struct_fields true [lit "id"; lit "uri"; lit "volume_id"; lit "read_only"] j;
    match vs with
    | [id; uri; volume_id; read_only] =>
        id ← required string_codec id;
        uri ← optional string_codec uri;
        volume_id ← optional ulid_codec volume_id;
        read_only ← defaulted bool_codec false read_only;
        Some {| storage_id := id; storage_uri := uri; storage_volume_id := volume_id;
                storage_read_only := read_only |}
    | _ => None
    end).

Definition Network_codec : Codec Network := Build_Codec
  (λ n, obj_of
    [(lit "id", Some (enc string_codec (network_id n)));
     (lit "mac_address", skip_none string_codec (network_mac_address n))])
  (λ j, vs ← struct_fields true [lit "id"; lit "mac_address"] j;
    match vs with
    | [id; mac_address] =>
        id ← required string_codec id;
        mac_address ← optional string_codec mac_address;
        Some {| network_id := id; network_mac_address := mac_address |}
    | _ => None
    end).

(** ** Affinity *)

(** [Required] is a name, [Preferred { weight }] an object under its name. *)
Definition AffinityStrictness_codec : Codec AffinityStrictness := Build_Codec
  (λ s, match s with
        | Required => JStr (lit "required")
        | Preferred weight =>
            JObj [(lit "preferred", obj_of [(lit "weight", Some (enc i64_codec weight))])]
        end)
  (λ j, '(k, v) ← tag j;
    if bool_decide (k = lit "required") then
      if unit_payload v then Some Required else None
    else if bool_decide (k = lit "preferred") then
      payload ← v;
      vs ← struct_fields false [lit "weight"] payload;
      match vs with
      | [weight] => weight ← required i64_codec weight; Some (Preferred weight)
      | _ => None
      end
    else None).

Definition AffinityType_codec : Codec AffinityType :=
  enum_codec [(lit "virtual_machine", VirtualMachine); (lit "agent", Agent)] [].
Definition MetadataTable_codec : Codec MetadataTable :=
  enum_codec [(lit "label", Label); (lit "annotation", Annotation)] [].
Definition Operator_codec : Codec Operator :=
  enum_codec [(lit "in", OpIn); (lit "not_in", OpNotIn); (lit "lt", OpLt); (lit "gt", OpGt)] [].

Definition AffinityRequirement_codec : Codec AffinityRequirement := Build_Codec
  (λ r, obj_of
    [(lit "key", Some (enc string_codec (requirement_key r)));
     (lit "table", Some (enc MetadataTable_codec (requirement_table r)));
     (lit "operator", Some (enc Operator_codec (requirement_operator r)));
     (lit "values", Some (enc (vec_codec string_codec) (requirement_values r)))])
  (λ j, vs ← struct_fields true [lit "key"; lit "table"; lit "operator"; lit "values"] j;
    match vs with
    | [key; table; operator; values] =>
        key ← required string_codec key;
        table ← required MetadataTable_codec table;
        operator ← required Operator_codec operator;
        values ← required (vec_codec string_codec) values;
        Some {| requirement_key := key; requirement_table := table;
                requirement_operator := operator; requirement_values := values |}
    | _ => None
    end).

Definition AffinityRule_codec : Codec AffinityRule := Build_Codec
  (λ r, obj_of
    [(lit "strictness", Some (enc AffinityStrictness_codec (rule_strictness r)));
     (lit "affinity_type", Some (enc AffinityType_codec (rule_affinity_type r)));
     (lit "inverse", Some (enc bool_codec (rule_inverse r)));
     (lit "requirements", Some (enc (vec_codec AffinityRequirement_codec) (rule_requirements r)))])
  (λ j, vs ← struct_fields true
          [lit "strictness"; lit "affinity_type"; lit "inverse"; lit "requirements"] j;
    match vs with
    | [strictness; affinity_type; inverse; requirements] =>
        strictness ← required AffinityStrictness_codec strictness;
        affinity_type ← required AffinityType_codec affinity_type;
        inverse ← defaulted bool_codec false inverse;
        requirements ← required (vec_codec AffinityRequirement_codec) requirements;
        Some {| rule_strictness := strictness; rule_affinity_type := affinity_type;
                rule_inverse := inverse; rule_requirements := requirements |}
    | _ => None
    end).

Definition Placement_codec : Codec Placement := Build_Codec
  (λ p, obj_of
    [(lit "node", skip_none string_codec (placement_node p));
     (lit "required_labels", Some (enc (map_codec string_codec) (placement_required_labels p)));
     (lit "affinity", Some (enc (vec_codec AffinityRule_codec) (placement_affinity p)))])
  (λ j, vs ← struct_fields true [lit "node"; lit "required_labels"; lit "affinity"] j;
    match vs with
    | [node; required_labels; affinity] =>
        node ← optional string_codec node;
        required_labels ← defaulted (map_codec string_codec) ∅ required_labels;
        affinity ← defaulted (vec_codec AffinityRule_codec) [] affinity;
        Some {| placement_node := node; placement_required_labels := required_labels;
                placement_affinity := affinity |}
    | _ => None
    end).

(** ** The rest of the desired state *)

Definition Boot_codec : Codec Boot := Build_Codec
  (λ b, obj_of
    [(lit "start", Some (enc bool_codec (boot_start b)));
     (lit "firmware", skip_none string_codec (boot_firmware b));
     (lit "kernel", skip_none string_codec (boot_kernel b));
     (lit "cmdline", skip_none string_codec (boot_cmdline b))])
  (λ j, vs ← struct_fields true [lit "start"; lit "firmware"; lit "kernel"; lit "cmdline"] j;
    match vs with
    | [start; firmware; kernel; cmdline] =>
        start ← defaulted bool_codec false start;
        firmware ← optional string_codec firmware;
        kernel ← optional string_codec kernel;
        cmdline ← optional string_codec cmdline;
        Some {| boot_start := start; boot_firmware := firmware; boot_kernel := kernel;
                boot_cmdline := cmdline |}
    | _ => None
    end).

Definition CloudInit_codec : Codec CloudInit := Build_Codec
  (λ c, obj_of
    [(lit "user_data", skip_none string_codec (cloud_user_data c));
     (lit "meta_data", skip_none string_codec (cloud_meta_data c))])
  (λ j, vs ← struct_fields true [lit "user_data"; lit "meta_data"] j;
    match vs with
    | [user_data; meta_data] =>
        user_data ← optional string_codec user_data;
        meta_data ← optional string_codec meta_data;
        Some {| cloud_user_data := user_data; cloud_meta_data := meta_data |}
    | _ => None
    end).

Definition Vsock_codec : Codec Vsock := Build_Codec
  (λ v, obj_of
    [(lit "guest_cid", Some (enc u32_codec (vsock_guest_cid v)));
     (lit "socket", Some (enc string_codec (vsock_socket v)))])
  (λ j, vs ← struct_fields true [lit "guest_cid"; lit "socket"] j;
    match vs with
    | [guest_cid; socket] =>
        guest_cid ← required u32_codec guest_cid;
        socket ← required string_codec socket;
        Some {| vsock_guest_cid := guest_cid; vsock_socket := socket |}
    | _ => None
    end).

Definition default_placement : Placement :=
  {| placement_node := None; placement_required_labels := ∅; placement_affinity := [] |}.

Definition DesiredState_codec : Codec DesiredState := Build_Codec
  (λ d, obj_of
    [(lit "metadata", Some (enc Metadata_codec (metadata d)));
     (lit "compute", Some (enc Compute_codec (compute d)));
     (lit "storage", Some (enc (vec_codec Storage_codec) (storage d)));
     (lit "networks", Some (enc (vec_codec Network_codec) (networks d)));
     (lit "placement", Some (enc Placement_codec (placement d)));
     (lit "boot", Some (enc Boot_codec (boot d)));
     (lit "cloud_init", skip_none CloudInit_codec (cloud_init d));
     (lit "vsock", skip_none Vsock_codec (vsock d))])
  (λ j, vs ← struct_fields true
          [lit "metadata"; lit "compute"; lit "storage"; lit "networks"; lit "placement";
           lit "boot"; lit "cloud_init"; lit "vsock"] j;
    match vs with
    | [metadata; compute; storage; networks; placement; boot; cloud_init; vsock] =>
        metadata ← required Metadata_codec metadata;
        compute ← required Compute_codec compute;
        storage ← defaulted (vec_codec Storage_codec) [] storage;
        networks ← defaulted (vec_codec Network_codec) [] networks;
        placement ← defaulted Placement_codec default_placement placement;
        boot ← required Boot_codec boot;
        cloud_init ← optional CloudInit_codec cloud_init;
        vsock ← optional Vsock_codec vsock;
        Some {| Manifest.metadata := metadata; Manifest.compute := compute;
                Manifest.storage := storage; Manifest.networks := networks;
                Manifest.placement := placement; Manifest.boot := boot;
                Manifest.cloud_init := cloud_init; Manifest.vsock := vsock |}
    | _ => None
    end).

(** ** The observed state and the manifest *)

Definition ObservedStatus_codec : Codec ObservedStatus :=
  enum_codec [(lit "unknown", Unknown); (lit "pending", StatusPending);
              (lit "running", StatusRunning); (lit "stopped", Stopped); (lit "error", Error)] [].

Definition ObservedState_codec : Codec ObservedState := Build_Codec
  (λ o, obj_of
    [(lit "status", Some (enc ObservedStatus_codec (observed_status o)));
     (lit "node", skip_none string_codec (observed_node o));
     (lit "cloud_hypervisor_state", skip_none string_codec (cloud_hypervisor_state o));
     (lit "error", skip_none string_codec (observed_error o))])
  (λ j, vs ← struct_fields true
          [lit "status"; lit "node"; lit "cloud_hypervisor_state"; lit "error"] j;
    match vs with
    | [status; node; state; error] =>
        status ← required ObservedStatus_codec status;
        node ← optional string_codec node;
        state ← optional string_codec state;
        error ← optional string_codec error;
        Some {| observed_status := status; observed_node := node;
                cloud_hypervisor_state := state; observed_error := error |}
    | _ => None
    end).

(** [DeserializableVmManifest], with the derived [Serialize] of [VmManifest]. *)
Definition DeserializableVmManifest_codec : Codec VmManifest := Build_Codec
  (λ m, obj_of
    [(lit "api_version", Some (enc u32_codec (api_version m)));
     (lit "id", Some (enc ulid_codec (manifest_id m)));
     (lit "desired", Some (enc DesiredState_codec (desired m)));
     (lit "observed", skip_none ObservedState_codec (observed m))])
  (λ j, vs ← struct_fields true [lit "api_version"; lit "id"; lit "desired"; lit "observed"] j;
    match vs with
    | [api_version; id; desired; observed] =>
        api_version ← required u32_codec api_version;
        id ← required ulid_codec id;
        desired ← required DesiredState_codec desired;
        observed ← optional ObservedState_codec observed;
        Some {| Manifest.api_version := api_version; manifest_id := id;
                Manifest.desired := desired; Manifest.observed := observed |}
    | _ => None
    end).

Inductive DecodeError := Malformed | Custom (e : ManifestError).

Definition manifest_to_json : VmManifest → Json := enc DeserializableVmManifest_codec.

Definition manifest_from_json (j : Json) : result DecodeError VmManifest :=
  match dec DeserializableVmManifest_codec j with
  | None => Err Malformed
  | Some fields =>
      match deserialize fields with
      | Err e => Err (Custom e)
      | Ok manifest => Ok manifest
      end
  end.

Definition VmManifest_codec : Codec VmManifest :=
  Build_Codec manifest_to_json (λ j, ok (manifest_from_json j)).
End codecs.

(** ** Widths *)

(** The values a manifest holds at the widths of its fields. *)
Definition compute_typed (c : Compute) : Prop :=
  u32_ok (compute_vcpus c) ∧ opt_all u32_ok (compute_max_vcpus c) ∧ u64_ok (compute_memory_bytes c).
Definition storage_typed (s : Storage) : Prop := opt_all ulid_ok (storage_volume_id s).
Definition strictness_typed (s : AffinityStrictness) : Prop :=
  match s with Required => True | Preferred weight => i64_ok weight end.
Definition rule_typed (r : AffinityRule) : Prop := strictness_typed (rule_strictness r).
Definition placement_typed (p : Placement) : Prop := Forall rule_typed (placement_affinity p).
Definition vsock_typed (v : Vsock) : Prop := u32_ok (vsock_guest_cid v).
Definition desired_typed (d : DesiredState) : Prop :=
  compute_typed (compute d) ∧ Forall storage_typed (storage d) ∧
  placement_typed (placement d) ∧ opt_all vsock_typed (vsock d).
Definition manifest_typed (m : VmManifest) : Prop :=
  u32_ok (api_version m) ∧ ulid_ok (manifest_id m) ∧ desired_typed (desired m).

(** ** Every type survives the wire *)

(** A struct: its visitor finds the fields it wrote, and each field decodes. *)
Tactic Notation "struct_ok" reference(codec) :=
  unfold codec; cbn [enc dec];
  lazymatch goal with
  | |- context [struct_fields ?deny ?names (obj_of ?fs)] =>
      change names with fs.*1;
      rewrite (struct_fields_obj deny fs) by (apply (bool_decide_unpack _); vm_compute; exact I)
  end;
  cbn [fmap list_fmap snd mbind option_bind].

Ltac field_ok :=
  first
    [ erewrite required_ok; [|solve [eauto with codec]|solve [eauto; done]]
    | erewrite defaulted_ok; [|solve [eauto with codec]|solve [eauto; done]]
    | erewrite optional_ok;
        [|solve [eauto with codec]|solve [eauto with codec]|solve [eauto; by intros ?]] ];
  cbn [mbind option_bind].

(** An enum of unit variants: by cases on the variant. *)
Ltac enum_ok := apply enum_codec_ok; intros []; eexists; split; vm_compute; reflexivity.

(** A decoded struct: every field was decoded. *)
Tactic Notation "struct_inv" reference(codec) ident(Hj) :=
  unfold codec in Hj; cbn [dec] in Hj; apply bind_Some in Hj as (? & _ & Hj);
  repeat (case_match; [|done || idtac]; try done);
  repeat (let E := fresh "E" in apply bind_Some in Hj as (? & E & Hj));
  injection Hj as <-.

Ltac field_sound :=
  first [ eapply required_sound; [|eassumption] | eapply optional_sound; [|eassumption]
        | eapply defaulted_sound; [| |eassumption] ]; eauto with codec.

Section laws.
Context `{UlidTextLaws}.

Lemma ulid_codec_ok : codec_ok ulid_codec ulid_ok.
Proof. intros u Hu. by apply ulid_text_roundtrip. Qed.
Lemma ulid_non_null : non_null ulid_codec.
Proof. done. Qed.

#[local] Hint Resolve ulid_codec_ok ulid_non_null : codec.

Lemma Metadata_codec_ok : codec_ok Metadata_codec always.
Proof. intros [name labels annotations] _. struct_ok Metadata_codec. repeat field_ok. done. Qed.

Lemma Compute_codec_ok : codec_ok Compute_codec compute_typed.
Proof. intros [vcpus max memory] (Hv & Hm & Hr). struct_ok Compute_codec. repeat field_ok. done. Qed.

Lemma Storage_codec_ok : codec_ok Storage_codec storage_typed.
Proof. intros [id uri volume read_only] Hs. struct_ok Storage_codec. repeat field_ok. done. Qed.

Lemma Network_codec_ok : codec_ok Network_codec always.
Proof. intros [id mac] _. struct_ok Network_codec. repeat field_ok. done. Qed.

Lemma AffinityStrictness_codec_ok : codec_ok AffinityStrictness_codec strictness_typed.
Proof.
  intros [|weight] Hs; [done|]. cbn [enc dec AffinityStrictness_codec tag mbind option_bind].
  rewrite bool_decide_eq_false_2, bool_decide_eq_true_2 by done. cbn [mbind option_bind].
  change [lit "weight"] with [(lit "weight", Some (enc i64_codec weight))].*1.
  rewrite struct_fields_obj by apply NoDup_singleton. cbn [fmap list_fmap snd mbind option_bind].
  field_ok. done.
Qed.

Lemma AffinityType_codec_ok : codec_ok AffinityType_codec always.
Proof. enum_ok. Qed.
Lemma MetadataTable_codec_ok : codec_ok MetadataTable_codec always.
Proof. enum_ok. Qed.
Lemma Operator_codec_ok : codec_ok Operator_codec always.
Proof. enum_ok. Qed.
Lemma ObservedStatus_codec_ok : codec_ok ObservedStatus_codec always.
Proof. enum_ok. Qed.

#[local] Hint Resolve AffinityStrictness_codec_ok AffinityType_codec_ok MetadataTable_codec_ok
  Operator_codec_ok ObservedStatus_codec_ok : codec.

Lemma AffinityRequirement_codec_ok : codec_ok AffinityRequirement_codec always.
Proof.
  intros [key table operator values] _. struct_ok AffinityRequirement_codec.
  assert (Forall always values) by (by apply Forall_true). repeat field_ok. done.
Qed.
#[local] Hint Resolve AffinityRequirement_codec_ok : codec.

Lemma AffinityRule_codec_ok : codec_ok AffinityRule_codec rule_typed.
Proof.
  intros [strictness type inverse requirements] Hr. struct_ok AffinityRule_codec.
  assert (Forall always requirements) by (by apply Forall_true). repeat field_ok. done.
Qed.
#[local] Hint Resolve AffinityRule_codec_ok : codec.

Lemma Placement_codec_ok : codec_ok Placement_codec placement_typed.
Proof. intros [node labels affinity] Hp. struct_ok Placement_codec. repeat field_ok. done. Qed.

Lemma Boot_codec_ok : codec_ok Boot_codec always.
Proof. intros [start firmware kernel cmdline] _. struct_ok Boot_codec. repeat field_ok. done. Qed.

Lemma CloudInit_codec_ok : codec_ok CloudInit_codec always.
Proof. intros [user meta] _. struct_ok CloudInit_codec. repeat field_ok. done. Qed.

Lemma Vsock_codec_ok : codec_ok Vsock_codec vsock_typed.
Proof. intros [cid socket] Hv. struct_ok Vsock_codec. repeat field_ok. done. Qed.

Lemma CloudInit_non_null : non_null CloudInit_codec.
Proof. done. Qed.
Lemma Vsock_non_null : non_null Vsock_codec.
Proof. done. Qed.
Lemma ObservedState_non_null : non_null ObservedState_codec.
Proof. done. Qed.

#[local] Hint Resolve Metadata_codec_ok Compute_codec_ok Storage_codec_ok Network_codec_ok
  Placement_codec_ok Boot_codec_ok CloudInit_codec_ok Vsock_codec_ok CloudInit_non_null
  Vsock_non_null ObservedState_non_null : codec.

Lemma DesiredState_codec_ok : codec_ok DesiredState_codec desired_typed.
Proof.
  intros [metadata compute storage networks placement boot cloud_init vsock] (Hc & Hs & Hp & Hv).
  struct_ok DesiredState_codec. cbn [Manifest.compute Manifest.storage Manifest.placement
    Manifest.vsock Manifest.networks Manifest.metadata Manifest.boot Manifest.cloud_init] in *.
  assert (Forall always networks) by (by apply Forall_true). repeat field_ok. done.
Qed.

Lemma ObservedState_codec_ok : codec_ok ObservedState_codec always.
Proof. intros [status node state error] _. struct_ok ObservedState_codec. repeat field_ok. done. Qed.

#[local] Hint Resolve DesiredState_codec_ok ObservedState_codec_ok : codec.

Lemma fields_codec_ok : codec_ok DeserializableVmManifest_codec manifest_typed.
Proof.
  intros [version id desired observed] (Hv & Hi & Hd).
  struct_ok DeserializableVmManifest_codec.
  cbn [Manifest.api_version manifest_id Manifest.desired Manifest.observed] in *.
  repeat field_ok. done.
Qed.

(** ** Whatever is decoded has the widths of its fields *)

Lemma ulid_codec_sound : codec_sound ulid_codec ulid_ok.
Proof. intros [| | | |s| |] u; try done. apply ulid_text_range. Qed.
#[local] Hint Resolve ulid_codec_sound : codec.

Lemma Compute_codec_sound : codec_sound Compute_codec compute_typed.
Proof. intros j c Hj. struct_inv Compute_codec Hj. split_and!; cbn; field_sound. Qed.

Lemma Storage_codec_sound : codec_sound Storage_codec storage_typed.
Proof. intros j s Hj. struct_inv Storage_codec Hj. unfold storage_typed; cbn; field_sound. Qed.

Lemma AffinityStrictness_codec_sound : codec_sound AffinityStrictness_codec strictness_typed.
Proof.
  intros j s Hj. unfold AffinityStrictness_codec in Hj. cbn [dec] in Hj.
  apply bind_Some in Hj as ([k v] & _ & Hj). case_bool_decide.
  { destruct (unit_payload v); by simplify_eq. }
  case_bool_decide; [|done]. apply bind_Some in Hj as (payload & _ & Hj).
  apply bind_Some in Hj as (vs & _ & Hj). destruct vs as [|weight [|]]; try done.
  apply bind_Some in Hj as (z & Hz & [= <-]). cbn. field_sound.
Qed.
#[local] Hint Resolve Compute_codec_sound Storage_codec_sound AffinityStrictness_codec_sound : codec.

Lemma AffinityRule_codec_sound : codec_sound AffinityRule_codec rule_typed.
Proof. intros j r Hj. struct_inv AffinityRule_codec Hj. unfold rule_typed; cbn; field_sound. Qed.
#[local] Hint Resolve AffinityRule_codec_sound : codec.

Lemma Placement_codec_sound : codec_sound Placement_codec placement_typed.
Proof. intros j p Hj. struct_inv Placement_codec Hj. unfold placement_typed; cbn; field_sound. Qed.

Lemma Vsock_codec_sound : codec_sound Vsock_codec vsock_typed.
Proof. intros j v Hj. struct_inv Vsock_codec Hj. unfold vsock_typed; cbn; field_sound. Qed.
#[local] Hint Resolve Placement_codec_sound Vsock_codec_sound : codec.

Lemma default_placement_typed : placement_typed default_placement.
Proof. apply Forall_nil_2. Qed.
#[local] Hint Resolve default_placement_typed : codec.

Lemma DesiredState_codec_sound : codec_sound DesiredState_codec desired_typed.
Proof.
  intros j d Hj. struct_inv DesiredState_codec Hj. split_and!; cbn; field_sound.
Qed.
#[local] Hint Resolve DesiredState_codec_sound : codec.

Lemma fields_codec_sound : codec_sound DeserializableVmManifest_codec manifest_typed.
Proof.
  intros j m Hj. struct_inv DeserializableVmManifest_codec Hj. split_and!; cbn; field_sound.
Qed.

Lemma manifest_from_json_inv j m :
  manifest_from_json j = Ok m → dec DeserializableVmManifest_codec j = Some m ∧ validate m = Ok ().
Proof.
  unfold manifest_from_json. destruct (dec _ j) as [fields|]; [|done].
  unfold deserialize. destruct (validate fields) as [[]|e] eqn:Hv; [|done]. cbn.
  intros [= ->]. done.
Qed.

Lemma manifest_to_from_json m :
  manifest_typed m → manifest_from_json (manifest_to_json m) =
  match validate m with Ok _ => Ok m | Err e => Err (Custom e) end.
Proof.
  intros Ht. unfold manifest_from_json, manifest_to_json. rewrite fields_codec_ok by done.
  unfold deserialize. by destruct (validate m) as [[]|].
Qed.

(** C18. What [Deserialize] accepts is a manifest. Whatever JSON value comes in,
    an accepted manifest has every integer within the width of its field and
    every ULID within 128 bits, and it satisfies the documented contract. *)
Theorem manifest_json_typed j m :
  manifest_from_json j = Ok m → manifest_typed m ∧ manifest_wf m.
Proof.
  intros [Hd Hv]%manifest_from_json_inv. split; [by apply fields_codec_sound in Hd|].
  by apply validate_wf.
Qed.

(** C15. A manifest survives the wire. For every manifest whose values have the
    widths of their fields, writing it out and reading it back gives that
    manifest when it validates and the validation's error when it does not;
    so whatever was read once, written and read again, is the same manifest. *)
Theorem manifest_json_roundtrip :
  (∀ m, manifest_typed m →
     manifest_from_json (manifest_to_json m) =
     match validate m with Ok _ => Ok m | Err e => Err (Custom e) end) ∧
  (∀ j m, manifest_from_json j = Ok m → manifest_from_json (manifest_to_json m) = Ok m).
Proof.
  split; [apply manifest_to_from_json|]. intros j m [Hd Hv]%manifest_from_json_inv.
  apply fields_codec_sound in Hd as Ht. by rewrite manifest_to_from_json, Hv.
Qed.
End laws.
