(* ===== verification/ManifestSchema.v ===== *)
(** * The shape of an accepted manifest

    [deny_unknown_fields] of [odorobo/src/manifest.rs]: the fields the contract
    names as a schema, and that every JSON value [Deserialize for VmManifest]
    accepts keeps to it. Every struct of the manifest denies unknown fields; the
    one place that does not is the payload of a [preferred] strictness, since
    [AffinityStrictness] lacks the attribute. *)

From S2P Require Import Prelude RustString RustFloat Manifest Json ManifestJson.
Open Scope N_scope.

(** What may occur in a value: anything; [null]; the fields of a struct, by name
    or by position, a closed one having no others; a variant of an enum, by its
    name or with its payload under its name; the elements of a vector; a value or
    [null]. *)
Inductive Schema :=
| SAny
| SNull
| SStruct (closed : bool) (fields : list (rstring * Schema))
| STag (variants : list (rstring * Schema))
| SVec (elem : Schema)
| SOption (value : Schema).

Fixpoint conforms (s : Schema) (j : Json) : bool :=
  match s with
  | SAny => true
  | SNull => match j with JNull => true | _ => false end
  | SStruct closed fields =>
      match j with
      | JObj kvs =>
          bool_decide (NoDup (filter (λ k, k ∈ fields.*1) kvs.*1)) &&
          forallb (λ kv, negb closed && bool_decide (kv.1 ∉ fields.*1) ||
            existsb (λ f, bool_decide (f.1 = kv.1) && conforms f.2 kv.2) fields) kvs
      | JArr l =>
          (fix go fields l := match fields, l with
             | _, [] => true
             | [], _ :: _ => false
             | f :: fields, x :: l => conforms f.2 x && go fields l
             end) fields l
      | _ => false
      end
  | STag variants =>
      match j with
      | JStr k => bool_decide (k ∈ variants.*1)
      | JObj [(k, v)] => existsb (λ f, bool_decide (f.1 = k) && conforms f.2 v) variants
      | _ => false
      end
  | SVec elem => match j with JArr l => forallb (conforms elem) l | _ => false end
  | SOption value => match j with JNull => true | _ => conforms value j end
  end.

Definition struct_of (names : list (string * Schema)) : Schema :=
  SStruct true ((λ f, (lit f.1, f.2)) <$> names).
Definition any_fields (names : list string) : Schema := struct_of ((λ n, (n, SAny)) <$> names).

(** The contract, struct by struct. The weight of a preference is read from an
    open struct. *)
Definition strictness_schema : Schema :=
  STag [(lit "required", SNull); (lit "preferred", SStruct false [(lit "weight", SAny)])].
Definition requirement_schema : Schema := any_fields ["key"; "table"; "operator"; "values"]%string.
Definition rule_schema : Schema := struct_of
  [("strictness", strictness_schema); ("affinity_type", SAny); ("inverse", SAny);
   ("requirements", SVec requirement_schema)]%string.
Definition placement_schema : Schema := struct_of
  [("node", SAny); ("required_labels", SAny); ("affinity", SVec rule_schema)]%string.
Definition desired_schema : Schema := struct_of
  [("metadata", any_fields ["name"; "labels"; "annotations"]);
   ("compute", any_fields ["vcpus"; "max_vcpus"; "memory_bytes"]);
   ("storage", SVec (any_fields ["id"; "uri"; "volume_id"; "read_only"]));
   ("networks", SVec (any_fields ["id"; "mac_address"]));
   ("placement", placement_schema);
   ("boot", any_fields ["start"; "firmware"; "kernel"; "cmdline"]);
   ("cloud_init", SOption (any_fields ["user_data"; "meta_data"]));
   ("vsock", SOption (any_fields ["guest_cid"; "socket"]))]%string.
Definition observed_schema : Schema :=
  any_fields ["status"; "node"; "cloud_hypervisor_state"; "error"]%string.
Definition manifest_schema : Schema := struct_of
  [("api_version", SAny); ("id", SAny); ("desired", desired_schema);
   ("observed", SOption observed_schema)]%string.

(** ** Decoding keeps to the schema *)

Definition keeps {A} (c : Codec A) (s : Schema) : Prop :=
  ∀ j a, dec c j = Some a → conforms s j = true.
Definition field_keeps (s : Schema) (v : option Json) : Prop :=
  ∀ j, v = Some j → conforms s j = true.

Lemma keeps_any {A} (c : Codec A) : keeps c SAny.
Proof. done. Qed.

Lemma keeps_vec {A} (c : Codec A) s : keeps c s → keeps (vec_codec c) (SVec s).
Proof.
  intros Hc [| | | | |js|] l; try done. cbn. intros Hl%mapM_Some.
  induction Hl as [|j a js l Hj _ IH]; cbn; [done|].
  by rewrite (Hc _ _ Hj), IH.
Qed.

Lemma required_keeps {A} (c : Codec A) s v a :
  keeps c s → required c v = Some a → field_keeps s v.
Proof. intros Hc Hv j ->. by eapply Hc. Qed.
Lemma defaulted_keeps {A} (c : Codec A) s d v a :
  keeps c s → defaulted c d v = Some a → field_keeps s v.
Proof. intros Hc Hv j ->. by eapply Hc. Qed.
Lemma optional_keeps {A} (c : Codec A) s v o :
  keeps c s → optional c v = Some o → field_keeps (SOption s) v.
Proof.
  intros Hc Hv j ->. destruct j; try done; cbn [conforms]; cbn in Hv;
    apply fmap_Some in Hv as (a & Hv & _); by eapply Hc.
Qed.

Lemma assoc_first (kvs : list (rstring * Json)) k v :
  (k, v) ∈ kvs → ∀ names : list rstring, k ∈ names → NoDup (filter (λ k, k ∈ names) kvs.*1) → assoc k kvs = Some v.
Proof.
  intros Hin names Hk. revert Hin. unfold assoc.
  induction kvs as [|[k' v'] kvs IH]; cbn; [by intros ?%not_elem_of_nil|].
  intros [[= -> ->]|Hin]%elem_of_cons Hnd; [by rewrite bool_decide_eq_true_2|].
  rewrite bool_decide_eq_false_2.
  - apply IH; [done|]. case_decide; [by apply NoDup_cons in Hnd as []|done].
  - intros ->. rewrite decide_True in Hnd by done. apply NoDup_cons in Hnd as [Hno _].
    apply Hno, list_elem_of_filter. split; [done|]. by apply (list_elem_of_fmap_2 fst) in Hin.
Qed.

(** A struct keeps to its schema when each of its fields does. *)
Lemma struct_keeps closed fields j vs :
  struct_fields closed fields.*1 j = Some vs →
  Forall2 (λ f v, field_keeps f.2 v) fields vs →
  conforms (SStruct closed fields) j = true.
Proof.
  intros Hj Hf. destruct j as [| | | | |l|kvs]; try done; cbn in Hj.
  - case_bool_decide as Hlen; [|done]. injection Hj as <-. cbn. rewrite length_fmap in *.
    revert l Hlen Hf. induction fields as [|f fields IH]; intros [|x l] Hlen Hf; try done.
    { cbn in Hlen. lia. }
    apply Forall2_cons_1 in Hf as [Hx Hf]. cbn in Hlen, Hf. rewrite (Hx x) by done.
    apply IH; [lia|done].
  - destruct (_ && _) eqn:E; [|done]. injection Hj as <-.
    apply andb_true_iff in E as [Hnd Hall]. cbn. rewrite Hnd. apply bool_decide_eq_true in Hnd. cbn.
    apply forallb_forall. intros [k v] Hin%list_elem_of_In. cbn.
    destruct (decide (k ∈ fields.*1)) as [Hk|Hk].
    2: { rewrite bool_decide_eq_true_2 by done. destruct closed; [|done]. cbn in Hall.
         apply bool_decide_eq_true in Hall. rewrite Forall_forall in Hall. destruct Hk.
         apply Hall. by apply (list_elem_of_fmap_2 fst) in Hin. }
    apply orb_true_intro. right. pose proof (assoc_first _ _ _ Hin _ Hk Hnd) as Ha.
    apply list_elem_of_fmap in Hk as ([k' s] & Hk' & Hin'). cbn in Hk'. subst k'.
    apply existsb_exists. exists (k, s). rewrite <-list_elem_of_In. split; [done|].
    cbn. rewrite bool_decide_eq_true_2 by done. cbn.
    rewrite !Forall2_fmap_r in Hf. apply list_elem_of_lookup in Hin' as [i Hi].
    by apply (Forall2_lookup_lr _ _ _ _ _ _ Hf Hi Hi).
Qed.

Tactic Notation "keeps_inv" reference(codec) ident(Hj) :=
  unfold codec in Hj; cbn [dec] in Hj;
  let vs := fresh "vs" in let Hvs := fresh "Hvs" in
  apply bind_Some in Hj as (vs & Hvs & Hj);
  repeat (case_match; [|done || idtac]; try done);
  repeat (let E := fresh "E" in apply bind_Some in Hj as (? & E & Hj));
  eapply struct_keeps; [exact Hvs|].

Ltac field_keep :=
  first [ eapply required_keeps; [|eassumption] | eapply optional_keeps; [|eassumption]
        | eapply defaulted_keeps; [|eassumption] ]; eauto using keeps_any, keeps_vec with codec.
Ltac fields_keep := repeat (apply Forall2_cons; split; [cbn [snd]; field_keep|]); constructor.

Section keeps.
Context `{UlidText}.

Lemma Requirement_keeps : keeps AffinityRequirement_codec requirement_schema.
Proof. intros j a Hj. keeps_inv AffinityRequirement_codec Hj. fields_keep. Qed.

Lemma Strictness_keeps : keeps AffinityStrictness_codec strictness_schema.
Proof.
  intros j a Hj. cbn [dec AffinityStrictness_codec] in Hj. apply bind_Some in Hj as ([k v] & Ht & Hj).
  assert (∀ payload, k = lit "preferred" → v = Some payload →
    conforms (SStruct false [(lit "weight", SAny)]) payload = true) as Hp.
  { intros payload -> ->. rewrite bool_decide_eq_false_2, bool_decide_eq_true_2 in Hj by done.
    cbn [mbind option_bind] in Hj. apply bind_Some in Hj as (vs & Hvs & Hj).
    eapply struct_keeps; [exact Hvs|]. destruct vs as [|x [|]]; try done.
    apply Forall2_cons. split; [by intros ??|constructor]. }
  destruct j as [| | | |str| |[|[k' v'] [|]]]; try done; injection Ht as -> <-;
    (case_bool_decide as Hr; [|case_bool_decide as Hp'; [|done]]).
  - cbn. subst. by rewrite bool_decide_eq_true_2 by set_solver.
  - cbn. subst. by rewrite bool_decide_eq_true_2 by set_solver.
  - subst. destruct v'; try done.
  - subst. specialize (Hp v' eq_refl eq_refl). 
    change (existsb (λ f, bool_decide (f.1 = lit "preferred") && conforms f.2 v')
      [(lit "required", SNull); (lit "preferred", SStruct false [(lit "weight", SAny)])] = true).
    apply existsb_exists. eexists. split; [by right; left|]. cbn [fst snd]. by rewrite Hp.
Qed.

Lemma Rule_keeps : keeps AffinityRule_codec rule_schema.
Proof.
  intros j a Hj. pose proof Requirement_keeps. pose proof Strictness_keeps. keeps_inv AffinityRule_codec Hj. fields_keep.
Qed.

Lemma Placement_keeps : keeps Placement_codec placement_schema.
Proof. intros j a Hj. pose proof Rule_keeps. keeps_inv Placement_codec Hj. fields_keep. Qed.

Lemma Metadata_keeps : keeps Metadata_codec (any_fields ["name"; "labels"; "annotations"]%string).
Proof. intros j a Hj. keeps_inv Metadata_codec Hj. fields_keep. Qed.

Lemma Compute_keeps : keeps Compute_codec (any_fields ["vcpus"; "max_vcpus"; "memory_bytes"]%string).
Proof. intros j a Hj. keeps_inv Compute_codec Hj. fields_keep. Qed.

Lemma Storage_keeps :
  keeps Storage_codec (any_fields ["id"; "uri"; "volume_id"; "read_only"]%string).
Proof. intros j a Hj. keeps_inv Storage_codec Hj. fields_keep. Qed.

Lemma Network_keeps : keeps Network_codec (any_fields ["id"; "mac_address"]%string).
Proof. intros j a Hj. keeps_inv Network_codec Hj. fields_keep. Qed.

Lemma Boot_keeps : keeps Boot_codec (any_fields ["start"; "firmware"; "kernel"; "cmdline"]%string).
Proof. intros j a Hj. keeps_inv Boot_codec Hj. fields_keep. Qed.

Lemma CloudInit_keeps : keeps CloudInit_codec (any_fields ["user_data"; "meta_data"]%string).
Proof. intros j a Hj. keeps_inv CloudInit_codec Hj. fields_keep. Qed.

Lemma Vsock_keeps : keeps Vsock_codec (any_fields ["guest_cid"; "socket"]%string).
Proof. intros j a Hj. keeps_inv Vsock_codec Hj. fields_keep. Qed.

Lemma ObservedState_keeps : keeps ObservedState_codec observed_schema.
Proof. intros j a Hj. keeps_inv ObservedState_codec Hj. fields_keep. Qed.

#[local] Hint Resolve Placement_keeps Metadata_keeps Compute_keeps Storage_keeps Network_keeps
  Boot_keeps CloudInit_keeps Vsock_keeps ObservedState_keeps : codec.

Lemma DesiredState_keeps : keeps DesiredState_codec desired_schema.
Proof. intros j a Hj. keeps_inv DesiredState_codec Hj. fields_keep. Qed.
#[local] Hint Resolve DesiredState_keeps : codec.

Lemma fields_keeps : keeps DeserializableVmManifest_codec manifest_schema.
Proof. intros j a Hj. keeps_inv DeserializableVmManifest_codec Hj. fields_keep. Qed.

(** What [preferred] ignores. *)
Lemma preferred_ignores kvs k v :
  k ≠ lit "weight" →
  dec AffinityStrictness_codec (JObj [(lit "preferred", JObj (kvs ++ [(k, v)]))]) =
  dec AffinityStrictness_codec (JObj [(lit "preferred", JObj kvs)]).
Proof.
  intros Hk. cbn [dec AffinityStrictness_codec tag mbind option_bind].
  rewrite bool_decide_eq_false_2, bool_decide_eq_true_2 by done. cbn [struct_fields negb orb fmap list_fmap].
  rewrite fmap_app, filter_app. cbn [fmap list_fmap fst].
  assert (filter (λ k, k ∈ [lit "weight"]) [k] = []) as ->.
  { cbn. rewrite decide_False; [done|]. by rewrite list_elem_of_singleton. }
  rewrite app_nil_r.
  assert (assoc (lit "weight") (kvs ++ [(k, v)]) = assoc (lit "weight") kvs) as ->; [|done].
  unfold assoc. induction kvs as [|[k' v'] kvs IH]; cbn; [by rewrite bool_decide_eq_false_2 by done|].
  by case_bool_decide.
Qed.

(** C31. Fields the contract does not name are refused, except in one place. A
    JSON value that does not keep to the contract's schema (an unknown or
    repeated field in the manifest, the desired state, a storage attachment, an
    affinity rule or any other struct below it, an unknown variant of a
    strictness, an array longer than its struct, something else where a struct
    or a vector belongs) is not read as a manifest: [Deserialize] fails on it
    before any validation. The exception is the payload of a [preferred]
    strictness, whose enum lacks [deny_unknown_fields]: fields other than
    [weight] are ignored there. *)
Theorem manifest_unknown_fields :
  (∀ j, conforms manifest_schema j = false → manifest_from_json j = Err Malformed) ∧
  (∀ kvs k v, k ≠ lit "weight" →
    dec AffinityStrictness_codec (JObj [(lit "preferred", JObj (kvs ++ [(k, v)]))]) =
    dec AffinityStrictness_codec (JObj [(lit "preferred", JObj kvs)])).
Proof.
  split; [|intros; by apply preferred_ignores]. intros j Hj. unfold manifest_from_json.
  destruct (dec DeserializableVmManifest_codec j) as [m|] eqn:E; [|done].
  apply fields_keeps in E. congruence.
Qed.
End keeps.
