(* ===== verification/ManifestExamples.v ===== *)
(** * Concrete manifests

    A text codec for ULIDs that has the laws of [UlidTextLaws] (Crockford's
    base 32), the manifests of [docs/fixtures/manifest], and the theorems on
    the wire format applied to them. *)

From S2P Require Import Prelude RustString RustFloat Manifest Json ManifestJson ManifestSchema.
Open Scope N_scope.

(** ** Crockford's base 32 *)

Definition alphabet : rstring := lit "0123456789ABCDEFGHJKMNPQRSTVWXYZ".
Definition b32_char (d : N) : N := default 48 (alphabet !! N.to_nat d).
Definition b32_digit (c : N) : option N := (N.of_nat ∘ fst) <$> list_find (c =.) alphabet.

Fixpoint b32_digits (n : nat) (u : N) (acc : list N) : list N :=
  match n with
  | O => acc
  | S n => b32_digits n (u / 32) (u mod 32 :: acc)
  end.
Definition b32_value (a : N) (ds : list N) : N := foldl (λ a d, a * 32 + d) a ds.

#[export] Instance crockford : UlidText := {|
  ulid_to_string u := b32_char <$> b32_digits 26 u [];
  ulid_from_string s :=
    ds ← mapM b32_digit s;
    if (length s =? 26)%nat && (b32_value 0 ds <? 2 ^ 128) then Some (b32_value 0 ds) else None |}.

Lemma b32_digits_spec n u acc :
  b32_value 0 (b32_digits n u acc) = b32_value (u mod 32 ^ N.of_nat n) acc ∧
  length (b32_digits n u acc) = (n + length acc)%nat ∧
  (Forall (λ d, d < 32) acc → Forall (λ d, d < 32) (b32_digits n u acc)).
Proof.
  revert u acc. induction n as [|n IH]; intros u acc; cbn [b32_digits].
  { cbn. rewrite N.mod_1_r. done. }
  destruct (IH (u / 32) (u mod 32 :: acc)) as (-> & -> & HF). split_and!.
  - unfold b32_value. cbn [foldl]. f_equal. rewrite Nat2N.inj_succ, N.pow_succ_r'.
    rewrite (N.mul_comm 32), N.mul_comm. rewrite (N.mul_comm _ 32).
    rewrite N.Div0.mod_mul_r. lia.
  - cbn. lia.
  - intros Ha. apply HF. constructor; [apply N.mod_lt; lia|done].
Qed.

Lemma b32_char_spec d :
  d < 32 → b32_digit (b32_char d) = Some d ∧ is_ascii_alphanumeric (b32_char d) = true.
Proof.
  intros Hd. assert (d ∈ N.of_nat <$> seq 0 32) as Hin.
  { apply list_elem_of_fmap. exists (N.to_nat d). rewrite elem_of_seq. lia. }
  revert d Hd Hin. assert (Forall (λ d, b32_digit (b32_char d) = Some d ∧
    is_ascii_alphanumeric (b32_char d) = true) (N.of_nat <$> seq 0 32)) as HF.
  { apply (bool_decide_unpack _). vm_compute. exact I. }
  rewrite Forall_forall in HF. auto.
Qed.

#[export] Instance crockford_laws : UlidTextLaws.
Proof.
  assert (∀ u, Forall (λ d, d < 32) (b32_digits 26 u [])) as Hlt.
  { intros u. apply (b32_digits_spec 26 u []). constructor. }
  split.
  - intros u Hu. cbn [ulid_from_string ulid_to_string crockford].
    assert (mapM b32_digit (b32_char <$> b32_digits 26 u []) = Some (b32_digits 26 u [])) as ->.
    { apply mapM_Some, Forall2_fmap_l, Forall_Forall2_diag.
      eapply Forall_impl; [apply Hlt|]. intros d Hd. by apply b32_char_spec. }
    cbn [mbind option_bind]. destruct (b32_digits_spec 26 u []) as (Hv & Hl & _).
    rewrite length_fmap, Hl, Hv. unfold ulid_ok in Hu.
    rewrite (N.mod_small u) by (eapply N.lt_trans; [exact Hu|done]).
    change (b32_value u []) with u. by rewrite (proj2 (N.ltb_lt u (2 ^ 128)) Hu).
  - intros s u. cbn [ulid_from_string crockford]. intros (ds & _ & Hds)%bind_Some.
    destruct (_ && _) eqn:E; [|done]. injection Hds as <-.
    apply andb_true_iff in E as [_ E%N.ltb_lt]. exact E.
  - intros u. cbn [ulid_to_string crockford]. rewrite length_fmap.
    by destruct (b32_digits_spec 26 u []) as (_ & -> & _).
  - intros u. cbn [ulid_to_string crockford]. apply Forall_fmap.
    eapply Forall_impl; [apply Hlt|]. intros d Hd. by apply b32_char_spec.
Qed.

(** ** The fixtures *)

Definition obj (fields : list (string * Json)) : Json := JObj (prod_map lit id <$> fields).

Definition fixture (id name : string) (compute storage networks placement : Json) (start : bool)
    (rest : list (string * Json)) : Json := obj
  [("api_version", JInt 1); ("id", JStr (lit id));
   ("desired", obj
     ([("metadata", obj [("name", JStr (lit name)); ("labels", obj []); ("annotations", obj [])]);
       ("compute", compute); ("storage", storage); ("networks", networks);
       ("placement", placement); ("boot", obj [("start", JBool start)])] ++ rest))]%string.

Definition minimal_json : Json :=
  fixture "01J00000000000000000000000" "minimal"
    (obj [("vcpus", JInt 1); ("memory_bytes", JInt 536870912)]%string)
    (JArr []) (JArr []) (obj []) false [].

Definition storage_backed_json : Json :=
  fixture "01J00000000000000000000001" "storage-backed"
    (obj [("vcpus", JInt 2); ("max_vcpus", JInt 4); ("memory_bytes", JInt 4294967296)]%string)
    (JArr [obj [("id", JStr (lit "root")); ("uri", JStr (lit "rbd://vms/root"))];
           obj [("id", JStr (lit "data"));
                ("volume_id", JStr (lit "01J00000000000000000000002"))]]%string)
    (JArr []) (obj []) true [].

Definition networked_json : Json :=
  fixture "01J00000000000000000000003" "networked"
    (obj [("vcpus", JInt 2); ("memory_bytes", JInt 2147483648)]%string)
    (JArr [])
    (JArr [obj [("id", JStr (lit "net://private"));
                ("mac_address", JStr (lit "02:00:00:00:00:01"))]]%string)
    (obj [("node", JStr (lit "compute-a"))]%string) false [].

Definition vsock_json : Json :=
  fixture "01J00000000000000000000005" "vsock"
    (obj [("vcpus", JInt 4); ("memory_bytes", JInt 4294967296)]%string)
    (JArr []) (JArr []) (obj []) true
    [("vsock", obj [("guest_cid", JInt 42);
                    ("socket", JStr (lit "/run/odorobo/vms/vsock/vsock.sock"))])]%string.

Definition read (j : Json) : VmManifest :=
  match manifest_from_json j with Ok m => m | Err _ => minimal_manifest 0 0 0 end.

Example fixtures_accepted :
  Forall (λ j, manifest_from_json j = Ok (read j))
    [minimal_json; storage_backed_json; networked_json; vsock_json].
Proof. repeat constructor; vm_compute; reflexivity. Qed.

(** The manifest of [storage-backed.json]. *)
Example manifest_json_typed_witness :
  manifest_from_json storage_backed_json = Ok (read storage_backed_json) ∧
  manifest_typed (read storage_backed_json) ∧ manifest_wf (read storage_backed_json).
Proof.
  assert (manifest_from_json storage_backed_json = Ok (read storage_backed_json)) as Hj
    by (vm_compute; reflexivity).
  split; [exact Hj|]. exact (manifest_json_typed storage_backed_json _ Hj).
Defined.

(** It is written out and read again. *)
Example manifest_json_roundtrip_witness :
  manifest_from_json (manifest_to_json (read storage_backed_json)) = Ok (read storage_backed_json).
Proof.
  apply (proj2 manifest_json_roundtrip storage_backed_json). vm_compute. reflexivity.
Defined.

(** [minimal.json] with an extra field in a storage attachment. *)
Definition extra_field_json : Json :=
  fixture "01J00000000000000000000000" "minimal"
    (obj [("vcpus", JInt 1); ("memory_bytes", JInt 536870912)]%string)
    (JArr [obj [("id", JStr (lit "root")); ("uri", JStr (lit "rbd://vms/root"));
                ("extra", JBool true)]]%string)
    (JArr []) (obj []) false [].

(** A strictness with its weight and another field. *)
Definition preferred_json (rest : list (rstring * Json)) : Json :=
  JObj [(lit "preferred", JObj ([(lit "weight", JInt 5)] ++ rest))].

Example manifest_unknown_fields_witness :
  conforms manifest_schema extra_field_json = false ∧
  conforms manifest_schema minimal_json = true ∧
  manifest_from_json extra_field_json = Err Malformed ∧
  dec AffinityStrictness_codec (preferred_json [(lit "extra", JInt 1)]) = Some (Preferred 5).
Proof.
  split; [vm_compute; reflexivity|]. split; [vm_compute; reflexivity|]. split.
  - apply (proj1 manifest_unknown_fields extra_field_json). vm_compute. reflexivity.
  - etransitivity; [|exact (eq_refl : dec AffinityStrictness_codec (preferred_json []) = _)].
    apply (proj2 manifest_unknown_fields). vm_compute. discriminate.
Defined.

(** A whole manifest with such a rule is accepted; with the extra field in the
    rule itself it is not. *)
Definition affine_json (strictness : Json) (rest : list (string * Json)) : Json :=
  fixture "01J00000000000000000000000" "minimal"
    (obj [("vcpus", JInt 1); ("memory_bytes", JInt 536870912)]%string) (JArr []) (JArr [])
    (obj [("affinity", JArr [obj ([("strictness", strictness);
       ("affinity_type", JStr (lit "agent"));
       ("requirements", JArr [obj [("key", JStr (lit "zone")); ("table", JStr (lit "label"));
          ("operator", JStr (lit "in")); ("values", JArr [JStr (lit "a")])]])] ++ rest)])]%string)
    false [].
Example preferred_extra_accepted :
  is_some (ok (manifest_from_json (affine_json (preferred_json []) []))) = true ∧
  is_some (ok (manifest_from_json (affine_json (preferred_json [(lit "extra", JInt 1)]) []))) = true ∧
  manifest_from_json (affine_json (preferred_json []) [("extra", JInt 1)]%string) = Err Malformed.
Proof. vm_compute. split_and!; reflexivity. Qed.

(** A VM that boots from its only storage, which is read-only, is accepted. *)
Example read_only_boot_accepted :
  is_some (ok (manifest_from_json
    (fixture "01J00000000000000000000000" "read-only"
      (obj [("vcpus", JInt 1); ("memory_bytes", JInt 536870912)]%string)
      (JArr [obj [("id", JStr (lit "root")); ("uri", JStr (lit "rbd://vms/root"));
                  ("read_only", JBool true)]]%string)
      (JArr []) (obj []) true []))) = true.
Proof. vm_compute. reflexivity. Qed.

(** A manifest of another version is well formed and refused by the validation. *)
Example other_version_refused :
  manifest_from_json (obj
    [("api_version", JInt 2); ("id", JStr (lit "01J00000000000000000000000"));
     ("desired", obj
       [("metadata", obj [("name", JStr (lit "minimal"))]);
        ("compute", obj [("vcpus", JInt 1); ("memory_bytes", JInt 1)]);
        ("boot", obj [])])]%string) = Err (Custom (UnsupportedVersion 2)).
Proof. vm_compute. reflexivity. Qed.
