(* ===== verification/Messages.v ===== *)
(** * Messages exchanged by the actors

    The VM messages of [odorobo/src/messages/vm.rs], those to the network
    actor, and the revisioned agent status of [odorobo/src/messages/agent.rs], with [apply_status_update] and
    its effect on the sorted VM list of a snapshot. *)

From S2P Require Import Prelude RustString SortedVec Manifest.
Open Scope N_scope.

(** ** VM messages *)

Record CreateVM := { create_vmid : Ulid; create_config : VmManifest }.

(** [actor_id] is the serialized identity of the VM actor. *)
Record CreateVMReply := {
  reply_config : option VmManifest;
  reply_actor_id : option (list N) }.

Record MigrateVMReceive := { migrate_vmid : Ulid; migrate_config : VmManifest }.
Record MigrateVMReceiveReply := {
  listening_address : rstring;
  migrate_error : option rstring }.
Record GetVMInfoReply := { info_vmid : Ulid; info_config : option VmManifest }.

(** ** Network messages *)

(** The requests of [odorobo/src/networking/messages.rs] to the network actor. *)
Record AttachTap := { attach_vmid : Ulid; attach_tap_name : rstring }.
Record DetachTap := { detach_vmid : Ulid; detach_tap_name : rstring }.

(** ** Agent status *)

Record ObjectMetadata := {
  object_labels : gmap rstring rstring;
  object_annotations : gmap rstring rstring }.

Record GetAgentStatus := { since_revision : N; initial : bool }.

Record AgentStatus := {
  status_hostname : rstring;
  status_vcpus : N;
  status_ram : N;
  status_used_vcpus : N;
  status_used_ram : N;
  status_vms : list Ulid;
  status_metadata : ObjectMetadata }.

Inductive AgentStatusUpdate :=
| Full (revision : N) (status : AgentStatus)
| Delta (revision : N) (added removed : list Ulid) (used_vcpus used_ram : N).

Definition update_revision (u : AgentStatusUpdate) : N :=
  match u with Full revision _ | Delta revision _ _ _ _ => revision end.

Record MembershipChange := {
  change_revision : N;
  change_vmid : Ulid;
  change_added : bool }.

Definition STATUS_CHANGE_HISTORY_LIMIT : nat := 256.

(** The VM list of a snapshot after a delta: removals, then insertions. *)
Definition apply_delta_vms (added removed vms : list Ulid) : list Ulid :=
  foldl (λ vms vmid, sorted_insert vmid vms)
    (foldl (λ vms vmid, sorted_remove vmid vms) vms removed) added.

Definition apply_status_update (status : AgentStatus) (update : AgentStatusUpdate) : AgentStatus * N :=
  match update with
  | Full revision next => (next, revision)
  | Delta revision added removed used_vcpus used_ram =>
      ({| status_hostname := status_hostname status;
          status_vcpus := status_vcpus status;
          status_ram := status_ram status;
          status_used_vcpus := used_vcpus;
          status_used_ram := used_ram;
          status_vms := apply_delta_vms added removed (status_vms status);
          status_metadata := status_metadata status |}, revision)
  end.

(** ** Applying a delta *)

Lemma foldl_sorted_remove l vms :
  sorted_strict vms →
  sorted_strict (foldl (λ vms vmid, sorted_remove vmid vms) vms l) ∧
  ∀ y, y ∈ foldl (λ vms vmid, sorted_remove vmid vms) vms l ↔ y ∈ vms ∧ y ∉ l.
Proof.
  revert vms; induction l as [|x l IH]; intros vms Hs; cbn; [set_solver|].
  destruct (sorted_remove_spec x vms Hs) as [Hs' He].
  destruct (IH _ Hs') as [Hs'' He']. split; [done|]. intros y. rewrite He', He. set_solver.
Qed.

Lemma foldl_sorted_insert l vms :
  sorted_strict vms →
  sorted_strict (foldl (λ vms vmid, sorted_insert vmid vms) vms l) ∧
  ∀ y, y ∈ foldl (λ vms vmid, sorted_insert vmid vms) vms l ↔ y ∈ vms ∨ y ∈ l.
Proof.
  revert vms; induction l as [|x l IH]; intros vms Hs; cbn; [set_solver|].
  destruct (IH _ (sorted_insert_sorted x vms Hs)) as [Hs' He]. split; [done|].
  intros y. rewrite He, sorted_insert_elem_of by done. set_solver.
Qed.

(** The VM list stays sorted, and holds what was there and not removed, and
    what was added. *)
Lemma apply_delta_vms_spec added removed vms :
  sorted_strict vms →
  sorted_strict (apply_delta_vms added removed vms) ∧
  ∀ y, y ∈ apply_delta_vms added removed vms ↔ (y ∈ vms ∧ y ∉ removed) ∨ y ∈ added.
Proof.
  intros Hs. unfold apply_delta_vms.
  destruct (foldl_sorted_remove removed vms Hs) as [Hs1 He1].
  destruct (foldl_sorted_insert added _ Hs1) as [Hs2 He2]. split; [done|].
  intros y. by rewrite He2, He1.
Qed.
