(* ===== verification/Config.v ===== *)
(** * Node configuration

    The data and accessors of [odorobo/src/config.rs]. The system host name is
    an argument of [get_hostname]; the JSON file is the subject of
    [ConfigJson.v]. *)

From S2P Require Import Prelude RustString.
Open Scope N_scope.

(** An IPv4 network: its address and prefix length. *)
Record Ipv4Net := { net_addr : N; net_prefix_len : N }.

Record DhcpConfig := {
  dhcp_range : N * N;
  dhcp_subnet : Ipv4Net;
  dhcp_lease_time : rstring }.

Inductive NetworkMode :=
| HostonlyNat (bridge : rstring) (subnet : Ipv4Net) (gateway : N) (upstream_iface : rstring)
| Bridged (bridge : rstring) (subnet : Ipv4Net) (gateway : N).

Record NetworkConfig := {
  dhcp_config : option DhcpConfig;
  network_mode : NetworkMode }.

Record Config := {
  manager_enabled : option bool;
  hostname : option rstring;
  datacenter : option rstring;
  region : option rstring;
  sentry_dsn : option rstring;
  reserved_vcpus : option N;
  config_labels : gmap rstring rstring;
  config_annotations : gmap rstring rstring;
  network : NetworkConfig;
  no_lockfile : option bool }.

Definition default_bridge_name : rstring := lit "vmbr0".
Definition default_subnet : Ipv4Net := {| net_addr := 167772160; net_prefix_len := 24 |}.
Definition default_gateway : N := 167772161.

Definition get_manager_enabled (c : Config) : bool := default false (manager_enabled c).
Definition get_hostname (host_name : option rstring) (c : Config) : rstring :=
  default (default (lit "odorobo") host_name) (hostname c).
Definition get_datacenter (c : Config) : rstring := default (lit "Dev") (datacenter c).
Definition get_region (c : Config) : rstring := default (lit "Local") (region c).
Definition get_reserved_vcpus (c : Config) : N := default 2 (reserved_vcpus c).

(** [NetworkMode::default], with the interface inferred from the routes. *)
Definition default_network_mode (upstream_iface : rstring) : NetworkMode :=
  HostonlyNat default_bridge_name default_subnet default_gateway upstream_iface.

(** [default_upstream_iface] on the output of [ip route]: [None] when the
    command cannot be run, [Some None] when it does not print UTF-8. *)
Definition default_upstream_iface (output : option (option rstring)) : rstring :=
  match output with
  | None | Some None => lit "eth0"
  | Some (Some output) =>
      match list_find (λ line, starts_with line (lit "default") = true) (lines output)
            ≫= λ '(_, line), split_whitespace line !! 4%nat with
      | Some iface => iface
      | None => lit "eth0"
      end
  end.

(** On a route through a gateway the interface is the fifth word; on a
    default route without one, the fifth word is something else. *)
Example upstream_iface_gateway :
  default_upstream_iface (Some (Some (lit "10.0.0.0/24 dev eno1 scope link" ++ [10] ++
    lit "default via 192.168.1.1 dev eno1 proto dhcp metric 100" ++ [10]))) = lit "eno1".
Proof. reflexivity. Qed.
Example upstream_iface_without_gateway :
  default_upstream_iface (Some (Some (lit "default dev wg0 scope link" ++ [10]))) = lit "link".
Proof. reflexivity. Qed.
