(* ===== verification/Agent.v ===== *)
(** * The agent actor

    [odorobo/src/actors/agent_actor.rs]: the per-node registry of VM actors,
    its usage counters, the bounded membership history and the revisioned
    status it answers [GetAgentStatus] with. Each message handler is a
    definition; what the actor runtime decides (the identity of a spawned
    actor, the outcome of an [ask] or [tell], a registry lookup, the iteration
    order of a hash map) is an argument. A run of the actor is a list of
    events. *)

From S2P Require Import Prelude RustString SortedVec Manifest Messages Config.
Open Scope N_scope.

(** ** State *)

Record VMCacheData := {
  cache_actor_ref : ActorId;
  cache_config : VmManifest;
  cache_vcpus : N;
  cache_memory_bytes : N }.

Record AgentActor := {
  agent_vcpus : N;
  agent_memory : N;
  used_vcpus : N;
  used_memory_bytes : N;
  membership_revision : N;
  status_history : list MembershipChange;
  agent_config : Config;
  vms : gmap Ulid VMCacheData;
  agent_metadata : ObjectMetadata }.

(** [on_start], given what [sysinfo] reports. *)
Definition agent_on_start (config : Config) (cpus total_memory : N) : AgentActor := {|
  agent_vcpus := N.min u32_max cpus;
  agent_memory := total_memory;
  used_vcpus := 0;
  used_memory_bytes := 0;
  membership_revision := 0;
  status_history := [];
  agent_config := config;
  vms := ∅;
  agent_metadata := {| object_labels := ∅; object_annotations := ∅ |} |}.

Definition set_membership (st : AgentActor) (rev : N) (h : list MembershipChange) : AgentActor := {|
  agent_vcpus := agent_vcpus st; agent_memory := agent_memory st;
  used_vcpus := used_vcpus st; used_memory_bytes := used_memory_bytes st;
  membership_revision := rev; status_history := h;
  agent_config := agent_config st; vms := vms st; agent_metadata := agent_metadata st |}.

Definition set_vms (st : AgentActor) (m : gmap Ulid VMCacheData) : AgentActor := {|
  agent_vcpus := agent_vcpus st; agent_memory := agent_memory st;
  used_vcpus := used_vcpus st; used_memory_bytes := used_memory_bytes st;
  membership_revision := membership_revision st; status_history := status_history st;
  agent_config := agent_config st; vms := m; agent_metadata := agent_metadata st |}.

Definition set_usage (st : AgentActor) (cpu mem : N) : AgentActor := {|
  agent_vcpus := agent_vcpus st; agent_memory := agent_memory st;
  used_vcpus := cpu; used_memory_bytes := mem;
  membership_revision := membership_revision st; status_history := status_history st;
  agent_config := agent_config st; vms := vms st; agent_metadata := agent_metadata st |}.

(** ** Membership and usage *)

(** [while len > LIMIT { pop_front() }] *)
Fixpoint pop_excess (h : list MembershipChange) : list MembershipChange :=
  match h with
  | [] => []
  | _ :: h' => if Nat.ltb STATUS_CHANGE_HISTORY_LIMIT (length h) then pop_excess h' else h
  end.

Definition record_membership_change (st : AgentActor) (vmid : Ulid) (added : bool) : AgentActor :=
  let rev := u64_saturating_add (membership_revision st) 1 in
  set_membership st rev
    (pop_excess (status_history st ++
       [{| change_revision := rev; change_vmid := vmid; change_added := added |}])).

Definition insert_vm (st : AgentActor) (vmid : Ulid) (cache : VMCacheData) : AgentActor :=
  let previous := vms st !! vmid in
  let st := set_vms st (<[vmid := cache]> (vms st)) in
  let st := match previous with
            | Some p => set_usage st (saturating_sub (used_vcpus st) (cache_vcpus p))
                          (saturating_sub (used_memory_bytes st) (cache_memory_bytes p))
            | None => record_membership_change st vmid true
            end in
  set_usage st (u32_saturating_add (used_vcpus st) (cache_vcpus cache))
    (u64_saturating_add (used_memory_bytes st) (cache_memory_bytes cache)).

Definition remove_vm (st : AgentActor) (vmid : Ulid) : AgentActor * option VMCacheData :=
  match vms st !! vmid with
  | None => (st, None)
  | Some removed =>
      let st := set_vms st (delete vmid (vms st)) in
      let st := record_membership_change st vmid false in
      (set_usage st (saturating_sub (used_vcpus st) (cache_vcpus removed))
         (saturating_sub (used_memory_bytes st) (cache_memory_bytes removed)), Some removed)
  end.

(** ** Message handlers *)

(** What a handler asks of the actor runtime, in order. *)
Inductive AgentEffect :=
| SpawnVm (actor : ActorId) (vmid : Ulid) (config : option VmManifest)
| RegisterVm (actor : ActorId) (vmid : Ulid)
| TellDelete (actor : ActorId) (vmid : Ulid)
| TellShutdown (actor : ActorId) (vmid : Ulid)
| KillVm (actor : ActorId)
| ForwardVmInfo (actor : ActorId) (vmid : Ulid).

Section handlers.
(** [ActorId::to_bytes] of the actor runtime. *)
Context (to_bytes : ActorId → list N).

Definition agent_on_link_died `{IterOrder} (st : AgentActor) (id : ActorId) : AgentActor :=
  let removed := (filter (λ p : N * VMCacheData, cache_actor_ref p.2 = id) (iter_map (vms st))).*1 in
  foldl (λ st vmid, (remove_vm st vmid).1) st removed.

Definition cache_entry (actor : ActorId) (config : VmManifest) : VMCacheData := {|
  cache_actor_ref := actor;
  cache_config := config;
  cache_vcpus := compute_vcpus (compute (desired config));
  cache_memory_bytes := compute_memory_bytes (compute (desired config)) |}.

Definition agent_create_vm (st : AgentActor) (msg : CreateVM) (actor : ActorId)
    : AgentActor * CreateVMReply * list AgentEffect :=
  let vmid := create_vmid msg in
  match vms st !! vmid with
  | Some existing =>
      (st, {| reply_config := Some (cache_config existing);
              reply_actor_id := Some (to_bytes (cache_actor_ref existing)) |}, [])
  | None =>
      (insert_vm st vmid (cache_entry actor (create_config msg)),
       {| reply_config := Some (create_config msg); reply_actor_id := Some (to_bytes actor) |},
       [SpawnVm actor vmid (Some (create_config msg)); RegisterVm actor vmid])
  end.

(** [asked] is the outcome of asking the new actor to receive; [Err] holds
    the rendered send error. *)
Definition agent_migrate_vm_receive (st : AgentActor) (msg : MigrateVMReceive) (actor : ActorId)
    (asked : result rstring MigrateVMReceiveReply)
    : AgentActor * MigrateVMReceiveReply * list AgentEffect :=
  let vmid := migrate_vmid msg in
  let st := insert_vm st vmid (cache_entry actor (migrate_config msg)) in
  let reply := match asked with
               | Ok reply => reply
               | Err error =>
                   {| listening_address := [];
                      migrate_error := Some (lit "failed to start migration receiver: " ++ error) |}
               end in
  let spawn := [SpawnVm actor vmid None; RegisterVm actor vmid] in
  match migrate_error reply with
  | Some _ =>
      let st := match vms st !! vmid with
                | Some cache => if cache_actor_ref cache =? actor then (remove_vm st vmid).1 else st
                | None => st
                end in
      (st, reply, spawn ++ [KillVm actor])
  | None => (st, reply, spawn)
  end.

(** [told] is whether the [tell] to the VM actor succeeded. *)
Definition agent_delete_vm (st : AgentActor) (vmid : Ulid) (told : bool)
    : AgentActor * list AgentEffect :=
  match remove_vm st vmid with
  | (st, Some cache_data) =>
      (st, TellDelete (cache_actor_ref cache_data) vmid ::
           if told then [] else [KillVm (cache_actor_ref cache_data)])
  | (st, None) => (st, [])
  end.

(** [found] is the registry lookup of the VM actor's name. *)
Definition agent_shutdown_vm (vmid : Ulid) (found : option ActorId)
    : result rstring () * list AgentEffect :=
  match found with
  | Some actor => (Ok (), [TellShutdown actor vmid])
  | None => (Err (lit "VM actor not found for shutdown"), [])
  end.

(** [inr] is the forwarded request; [inl] an immediate reply. *)
Definition agent_get_vm_info (vmid : option Ulid) (found : option ActorId)
    : GetVMInfoReply + AgentEffect :=
  match vmid with
  | None => inl {| info_vmid := 0; info_config := None |}
  | Some vmid =>
      match found with
      | None => inl {| info_vmid := vmid; info_config := None |}
      | Some actor => inr (ForwardVmInfo actor vmid)
      end
  end.

Definition agent_list_vms `{IterOrder} (st : AgentActor) : list Ulid := iter_keys (vms st).
End handlers.

(** ** Status replies *)

Section status.
Context `{IterOrder} (host_name : option rstring).

Definition reported_vcpus (st : AgentActor) : N :=
  u32_saturating_add (used_vcpus st) (get_reserved_vcpus (agent_config st)).

Definition full_status (st : AgentActor) : AgentStatus := {|
  status_hostname := get_hostname host_name (agent_config st);
  status_vcpus := agent_vcpus st;
  status_ram := agent_memory st;
  status_used_vcpus := reported_vcpus st;
  status_used_ram := used_memory_bytes st;
  status_vms := sort_unstable (iter_keys (vms st));
  status_metadata := agent_metadata st |}.

(** The last change of each VM in a list of changes. *)
Definition latest_changes (changes : list MembershipChange) : gmap Ulid bool :=
  foldl (λ m c, <[change_vmid c := change_added c]> m) ∅ changes.

Definition latest_vmids (flag : bool) (m : gmap Ulid bool) : list Ulid :=
  sort_unstable (filter (λ p : N * bool, p.2 = flag) (iter_map m)).*1.

Definition agent_get_status (st : AgentActor) (msg : GetAgentStatus) : AgentStatusUpdate :=
  if initial msg
     || (membership_revision st <? since_revision msg)
     || match status_history st with
        | change :: _ => u64_saturating_add (since_revision msg) 1 <? change_revision change
        | [] => false
        end
  then Full (membership_revision st) (full_status st)
  else
    let latest := latest_changes
      (filter (λ c, since_revision msg < change_revision c) (status_history st)) in
    Delta (membership_revision st) (latest_vmids true latest) (latest_vmids false latest)
      (reported_vcpus st) (used_memory_bytes st).
End status.

(** ** Runs *)

(** A message or notification that can change the state, with the runtime's
    choices it meets. *)
Inductive AgentEvent :=
| EvCreate (msg : CreateVM) (actor : ActorId)
| EvMigrate (msg : MigrateVMReceive) (actor : ActorId) (asked : result rstring MigrateVMReceiveReply)
| EvDelete (vmid : Ulid) (told : bool)
| EvLinkDied (order : IterOrder) (id : ActorId).

Definition agent_handle (st : AgentActor) (e : AgentEvent) : AgentActor :=
  match e with
  | EvCreate msg actor => (agent_create_vm (λ _, []) st msg actor).1.1
  | EvMigrate msg actor asked => (agent_migrate_vm_receive st msg actor asked).1.1
  | EvDelete vmid told => (agent_delete_vm st vmid told).1
  | EvLinkDied order id => agent_on_link_died st id
  end.

Definition agent_run (st : AgentActor) (es : list AgentEvent) : AgentActor := foldl agent_handle st es.

(** ** The membership log

    Between two states of a run lies a log of membership changes: it accounts
    for the revision, for the history and for the set of VMs. *)

Lemma pop_excess_lastn h : pop_excess h = lastn STATUS_CHANGE_HISTORY_LIMIT h.
Proof.
  induction h as [|c h IH]; [done|]. cbn [pop_excess].
  destruct (Nat.ltb_spec STATUS_CHANGE_HISTORY_LIMIT (length (c :: h))) as [Hlt|Hge].
  - rewrite IH. unfold lastn. cbn [length] in *.
    replace (S (length h) - STATUS_CHANGE_HISTORY_LIMIT)%nat
      with (S (length h - STATUS_CHANGE_HISTORY_LIMIT)) by lia. done.
  - by rewrite lastn_le.
Qed.

(** The set of VMs after a list of changes. *)
Definition replay_change (X : gset Ulid) (c : MembershipChange) : gset Ulid :=
  if change_added c then {[change_vmid c]} ∪ X else X ∖ {[change_vmid c]}.
Definition replay (log : list MembershipChange) (X : gset Ulid) : gset Ulid :=
  foldl replay_change X log.

(** Changes numbered consecutively from [rev + 1]. *)
Definition numbered (rev : N) (log : list MembershipChange) : Prop :=
  ∀ i c, log !! i = Some c → change_revision c = rev + 1 + N.of_nat i.

Record logged (s s' : AgentActor) (log : list MembershipChange) : Prop := {
  logged_revision : membership_revision s' = membership_revision s + N.of_nat (length log);
  logged_history : status_history s' = lastn STATUS_CHANGE_HISTORY_LIMIT (status_history s ++ log);
  logged_numbered : numbered (membership_revision s) log;
  logged_vms : dom (vms s') = replay log (dom (vms s)) }.

(** The history is bounded and holds no revision of the future. *)
Record history_wf (s : AgentActor) : Prop := {
  history_bounded : (length (status_history s) ≤ STATUS_CHANGE_HISTORY_LIMIT)%nat;
  history_past : Forall (λ c, change_revision c ≤ membership_revision s) (status_history s) }.

Lemma logged_refl s : history_wf s → logged s s [].
Proof.
  intros [Hb _]. split; cbn; [lia| |by intros i c ?|done].
  by rewrite (right_id_L [] (++)), lastn_le.
Qed.

Lemma logged_trans s1 s2 s3 log log' :
  logged s1 s2 log → logged s2 s3 log' → logged s1 s3 (log ++ log').
Proof.
  intros [Hr1 Hh1 Hn1 Hv1] [Hr2 Hh2 Hn2 Hv2]. split.
  - rewrite length_app. lia.
  - rewrite Hh2, Hh1, lastn_app_lastn. by rewrite (assoc_L (++)).
  - intros i c [Hi|[Hl Hi]]%lookup_app_Some; [by apply Hn1|].
    apply Hn2 in Hi. rewrite Hi, Hr1. lia.
  - rewrite Hv2, Hv1. unfold replay. by rewrite foldl_app.
Qed.

Lemma logged_wf s s' log : history_wf s → logged s s' log → history_wf s'.
Proof.
  intros [Hb HF] [Hr Hh Hn _]. split.
  - rewrite Hh. unfold lastn. rewrite length_drop. lia.
  - rewrite Hh. unfold lastn. apply Forall_drop, Forall_app. split.
    + eapply Forall_impl; [exact HF|]. cbn. lia.
    + apply Forall_lookup. intros i c Hi. pose proof (lookup_lt_Some _ _ _ Hi).
      apply Hn in Hi. lia.
Qed.

(** [s'] follows [s] by a membership log, as long as revisions do not saturate. *)
Definition tracks (s s' : AgentActor) : Prop :=
  u64_ok (membership_revision s) →
  u64_ok (membership_revision s') ∧ membership_revision s ≤ membership_revision s' ∧
  (history_wf s → membership_revision s' < u64_max → ∃ log, logged s s' log).

#[global] Instance tracks_preorder : PreOrder tracks.
Proof.
  split.
  - intros s Hs. split_and!; [done|lia|]. eauto using logged_refl.
  - intros s1 s2 s3 H12 H23 H1. destruct (H12 H1) as (H2 & Hm12 & Hl12).
    destruct (H23 H2) as (H3 & Hm23 & Hl23). split_and!; [done|lia|]. intros Hwf Hlt.
    destruct Hl12 as [log Hlog]; [done|lia|]. destruct Hl23 as [log' Hlog']; [|done|].
    { by eapply logged_wf. }
    eauto using logged_trans.
Qed.

(** A state change that keeps the membership, the history and the set of VMs. *)
Lemma tracks_same s s' :
  membership_revision s' = membership_revision s → status_history s' = status_history s →
  dom (vms s') = dom (vms s) → tracks s s'.
Proof.
  intros Hr Hh Hd Hs. rewrite Hr. split_and!; [done|lia|]. intros [Hb HF] _.
  exists []. split; [cbn; lia| |by intros i c ?|done].
  by rewrite Hh, (right_id_L [] (++)), lastn_le.
Qed.

(** One recorded change. *)
Lemma tracks_record s s' vmid added :
  membership_revision s' = membership_revision (record_membership_change s vmid added) →
  status_history s' = status_history (record_membership_change s vmid added) →
  dom (vms s') = (if added then {[vmid]} ∪ dom (vms s) else dom (vms s) ∖ {[vmid]}) →
  tracks s s'.
Proof.
  intros Hr Hh Hd Hs. cbn in Hr, Hh. unfold u64_ok, u64_saturating_add in *.
  rewrite pop_excess_lastn in Hh. split_and!; [lia|lia|]. intros Hwf Hlt.
  eexists [_]. split; [cbn; lia|exact Hh| |].
  - intros [|i] c Hi; [|done]. cbn in Hi. simplify_eq/=. lia.
  - rewrite Hd. cbn. unfold replay_change. cbn. by destruct added.
Qed.

Lemma insert_vm_tracks s vmid cache : tracks s (insert_vm s vmid cache).
Proof.
  unfold insert_vm. destruct (vms s !! vmid) as [p|] eqn:E; cbn.
  - apply tracks_same; [done..|]. cbn. rewrite dom_insert_L.
    apply elem_of_dom_2 in E. set_solver.
  - apply (tracks_record _ _ vmid true); [done..|]. cbn. by rewrite dom_insert_L.
Qed.

Lemma remove_vm_tracks s vmid : tracks s (remove_vm s vmid).1.
Proof.
  unfold remove_vm. destruct (vms s !! vmid) as [p|] eqn:E; cbn; [|done].
  apply (tracks_record _ _ vmid false); [done..|]. cbn. by rewrite dom_delete_L.
Qed.

Lemma foldl_tracks {A} (f : AgentActor → A → AgentActor) l s :
  (∀ s x, tracks s (f s x)) → tracks s (foldl f s l).
Proof.
  intros Hf. revert s; induction l as [|x l IH]; intros s; cbn; [done|]. by rewrite <-IH.
Qed.

#[export] Hint Resolve insert_vm_tracks remove_vm_tracks foldl_tracks : odorobo.
#[export] Hint Extern 0 (tracks ?s ?s) => reflexivity : odorobo.

Lemma agent_handle_tracks s e : tracks s (agent_handle s e).
Proof.
  destruct e as [msg actor|msg actor asked|vmid told|order id]; cbn [agent_handle].
  - unfold agent_create_vm. destruct (vms s !! _); cbn; auto with odorobo.
  - unfold agent_migrate_vm_receive. set (s' := insert_vm _ _ _).
    assert (tracks s s') as Hs by apply insert_vm_tracks.
    destruct (migrate_error _); cbn [fst]; [|done]. rewrite Hs.
    repeat case_match; auto with odorobo.
  - unfold agent_delete_vm. pose proof (remove_vm_tracks s vmid) as H.
    destruct (remove_vm s vmid) as [s' [c|]]; done.
  - unfold agent_on_link_died. apply foldl_tracks. auto with odorobo.
Qed.

Lemma agent_run_tracks s es : tracks s (agent_run s es).
Proof. apply foldl_tracks, agent_handle_tracks. Qed.

Lemma agent_run_logged s es :
  history_wf s → u64_ok (membership_revision s) →
  membership_revision (agent_run s es) < u64_max →
  ∃ log, logged s (agent_run s es) log.
Proof. intros Hwf Hok Hlt. by apply (agent_run_tracks s es). Qed.

(** ** Reading a status reply *)

Section status_lemmas.
Context `{IterOrder} (host_name : option rstring).

Lemma full_status_vms_sorted st : sorted_strict (status_vms (full_status host_name st)).
Proof. apply sort_unstable_sorted, NoDup_iter_keys. Qed.

Lemma full_status_vms_elem_of st x :
  x ∈ status_vms (full_status host_name st) ↔ x ∈ dom (vms st).
Proof. cbn. by rewrite sort_unstable_elem_of, elem_of_iter_keys, elem_of_dom. Qed.

Lemma latest_vmids_elem_of flag m x : x ∈ latest_vmids flag m ↔ m !! x = Some flag.
Proof.
  unfold latest_vmids. rewrite sort_unstable_elem_of, list_elem_of_fmap. split.
  - intros ([y b] & -> & [Hb Hin]%list_elem_of_filter). cbn in *. subst.
    by apply elem_of_iter_map.
  - intros Hx. exists (x, flag). by rewrite list_elem_of_filter, elem_of_iter_map.
Qed.

(** The last change of a VM decides its membership after a replay. *)
Lemma replay_latest log X x :
  x ∈ replay log X ↔
  match latest_changes log !! x with Some b => b = true | None => x ∈ X end.
Proof.
  unfold replay, latest_changes. induction log as [|c log IH] using rev_ind; [done|].
  rewrite !foldl_app. cbn. unfold replay_change at 1.
  destruct (decide (change_vmid c = x)) as [<-|Hne].
  - rewrite lookup_insert_eq. destruct (change_added c); set_solver.
  - rewrite lookup_insert_ne by done. destruct (change_added c); set_solver.
Qed.

Lemma filter_history s s' log :
  history_wf s → logged s s' log → (length log ≤ STATUS_CHANGE_HISTORY_LIMIT)%nat →
  filter (λ c, membership_revision s < change_revision c) (status_history s') = log.
Proof.
  intros [_ HF] [Hr Hh Hn _] Hl. rewrite Hh. unfold lastn.
  rewrite length_app, drop_app_le by lia. rewrite filter_app.
  rewrite filter_none, filter_all; [done| |].
  - apply Forall_lookup. intros i c Hi. apply Hn in Hi. lia.
  - apply Forall_drop. eapply Forall_impl; [exact HF|]. cbn. lia.
Qed.

(** A log longer than the history limit is answered with a full snapshot. *)
Lemma front_beyond s s' log c h :
  logged s s' log → (STATUS_CHANGE_HISTORY_LIMIT < length log)%nat →
  status_history s' = c :: h → membership_revision s + 1 < change_revision c.
Proof.
  intros [Hr Hh Hn _] Hl Hc. rewrite Hh, lastn_app_ge in Hc by lia. unfold lastn in Hc.
  assert (log !! (length log - STATUS_CHANGE_HISTORY_LIMIT)%nat = Some c) as Hi.
  { rewrite <-(Nat.add_0_r (length log - _)), <-lookup_drop, Hc. done. }
  apply Hn in Hi. lia.
Qed.
End status_lemmas.

(** ** Usage accounting *)

Definition total (f : VMCacheData → N) (m : gmap Ulid VMCacheData) : N :=
  sum_N (f <$> (map_to_list m).*2).

Lemma total_insert f m k c : m !! k = None → total f (<[k := c]> m) = f c + total f m.
Proof. intros Hk. unfold total. rewrite map_to_list_insert by done. done. Qed.

Lemma total_delete f m k c : m !! k = Some c → total f m = f c + total f (delete k m).
Proof.
  intros Hk. rewrite <-(total_insert f (delete k m) k c) by apply lookup_delete_eq.
  by rewrite insert_delete_eq, insert_id.
Qed.

Lemma total_insert_Some f m k p c :
  m !! k = Some p → total f (<[k := c]> m) + f p = f c + total f m.
Proof.
  intros Hk. rewrite <-insert_delete_eq, total_insert by apply lookup_delete_eq.
  rewrite (total_delete f m k p) by done. lia.
Qed.

(** The counters are the sums over the registered VMs. *)
Record usage_exact (s : AgentActor) : Prop := {
  usage_vcpus : used_vcpus s = total cache_vcpus (vms s);
  usage_memory : used_memory_bytes s = total cache_memory_bytes (vms s) }.

(** A VM of this size keeps the true totals within the counters' widths. *)
Definition vm_fits (s : AgentActor) (config : VmManifest) : Prop :=
  total cache_vcpus (vms s) + compute_vcpus (compute (desired config)) ≤ u32_max ∧
  total cache_memory_bytes (vms s) + compute_memory_bytes (compute (desired config)) ≤ u64_max.

Lemma insert_vm_usage s vmid actor config :
  usage_exact s → vm_fits s config →
  usage_exact (insert_vm s vmid (cache_entry actor config)).
Proof.
  intros [Hc Hm] [Hfc Hfm]. unfold insert_vm.
  destruct (vms s !! vmid) as [p|] eqn:E; split; cbn;
    unfold u32_saturating_add, u64_saturating_add, saturating_sub; cbn; rewrite ?Hc, ?Hm.
  - pose proof (total_insert_Some cache_vcpus _ _ _ (cache_entry actor config) E).
    pose proof (total_delete cache_vcpus _ _ _ E). cbn in *. lia.
  - pose proof (total_insert_Some cache_memory_bytes _ _ _ (cache_entry actor config) E).
    pose proof (total_delete cache_memory_bytes _ _ _ E). cbn in *. lia.
  - rewrite total_insert by done. cbn. lia.
  - rewrite total_insert by done. cbn. lia.
Qed.

Lemma remove_vm_usage s vmid : usage_exact s → usage_exact (remove_vm s vmid).1.
Proof.
  intros [Hc Hm]. unfold remove_vm. destruct (vms s !! vmid) as [p|] eqn:E; [|done].
  split; cbn; unfold saturating_sub; rewrite ?Hc, ?Hm; rewrite (total_delete _ _ _ _ E); lia.
Qed.

Lemma foldl_remove_vm_usage l s :
  usage_exact s → usage_exact (foldl (λ st vmid, (remove_vm st vmid).1) s l).
Proof. revert s; induction l as [|x l IH]; intros s Hs; cbn; auto using remove_vm_usage. Qed.

Definition event_fits (s : AgentActor) (e : AgentEvent) : Prop :=
  match e with
  | EvCreate msg _ => vm_fits s (create_config msg)
  | EvMigrate msg _ _ => vm_fits s (migrate_config msg)
  | EvDelete _ _ | EvLinkDied _ _ => True
  end.

Fixpoint run_fits (s : AgentActor) (es : list AgentEvent) : Prop :=
  match es with
  | [] => True
  | e :: es' => event_fits s e ∧ run_fits (agent_handle s e) es'
  end.

Lemma agent_handle_usage s e :
  usage_exact s → event_fits s e → usage_exact (agent_handle s e).
Proof.
  intros Hs Hf. destruct e as [msg actor|msg actor asked|vmid told|order id]; cbn [agent_handle].
  - unfold agent_create_vm. destruct (vms s !! _); cbn; auto using insert_vm_usage.
  - unfold agent_migrate_vm_receive.
    pose proof (insert_vm_usage s (migrate_vmid msg) actor (migrate_config msg) Hs Hf) as Hi.
    destruct (migrate_error _); cbn [fst]; [|done].
    repeat case_match; auto using remove_vm_usage.
  - unfold agent_delete_vm. pose proof (remove_vm_usage s vmid Hs).
    destruct (remove_vm s vmid) as [s' [c|]]; done.
  - unfold agent_on_link_died. by apply foldl_remove_vm_usage.
Qed.

(** ** Removing a set of VMs *)

Lemma remove_vm_vms s vmid : vms (remove_vm s vmid).1 = delete vmid (vms s).
Proof.
  unfold remove_vm. destruct (vms s !! vmid) eqn:E; cbn; [done|].
  by rewrite delete_id.
Qed.

Lemma foldl_remove_vm_vms l s k :
  vms (foldl (λ st vmid, (remove_vm st vmid).1) s l) !! k =
  if decide (k ∈ l) then None else vms s !! k.
Proof.
  revert s; induction l as [|x l IH]; intros s; cbn.
  { by rewrite decide_False by set_solver. }
  rewrite IH, remove_vm_vms. destruct (decide (k = x)) as [->|Hne].
  - rewrite lookup_delete_eq. rewrite (decide_True (P := x ∈ x :: l)) by set_solver.
    by case_decide.
  - rewrite lookup_delete_ne by done.
    destruct (decide (k ∈ l)); [rewrite decide_True by set_solver|rewrite decide_False by set_solver]; done.
Qed.

(** ** Catching up by deltas *)

(** What a client that lags by a log is answered. *)
Lemma agent_get_status_logged `{IterOrder} (host_name : option rstring) (s s' : AgentActor)
    (log : list MembershipChange) :
  history_wf s → logged s s' log → membership_revision s' < u64_max →
  let update := agent_get_status host_name s'
                  {| since_revision := membership_revision s; initial := false |} in
  update = Full (membership_revision s') (full_status host_name s') ∨
  update = Delta (membership_revision s') (latest_vmids true (latest_changes log))
             (latest_vmids false (latest_changes log)) (reported_vcpus s') (used_memory_bytes s').
Proof.
  intros Hwf Hlog Hlt update. subst update.
  assert (membership_revision s' <? membership_revision s = false) as Hge.
  { apply N.ltb_ge. rewrite (logged_revision _ _ _ Hlog). lia. }
  unfold agent_get_status. cbn [initial since_revision]. rewrite Hge. cbn [orb].
  destruct (match status_history s' with [] => false | _ => _ end) eqn:Hfront; [by left|right].
  assert (length log ≤ STATUS_CHANGE_HISTORY_LIMIT)%nat as Hl.
  { apply Nat.le_ngt. intros Hgt. pose proof (logged_history _ _ _ Hlog) as Hh.
    destruct (status_history s') as [|c h] eqn:Ehist.
    - apply (f_equal length) in Hh. unfold lastn in Hh.
      rewrite length_drop, length_app in Hh. cbn in Hh. unfold STATUS_CHANGE_HISTORY_LIMIT in *. lia.
    - pose proof (front_beyond _ _ _ _ _ Hlog Hgt Ehist) as Hc.
      apply N.ltb_ge in Hfront. unfold u64_saturating_add in Hfront.
      rewrite (logged_revision _ _ _ Hlog) in Hlt. lia. }
  by rewrite (filter_history _ _ _ Hwf Hlog Hl).
Qed.

Lemma status_delta_applies `{IterOrder} (host_name : option rstring)
    (s : AgentActor) (es : list AgentEvent) (st : AgentStatus) :
  history_wf s → u64_ok (membership_revision s) →
  membership_revision (agent_run s es) < u64_max →
  status_vms st = status_vms (full_status host_name s) →
  let s' := agent_run s es in
  let update := agent_get_status host_name s'
                  {| since_revision := membership_revision s; initial := false |} in
  let '(st', revision) := apply_status_update st update in
  status_vms st' = status_vms (full_status host_name s') ∧
  status_used_vcpus st' = reported_vcpus s' ∧
  status_used_ram st' = used_memory_bytes s' ∧
  revision = membership_revision s'.
Proof.
  intros Hwf Hok Hlt Hst s' update.
  destruct (agent_run_logged s es Hwf Hok Hlt) as [log Hlog]. fold s' in Hlog, Hlt.
  destruct (agent_get_status_logged host_name s s' log Hwf Hlog Hlt) as [Hu|Hu];
    subst update; rewrite Hu; cbn; [done|]. split; [|done].
  destruct (apply_delta_vms_spec (latest_vmids true (latest_changes log))
              (latest_vmids false (latest_changes log)) (status_vms st)) as [Hs He].
  { rewrite Hst. apply full_status_vms_sorted. }
  apply sorted_strict_ext; [done|apply (full_status_vms_sorted host_name)|].
  intros x. rewrite He, !latest_vmids_elem_of, Hst, full_status_vms_elem_of.
  pose proof (full_status_vms_elem_of host_name s' x) as Hx. cbn in Hx. rewrite Hx.
  rewrite (logged_vms _ _ _ Hlog), replay_latest.
  destruct (latest_changes log !! x) as [[]|]; naive_solver.
Qed.

(** ** Theorems *)

(** C12. Delta synchronisation. A client that holds the VM list of an agent at
    some revision and asks for the changes since that revision obtains, by
    [apply_status_update], exactly the agent's current sorted VM list, its
    current usage and its current revision: whatever the agent handled in
    between, whether the reply is a delta or a full snapshot, and whatever the
    iteration order of its hash maps. Revisions must not have saturated. *)
Theorem status_delta_sync `{IterOrder} (host_name : option rstring)
    (s : AgentActor) (es : list AgentEvent) (st : AgentStatus) :
  history_wf s → u64_ok (membership_revision s) →
  membership_revision (agent_run s es) < u64_max →
  status_vms st = status_vms (full_status host_name s) →
  let s' := agent_run s es in
  let update := agent_get_status host_name s'
                  {| since_revision := membership_revision s; initial := false |} in
  let '(st', revision) := apply_status_update st update in
  status_vms st' = status_vms (full_status host_name s') ∧
  status_used_vcpus st' = reported_vcpus s' ∧
  status_used_ram st' = used_memory_bytes s' ∧
  revision = membership_revision s'.
Proof. apply status_delta_applies. Qed.

(** C30. Exact accounting. Starting from exact counters, as long as every VM
    that is created or received keeps the true totals within [u32] vCPUs and
    [u64] bytes, the agent's usage counters equal the sums over its registered
    VMs after every sequence of creates, migrations (failed or not), deletes
    and actor deaths. *)
Theorem agent_usage_exact (s : AgentActor) (es : list AgentEvent) :
  usage_exact s → run_fits s es → usage_exact (agent_run s es).
Proof.
  revert s; induction es as [|e es IH]; intros s Hs Hf; [done|]. destruct Hf as [He Hf].
  apply (IH (agent_handle s e)); [by apply agent_handle_usage|done].
Qed.

(** Death of a linked actor removes exactly the VMs held by that actor,
    and the resulting registry does not depend on the hash-map order. *)
Theorem agent_on_link_died_vms `{IterOrder} (s : AgentActor) (id : ActorId) :
  vms (agent_on_link_died s id) = filter (λ p : N * VMCacheData, cache_actor_ref p.2 ≠ id) (vms s).
Proof.
  apply map_eq. intros k. unfold agent_on_link_died. rewrite foldl_remove_vm_vms.
  assert (k ∈ (filter (λ p : N * VMCacheData, cache_actor_ref p.2 = id) (iter_map (vms s))).*1 ↔
          ∃ c, vms s !! k = Some c ∧ cache_actor_ref c = id) as Hk.
  { rewrite list_elem_of_fmap. split.
    - intros ([k' c] & -> & [Hc Hin]%list_elem_of_filter). apply elem_of_iter_map in Hin. eauto.
    - intros (c & Hc & Hid). exists (k, c). by rewrite list_elem_of_filter, elem_of_iter_map. }
  destruct (vms s !! k) as [c|] eqn:E.
  - destruct (decide (cache_actor_ref c = id)) as [Hid|Hid].
    + rewrite decide_True by naive_solver. symmetry. apply map_lookup_filter_None. naive_solver.
    + rewrite decide_False by naive_solver. symmetry. by apply map_lookup_filter_Some.
  - replace (if decide _ then None else None) with (@None VMCacheData) by by case_decide.
    symmetry. apply map_lookup_filter_None. by left.
Qed.

(** Creating is idempotent. Once an agent accepted a create for a VM id,
    any later create for that id changes nothing, spawns nothing and answers
    with the first configuration and the first actor, also when the requested
    configuration conflicts. *)
Theorem agent_create_vm_idempotent (to_bytes : ActorId → list N)
    (s : AgentActor) (msg msg' : CreateVM) (actor actor' : ActorId) :
  vms s !! create_vmid msg = None → create_vmid msg' = create_vmid msg →
  let '(s1, reply, _) := agent_create_vm to_bytes s msg actor in
  agent_create_vm to_bytes s1 msg' actor' = (s1, reply, []).
Proof.
  intros Hn Hid. unfold agent_create_vm. rewrite Hn, Hid.
  assert (vms (insert_vm s (create_vmid msg) (cache_entry actor (create_config msg)))
            !! create_vmid msg = Some (cache_entry actor (create_config msg))) as ->; [|done].
  unfold insert_vm. rewrite Hn. cbn. apply lookup_insert_eq.
Qed.

(** ** Witnesses *)

Definition example_config : Config := {|
  manager_enabled := None; hostname := Some (lit "node"); datacenter := None; region := None;
  sentry_dsn := None; reserved_vcpus := None; config_labels := ∅; config_annotations := ∅;
  network := {| dhcp_config := None; network_mode := default_network_mode (lit "eth0") |};
  no_lockfile := None |}.
Definition example_agent : AgentActor := agent_on_start example_config 8 1048576.
Definition example_create (vmid vcpus memory : N) : CreateVM :=
  {| create_vmid := vmid; create_config := minimal_manifest vmid vcpus memory |}.
Definition example_events : list AgentEvent :=
  [EvCreate (example_create 5 2 1024) 105; EvCreate (example_create 3 1 512) 103;
   EvDelete 5 true; EvLinkDied canonical_order 103; EvCreate (example_create 9 4 2048) 109].

Lemma agent_on_start_wf config cpus memory : history_wf (agent_on_start config cpus memory).
Proof. split; cbn; [unfold STATUS_CHANGE_HISTORY_LIMIT; lia|constructor]. Qed.

(** After five events the client catches up from revision 0 by a delta. *)
Lemma status_delta_sync_witness :
  status_vms (apply_status_update (@full_status canonical_order None example_agent)
    (@agent_get_status canonical_order None (agent_run example_agent example_events)
       {| since_revision := 0; initial := false |})).1 = [9].
Proof.
  assert (Hm : membership_revision (agent_run example_agent example_events) < u64_max) by by vm_compute.
  pose proof (@status_delta_sync canonical_order None example_agent example_events
    (@full_status canonical_order None example_agent)
    (agent_on_start_wf _ _ _) ltac:(by vm_compute) Hm eq_refl) as H.
  cbv zeta in H. change (membership_revision example_agent) with 0 in H.
  destruct (apply_status_update _ _) as [st' r]. cbn [fst]. destruct H as [-> _].
  vm_compute. reflexivity.
Defined.

Lemma agent_usage_exact_witness : used_vcpus (agent_run example_agent example_events) = 4.
Proof.
  assert (Hs : usage_exact example_agent) by (split; vm_compute; reflexivity).
  assert (Hf : run_fits example_agent example_events).
  { cbn [run_fits example_events]. repeat split; vm_compute; discriminate. }
  destruct (agent_usage_exact example_agent example_events Hs Hf) as [-> _].
  vm_compute. reflexivity.
Defined.

Lemma agent_create_vm_idempotent_witness :
  let '(s1, reply, _) := agent_create_vm (λ a, [a]) example_agent (example_create 5 2 1024) 105 in
  agent_create_vm (λ a, [a]) s1 (example_create 5 64 1) 106 = (s1, reply, []).
Proof.
  exact (agent_create_vm_idempotent (λ a, [a]) example_agent (example_create 5 2 1024)
           (example_create 5 64 1) 105 106 eq_refl eq_refl).
Defined.
