(* ===== verification/Cache.v ===== *)
(** * The scheduler's state and its cache maintenance

    [odorobo/src/actors/scheduler_actor.rs] (the actor's records) and
    [scheduler_actor/cache.rs] (placement reconciliation, expiry and the
    cleanup after a departed actor). A remote actor reference is identified
    with its actor identity, a polling task with a handle; the clock readings
    of a function are its [now] arguments. Vector capacities are not part of
    the state, so [shrink_non_migrating_entries] has no counterpart. *)

From S2P Require Import Prelude RustString SortedVec Manifest Messages.
Open Scope N_scope.

(** ** Data *)

Inductive CachedActorKind := KindAgent | KindVm.

Record CachedAgentActor := {
  agent_ref : ActorId;
  agent_data : AgentStatus;
  agent_status_revision : N }.

Inductive VmLifecycle := Pending | Running.
#[global] Instance VmLifecycle_eq_dec : EqDecision VmLifecycle.
Proof. solve_decision. Defined.

Record VmPlacement := {
  pl_agent_id : ActorId;
  pl_lifecycle : VmLifecycle;
  pl_created_at : Instant;
  pl_last_confirmed_at : option Instant }.
#[global] Instance VmPlacement_eq_dec : EqDecision VmPlacement.
Proof. solve_decision. Defined.

Record CachedVMActor := { vm_actor_ref : option ActorId }.
#[global] Instance CachedVMActor_eq_dec : EqDecision CachedVMActor.
Proof. solve_decision. Defined.

(** A handle of a spawned task. *)
Notation JoinHandle := N (only parsing).

Notation Manifests := (gmap N VmManifest).
Notation Placements := (gmap N (list VmPlacement)).
Notation DataCache := (gmap N (list CachedVMActor)).
Notation VmIndex := (gmap N (gset N)).

Record SchedulerActor := {
  agent_data_cache : gmap ActorId CachedAgentActor;
  agent_keepalive_tasks : gmap ActorId JoinHandle;
  vm_actorid_ulid_map : gmap ActorId Ulid;
  vm_manifests : Manifests;
  vm_placements : Placements;
  vm_data_cache : DataCache;
  vm_keepalive_tasks : gmap ActorId JoinHandle;
  pending_resources_cache : option (gmap ActorId (N * N));
  agent_vm_index : VmIndex;
  actor_kinds : gmap ActorId CachedActorKind;
  cache_actor_finder : option JoinHandle }.

(** Field updates, as the assignments of the handlers. *)
Definition set_agent_data_cache f s := {|
  agent_data_cache := f (agent_data_cache s);
  agent_keepalive_tasks := agent_keepalive_tasks s;
  vm_actorid_ulid_map := vm_actorid_ulid_map s; vm_manifests := vm_manifests s;
  vm_placements := vm_placements s; vm_data_cache := vm_data_cache s;
  vm_keepalive_tasks := vm_keepalive_tasks s;
  pending_resources_cache := pending_resources_cache s;
  agent_vm_index := agent_vm_index s; actor_kinds := actor_kinds s;
  cache_actor_finder := cache_actor_finder s |}.
Definition set_agent_keepalive_tasks f s := {|
  agent_data_cache := agent_data_cache s;
  agent_keepalive_tasks := f (agent_keepalive_tasks s);
  vm_actorid_ulid_map := vm_actorid_ulid_map s; vm_manifests := vm_manifests s;
  vm_placements := vm_placements s; vm_data_cache := vm_data_cache s;
  vm_keepalive_tasks := vm_keepalive_tasks s;
  pending_resources_cache := pending_resources_cache s;
  agent_vm_index := agent_vm_index s; actor_kinds := actor_kinds s;
  cache_actor_finder := cache_actor_finder s |}.
Definition set_vm_actorid_ulid_map f s := {|
  agent_data_cache := agent_data_cache s;
  agent_keepalive_tasks := agent_keepalive_tasks s;
  vm_actorid_ulid_map := f (vm_actorid_ulid_map s); vm_manifests := vm_manifests s;
  vm_placements := vm_placements s; vm_data_cache := vm_data_cache s;
  vm_keepalive_tasks := vm_keepalive_tasks s;
  pending_resources_cache := pending_resources_cache s;
  agent_vm_index := agent_vm_index s; actor_kinds := actor_kinds s;
  cache_actor_finder := cache_actor_finder s |}.
Definition set_vm_manifests f s := {|
  agent_data_cache := agent_data_cache s;
  agent_keepalive_tasks := agent_keepalive_tasks s;
  vm_actorid_ulid_map := vm_actorid_ulid_map s; vm_manifests := f (vm_manifests s);
  vm_placements := vm_placements s; vm_data_cache := vm_data_cache s;
  vm_keepalive_tasks := vm_keepalive_tasks s;
  pending_resources_cache := pending_resources_cache s;
  agent_vm_index := agent_vm_index s; actor_kinds := actor_kinds s;
  cache_actor_finder := cache_actor_finder s |}.
Definition set_vm_placements f s := {|
  agent_data_cache := agent_data_cache s;
  agent_keepalive_tasks := agent_keepalive_tasks s;
  vm_actorid_ulid_map := vm_actorid_ulid_map s; vm_manifests := vm_manifests s;
  vm_placements := f (vm_placements s); vm_data_cache := vm_data_cache s;
  vm_keepalive_tasks := vm_keepalive_tasks s;
  pending_resources_cache := pending_resources_cache s;
  agent_vm_index := agent_vm_index s; actor_kinds := actor_kinds s;
  cache_actor_finder := cache_actor_finder s |}.
Definition set_vm_data_cache f s := {|
  agent_data_cache := agent_data_cache s;
  agent_keepalive_tasks := agent_keepalive_tasks s;
  vm_actorid_ulid_map := vm_actorid_ulid_map s; vm_manifests := vm_manifests s;
  vm_placements := vm_placements s; vm_data_cache := f (vm_data_cache s);
  vm_keepalive_tasks := vm_keepalive_tasks s;
  pending_resources_cache := pending_resources_cache s;
  agent_vm_index := agent_vm_index s; actor_kinds := actor_kinds s;
  cache_actor_finder := cache_actor_finder s |}.
Definition set_vm_keepalive_tasks f s := {|
  agent_data_cache := agent_data_cache s;
  agent_keepalive_tasks := agent_keepalive_tasks s;
  vm_actorid_ulid_map := vm_actorid_ulid_map s; vm_manifests := vm_manifests s;
  vm_placements := vm_placements s; vm_data_cache := vm_data_cache s;
  vm_keepalive_tasks := f (vm_keepalive_tasks s);
  pending_resources_cache := pending_resources_cache s;
  agent_vm_index := agent_vm_index s; actor_kinds := actor_kinds s;
  cache_actor_finder := cache_actor_finder s |}.
Definition set_pending_resources_cache c s := {|
  agent_data_cache := agent_data_cache s;
  agent_keepalive_tasks := agent_keepalive_tasks s;
  vm_actorid_ulid_map := vm_actorid_ulid_map s; vm_manifests := vm_manifests s;
  vm_placements := vm_placements s; vm_data_cache := vm_data_cache s;
  vm_keepalive_tasks := vm_keepalive_tasks s;
  pending_resources_cache := c;
  agent_vm_index := agent_vm_index s; actor_kinds := actor_kinds s;
  cache_actor_finder := cache_actor_finder s |}.
Definition set_agent_vm_index f s := {|
  agent_data_cache := agent_data_cache s;
  agent_keepalive_tasks := agent_keepalive_tasks s;
  vm_actorid_ulid_map := vm_actorid_ulid_map s; vm_manifests := vm_manifests s;
  vm_placements := vm_placements s; vm_data_cache := vm_data_cache s;
  vm_keepalive_tasks := vm_keepalive_tasks s;
  pending_resources_cache := pending_resources_cache s;
  agent_vm_index := f (agent_vm_index s); actor_kinds := actor_kinds s;
  cache_actor_finder := cache_actor_finder s |}.
Definition set_actor_kinds f s := {|
  agent_data_cache := agent_data_cache s;
  agent_keepalive_tasks := agent_keepalive_tasks s;
  vm_actorid_ulid_map := vm_actorid_ulid_map s; vm_manifests := vm_manifests s;
  vm_placements := vm_placements s; vm_data_cache := vm_data_cache s;
  vm_keepalive_tasks := vm_keepalive_tasks s;
  pending_resources_cache := pending_resources_cache s;
  agent_vm_index := agent_vm_index s; actor_kinds := f (actor_kinds s);
  cache_actor_finder := cache_actor_finder s |}.

(** ** Operations *)

Definition UNRESOLVED_VM_CACHE_TIMEOUT : N := from_secs 120.
Definition UNCONFIRMED_RUNNING_PLACEMENT_TIMEOUT : N := from_secs 30.

Definition is_discovered (entry : CachedVMActor) : Prop := is_Some (vm_actor_ref entry).
#[global] Instance is_discovered_dec entry : Decision (is_discovered entry).
Proof. unfold is_discovered. apply _. Defined.

(** [data_cache.get(vmid).is_some_and(|entries| entries.iter().any(...))]. *)
Definition has_discovered (data_cache : DataCache) (vmid : Ulid) : Prop :=
  match data_cache !! vmid with
  | Some entries => Exists is_discovered entries
  | None => False
  end.
#[global] Instance has_discovered_dec data_cache vmid : Decision (has_discovered data_cache vmid).
Proof. unfold has_discovered. destruct (data_cache !! vmid); apply _. Defined.

(** [agent_vm_index.get(agent_id).is_some_and(|vmids| vmids.contains(vmid))]. *)
Definition reported_on (index : VmIndex) (agent_id : ActorId) (vmid : Ulid) : Prop :=
  match index !! agent_id with
  | Some vmids => vmid ∈ vmids
  | None => False
  end.
#[global] Instance reported_on_dec index agent_id vmid : Decision (reported_on index agent_id vmid).
Proof. unfold reported_on. destruct (index !! agent_id); apply _. Defined.

(** [*entries.iter_mut().find(p)? = f(entry)]: the first match is replaced. *)
Fixpoint replace_first {A} (p : A → bool) (f : A → A) (l : list A) : option (list A) :=
  match l with
  | [] => None
  | x :: l => if p x then Some (f x :: l) else (x ::.) <$> replace_first p f l
  end.

Definition update_cached_vm_entry (entries : list CachedVMActor) (actor_id : ActorId)
    (cached_vm : CachedVMActor) : list CachedVMActor :=
  match replace_first (λ entry, bool_decide (vm_actor_ref entry = Some actor_id))
          (λ _, cached_vm) entries with
  | Some entries => entries
  | None =>
      match replace_first (λ entry, bool_decide (vm_actor_ref entry = None))
              (λ _, cached_vm) entries with
      | Some entries => entries
      | None => entries ++ [cached_vm]
      end
  end.

(** [map.iter_mut()] with [entries.retain(keep(key))] for each entry. *)
Definition retain_all {A} (keep : N → A → Prop) `{∀ k x, Decision (keep k x)}
    (m : gmap N (list A)) : gmap N (list A) :=
  map_imap (λ k entries, Some (filter (keep k) entries)) m.

(** The keys whose entries became empty, and their removal. *)
Definition empty_keys `{IterOrder} {A} (m : gmap N (list A)) : list N :=
  (filter (λ kx, kx.2 = []) (iter_map m)).*1.
Definition remove_keys {A} (ks : list N) (m : gmap N A) : gmap N A :=
  foldl (λ m k, delete k m) m ks.

Definition cleanup_unresolved_vm_cache `{IterOrder} (now : Instant)
    (placements : Placements) (data_cache : DataCache) : Placements * DataCache :=
  let discovered_vmids : gset N :=
    list_to_set (filter (has_discovered data_cache) (iter_keys data_cache)) in
  let placements := retain_all (λ vmid entry,
    pl_lifecycle entry ≠ Pending ∨ vmid ∈ discovered_vmids ∨
    duration_since now (pl_created_at entry) < UNRESOLVED_VM_CACHE_TIMEOUT) placements in
  let empty_vmids := empty_keys placements in
  (placements,
   foldl (λ data_cache vmid,
     match data_cache !! vmid with
     | Some entries =>
         if decide (Forall (λ entry, vm_actor_ref entry = None) entries)
         then delete vmid data_cache else data_cache
     | None => data_cache
     end) data_cache empty_vmids).

(** [if seen.insert(vmid) { vmids.push(vmid) }] over a sequence of identities. *)
Definition push_unseen (acc : list Ulid * gset N) (l : list Ulid) : list Ulid * gset N :=
  foldl (λ '(vmids, seen) vmid,
    if decide (vmid ∈ seen) then (vmids, seen) else (vmids ++ [vmid], {[vmid]} ∪ seen)) acc l.

Definition placement_vm_ids `{IterOrder} (placements : Placements) (indexed : option (gset N))
    (agent_id : ActorId) (observed : list Ulid) : list Ulid :=
  let acc := push_unseen ([], ∅) observed in
  let acc := match indexed with
             | Some indexed => push_unseen acc (iter_set indexed)
             | None => acc
             end in
  (push_unseen acc
    (filter (λ kx, Exists (λ entry, pl_agent_id entry = agent_id) kx.2)
       (iter_map placements)).*1).1.

Definition remove_vm_state (vmid : Ulid) (manifests : Manifests) (placements : Placements)
    (data_cache : DataCache) : Manifests * Placements * DataCache :=
  (delete vmid manifests, delete vmid placements, delete vmid data_cache).

Definition invalidate_pending_resources (s : SchedulerActor) : SchedulerActor :=
  set_pending_resources_cache None s.

Definition remove_vm_intent (vmid : Ulid) (s : SchedulerActor) : SchedulerActor :=
  let '(manifests, placements, data_cache) :=
    remove_vm_state vmid (vm_manifests s) (vm_placements s) (vm_data_cache s) in
  let s := set_vm_manifests (λ _, manifests) s in
  let s := set_vm_placements (λ _, placements) s in
  let s := set_vm_data_cache (λ _, data_cache) s in
  let s := set_vm_actorid_ulid_map (filter (λ kv, kv.2 ≠ vmid)) s in
  let s := set_agent_vm_index (fmap (λ index : gset N, index ∖ {[vmid]})) s in
  invalidate_pending_resources s.

Definition remove_vm_actor `{IterOrder} (actor_id : ActorId) (data_cache : DataCache) : DataCache :=
  let data_cache := retain_all (λ _ entry, vm_actor_ref entry ≠ Some actor_id) data_cache in
  remove_keys (empty_keys data_cache) data_cache.

Definition remove_agent_placements (agent_id : ActorId) (reachable_vmids : gset N)
    (placements : Placements) : Placements :=
  retain_all (λ vmid entry, pl_agent_id entry ≠ agent_id ∨ vmid ∈ reachable_vmids) placements.

Definition rollback_failed_create (vmid : Ulid) (actor_exists : bool) (actor_id : option ActorId)
    (actor_map : gmap ActorId Ulid) (manifests : Manifests) (placements : Placements)
    (data_cache : DataCache) : gmap ActorId Ulid * (Manifests * Placements * DataCache) :=
  if actor_exists then (actor_map, (manifests, placements, data_cache))
  else
    (match actor_id with
     | Some actor_id =>
         if decide (actor_map !! actor_id = Some vmid) then delete actor_id actor_map else actor_map
     | None => actor_map
     end, remove_vm_state vmid manifests placements data_cache).

(** The polling task aborted with a departed actor is returned beside the state. *)
Definition cleanup_agent_actor (actor_id : ActorId) (s : SchedulerActor) :
    SchedulerActor * option JoinHandle :=
  let aborted := agent_keepalive_tasks s !! actor_id in
  let s := set_agent_keepalive_tasks (delete actor_id) s in
  let reachable_vmids : gset N :=
    filter (has_discovered (vm_data_cache s)) (default ∅ (agent_vm_index s !! actor_id)) in
  let s := set_agent_data_cache (delete actor_id) s in
  let s := set_agent_vm_index (delete actor_id) s in
  let s := invalidate_pending_resources s in
  (set_vm_placements (remove_agent_placements actor_id reachable_vmids) s, aborted).

Definition cleanup_vm_actor `{IterOrder} (actor_id : ActorId) (s : SchedulerActor) :
    SchedulerActor * option JoinHandle :=
  let aborted := vm_keepalive_tasks s !! actor_id in
  let s := set_vm_keepalive_tasks (delete actor_id) s in
  let vmid := vm_actorid_ulid_map s !! actor_id in
  let s := set_vm_actorid_ulid_map (delete actor_id) s in
  let s := invalidate_pending_resources s in
  let s := set_vm_data_cache (remove_vm_actor actor_id) s in
  match vmid with
  | None => (s, aborted)
  | Some vmid =>
      if decide (has_discovered (vm_data_cache s) vmid) then (s, aborted)
      else
        let s := set_vm_placements (alter (filter (λ entry,
          pl_lifecycle entry = Pending ∨
          reported_on (agent_vm_index s) (pl_agent_id entry) vmid)) vmid) s in
        (invalidate_pending_resources s, aborted)
  end.

(** One reported VM: its placement on the agent is confirmed or recorded. *)
Definition confirm_placement (agent_id : ActorId) (now : Instant) (entries : list VmPlacement) :
    list VmPlacement :=
  match replace_first (λ entry, bool_decide (pl_agent_id entry = agent_id))
          (λ entry, {| pl_agent_id := pl_agent_id entry; pl_lifecycle := Running;
                       pl_created_at := pl_created_at entry;
                       pl_last_confirmed_at := Some now |}) entries with
  | Some entries => entries
  | None => entries ++ [{| pl_agent_id := agent_id; pl_lifecycle := Running;
                           pl_created_at := now; pl_last_confirmed_at := Some now |}]
  end.

Definition reconcile_agent_delta (now : Instant) (agent_id : ActorId) (added removed : list Ulid)
    (manifests : Manifests) (placements : Placements) : Placements :=
  let placements := foldl (λ placements vmid,
    match manifests !! vmid with
    | None => placements
    | Some _ =>
        <[vmid := confirm_placement agent_id now (default [] (placements !! vmid))]> placements
    end) placements added in
  foldl (λ placements vmid,
    alter (filter (λ entry, pl_agent_id entry ≠ agent_id ∨ pl_lifecycle entry = Pending))
      vmid placements) placements removed.

(** Each call reads the clock: [now] gives the reading for each agent. *)
Definition reconcile_discovered_vm `{IterOrder} (now : ActorId → Instant) (vmid : Ulid)
    (agent_vm_index : VmIndex) (manifests : Manifests) (placements : Placements) : Placements :=
  foldl (λ placements agent_id,
    reconcile_agent_delta (now agent_id) agent_id [vmid] [] manifests placements)
    placements
    (filter (λ agent_id, reported_on agent_vm_index agent_id vmid) (iter_keys agent_vm_index)).

(** The closure of [retain_mut]: the entry as updated, or its removal. *)
Definition refresh_entry (now : Instant) (agent_id : ActorId) (observed : gset N) (vmid : Ulid)
    (entry : VmPlacement) : option VmPlacement :=
  if decide (pl_agent_id entry ≠ agent_id) then Some entry
  else if decide (vmid ∈ observed) then
    Some {| pl_agent_id := pl_agent_id entry; pl_lifecycle := Running;
            pl_created_at := pl_created_at entry; pl_last_confirmed_at := Some now |}
  else match pl_lifecycle entry with
       | Pending =>
           if duration_since now (pl_created_at entry) <? UNRESOLVED_VM_CACHE_TIMEOUT
           then Some entry else None
       | Running =>
           match pl_last_confirmed_at entry with
           | Some last_confirmed_at =>
               if duration_since now last_confirmed_at <? UNCONFIRMED_RUNNING_PLACEMENT_TIMEOUT
               then Some entry else None
           | None => None
           end
       end.

(** [entries.retain_mut(...)]. *)
Definition refresh_entries (now : Instant) (agent_id : ActorId) (observed : gset N) (vmid : Ulid)
    (entries : list VmPlacement) : list VmPlacement :=
  omap (refresh_entry now agent_id observed vmid) entries.

Definition reconcile_agent_placements `{IterOrder} (now : Instant) (agent_id : ActorId)
    (status : AgentStatus) (manifests : Manifests) (placements : Placements) : Placements :=
  let observed : gset N := list_to_set (status_vms status) in
  let missing_agent_placements := filter (λ vmid,
    is_Some (manifests !! vmid) ∧
    Forall (λ entry, pl_agent_id entry ≠ agent_id) (default [] (placements !! vmid)))
    (iter_set observed) in
  let placements := foldl (λ placements vmid,
    <[vmid := default [] (placements !! vmid) ++
        [{| pl_agent_id := agent_id; pl_lifecycle := Running; pl_created_at := now;
            pl_last_confirmed_at := Some now |}]]> placements)
    placements missing_agent_placements in
  let placements := map_imap (λ vmid entries,
    Some (refresh_entries now agent_id observed vmid entries)) placements in
  remove_keys (empty_keys placements) placements.

(** ** Lookups *)

Definition lookup_agent_by_actor_id (s : SchedulerActor) (actor_id : ActorId) : option ActorId :=
  agent_ref <$> agent_data_cache s !! actor_id.

Definition lookup_agent_by_hostname `{IterOrder} (s : SchedulerActor) (hostname : rstring) :
    option ActorId :=
  agent_ref <$> List.find (λ data, bool_decide (status_hostname (agent_data data) = hostname))
                  (iter_values (agent_data_cache s)).
