(* ===== verification/CacheFacts.v ===== *)
(** * Correctness of the scheduler's cache maintenance

    The functions of [Cache] described pointwise, on the view of the placements
    as a partial map from a VM and an agent to the placement; the
    well-formedness of placement lists and its preservation; the set of VMs an
    affinity rule looks at; the actor references of a VM. *)

From S2P Require Import Prelude RustString SortedVec Manifest Messages Cache.
Open Scope N_scope.

(** ** Lookups after bulk updates *)

Lemma lookup_retain_all {A} (keep : N → A → Prop) `{∀ k x, Decision (keep k x)} m k :
  retain_all keep m !! k = filter (keep k) <$> m !! k.
Proof. unfold retain_all. rewrite map_lookup_imap. by destruct (m !! k). Qed.

Lemma lookup_remove_keys {A} ks (m : gmap N A) k :
  remove_keys ks m !! k = if decide (k ∈ ks) then None else m !! k.
Proof.
  revert m; induction ks as [|k' ks IH]; intros m; cbn; [by rewrite decide_False by set_solver|].
  unfold remove_keys in *; rewrite IH. destruct (decide (k = k')) as [->|].
  - rewrite lookup_delete_eq. rewrite (decide_True (P:=k' ∈ k' :: ks)) by set_solver.
    by destruct (decide _).
  - rewrite lookup_delete_ne by done. destruct (decide (k ∈ ks)) as [?|?];
      destruct (decide (k ∈ k' :: ks)); set_solver.
Qed.

Lemma elem_of_empty_keys `{IterOrder} {A} (m : gmap N (list A)) k :
  k ∈ empty_keys m ↔ m !! k = Some [].
Proof.
  unfold empty_keys. rewrite list_elem_of_fmap. split.
  - intros [[k' l] [-> [He Hl]%list_elem_of_filter]]. cbn in *. subst. by apply elem_of_iter_map.
  - intros Hk. exists (k, []). split; [done|]. rewrite list_elem_of_filter. split; [done|].
    by apply elem_of_iter_map.
Qed.

(** Removing the keys that became empty. *)
Lemma lookup_remove_empty `{IterOrder} {A} (m : gmap N (list A)) k :
  remove_keys (empty_keys m) m !! k =
  match m !! k with Some (x :: l) => Some (x :: l) | _ => None end.
Proof.
  rewrite lookup_remove_keys. destruct (decide _) as [->%elem_of_empty_keys|Hk]; [done|].
  rewrite elem_of_empty_keys in Hk. by destruct (m !! k) as [[|]|].
Qed.

Lemma replace_first_None {A} (p : A → bool) f l :
  replace_first p f l = None ↔ Forall (λ x, p x = false) l.
Proof.
  induction l as [|x l IH]; cbn; [split; [constructor|done]|].
  rewrite Forall_cons, <-IH. destruct (p x) eqn:Hp.
  - split; [done|]. by intros [? _].
  - rewrite fmap_None. split; [done|by intros [_ ?]].
Qed.

Lemma replace_first_Some {A} (p : A → bool) f l l' :
  replace_first p f l = Some l' ↔
  ∃ l1 x l2, l = l1 ++ x :: l2 ∧ l' = l1 ++ f x :: l2 ∧ p x = true ∧ Forall (λ y, p y = false) l1.
Proof.
  split.
  - revert l'; induction l as [|y l IH]; intros l'; cbn; [done|]. destruct (p y) eqn:Hp.
    + intros [= <-]. exists [], y, l. eauto.
    + intros (k & Hk & ->)%fmap_Some. apply IH in Hk as (l1 & x & l2 & -> & -> & ? & ?).
      exists (y :: l1), x, l2. eauto.
  - intros (l1 & x & l2 & -> & -> & Hx & Hl1). induction Hl1 as [|y l1 Hy _ IH]; cbn.
    + by rewrite Hx.
    + by rewrite Hy, IH.
Qed.

Lemma Forall_bool_decide_false {A} (P : A → Prop) `{∀ x, Decision (P x)} l :
  Forall (λ x, bool_decide (P x) = false) l → Forall (λ x, ¬ P x) l.
Proof. intros Hf. eapply Forall_impl; [exact Hf|]. intros x Hx. by apply bool_decide_eq_false in Hx. Qed.

(** ** The placements of one VM

    [entry_wf] ties the lifecycle to the confirmation time; [placements_wf]
    says that a VM has at most one placement per agent, and at most one that
    is still pending. *)
Definition entry_wf (entry : VmPlacement) : Prop :=
  match pl_lifecycle entry with
  | Pending => pl_last_confirmed_at entry = None
  | Running => is_Some (pl_last_confirmed_at entry)
  end.

Definition is_pending (entry : VmPlacement) : Prop := pl_lifecycle entry = Pending.
#[global] Instance is_pending_dec entry : Decision (is_pending entry).
Proof. unfold is_pending. apply _. Defined.

Record placements_wf (entries : list VmPlacement) : Prop := {
  pw_entries : Forall entry_wf entries;
  pw_agents : NoDup (pl_agent_id <$> entries);
  pw_pending : (length (filter is_pending entries) ≤ 1)%nat }.

Lemma placements_wf_nil : placements_wf [].
Proof. split; cbn; [constructor|constructor|lia]. Qed.

Lemma sublist_filter_length {A} (P : A → Prop) `{∀ x, Decision (P x)} l k :
  l `sublist_of` k → (length (filter P l) ≤ length (filter P k))%nat.
Proof.
  induction 1 as [|x l k Hs IH|x l k Hs IH]; [done| |]; rewrite ?filter_cons;
    try destruct (decide (P x)); cbn; lia.
Qed.

Lemma fmap_sublist {A B} (f : A → B) l k : l `sublist_of` k → f <$> l `sublist_of` f <$> k.
Proof. induction 1; cbn; by constructor. Qed.

Lemma placements_wf_sublist l k : l `sublist_of` k → placements_wf k → placements_wf l.
Proof.
  intros Hs [He Ha Hp]. split.
  - apply Forall_forall. intros x Hx. eapply Forall_forall; [exact He|].
    by eapply elem_of_sublist.
  - eapply sublist_NoDup; [done|by apply fmap_sublist].
  - etrans; [by apply sublist_filter_length|done].
Qed.

Lemma placements_wf_filter (P : VmPlacement → Prop) `{∀ x, Decision (P x)} l :
  placements_wf l → placements_wf (filter P l).
Proof. apply placements_wf_sublist, sublist_filter. Qed.
#[export] Hint Resolve placements_wf_nil placements_wf_filter : odorobo.

(** An entry updated in place keeps its agent and may leave, not enter, [Pending]. *)
Definition refines_entry (new old : VmPlacement) : Prop :=
  pl_agent_id new = pl_agent_id old ∧ entry_wf new ∧ (is_pending new → is_pending old).

Lemma placements_wf_refine l k :
  Forall2 refines_entry l k → placements_wf k → placements_wf l.
Proof.
  intros Hf [He Ha Hp]. split.
  - clear -Hf. induction Hf as [|x y l k (?&?&?) ? IH]; by constructor.
  - replace (pl_agent_id <$> l) with (pl_agent_id <$> k); [done|].
    clear -Hf. induction Hf as [|x y l k (?&?&?) ? IH]; cbn; congruence.
  - etrans; [|exact Hp]. clear -Hf. induction Hf as [|x y l k (?&?&Hi) ? IH]; [done|].
    rewrite !filter_cons. destruct (decide (is_pending x)), (decide (is_pending y));
      cbn; try lia. naive_solver.
Qed.

(** ** Placements as a partial map from VM and agent

    The reconciliation functions are specified on the abstract view that gives
    the placement of a VM on an agent. *)
Definition find_placement (agent_id : ActorId) (entries : list VmPlacement) : option VmPlacement :=
  head (filter (λ entry, pl_agent_id entry = agent_id) entries).
Definition placement_of (placements : Placements) (vmid : Ulid) (agent_id : ActorId) :
    option VmPlacement :=
  placements !! vmid ≫= find_placement agent_id.

Lemma find_placement_Some a l e : find_placement a l = Some e → e ∈ l ∧ pl_agent_id e = a.
Proof.
  unfold find_placement. intros He%head_Some_elem_of.
  apply list_elem_of_filter in He. naive_solver.
Qed.

Lemma find_placement_None a l :
  find_placement a l = None ↔ Forall (λ e, pl_agent_id e ≠ a) l.
Proof.
  unfold find_placement. rewrite head_None. split.
  - intros Hf. apply Forall_forall. intros x Hx Ha.
    assert (x ∈ filter (λ e, pl_agent_id e = a) l) as Hin by by apply list_elem_of_filter.
    rewrite Hf in Hin. set_solver.
  - by apply filter_none.
Qed.

Lemma find_placement_app a l k :
  find_placement a (l ++ k) =
  match find_placement a l with Some e => Some e | None => find_placement a k end.
Proof. unfold find_placement. rewrite filter_app. by destruct (filter _ l). Qed.

Lemma find_placement_cons a e l :
  find_placement a (e :: l) = if decide (pl_agent_id e = a) then Some e else find_placement a l.
Proof. unfold find_placement. rewrite filter_cons. by destruct (decide _). Qed.

(** With one entry per agent, the abstract view has every entry. *)
Lemma find_placement_elem_of l e :
  NoDup (pl_agent_id <$> l) → e ∈ l → find_placement (pl_agent_id e) l = Some e.
Proof.
  intros Hn He. apply list_elem_of_split in He as (l1 & l2 & ->).
  rewrite find_placement_app, find_placement_cons, decide_True by done.
  rewrite (proj2 (find_placement_None _ l1)); [done|].
  rewrite fmap_app, fmap_cons, NoDup_app, NoDup_cons in Hn. destruct Hn as (_ & Hd & _).
  apply Forall_forall. intros x Hx Ha. eapply (Hd (pl_agent_id x)); [by apply list_elem_of_fmap_2|].
  rewrite Ha. set_solver.
Qed.

(** A pass that drops or updates entries in place, one entry per agent. *)
Lemma find_placement_omap (f : VmPlacement → option VmPlacement) a l :
  (∀ e e', f e = Some e' → pl_agent_id e' = pl_agent_id e) →
  NoDup (pl_agent_id <$> l) →
  find_placement a (omap f l) = find_placement a l ≫= f.
Proof.
  intros Hf. induction l as [|e l IH]; [done|]. rewrite fmap_cons, NoDup_cons. intros [He Hn].
  specialize (IH Hn). rewrite (find_placement_cons a e).
  change (omap f (e :: l)) with
    (match f e with Some y => y :: omap f l | None => omap f l end).
  destruct (decide (pl_agent_id e = a)) as [<-|Hne]; cbn [mbind option_bind].
  - destruct (f e) as [e'|] eqn:Hfe.
    + by rewrite find_placement_cons, decide_True by eauto.
    + rewrite IH. rewrite (proj2 (find_placement_None _ l)); [done|].
      apply Forall_forall. intros x Hx Ha. apply He. rewrite <-Ha. by apply list_elem_of_fmap_2.
  - destruct (f e) as [e'|] eqn:Hfe; [|done].
    rewrite find_placement_cons, decide_False; [done|]. by rewrite (Hf _ _ Hfe).
Qed.

Lemma filter_omap {A} (P : A → Prop) `{∀ x, Decision (P x)} (l : list A) :
  filter P l = omap (λ x, if decide (P x) then Some x else None) l.
Proof.
  induction l as [|x l IH]; [done|]. rewrite filter_cons, IH. cbn. by destruct (decide (P x)).
Qed.

Lemma find_placement_filter (P : VmPlacement → Prop) `{∀ x, Decision (P x)} a l :
  NoDup (pl_agent_id <$> l) →
  find_placement a (filter P l) =
  find_placement a l ≫= λ e, if decide (P e) then Some e else None.
Proof.
  intros Hn. rewrite filter_omap. apply find_placement_omap; [|done].
  intros e e'. by destruct (decide _); intros; simplify_eq.
Qed.

(** The placement recorded when an agent reports a VM. *)
Definition confirmed (now : Instant) (agent_id : ActorId) (old : option VmPlacement) : VmPlacement :=
  {| pl_agent_id := agent_id; pl_lifecycle := Running;
     pl_created_at := from_option pl_created_at now old; pl_last_confirmed_at := Some now |}.

Lemma find_confirm_placement a now l b :
  find_placement b (confirm_placement a now l) =
  if decide (b = a) then Some (confirmed now a (find_placement a l)) else find_placement b l.
Proof.
  unfold confirm_placement. destruct (replace_first _ _ l) as [l'|] eqn:Hr.
  - apply replace_first_Some in Hr as (l1 & e & l2 & -> & -> & ?%bool_decide_eq_true & Hl1).
    rewrite !find_placement_app, !find_placement_cons. cbn. subst a.
    assert (find_placement (pl_agent_id e) l1 = None) as Hn.
    { apply find_placement_None. by apply (Forall_bool_decide_false (λ e, pl_agent_id e = _)). }
    destruct (decide (b = pl_agent_id e)) as [->|Hne].
    + rewrite Hn. rewrite !decide_True by done. done.
    + by destruct (decide (pl_agent_id e = b)); [congruence|].
  - apply replace_first_None in Hr.
    assert (find_placement a l = None) as Hn.
    { apply find_placement_None. by apply (Forall_bool_decide_false (λ e, pl_agent_id e = _)). }
    rewrite find_placement_app, find_placement_cons. cbn.
    destruct (decide (b = a)) as [->|Hne].
    + by rewrite Hn, decide_True.
    + rewrite decide_False by done. by destruct (find_placement b l).
Qed.

Lemma Forall2_refines_refl l : Forall entry_wf l → Forall2 refines_entry l l.
Proof. induction 1; constructor; [by repeat split|done]. Qed.

Lemma placements_wf_push l e :
  placements_wf l → entry_wf e → Forall (λ x, pl_agent_id x ≠ pl_agent_id e) l →
  (is_pending e → filter is_pending l = []) → placements_wf (l ++ [e]).
Proof.
  intros [He Ha Hp] Hwf Hne Hpend. split.
  - apply Forall_app. by repeat constructor.
  - rewrite fmap_app. apply NoDup_app. split; [done|]. split; [|apply NoDup_singleton].
    intros x (y & -> & Hy)%list_elem_of_fmap Hx%list_elem_of_singleton.
    rewrite Forall_forall in Hne. exact (Hne y Hy Hx).
  - rewrite filter_app, length_app, filter_cons. destruct (decide (is_pending e)); cbn; [|lia].
    rewrite Hpend by done. cbn. lia.
Qed.

Lemma confirm_placement_wf a now l : placements_wf l → placements_wf (confirm_placement a now l).
Proof.
  intros Hwf. unfold confirm_placement. destruct (replace_first _ _ l) as [l'|] eqn:Hr.
  - apply replace_first_Some in Hr as (l1 & e & l2 & -> & -> & _ & _).
    eapply placements_wf_refine; [|exact Hwf]. destruct Hwf as [He _ _].
    apply Forall_app in He as [? [? ?]%Forall_cons].
    apply Forall2_app; [by apply Forall2_refines_refl|].
    constructor; [|by apply Forall2_refines_refl]. repeat split; cbn; [by eexists|done].
  - apply replace_first_None in Hr. apply placements_wf_push; [done|by eexists| |done].
    by apply (Forall_bool_decide_false (λ e, pl_agent_id e = _)).
Qed.
#[export] Hint Resolve confirm_placement_wf : odorobo.

(** ** Delta reconciliation *)

Definition placements_all_wf (placements : Placements) : Prop :=
  map_Forall (λ _ entries, placements_wf entries) placements.

Lemma placements_all_wf_default placements vmid :
  placements_all_wf placements → placements_wf (default [] (placements !! vmid)).
Proof.
  intros Hwf. destruct (placements !! vmid) as [l|] eqn:Hl; cbn; [by eapply Hwf|].
  apply placements_wf_nil.
Qed.
#[export] Hint Resolve placements_all_wf_default : odorobo.

Lemma confirm_placement_idemp a now l :
  confirm_placement a now (confirm_placement a now l) = confirm_placement a now l.
Proof.
  unfold confirm_placement at 2 3. destruct (replace_first _ _ l) as [l'|] eqn:Hr.
  - apply replace_first_Some in Hr as (l1 & e & l2 & -> & -> & He & Hl1).
    unfold confirm_placement.
    by erewrite (proj2 (replace_first_Some _ _ _ (l1 ++ _ :: l2))) by (do 3 eexists; split_and!; done).
  - apply replace_first_None in Hr. unfold confirm_placement.
    erewrite (proj2 (replace_first_Some _ _ _ (l ++ [_]))); [done|].
    exists l, {| pl_agent_id := a; pl_lifecycle := Running; pl_created_at := now;
                 pl_last_confirmed_at := Some now |}, [].
    split_and!; [done|done|by apply bool_decide_eq_true|done].
Qed.

Definition confirm_added (now : Instant) (a : ActorId) (manifests : Manifests)
    (placements : Placements) (added : list Ulid) : Placements :=
  foldl (λ placements vmid,
    match manifests !! vmid with
    | None => placements
    | Some _ => <[vmid := confirm_placement a now (default [] (placements !! vmid))]> placements
    end) placements added.

Lemma lookup_confirm_added now a manifests added placements vmid :
  confirm_added now a manifests placements added !! vmid =
  if decide (vmid ∈ added ∧ is_Some (manifests !! vmid))
  then Some (confirm_placement a now (default [] (placements !! vmid)))
  else placements !! vmid.
Proof.
  unfold confirm_added. revert placements; induction added as [|v added IH]; intros placements; cbn.
  { by rewrite decide_False by set_solver. }
  rewrite IH. destruct (manifests !! v) as [m|] eqn:Hm.
  - destruct (decide (v = vmid)) as [->|Hne].
    + rewrite lookup_insert_eq. cbn. rewrite confirm_placement_idemp.
      rewrite (decide_True (P := vmid ∈ vmid :: added ∧ _)) by (split; [set_solver|by rewrite Hm]).
      by destruct (decide _).
    + rewrite lookup_insert_ne by done. apply decide_ext. set_solver.
  - apply decide_ext. split; [set_solver|]. intros [[->|?]%elem_of_cons Hs]; [|done].
    rewrite Hm in Hs. by destruct Hs.
Qed.

Lemma lookup_alter_all {A} (f : A → A) ks (m : gmap N A) k :
  (∀ x, f (f x) = f x) →
  foldl (λ m k, alter f k m) m ks !! k = (if decide (k ∈ ks) then f else id) <$> m !! k.
Proof.
  intros Hf. revert m; induction ks as [|k' ks IH]; intros m; cbn.
  { rewrite decide_False by set_solver. by rewrite option_fmap_id. }
  rewrite IH. destruct (decide (k = k')) as [->|Hne].
  - rewrite lookup_alter_eq, (decide_True (P := k' ∈ k' :: ks)) by set_solver.
    rewrite <-option_fmap_compose. destruct (decide _); destruct (m !! k'); cbn; by rewrite ?Hf.
  - rewrite lookup_alter_ne by done. f_equal. apply decide_ext. set_solver.
Qed.

Definition kept_on_removal (a : ActorId) (entry : VmPlacement) : Prop :=
  pl_agent_id entry ≠ a ∨ pl_lifecycle entry = Pending.
#[global] Instance kept_on_removal_dec a entry : Decision (kept_on_removal a entry).
Proof. unfold kept_on_removal. apply _. Defined.

Lemma list_filter_idemp {A} (P : A → Prop) `{∀ x, Decision (P x)} (l : list A) :
  filter P (filter P l) = filter P l.
Proof. apply filter_all, Forall_forall. by intros x [? _]%list_elem_of_filter. Qed.

Lemma lookup_reconcile_agent_delta now a added removed manifests placements vmid :
  reconcile_agent_delta now a added removed manifests placements !! vmid =
  (if decide (vmid ∈ removed) then filter (kept_on_removal a) else id) <$>
  (if decide (vmid ∈ added ∧ is_Some (manifests !! vmid))
   then Some (confirm_placement a now (default [] (placements !! vmid)))
   else placements !! vmid).
Proof.
  unfold reconcile_agent_delta. rewrite <-lookup_confirm_added.
  by apply lookup_alter_all, list_filter_idemp.
Qed.

Lemma reconcile_agent_delta_wf now a added removed manifests placements :
  placements_all_wf placements →
  placements_all_wf (reconcile_agent_delta now a added removed manifests placements).
Proof.
  intros Hwf vmid entries. rewrite lookup_reconcile_agent_delta.
  intros (entries' & He & ->)%fmap_Some.
  assert (placements_wf entries').
  { destruct (decide (vmid ∈ added ∧ _)) as [_|_]; simplify_eq; [|by eapply Hwf].
    auto with odorobo. }
  destruct (decide (vmid ∈ removed)); [by apply placements_wf_filter|done].
Qed.

(** The placement on the reporting agent after a delta. *)
Definition delta_placement (now : Instant) (a : ActorId) (added removed : bool)
    (old : option VmPlacement) : option VmPlacement :=
  let new := if added then Some (confirmed now a old) else old in
  if removed
  then new ≫= λ e, if decide (pl_lifecycle e = Pending) then Some e else None
  else new.

Lemma find_default a (l : option (list VmPlacement)) :
  find_placement a (default [] l) = l ≫= find_placement a.
Proof. by destruct l. Qed.

Lemma find_kept_on_removal a l b :
  NoDup (pl_agent_id <$> l) →
  find_placement b (filter (kept_on_removal a) l) =
  if decide (b = a)
  then find_placement a l ≫= λ e, if decide (pl_lifecycle e = Pending) then Some e else None
  else find_placement b l.
Proof.
  intros Hn. rewrite find_placement_filter by done.
  destruct (decide (b = a)) as [->|Hb].
  - destruct (find_placement a l) as [e|] eqn:He; [|done]. cbn.
    apply find_placement_Some in He as [_ <-]. apply decide_ext. unfold kept_on_removal. naive_solver.
  - destruct (find_placement b l) as [e|] eqn:He; [|done]. cbn.
    apply find_placement_Some in He as [_ <-]. rewrite decide_True; [done|]. by left.
Qed.

Lemma placement_of_reconcile_agent_delta now a added removed manifests placements vmid b :
  placements_all_wf placements →
  placement_of (reconcile_agent_delta now a added removed manifests placements) vmid b =
  if decide (b = a)
  then delta_placement now a (bool_decide (vmid ∈ added ∧ is_Some (manifests !! vmid)))
         (bool_decide (vmid ∈ removed)) (placement_of placements vmid a)
  else placement_of placements vmid b.
Proof.
  intros Hwf. unfold placement_of, delta_placement. rewrite lookup_reconcile_agent_delta.
  rewrite <-!decide_bool_decide.
  set (old := placements !! vmid).
  set (new := if decide (vmid ∈ added ∧ _) then _ else old).
  assert (∀ l, new = Some l → placements_wf l) as Hnew.
  { subst new. intros l. destruct (decide _); intros; simplify_eq; [|by eapply Hwf].
    subst old; auto with odorobo. }
  assert (∀ c, new ≫= find_placement c =
    if decide (c = a) then (if decide (vmid ∈ added ∧ is_Some (manifests !! vmid))
      then Some (confirmed now a (old ≫= find_placement a)) else old ≫= find_placement a)
    else old ≫= find_placement c) as Hfind.
  { intros c. subst new. destruct (decide (vmid ∈ added ∧ _)); cbn;
      [rewrite find_confirm_placement, !find_default|]; destruct (decide (c = a)); by subst. }
  destruct (decide (vmid ∈ removed)).
  - transitivity (if decide (b = a)
      then (new ≫= find_placement a) ≫= λ e, if decide (pl_lifecycle e = Pending) then Some e else None
      else new ≫= find_placement b).
    { destruct new as [l|]; cbn; [|by destruct (decide (b = a))].
      apply find_kept_on_removal. by apply Hnew. }
    rewrite !Hfind. rewrite (decide_True (P := a = a)) by done. by destruct (decide (b = a)).
  - rewrite option_fmap_id, Hfind. done.
Qed.

(** A status delta of an agent changes the placements of that agent only:
    a VM it reports as added becomes a confirmed running placement if the
    scheduler holds its manifest, a VM it reports as removed loses its
    placement there unless it is still pending, everything else is unchanged. *)
Theorem reconcile_agent_delta_spec now a added removed manifests placements vmid b :
  placements_all_wf placements →
  placement_of (reconcile_agent_delta now a added removed manifests placements) vmid b =
  if decide (b = a)
  then delta_placement now a (bool_decide (vmid ∈ added ∧ is_Some (manifests !! vmid)))
         (bool_decide (vmid ∈ removed)) (placement_of placements vmid a)
  else placement_of placements vmid b.
Proof. apply placement_of_reconcile_agent_delta. Qed.

(** ** Snapshot reconciliation *)

Lemma lookup_push_all (e : VmPlacement) ks (p : Placements) k :
  NoDup ks →
  foldl (λ p k, <[k := default [] (p !! k) ++ [e]]> p) p ks !! k =
  if decide (k ∈ ks) then Some (default [] (p !! k) ++ [e]) else p !! k.
Proof.
  intros Hn. revert p; induction Hn as [|k' ks Hk' Hn IH]; intros p; cbn.
  { by rewrite decide_False by set_solver. }
  rewrite IH. destruct (decide (k = k')) as [->|Hne].
  - rewrite lookup_insert_eq, decide_False by done. by rewrite decide_True by set_solver.
  - rewrite lookup_insert_ne by done. apply decide_ext. set_solver.
Qed.

(** The entries of one VM after the missing placements were added. *)
Definition with_missing (now : Instant) (a : ActorId) (observed known : Prop)
    `{Decision observed, Decision known} (old : option (list VmPlacement)) :
    option (list VmPlacement) :=
  if decide (observed ∧ known ∧ Forall (λ e, pl_agent_id e ≠ a) (default [] old))
  then Some (default [] old ++ [confirmed now a None]) else old.

Lemma lookup_reconcile_agent_placements `{IterOrder} now a status manifests placements vmid :
  reconcile_agent_placements now a status manifests placements !! vmid =
  match with_missing now a (vmid ∈ status_vms status) (is_Some (manifests !! vmid))
          (placements !! vmid) with
  | Some l => match refresh_entries now a (list_to_set (status_vms status)) vmid l with
              | [] => None
              | e :: l => Some (e :: l)
              end
  | None => None
  end.
Proof.
  unfold reconcile_agent_placements. rewrite lookup_remove_empty, map_lookup_imap.
  rewrite lookup_push_all by apply NoDup_filter, NoDup_iter_set.
  unfold with_missing.
  destruct (decide (vmid ∈ _)) as [Hin|Hin];
    rewrite list_elem_of_filter, elem_of_iter_set, elem_of_list_to_set in Hin;
    [rewrite decide_True by tauto|rewrite decide_False by tauto; destruct (placements !! vmid)];
    cbn; try done; by destruct (refresh_entries _ _ _ _ _).
Qed.

Lemma refresh_entry_agent now a observed vmid e e' :
  refresh_entry now a observed vmid e = Some e' → pl_agent_id e' = pl_agent_id e.
Proof. unfold refresh_entry. intros. by split_matches. Qed.

Lemma refresh_entry_refines now a observed vmid e e' :
  entry_wf e → refresh_entry now a observed vmid e = Some e' → refines_entry e' e.
Proof. unfold refresh_entry. intros. split_matches; repeat split; try done; by eexists. Qed.

Lemma refresh_entries_wf now a observed vmid l :
  placements_wf l → placements_wf (refresh_entries now a observed vmid l).
Proof.
  intros Hwf.
  assert (∃ k, k `sublist_of` l ∧ Forall2 refines_entry (refresh_entries now a observed vmid l) k)
    as (k & Hs & Hf).
  { destruct Hwf as [He _ _]. clear -He. induction He as [|e l He _ (k & Hs & Hf)].
    { exists []. by repeat constructor. }
    unfold refresh_entries in *. cbn.
    destruct (refresh_entry now a observed vmid e) as [e'|] eqn:Hr.
    - exists (e :: k). split; [by constructor|]. constructor; [|done].
      by eapply refresh_entry_refines.
    - exists k. split; [by constructor|done]. }
  eapply placements_wf_refine; [exact Hf|]. by eapply placements_wf_sublist.
Qed.

Lemma with_missing_wf now a observed known `{Decision observed, Decision known} old l :
  (∀ k, old = Some k → placements_wf k) →
  with_missing now a observed known old = Some l → placements_wf l.
Proof.
  unfold with_missing. intros Hold. destruct (decide _) as [(_ & _ & Hne)|_]; [|by eauto].
  intros [= <-]. apply placements_wf_push; [|by eexists|done|done].
  destruct old; cbn; eauto with odorobo.
Qed.

Lemma reconcile_agent_placements_wf `{IterOrder} now a status manifests placements :
  placements_all_wf placements →
  placements_all_wf (reconcile_agent_placements now a status manifests placements).
Proof.
  intros Hwf vmid entries. rewrite lookup_reconcile_agent_placements.
  destruct (with_missing _ _ _ _ _) as [l|] eqn:Hl; [|done].
  apply with_missing_wf in Hl; [|intros; by eapply Hwf].
  apply (refresh_entries_wf now a (list_to_set (status_vms status)) vmid) in Hl.
  destruct (refresh_entries _ _ _ _ _); [done|]. by intros [= <-].
Qed.

(** The placement on the reporting agent after a full snapshot. *)
Definition snapshot_placement (now : Instant) (a : ActorId) (observed known : bool)
    (old : option VmPlacement) : option VmPlacement :=
  if observed
  then match old with
       | Some e => Some (confirmed now a (Some e))
       | None => if known then Some (confirmed now a None) else None
       end
  else old ≫= λ e,
    match pl_lifecycle e, pl_last_confirmed_at e with
    | Pending, _ =>
        if now - pl_created_at e <? from_secs 120 then Some e else None
    | Running, Some t => if now - t <? from_secs 30 then Some e else None
    | Running, None => None
    end.

Lemma find_with_missing now a observed known `{Decision observed, Decision known} old b :
  with_missing now a observed known old ≫= find_placement b =
  if decide (b = a ∧ observed ∧ known ∧ old ≫= find_placement a = None)
  then Some (confirmed now a None) else old ≫= find_placement b.
Proof.
  unfold with_missing. rewrite <-find_default.
  destruct (decide (observed ∧ _)) as [(?&?&Hne)|Hno].
  - cbn. rewrite find_placement_app, find_default, find_placement_cons. cbn.
    apply find_placement_None in Hne as Hn. rewrite find_default in Hn.
    destruct (decide (b = a)) as [->|Hb].
    + rewrite Hn, decide_True by done. by rewrite decide_True by (split_and!; try done; by rewrite ?find_default).
    + rewrite (decide_False (P := b = a ∧ _)), decide_False by naive_solver.
      by destruct (old ≫= find_placement b).
  - rewrite decide_False; [apply find_default|]. intros (_ & ? & ? & Hn). apply Hno.
    by rewrite <-find_placement_None, find_default.
Qed.

Lemma placement_of_reconcile_agent_placements `{IterOrder} now a status manifests placements vmid b :
  placements_all_wf placements →
  placement_of (reconcile_agent_placements now a status manifests placements) vmid b =
  if decide (b = a)
  then snapshot_placement now a (bool_decide (vmid ∈ status_vms status))
         (bool_decide (is_Some (manifests !! vmid))) (placement_of placements vmid a)
  else placement_of placements vmid b.
Proof.
  intros Hwf. unfold placement_of. rewrite lookup_reconcile_agent_placements.
  set (obs := vmid ∈ status_vms status). set (known := is_Some (manifests !! vmid)).
  pose proof (λ c, find_with_missing now a obs known (placements !! vmid) c) as Hfind.
  transitivity ((with_missing now a obs known (placements !! vmid) ≫= find_placement b)
    ≫= refresh_entry now a (list_to_set (status_vms status)) vmid).
  { destruct (with_missing _ _ _ _ _) as [l|] eqn:Hl; [|done].
    apply with_missing_wf in Hl as [_ Hn _]; [|intros; by eapply Hwf].
    cbn. rewrite <-find_placement_omap by (done || apply refresh_entry_agent).
    unfold refresh_entries. by destruct (omap _ l). }
  rewrite Hfind. clear Hfind Hwf. set (old := placements !! vmid ≫= find_placement a).
  destruct (decide (b = a)) as [->|Hb].
  - unfold snapshot_placement. fold old. destruct (decide (_ ∧ _)) as [(_ & Ho & Hk & ->)|Hno].
    + cbn. rewrite !bool_decide_eq_true_2 by done. unfold refresh_entry. cbn.
      rewrite decide_False by naive_solver. by rewrite decide_True by by apply elem_of_list_to_set.
    + destruct old as [e|] eqn:He; cbn.
      * destruct (placements !! vmid) as [l|]; [|done]. apply find_placement_Some in He as [_ <-].
        unfold refresh_entry. rewrite decide_False by naive_solver.
        subst obs. rewrite <-decide_bool_decide.
        rewrite (decide_ext (_ ∈ list_to_set _) (vmid ∈ status_vms status)) by apply elem_of_list_to_set.
        destruct (decide _); [done|]. by destruct e as [? [] ? []].
      * case_bool_decide; [|done]. rewrite bool_decide_eq_false_2; [done|]. naive_solver.
  - rewrite decide_False by naive_solver.
    destruct (placements !! vmid) as [l|]; [cbn|done].
    destruct (find_placement b l) as [e|] eqn:He; [cbn|done].
    apply find_placement_Some in He as [_ <-]. unfold refresh_entry. by rewrite decide_True.
Qed.

(** C25. A full snapshot of an agent changes the placements of that agent only:
    a reported VM is confirmed (and recorded if its manifest is known), a
    running placement that is not reported expires 30 seconds after its last
    confirmation, a pending one 120 seconds after its creation. *)
Theorem reconcile_agent_placements_spec `{IterOrder} now a status manifests placements vmid b :
  placements_all_wf placements →
  placement_of (reconcile_agent_placements now a status manifests placements) vmid b =
  if decide (b = a)
  then snapshot_placement now a (bool_decide (vmid ∈ status_vms status))
         (bool_decide (is_Some (manifests !! vmid))) (placement_of placements vmid a)
  else placement_of placements vmid b.
Proof. apply placement_of_reconcile_agent_placements. Qed.

(** ** Expiry of unresolved placements *)

Lemma has_discovered_lookup data_cache data_cache' vmid :
  data_cache !! vmid = data_cache' !! vmid →
  has_discovered data_cache vmid ↔ has_discovered data_cache' vmid.
Proof. unfold has_discovered. by intros ->. Qed.

Definition unexpired (now : Instant) (discovered : Prop) (e : VmPlacement) : Prop :=
  pl_lifecycle e ≠ Pending ∨ discovered ∨
  duration_since now (pl_created_at e) < UNRESOLVED_VM_CACHE_TIMEOUT.
#[global] Instance unexpired_dec now discovered `{Decision discovered} e :
  Decision (unexpired now discovered e).
Proof. unfold unexpired. apply _. Defined.

Lemma filter_ext {A} (P Q : A → Prop) `{∀ x, Decision (P x), ∀ x, Decision (Q x)} (l : list A) :
  (∀ x, P x ↔ Q x) → filter P l = filter Q l.
Proof.
  intros HPQ. induction l as [|x l IH]; [done|]. rewrite !filter_cons, IH. by apply decide_ext.
Qed.

Lemma lookup_cleanup_placements `{IterOrder} now placements data_cache vmid :
  (cleanup_unresolved_vm_cache now placements data_cache).1 !! vmid =
  filter (unexpired now (has_discovered data_cache vmid)) <$> placements !! vmid.
Proof.
  unfold cleanup_unresolved_vm_cache. cbn. rewrite lookup_retain_all.
  destruct (placements !! vmid) as [l|]; cbn; [f_equal|done].
  apply filter_ext. intros e. unfold unexpired.
  rewrite elem_of_list_to_set, list_elem_of_filter, elem_of_iter_keys.
  assert (has_discovered data_cache vmid → is_Some (data_cache !! vmid)); [|tauto].
  unfold has_discovered. destruct (data_cache !! vmid); [by eexists|done].
Qed.

Definition undiscovered (entries : list CachedVMActor) : Prop :=
  Forall (λ entry, vm_actor_ref entry = None) entries.
#[global] Instance undiscovered_dec entries : Decision (undiscovered entries).
Proof. unfold undiscovered. apply _. Defined.

Lemma undiscovered_alt entries : undiscovered entries ↔ ¬ Exists is_discovered entries.
Proof.
  unfold undiscovered. rewrite <-Forall_Exists_neg. apply Forall_iff. intros e.
  unfold is_discovered. by rewrite eq_None_not_Some.
Qed.

Definition drop_placeholder (d : DataCache) (vmid : Ulid) : DataCache :=
  match d !! vmid with
  | Some entries => if decide (undiscovered entries) then delete vmid d else d
  | None => d
  end.

Lemma lookup_drop_placeholder d k vmid :
  drop_placeholder d k !! vmid =
  if decide (vmid = k ∧ ¬ has_discovered d k) then None else d !! vmid.
Proof.
  assert (drop_placeholder d k = if decide (has_discovered d k) then d else delete k d) as ->.
  { unfold drop_placeholder. destruct (decide (has_discovered d k)) as [Hd|Hd];
      unfold has_discovered in Hd; destruct (d !! k) as [l|] eqn:Hl; try done.
    - by rewrite decide_False by (rewrite undiscovered_alt; tauto).
    - by rewrite decide_True by by rewrite undiscovered_alt.
    - by rewrite delete_id. }
  destruct (decide (has_discovered d k)), (decide (vmid = k)) as [->|];
    rewrite ?lookup_delete_eq, ?lookup_delete_ne by done;
    by rewrite ?decide_True, ?decide_False by naive_solver.
Qed.

Lemma lookup_drop_placeholders ks d vmid :
  foldl drop_placeholder d ks !! vmid =
  if decide (¬ has_discovered d vmid ∧ vmid ∈ ks) then None else d !! vmid.
Proof.
  revert d; induction ks as [|k ks IH]; intros d; cbn; [by rewrite decide_False by set_solver|].
  rewrite IH. destruct (decide (vmid = k)) as [->|Hne].
  - destruct (decide (has_discovered d k)) as [Hk|Hk].
    + assert (drop_placeholder d k !! k = d !! k) as Hd
        by by rewrite lookup_drop_placeholder, decide_False by naive_solver.
      pose proof (has_discovered_lookup _ _ _ Hd).
      by rewrite !decide_False by naive_solver.
    + rewrite lookup_drop_placeholder, (decide_True (P := k = k ∧ _)) by done.
      rewrite (decide_True (P := _ ∧ k ∈ k :: ks)) by set_solver. by destruct (decide _).
  - assert (drop_placeholder d k !! vmid = d !! vmid) as Hd
      by by rewrite lookup_drop_placeholder, decide_False by naive_solver.
    pose proof (has_discovered_lookup _ _ _ Hd). rewrite Hd. apply decide_ext. set_solver.
Qed.

(** The placeholder entries of a VM go with its last placement. *)
Lemma lookup_cleanup_data_cache `{IterOrder} now placements data_cache vmid :
  (cleanup_unresolved_vm_cache now placements data_cache).2 !! vmid =
  if decide (¬ has_discovered data_cache vmid ∧
             (cleanup_unresolved_vm_cache now placements data_cache).1 !! vmid = Some [])
  then None else data_cache !! vmid.
Proof.
  unfold cleanup_unresolved_vm_cache at 1. cbn [snd]. etrans; [apply lookup_drop_placeholders|].
  apply decide_ext. by rewrite elem_of_empty_keys.
Qed.

Lemma cleanup_placements_wf `{IterOrder} now placements data_cache :
  placements_all_wf placements →
  placements_all_wf (cleanup_unresolved_vm_cache now placements data_cache).1.
Proof.
  intros Hwf vmid l. rewrite lookup_cleanup_placements.
  intros (k & Hk & ->)%fmap_Some. apply placements_wf_filter. by eapply Hwf.
Qed.

(** ** The VMs an affinity rule looks at *)

Lemma push_unseen_spec l vmids seen :
  NoDup vmids → (∀ x, x ∈ vmids ↔ x ∈ seen) →
  let '(vmids', seen') := push_unseen (vmids, seen) l in
  NoDup vmids' ∧ (∀ x, x ∈ vmids' ↔ x ∈ seen') ∧ ∀ x, x ∈ vmids' ↔ x ∈ vmids ∨ x ∈ l.
Proof.
  unfold push_unseen. revert vmids seen. induction l as [|y l IH]; intros vmids seen Hn Hs; cbn.
  { split_and!; set_solver. }
  destruct (decide (y ∈ seen)) as [Hy|Hy].
  - specialize (IH vmids seen Hn Hs). destruct (foldl _ _ l) as [v s].
    destruct IH as (?&?&Hin). split_and!; [done|done|]. intros x. rewrite Hin. set_solver.
  - specialize (IH (vmids ++ [y]) ({[y]} ∪ seen)). destruct (foldl _ _ l) as [v s].
    destruct IH as (?&?&Hin).
    + apply NoDup_app. split_and!; [done|set_solver|apply NoDup_singleton].
    + set_solver.
    + split_and!; [done|done|]. intros x. rewrite Hin. set_solver.
Qed.

Lemma elem_of_placement_vm_ids `{o : IterOrder} placements indexed a observed :
  NoDup (placement_vm_ids placements indexed a observed) ∧
  ∀ vmid, vmid ∈ placement_vm_ids placements indexed a observed ↔
    vmid ∈ observed ∨ vmid ∈ default ∅ indexed ∨ is_Some (placement_of placements vmid a).
Proof.
  assert (∀ vmid, vmid ∈ (filter (λ kx, Exists (λ entry, pl_agent_id entry = a) kx.2)
       (iter_map placements)).*1 ↔ is_Some (placement_of placements vmid a)) as Hpl.
  { intros vmid. rewrite list_elem_of_fmap. unfold placement_of. split.
    - intros [[v l] [-> [He Hl%elem_of_iter_map]%list_elem_of_filter]]. cbn in *. rewrite Hl. cbn.
      apply not_eq_None_Some. rewrite find_placement_None. rewrite Forall_Exists_neg. tauto.
    - destruct (placements !! vmid) as [l|] eqn:Hl; cbn; [|by intros []].
      intros Hs%not_eq_None_Some. exists (vmid, l). split; [done|]. apply list_elem_of_filter.
      split; [|by apply elem_of_iter_map]. cbn. apply dec_stable. intros Hn. apply Hs.
      apply find_placement_None. by apply Forall_Exists_neg. }
  unfold placement_vm_ids.
  pose proof (push_unseen_spec observed [] ∅) as H1.
  destruct (push_unseen ([], ∅) observed) as [v1 s1].
  destruct H1 as (N1 & E1 & M1); [constructor|set_solver|].
  set (acc := match indexed with Some i => push_unseen _ (iter_set i) | None => _ end).
  assert (NoDup acc.1 ∧ (∀ x, x ∈ acc.1 ↔ x ∈ acc.2) ∧
    ∀ x, x ∈ acc.1 ↔ x ∈ observed ∨ x ∈ default ∅ indexed) as (N2 & E2 & M2).
  { subst acc. destruct indexed as [i|]; cbn; [|split_and!; set_solver].
    pose proof (push_unseen_spec (iter_set i) v1 s1 N1 E1) as H2.
    destruct (push_unseen (v1, s1) (iter_set i)) as [v2 s2]. destruct H2 as (?&?&M).
    split_and!; [done|done|]. intros x. cbn. rewrite M, M1, elem_of_iter_set. set_solver. }
  destruct acc as [v2 s2]. cbn in *.
  set (l := (filter _ _).*1) in *.
  pose proof (push_unseen_spec l v2 s2 N2 E2) as H3.
  destruct (push_unseen (v2, s2) l) as [v3 s3]. destruct H3 as (?&_&M3). cbn.
  split; [done|]. intros vmid. rewrite M3, M2, Hpl. tauto.
Qed.

(** [placement_vm_ids] lists, without duplicates and whatever the hash-map
    order, exactly the VMs that the agent reported, that its index has or that
    have a placement on it. *)
Theorem placement_vm_ids_spec `{IterOrder} placements indexed a observed :
  NoDup (placement_vm_ids placements indexed a observed) ∧
  ∀ vmid, vmid ∈ placement_vm_ids placements indexed a observed ↔
    vmid ∈ observed ∨ vmid ∈ default ∅ indexed ∨ is_Some (placement_of placements vmid a).
Proof. apply elem_of_placement_vm_ids. Qed.

(** ** The discovered actors of a VM *)

Definition refs (entries : list CachedVMActor) : list ActorId := omap vm_actor_ref entries.
Definition placeholders (entries : list CachedVMActor) : nat :=
  length (filter (λ e, vm_actor_ref e = None) entries).

Lemma elem_of_refs a entries : a ∈ refs entries ↔ {| vm_actor_ref := Some a |} ∈ entries.
Proof.
  unfold refs. rewrite list_elem_of_omap. split.
  - intros ([r] & ? & ?). cbn in *. by subst.
  - intros ?. by exists {| vm_actor_ref := Some a |}.
Qed.

Lemma refs_app l k : refs (l ++ k) = refs l ++ refs k.
Proof. apply omap_app. Qed.
Lemma refs_cons e l : refs (e :: l) = option_list (vm_actor_ref e) ++ refs l.
Proof. unfold refs. cbn. by destruct (vm_actor_ref e). Qed.

Lemma has_discovered_refs data_cache vmid :
  has_discovered data_cache vmid ↔ ∃ a, a ∈ refs (default [] (data_cache !! vmid)).
Proof.
  unfold has_discovered. setoid_rewrite elem_of_refs.
  destruct (data_cache !! vmid) as [l|]; cbn; [|set_solver].
  rewrite Exists_exists. split.
  - intros ([r] & Hin & [a Ha]). cbn in Ha. subst. by exists a.
  - intros [a Ha]. eexists. split; [done|]. by exists a.
Qed.

(** A refreshed or newly discovered actor is listed once, fulfilling a
    placeholder if there is one, and no other actor is lost. *)
Lemma update_cached_vm_entry_refs entries a :
  NoDup (refs entries) →
  let entries' := update_cached_vm_entry entries a {| vm_actor_ref := Some a |} in
  NoDup (refs entries') ∧ (∀ b, b ∈ refs entries' ↔ b = a ∨ b ∈ refs entries) ∧
  placeholders entries' = if decide (a ∈ refs entries) then placeholders entries
                          else pred (placeholders entries).
Proof.
  intros Hn. unfold update_cached_vm_entry, placeholders. cbv zeta.
  destruct (replace_first _ _ entries) as [l'|] eqn:Hr.
  - apply replace_first_Some in Hr as (l1 & [r] & l2 & -> & -> & Hx%bool_decide_eq_true & _).
    cbn in Hx. subst r. rewrite decide_True by (rewrite refs_app, refs_cons; set_solver).
    split_and!; [done| |done]. intros b. rewrite refs_app, refs_cons. set_solver.
  - apply replace_first_None, (Forall_bool_decide_false (λ e, vm_actor_ref e = Some a)) in Hr.
    assert (a ∉ refs entries) as Ha.
    { rewrite elem_of_refs. rewrite Forall_forall in Hr. intros Hin. by apply (Hr _ Hin). }
    rewrite decide_False by done.
    destruct (replace_first _ _ entries) as [l'|] eqn:Hr2.
    + apply replace_first_Some in Hr2 as (l1 & [r] & l2 & -> & -> & Hx%bool_decide_eq_true & _).
      cbn in Hx. subst r. rewrite !refs_app, !refs_cons in *. cbn in *. split_and!.
      * rewrite <-Permutation_middle. by apply NoDup_cons.
      * set_solver.
      * rewrite !filter_app, !length_app, !filter_cons, decide_False, decide_True by done.
        cbn. lia.
    + apply replace_first_None, (Forall_bool_decide_false (λ e, vm_actor_ref e = None)) in Hr2.
      rewrite refs_app, refs_cons. cbn. split_and!.
      * rewrite <-Permutation_cons_append. by apply NoDup_cons.
      * set_solver.
      * rewrite filter_app, filter_cons, (filter_none _ entries) by done. done.
Qed.

Lemma lookup_remove_vm_actor `{IterOrder} a data_cache vmid :
  remove_vm_actor a data_cache !! vmid =
  match filter (λ e, vm_actor_ref e ≠ Some a) <$> data_cache !! vmid with
  | Some (e :: l) => Some (e :: l)
  | _ => None
  end.
Proof. unfold remove_vm_actor. by rewrite lookup_remove_empty, lookup_retain_all. Qed.

Lemma refs_filter a l : refs (filter (λ e, vm_actor_ref e ≠ Some a) l) = filter (λ b, b ≠ a) (refs l).
Proof.
  induction l as [|[[b|]] l IH]; [done| |].
  - rewrite (refs_cons _ l), filter_app, filter_cons. cbn [vm_actor_ref].
    change (option_list (Some b)) with [b]. rewrite filter_cons, filter_nil, <-IH. destruct (decide (b ≠ a)) as [Hb|Hb].
    + rewrite decide_True by congruence. by rewrite refs_cons.
    + rewrite decide_False by (intros Hn; apply Hn; f_equal; by apply dec_stable). done.
  - rewrite (refs_cons _ l), filter_cons. cbn [vm_actor_ref option_list app].
    rewrite decide_True by done. by rewrite refs_cons.
Qed.

Lemma refs_remove_vm_actor `{IterOrder} a data_cache vmid :
  refs (default [] (remove_vm_actor a data_cache !! vmid)) =
  filter (λ b, b ≠ a) (refs (default [] (data_cache !! vmid))).
Proof.
  rewrite lookup_remove_vm_actor. destruct (data_cache !! vmid) as [l|]; [|done]. cbn.
  rewrite <-refs_filter. by destruct (filter _ l).
Qed.

(** ** Discovery after the agents' reports *)

Lemma lookup_reconcile_discovered_ne `{IterOrder} now vmid index manifests placements v :
  v ≠ vmid →
  reconcile_discovered_vm now vmid index manifests placements !! v = placements !! v.
Proof.
  intros Hne. unfold reconcile_discovered_vm. generalize (filter (λ a, reported_on index a vmid)
    (iter_keys index)) as l. intros l. revert placements.
  induction l as [|a l IH]; intros placements; [done|]. cbn [foldl]. rewrite IH.
  rewrite lookup_reconcile_agent_delta. rewrite !decide_False by set_solver.
  by rewrite option_fmap_id.
Qed.

Lemma reconcile_discovered_vm_wf `{IterOrder} now vmid index manifests placements :
  placements_all_wf placements →
  placements_all_wf (reconcile_discovered_vm now vmid index manifests placements).
Proof.
  unfold reconcile_discovered_vm. generalize (filter (λ a, reported_on index a vmid)
    (iter_keys index)) as l. intros l. revert placements.
  induction l as [|a l IH]; intros placements Hwf; [done|]. cbn [foldl].
  by apply IH, reconcile_agent_delta_wf.
Qed.

(** When a VM actor is discovered after the agents reported the VM, the
    placements become those the reports would have produced: a confirmed
    running placement on every agent whose index has the VM, for this VM only. *)
Theorem reconcile_discovered_vm_spec `{IterOrder} now vmid index manifests placements v b :
  placements_all_wf placements → is_Some (manifests !! vmid) →
  placement_of (reconcile_discovered_vm now vmid index manifests placements) v b =
  if decide (v = vmid ∧ reported_on index b vmid)
  then Some (confirmed (now b) b (placement_of placements vmid b))
  else placement_of placements v b.
Proof.
  intros Hwf Hm. destruct (decide (v = vmid)) as [->|Hne].
  2: { unfold placement_of. rewrite lookup_reconcile_discovered_ne by done.
       by rewrite decide_False by naive_solver. }
  unfold reconcile_discovered_vm. set (l := filter _ (iter_keys index)).
  assert (NoDup l) as Hn by apply NoDup_filter, NoDup_iter_keys.
  assert (b ∈ l ↔ reported_on index b vmid) as Hl.
  { subst l. rewrite list_elem_of_filter, elem_of_iter_keys. split; [tauto|]. intros Hr.
    split; [done|]. unfold reported_on in Hr. destruct (index !! b); [by eexists|done]. }
  rewrite (decide_ext (vmid = vmid ∧ _) (b ∈ l)) by tauto. clear Hl. clearbody l.
  revert placements Hwf. induction Hn as [|a l Ha Hn IH]; intros placements Hwf; cbn [foldl].
  { by rewrite decide_False by set_solver. }
  rewrite IH by by apply reconcile_agent_delta_wf.
  rewrite !placement_of_reconcile_agent_delta by done. unfold delta_placement.
  rewrite (bool_decide_eq_true_2 (vmid ∈ [vmid] ∧ _)) by (split; [set_solver|done]).
  rewrite (bool_decide_eq_false_2 (vmid ∈ [])) by set_solver.
  destruct (decide (b = a)) as [->|Hb].
  - rewrite decide_False by done. by rewrite decide_True by set_solver.
  - apply decide_ext. set_solver.
Qed.

(** A lookup by host name finds an agent of that name whenever there is one,
    and the one when no two agents share it. *)
Lemma lookup_agent_by_hostname_spec `{IterOrder} s name :
  match lookup_agent_by_hostname s name with
  | Some ref => ∃ a data, agent_data_cache s !! a = Some data ∧
      status_hostname (agent_data data) = name ∧ agent_ref data = ref
  | None => map_Forall (λ _ data, status_hostname (agent_data data) ≠ name) (agent_data_cache s)
  end.
Proof.
  unfold lookup_agent_by_hostname. destruct (List.find _ _) as [data|] eqn:Hf; cbn.
  - apply find_some in Hf as [Hin Hn]. apply bool_decide_eq_true in Hn.
    apply list_elem_of_In, elem_of_iter_values in Hin as [a Ha]. by exists a, data.
  - intros a data Ha Hn. assert (data ∈ iter_values (agent_data_cache s)) as Hin.
    { apply elem_of_iter_values. by exists a. }
    apply list_elem_of_In in Hin. eapply find_none in Hf; [|exact Hin]. cbn in Hf.
    by rewrite bool_decide_eq_true_2 in Hf.
Qed.
