(* ===== verification/Scheduling.v ===== *)
(** * The scheduling policy

    [odorobo/src/actors/scheduler_actor/scheduling.rs]: pending-resource
    accounting, affinity evaluation, the score of an agent and the choice of
    the best one. Scores keep the source's [f32] headroom, in IEEE binary32. *)

From S2P Require Import Prelude RustString RustFloat SortedVec Manifest Messages Cache.
From S2P Require Import CacheFacts.
Open Scope N_scope.

(** ** Errors reported by the scheduler *)

Inductive SchedulerError :=
| NoValidAgents
| ConflictingCreate
| VmNotFound
| VmIdRequired
| LookupFailed
| RemoteFailed.

(** ** Pending resources *)

Definition VCPU_OVERPROVISIONMENT_NUMERATOR : N := 2.
Definition VCPU_OVERPROVISIONMENT_DENOMINATOR : N := 1.

Definition request_vcpus (m : VmManifest) : N := compute_vcpus (compute (desired m)).
Definition request_memory (m : VmManifest) : N := compute_memory_bytes (compute (desired m)).

(** The body of the inner loop, for one placement of a VM. *)
Definition add_pending (manifest : VmManifest) (resources : gmap ActorId (N * N))
    (entry : VmPlacement) : gmap ActorId (N * N) :=
  match pl_lifecycle entry with
  | Pending =>
      let '(vcpus, ram) := default (0, 0) (resources !! pl_agent_id entry) in
      <[pl_agent_id entry := (u32_saturating_add vcpus (request_vcpus manifest),
                              u64_saturating_add ram (request_memory manifest))]> resources
  | Running => resources
  end.

Definition pending_resources_by_agent `{IterOrder} (manifests : Manifests)
    (placements : Placements) : gmap ActorId (N * N) :=
  foldl (λ resources '(vmid, entries),
    match manifests !! vmid with
    | None => resources
    | Some manifest => foldl (add_pending manifest) resources entries
    end) ∅ (iter_map placements).

(** The lazily filled cache. *)
Definition pending_resources `{IterOrder} (s : SchedulerActor) :
    SchedulerActor * gmap ActorId (N * N) :=
  match pending_resources_cache s with
  | Some resources => (s, resources)
  | None =>
      let resources := pending_resources_by_agent (vm_manifests s) (vm_placements s) in
      (set_pending_resources_cache (Some resources) s, resources)
  end.

(** ** Capacity *)

Definition has_capacity (max_vcpus used_vcpus requested_vcpus max_ram used_ram requested_ram : N) :
    bool :=
  (u32_saturating_add used_vcpus requested_vcpus <=? max_vcpus) &&
  (u64_saturating_add used_ram requested_ram <=? max_ram).

(** ** Affinity *)

Definition affinity_delta (strictness : AffinityStrictness) (follows_rule : bool) : option Z :=
  match strictness with
  | Required => if negb follows_rule then None else Some 0%Z
  | Preferred weight => Some (i64_saturating_mul (if follows_rule then 1 else 0) weight)
  end.

Definition evaluate_table_value (value_option : option rstring) (requirement : AffinityRequirement) :
    bool :=
  match value_option with
  | None => match requirement_operator requirement with OpNotIn => true | _ => false end
  | Some value =>
      match requirement_operator requirement with
      | OpIn => bool_decide (value ∈ requirement_values requirement)
      | OpNotIn => negb (bool_decide (value ∈ requirement_values requirement))
      | OpLt | OpGt =>
          match requirement_values requirement with
          | [requirement_value] =>
              match parse_f64 value with
              | None => false
              | Some value_number =>
                  match parse_f64 requirement_value with
                  | None => false
                  | Some requirement_value_number =>
                      if decide (requirement_operator requirement = OpLt)
                      then float_lt value_number requirement_value_number
                      else float_gt value_number requirement_value_number
                  end
              end
          | _ => false
          end
      end
  end.

(** Labels and annotations of one object. *)
Notation MetadataTables := (list (gmap rstring rstring * gmap rstring rstring)).

Definition requirement_table_of (requirement : AffinityRequirement)
    (object_metadata : gmap rstring rstring * gmap rstring rstring) : gmap rstring rstring :=
  match requirement_table requirement with
  | Label => object_metadata.1
  | Annotation => object_metadata.2
  end.

(** The inner loop: it stops at the first object that fails the requirement. *)
Fixpoint requirement_holds (requirement : AffinityRequirement) (tables : MetadataTables) : bool :=
  match tables with
  | [] => true
  | object_metadata :: tables =>
      if negb (evaluate_table_value
                 (requirement_table_of requirement object_metadata !! requirement_key requirement)
                 requirement)
      then false else requirement_holds requirement tables
  end.

(** The outer loop: it stops at the first requirement that holds. *)
Fixpoint some_requirement (tables : MetadataTables) (requirements : list AffinityRequirement) : bool :=
  match requirements with
  | [] => false
  | requirement :: requirements =>
      if match tables with [] => false | _ => requirement_holds requirement tables end
      then true else some_requirement tables requirements
  end.

Definition evaluate_affinity_rule (metadata_tables : MetadataTables) (rule : AffinityRule) : bool :=
  xorb (some_requirement metadata_tables (rule_requirements rule)) (rule_inverse rule).

(** ** Scores *)

Record AgentScore := { general : spec_float; affinity : Z }.
Definition REJECTED : AgentScore := {| general := f32_neg_infinity; affinity := i64_min |}.
Definition default_score : AgentScore := {| general := f32_zero; affinity := 0 |}.

Definition score_partial_cmp (x y : AgentScore) : option comparison :=
  match Z.compare (affinity x) (affinity y) with
  | Eq => float_partial_cmp (general x) (general y)
  | affinity_cmp => Some affinity_cmp
  end.
Definition score_gt (x y : AgentScore) : bool :=
  match score_partial_cmp x y with Some Gt => true | _ => false end.

(** The objects a rule is evaluated against, for one agent. *)
Definition rule_tables `{IterOrder} (s : SchedulerActor) (agent : CachedAgentActor)
    (rule : AffinityRule) : MetadataTables :=
  match rule_affinity_type rule with
  | VirtualMachine =>
      (λ manifest, (metadata_labels (metadata (desired manifest)),
                    metadata_annotations (metadata (desired manifest)))) <$>
      omap (λ vmid, vm_manifests s !! vmid)
        (placement_vm_ids (vm_placements s) (agent_vm_index s !! agent_ref agent)
           (agent_ref agent) (status_vms (agent_data agent)))
  | Agent =>
      [(object_labels (status_metadata (agent_data agent)),
        object_annotations (status_metadata (agent_data agent)))]
  end.

(** The loop over the affinity rules; [None] is the rejection. *)
Fixpoint score_affinity `{IterOrder} (s : SchedulerActor) (agent : CachedAgentActor)
    (acc : Z) (rules : list AffinityRule) : option Z :=
  match rules with
  | [] => Some acc
  | rule :: rules =>
      let follows_rule := evaluate_affinity_rule (rule_tables s agent rule) rule in
      match affinity_delta (rule_strictness rule) follows_rule with
      | None => None
      | Some delta => score_affinity s agent (i64_saturating_add acc delta) rules
      end
  end.

Definition agent_max_vcpus (agent : CachedAgentActor) : N :=
  u32_saturating_mul (status_vcpus (agent_data agent)) VCPU_OVERPROVISIONMENT_NUMERATOR
    / VCPU_OVERPROVISIONMENT_DENOMINATOR.

Definition score_agent `{IterOrder} (s : SchedulerActor) (msg : CreateVM)
    (agent : CachedAgentActor) (pending : gmap ActorId (N * N)) : AgentScore :=
  let data := agent_data agent in
  let '(pending_vcpus, pending_ram) := default (0, 0) (pending !! agent_ref agent) in
  let used_vcpus := u32_saturating_add (status_used_vcpus data) pending_vcpus in
  let used_ram := u64_saturating_add (status_used_ram data) pending_ram in
  let requested_vcpus := request_vcpus (create_config msg) in
  let requested_memory := request_memory (create_config msg) in
  let agent_used_vcpus := u32_saturating_add used_vcpus requested_vcpus in
  if negb (has_capacity (agent_max_vcpus agent) used_vcpus requested_vcpus
             (status_ram data) used_ram requested_memory)
  then REJECTED
  else
    let vcpu_headroom := f32_div (f32_of_N (agent_max_vcpus agent - agent_used_vcpus))
                                 (f32_of_N (agent_max_vcpus agent)) in
    let general := f32_add (general default_score) vcpu_headroom in
    let agent_used_ram := u64_saturating_add used_ram requested_memory in
    let ram_headroom := f32_div (f32_of_N (saturating_sub (status_ram data) agent_used_ram))
                                (f32_of_N (status_ram data)) in
    let general := f32_add general ram_headroom in
    match score_affinity s agent (affinity default_score)
            (placement_affinity (placement (desired (create_config msg)))) with
    | None => REJECTED
    | Some affinity => {| general := general; affinity := affinity |}
    end.

(** The search loop: a later agent replaces the best only if it is better. *)
Definition best_of (score : CachedAgentActor → AgentScore) (agents : list CachedAgentActor) :
    option ActorId * AgentScore :=
  foldl (λ '(best_agent, best_score) agent,
    if score_gt (score agent) best_score then (Some (agent_ref agent), score agent)
    else (best_agent, best_score)) (None, REJECTED) agents.

Definition schedule_agent `{IterOrder} (s : SchedulerActor) (msg : CreateVM) :
    SchedulerActor * result SchedulerError ActorId :=
  let '(s, pending) := pending_resources s in
  let '(best_agent, _) :=
    best_of (λ agent, score_agent s msg agent pending) (iter_values (agent_data_cache s)) in
  (s, ok_or best_agent NoValidAgents).

Definition schedule_agents `{IterOrder} (s : SchedulerActor) (msgs : list CreateVM) :
    SchedulerActor * list (result SchedulerError ActorId) :=
  let '(s, pending) := pending_resources s in
  (s, (λ msg,
    let '(best_agent, _) :=
      best_of (λ agent, score_agent s msg agent pending) (iter_values (agent_data_cache s)) in
    ok_or best_agent NoValidAgents) <$> msgs).
