(* ===== verification/SchedulingFacts.v ===== *)
(** * Correctness of the scheduling policy

    Pending reservations are the saturated sums of the pending requests, for
    every hash-map order; affinity rules decide their declarative reading; the
    chosen agent is eligible and no other agent scores higher; an agent is
    found whenever one is eligible; capacity is respected in exact
    arithmetic. *)

From S2P Require Import Prelude RustString RustFloat SortedVec Manifest Messages Cache.
From S2P Require Import CacheFacts Scheduling.
Open Scope N_scope.

(** ** Pending resources *)

(** The requests that are pending on an agent: one per pending placement of a
    VM whose manifest is known. *)
Definition vm_requests (manifests : Manifests) (a : ActorId)
    (vmid : Ulid) (entries : list VmPlacement) : list (N * N) :=
  match manifests !! vmid with
  | None => []
  | Some m => (λ _, (request_vcpus m, request_memory m)) <$>
                filter (λ e, is_pending e ∧ pl_agent_id e = a) entries
  end.
Definition pending_requests (manifests : Manifests) (placements : Placements) (a : ActorId) :
    list (N * N) :=
  '(vmid, entries) ← map_to_list placements; vm_requests manifests a vmid entries.

(** Reserving a list of requests on top of what is reserved. *)
Definition reserve (old : option (N * N)) (requests : list (N * N)) : option (N * N) :=
  match requests with
  | [] => old
  | _ => let '(v, r) := default (0, 0) old in
         Some (N.min u32_max (v + sum_N requests.*1), N.min u64_max (r + sum_N requests.*2))
  end.

Lemma reserve_app old l k : reserve (reserve old l) k = reserve old (l ++ k).
Proof.
  destruct l as [|x l], k as [|y k]; rewrite ?app_nil_r; try done.
  unfold reserve. cbn [app]. destruct (default (0, 0) old) as [v r]. cbn [default].
  rewrite app_comm_cons, !fmap_app, !sum_N_app. f_equal. f_equal; lia.
Qed.

#[global] Instance reserve_perm old : Proper ((≡ₚ) ==> (=)) (reserve old).
Proof.
  intros l k Hp. destruct l as [|x l], k as [|y k]; try done.
  - by apply Permutation_nil_cons in Hp.
  - symmetry in Hp. by apply Permutation_nil_cons in Hp.
  - unfold reserve. destruct (default (0, 0) old). by rewrite Hp.
Qed.

Lemma lookup_add_pending m resources e a :
  add_pending m resources e !! a =
  reserve (resources !! a)
    (if decide (is_pending e ∧ pl_agent_id e = a) then [(request_vcpus m, request_memory m)] else []).
Proof.
  destruct (decide (is_pending e ∧ pl_agent_id e = a)) as [[Hp <-]|Hn];
    unfold add_pending, is_pending in *.
  - rewrite Hp. unfold reserve. destruct (default _ _) as [v r]. rewrite lookup_insert_eq.
    unfold sum_N. cbn. by rewrite !N.add_0_r.
  - destruct (pl_lifecycle e); [|done]. destruct (default _ _) as [v r].
    by rewrite lookup_insert_ne by naive_solver.
Qed.

Lemma lookup_add_pending_all m entries resources a :
  foldl (add_pending m) resources entries !! a =
  reserve (resources !! a)
    ((λ _, (request_vcpus m, request_memory m)) <$>
       filter (λ e, is_pending e ∧ pl_agent_id e = a) entries).
Proof.
  revert resources. induction entries as [|e entries IH]; intros resources; [done|].
  cbn [foldl]. rewrite IH, lookup_add_pending, reserve_app, filter_cons.
  by destruct (decide _).
Qed.

Lemma lookup_pending_resources_by_agent `{IterOrder} manifests placements a :
  pending_resources_by_agent manifests placements !! a =
  reserve None (pending_requests manifests placements a).
Proof.
  transitivity (reserve ((∅ : gmap N (N * N)) !! a)
    ('(vmid, entries) ← iter_map placements; vm_requests manifests a vmid entries)).
  - unfold pending_resources_by_agent. generalize (∅ : gmap N (N * N)) as resources.
    induction (iter_map placements) as [|[vmid entries] l IH]; intros resources; [done|].
    cbn [foldl]. rewrite IH, bind_cons, <-reserve_app. f_equal. unfold vm_requests.
    destruct (manifests !! vmid); [apply lookup_add_pending_all|done].
  - rewrite lookup_empty. apply reserve_perm. unfold pending_requests.
    by rewrite iter_map_perm.
Qed.

Lemma pending_resources_default `{IterOrder} manifests placements a :
  default (0, 0) (pending_resources_by_agent manifests placements !! a) =
  (N.min u32_max (sum_N (pending_requests manifests placements a).*1),
   N.min u64_max (sum_N (pending_requests manifests placements a).*2)).
Proof.
  rewrite lookup_pending_resources_by_agent. unfold reserve.
  by destruct (pending_requests manifests placements a).
Qed.

(** C29. The resources reserved for an agent are the sums of the vCPUs and of
    the memory of the pending placements on it, each saturated at its width,
    whatever the order in which the hash map is traversed. *)
Theorem pending_resources_exact `{IterOrder} manifests placements a :
  default (0, 0) (pending_resources_by_agent manifests placements !! a) =
  (N.min u32_max (sum_N (pending_requests manifests placements a).*1),
   N.min u64_max (sum_N (pending_requests manifests placements a).*2)).
Proof. apply pending_resources_default. Qed.

Lemma pending_resources_order (o1 o2 : IterOrder) manifests placements :
  @pending_resources_by_agent o1 manifests placements =
  @pending_resources_by_agent o2 manifests placements.
Proof. apply map_eq. intros a. by rewrite !lookup_pending_resources_by_agent. Qed.

(** ** Affinity *)

Lemma requirement_holds_spec requirement tables :
  requirement_holds requirement tables = true ↔
  ∀ t, t ∈ tables →
    evaluate_table_value (requirement_table_of requirement t !! requirement_key requirement)
      requirement = true.
Proof.
  induction tables as [|t tables IH]; cbn; [set_solver|].
  destruct (evaluate_table_value _ _) eqn:Ht; cbn.
  - rewrite IH. set_solver.
  - split; [done|]. intros Hall. rewrite Hall in Ht; set_solver.
Qed.

Lemma some_requirement_spec tables requirements :
  some_requirement tables requirements = true ↔
  tables ≠ [] ∧ ∃ requirement, requirement ∈ requirements ∧ ∀ t, t ∈ tables →
    evaluate_table_value (requirement_table_of requirement t !! requirement_key requirement)
      requirement = true.
Proof.
  induction requirements as [|r requirements IH]; cbn; [set_solver|].
  destruct tables as [|t tables].
  - rewrite IH. naive_solver.
  - destruct (requirement_holds r (t :: tables)) eqn:Hr.
    + rewrite requirement_holds_spec in Hr. split; [|done]. intros _. split; [done|].
      exists r. split; [set_solver|done].
    + rewrite IH. split.
      * intros (?&r'&?&?). split; [done|]. exists r'. split; [set_solver|done].
      * intros (?&r'&[->|?]%elem_of_cons&Hall); [|eauto].
        rewrite <-requirement_holds_spec in Hall. congruence.
Qed.

(** An affinity rule is followed iff, up to the [anti] inversion, there is
    at least one object in its scope and some requirement of the rule is
    satisfied by every object. *)
Theorem evaluate_affinity_rule_spec tables rule :
  evaluate_affinity_rule tables rule = true ↔
  ((tables ≠ [] ∧ ∃ requirement, requirement ∈ rule_requirements rule ∧ ∀ t, t ∈ tables →
      evaluate_table_value (requirement_table_of requirement t !! requirement_key requirement)
        requirement = true) ↔ rule_inverse rule = false).
Proof.
  unfold evaluate_affinity_rule. rewrite <-some_requirement_spec.
  destruct (some_requirement _ _), (rule_inverse rule); cbn; intuition congruence.
Qed.

(** Only the set of objects in scope matters. *)
Lemma some_requirement_perm t1 t2 requirements :
  t1 ≡ₚ t2 → some_requirement t1 requirements = some_requirement t2 requirements.
Proof.
  intros Hp. apply eq_true_iff_eq. rewrite !some_requirement_spec.
  assert (t1 = [] ↔ t2 = []) as He.
  { split; intros ->; [apply Permutation_nil_l in Hp|apply Permutation_nil_r in Hp]; done. }
  rewrite He. do 2 f_equiv. intros r. setoid_rewrite Hp. done.
Qed.

Lemma placement_vm_ids_order (o1 o2 : IterOrder) placements indexed a observed :
  @placement_vm_ids o1 placements indexed a observed ≡ₚ
  @placement_vm_ids o2 placements indexed a observed.
Proof.
  destruct (elem_of_placement_vm_ids (o := o1) placements indexed a observed) as [? H1].
  destruct (elem_of_placement_vm_ids (o := o2) placements indexed a observed) as [? H2].
  apply NoDup_Permutation; [done..|]. intros x. by rewrite H1, H2.
Qed.

Lemma rule_tables_order (o1 o2 : IterOrder) s agent rule :
  @rule_tables o1 s agent rule ≡ₚ @rule_tables o2 s agent rule.
Proof.
  unfold rule_tables. destruct (rule_affinity_type rule); [|done].
  do 2 f_equiv. apply placement_vm_ids_order.
Qed.

Lemma score_affinity_order (o1 o2 : IterOrder) s agent acc rules :
  @score_affinity o1 s agent acc rules = @score_affinity o2 s agent acc rules.
Proof.
  revert acc; induction rules as [|rule rules IH]; intros acc; cbn; [done|].
  unfold evaluate_affinity_rule at 1 2.
  rewrite (some_requirement_perm _ _ _ (rule_tables_order o1 o2 s agent rule)).
  by destruct (affinity_delta _ _).
Qed.

(** A manifest with another requested node and other required labels. *)
Definition with_placement_node (node : option rstring) (labels : gmap rstring rstring)
    (m : VmManifest) : VmManifest :=
  let d := desired m in {|
  api_version := api_version m; manifest_id := manifest_id m; observed := observed m;
  desired := {|
    metadata := metadata d; compute := compute d; storage := storage d; networks := networks d;
    placement := {| placement_node := node; placement_required_labels := labels;
                    placement_affinity := placement_affinity (placement d) |};
    boot := boot d; cloud_init := cloud_init d; vsock := vsock d |} |}.

(** Scheduling reads neither [placement.node] nor [placement.required_labels]. *)
Lemma schedule_ignores_node `{IterOrder} s node labels vmid m :
  schedule_agent s {| create_vmid := vmid; create_config := with_placement_node node labels m |}
  = schedule_agent s {| create_vmid := vmid; create_config := m |}.
Proof. reflexivity. Qed.

(** The score of an agent does not depend on hash-map order: the order
    only decides between agents of equal score. *)
Theorem score_agent_order_independent (o1 o2 : IterOrder) s msg agent pending :
  @score_agent o1 s msg agent pending = @score_agent o2 s msg agent pending.
Proof. unfold score_agent. by rewrite (score_affinity_order o1 o2). Qed.

(** ** The order of scores *)

Lemma score_gt_spec x y :
  score_gt x y = true ↔
  (affinity y < affinity x)%Z ∨
  affinity x = affinity y ∧ float_partial_cmp (general x) (general y) = Some Gt.
Proof.
  unfold score_gt, score_partial_cmp. destruct (Z.compare_spec (affinity x) (affinity y)).
  - destruct (float_partial_cmp _ _) as [[]|]; split; intros; naive_solver lia.
  - split; [done|lia].
  - split; [lia|done].
Qed.

Lemma score_gt_trans x y z : score_gt x y = true → score_gt y z = true → score_gt x z = true.
Proof.
  rewrite !score_gt_spec. intros [?|[? Hxy]] [?|[? Hyz]]; [left; lia..|].
  right. split; [lia|]. by eapply float_gt_trans.
Qed.

Lemma score_gt_irrefl x : score_gt x x = false.
Proof.
  apply not_true_is_false. rewrite score_gt_spec. intros [?|[_ Hx]]; [lia|].
  by apply float_gt_irrefl in Hx.
Qed.

Lemma score_gt_rejected g z : is_nonneg g = true → (i64_min ≤ z)%Z →
  score_gt {| general := g; affinity := z |} REJECTED = true.
Proof.
  intros Hg Hz. apply score_gt_spec. cbn. destruct (decide (z = i64_min)) as [->|]; [|left; lia].
  right. split; [done|]. by destruct g as [[]|[]| |[] ??].
Qed.

(** The search loop returns a maximal agent that beats the initial score, or
    nothing when no agent does. *)
Lemma best_of_spec score agents :
  match best_of score agents with
  | (Some a, best) => ∃ agent, agent ∈ agents ∧ agent_ref agent = a ∧ score agent = best ∧
      score_gt best REJECTED = true ∧ ∀ other, other ∈ agents → score_gt (score other) best = false
  | (None, best) => best = REJECTED ∧ ∀ other, other ∈ agents → score_gt (score other) REJECTED = false
  end.
Proof.
  unfold best_of. induction agents as [|agent agents IH] using rev_ind; cbn; [set_solver|].
  rewrite foldl_app. cbn. destruct (foldl _ _ agents) as [[a|] best].
  - destruct IH as (x & Hx & <- & <- & Hr & Hmax). destruct (score_gt (score agent) _) eqn:Hgt.
    + exists agent. split_and!; [set_solver|done|done|by eapply score_gt_trans|].
      intros other [?| ->%list_elem_of_singleton]%elem_of_app; [|apply score_gt_irrefl].
      apply not_true_is_false. intros Ho. pose proof (score_gt_trans _ _ _ Ho Hgt) as Hx'.
      rewrite Hmax in Hx' by done. done.
    + exists x. split_and!; [set_solver|done..|].
      intros other [?| ->%list_elem_of_singleton]%elem_of_app; auto.
  - destruct IH as [-> Hmax]. destruct (score_gt (score agent) _) eqn:Hgt.
    + exists agent. split_and!; [set_solver|done|done|done|].
      intros other [?| ->%list_elem_of_singleton]%elem_of_app; [|apply score_gt_irrefl].
      apply not_true_is_false. intros Ho. pose proof (score_gt_trans _ _ _ Ho Hgt) as Hx.
      rewrite Hmax in Hx by done. done.
    + split; [done|]. intros other [?| ->%list_elem_of_singleton]%elem_of_app; auto.
Qed.

(** ** Eligibility *)

(** The capacity test of [score_agent]. *)
Definition fits (agent : CachedAgentActor) (pending : gmap ActorId (N * N)) (m : VmManifest) : bool :=
  let '(pending_vcpus, pending_ram) := default (0, 0) (pending !! agent_ref agent) in
  has_capacity (agent_max_vcpus agent)
    (u32_saturating_add (status_used_vcpus (agent_data agent)) pending_vcpus) (request_vcpus m)
    (status_ram (agent_data agent))
    (u64_saturating_add (status_used_ram (agent_data agent)) pending_ram) (request_memory m).

(** The request fits and every required affinity rule is followed. *)
Definition eligible `{IterOrder} (s : SchedulerActor) (agent : CachedAgentActor)
    (pending : gmap ActorId (N * N)) (m : VmManifest) : Prop :=
  fits agent pending m = true ∧
  ∀ rule, rule ∈ placement_affinity (placement (desired m)) → rule_strictness rule = Required →
    evaluate_affinity_rule (rule_tables s agent rule) rule = true.

(** A request as validated by the manifest, for an agent whose memory is a [u64]. *)
Definition valid_request (msg : CreateVM) : Prop :=
  0 < request_vcpus (create_config msg) ∧ 0 < request_memory (create_config msg).

(** The weights of the preferred rules that are followed, in saturating [i64]. *)
Lemma score_affinity_spec `{IterOrder} s agent acc rules :
  (i64_min ≤ acc)%Z →
  match score_affinity s agent acc rules with
  | Some z => (i64_min ≤ z)%Z ∧ ∀ rule, rule ∈ rules → rule_strictness rule = Required →
      evaluate_affinity_rule (rule_tables s agent rule) rule = true
  | None => ∃ rule, rule ∈ rules ∧ rule_strictness rule = Required ∧
      evaluate_affinity_rule (rule_tables s agent rule) rule = false
  end.
Proof.
  revert acc; induction rules as [|rule rules IH]; intros acc Hacc; cbn; [set_solver|].
  destruct (affinity_delta _ _) as [delta|] eqn:Hd; unfold affinity_delta in Hd.
  - specialize (IH (i64_saturating_add acc delta) (proj1 (i64_clamp_ok _))).
    destruct (score_affinity _ _ _ rules) as [z|].
    + destruct IH as [? Hall]. split; [done|]. intros r [->|?]%elem_of_cons Hr; [|by apply Hall].
      rewrite Hr in Hd. by destruct (evaluate_affinity_rule _ _).
    + destruct IH as (r & ? & ? & ?). exists r. split; [set_solver|done].
  - destruct (rule_strictness rule) eqn:Hs; [|done].
    destruct (evaluate_affinity_rule _ _) eqn:He; [done|]. exists rule. split; [set_solver|done].
Qed.

Lemma u32_saturating_mul_le a b : u32_saturating_mul a b ≤ u32_max.
Proof. unfold u32_saturating_mul. lia. Qed.

Lemma score_agent_eligible `{IterOrder} s msg agent pending :
  valid_request msg → status_ram (agent_data agent) ≤ u64_max →
  eligible s agent pending (create_config msg) ↔
  score_gt (score_agent s msg agent pending) REJECTED = true.
Proof.
  intros [Hv Hm] Hram. unfold eligible, score_agent, fits.
  destruct (default _ _) as [pv pr]. destruct (has_capacity _ _ _ _ _ _) eqn:Hcap; cbn [negb].
  2: { rewrite score_gt_irrefl. naive_solver. }
  pose proof (score_affinity_spec s agent 0 (placement_affinity (placement (desired (create_config msg)))))
    as Haff. destruct (score_affinity _ _ _ _) as [z|]; cbn [affinity default_score] in *.
  - destruct Haff as [Hz Hall]; [done|]. split; [intros _|done]. apply score_gt_rejected; [|done].
    unfold has_capacity in Hcap. bool_to_prop.
    assert (agent_max_vcpus agent ≤ u32_max).
    { unfold agent_max_vcpus. change VCPU_OVERPROVISIONMENT_DENOMINATOR with 1.
      rewrite N.div_1_r. apply u32_saturating_mul_le. }
    assert (u32_max ≤ u64_max) by done.
    unfold u32_saturating_add, u64_saturating_add, saturating_sub in *.
    repeat apply f32_add_nonneg; [done|apply f32_ratio_nonneg..]; try lia.
    + unfold u32_max in *. lia.
    + unfold u64_max in *. lia.
  - destruct Haff as (rule & ? & ? & ?); [done|]. rewrite score_gt_irrefl. naive_solver congruence.
Qed.

(** The pending cache is not part of what a score depends on. *)
Lemma score_agent_cache `{IterOrder} c s msg agent pending :
  score_agent (set_pending_resources_cache c s) msg agent pending = score_agent s msg agent pending.
Proof.
  assert (∀ acc rules, score_affinity (set_pending_resources_cache c s) agent acc rules =
    score_affinity s agent acc rules) as Haff.
  { intros acc rules. revert acc. induction rules as [|rule rules IH]; intros acc; [done|].
    cbn. change (rule_tables (set_pending_resources_cache c s) agent rule)
      with (rule_tables s agent rule). by destruct (affinity_delta _ _). }
  unfold score_agent. by rewrite Haff.
Qed.

Lemma pending_resources_spec `{IterOrder} s :
  let '(s', pending) := pending_resources s in
  s' = set_pending_resources_cache (Some pending) s.
Proof.
  unfold pending_resources. destruct (pending_resources_cache s) as [r|] eqn:Hr; [|done].
  by destruct s; cbn in *; subst.
Qed.

Lemma schedule_agent_outcome `{IterOrder} s msg :
  valid_request msg →
  map_Forall (λ _ agent, status_ram (agent_data agent) ≤ u64_max) (agent_data_cache s) →
  let '(s', pending) := pending_resources s in
  match schedule_agent s msg with
  | (_, Ok a) => ∃ id agent, agent_data_cache s !! id = Some agent ∧ agent_ref agent = a ∧
      eligible s agent pending (create_config msg) ∧
      ∀ id' other, agent_data_cache s !! id' = Some other →
        score_gt (score_agent s msg other pending) (score_agent s msg agent pending) = false
  | (_, Err e) => e = NoValidAgents ∧
      ∀ id agent, agent_data_cache s !! id = Some agent →
        ¬ eligible s agent pending (create_config msg)
  end.
Proof.
  intros Hv Hram. unfold schedule_agent.
  destruct (pending_resources s) as [s' pending] eqn:Hp.
  assert (agent_data_cache s' = agent_data_cache s ∧
    ∀ agent, score_agent s' msg agent pending = score_agent s msg agent pending) as [-> Hscore].
  { pose proof (pending_resources_spec s) as Hs. rewrite Hp in Hs. subst s'.
    split; [done|]. intros agent. apply score_agent_cache. }
  pose proof (best_of_spec (λ agent, score_agent s' msg agent pending)
    (iter_values (agent_data_cache s))) as Hbest.
  destruct (best_of _ _) as [[a|] best]; cbn [ok_or].
  - destruct Hbest as (agent & [id Hid]%elem_of_iter_values & <- & <- & Hr & Hmax).
    exists id, agent. rewrite Hscore in *. split_and!; [done|done| |].
    + by apply score_agent_eligible; [|eapply Hram|].
    + intros id' other Ho. rewrite <-Hscore. apply Hmax. apply elem_of_iter_values. eauto.
  - destruct Hbest as [_ Hmax]. split; [done|]. intros id agent Hid He.
    apply score_agent_eligible in He; [|done|by eapply Hram].
    rewrite <-Hscore, Hmax in He; [done|]. apply elem_of_iter_values. eauto.
Qed.

(** C5. Scheduling is sound, optimal and complete. The chosen agent is cached,
    has room for the request on top of its reported usage and of the pending
    reservations, follows every required affinity rule, and no cached agent
    scores higher; the request is refused only when no cached agent qualifies. *)
Theorem schedule_agent_correct `{IterOrder} s msg :
  valid_request msg →
  map_Forall (λ _ agent, status_ram (agent_data agent) ≤ u64_max) (agent_data_cache s) →
  let '(s', pending) := pending_resources s in
  match schedule_agent s msg with
  | (_, Ok a) => ∃ id agent, agent_data_cache s !! id = Some agent ∧ agent_ref agent = a ∧
      eligible s agent pending (create_config msg) ∧
      ∀ id' other, agent_data_cache s !! id' = Some other →
        score_gt (score_agent s msg other pending) (score_agent s msg agent pending) = false
  | (_, Err e) => e = NoValidAgents ∧
      ∀ id agent, agent_data_cache s !! id = Some agent →
        ¬ eligible s agent pending (create_config msg)
  end.
Proof. apply schedule_agent_outcome. Qed.

(** ** Capacity in exact arithmetic *)

(** Usage plus pending reservations stay within twice the vCPUs and the memory. *)
Definition within_capacity (manifests : Manifests) (placements : Placements)
    (agent : CachedAgentActor) : Prop :=
  let requests := pending_requests manifests placements (agent_ref agent) in
  status_used_vcpus (agent_data agent) + sum_N requests.*1 ≤ 2 * status_vcpus (agent_data agent) ∧
  status_used_ram (agent_data agent) + sum_N requests.*2 ≤ status_ram (agent_data agent).

(** An agent small enough that its limits are not the saturation points. *)
Definition representable (agent : CachedAgentActor) : Prop :=
  2 * status_vcpus (agent_data agent) < u32_max ∧ status_ram (agent_data agent) < u64_max.

(** A request that fits in saturating arithmetic fits in exact arithmetic. *)
Lemma fits_exact `{IterOrder} agent manifests placements m :
  representable agent →
  fits agent (pending_resources_by_agent manifests placements) m = true →
  let requests := (request_vcpus m, request_memory m) ::
    pending_requests manifests placements (agent_ref agent) in
  status_used_vcpus (agent_data agent) + sum_N requests.*1 ≤ 2 * status_vcpus (agent_data agent) ∧
  status_used_ram (agent_data agent) + sum_N requests.*2 ≤ status_ram (agent_data agent).
Proof.
  intros [Hv Hr] Hfit. unfold fits in Hfit.
  rewrite pending_resources_default in Hfit. unfold has_capacity in Hfit. bool_to_prop.
  unfold agent_max_vcpus, u32_saturating_mul, u32_saturating_add, u64_saturating_add in *.
  change VCPU_OVERPROVISIONMENT_DENOMINATOR with 1 in *.
  change VCPU_OVERPROVISIONMENT_NUMERATOR with 2 in *. rewrite N.div_1_r in *.
  rewrite !fmap_cons. cbn [fst snd]. unfold sum_N in *. cbn [foldr]. lia.
Qed.
