(* ===== verification/SchedHandlers.v ===== *)
(** * The scheduler's message handlers and polling tasks

    [scheduler_actor/handlers.rs] and [scheduler_actor/discovery.rs]: the
    actor's life cycle, the public messages, the internal discovery messages
    and the updater tasks that produce them. A handler runs to completion
    before the next message, as the actor runtime guarantees; what it obtains
    from outside (a remote reply, a registry lookup, the outcome of a [tell], a
    clock reading, whether a task has finished) is an argument. The requests it
    makes of the runtime are returned as effects, in order. *)

From S2P Require Import Prelude RustString SortedVec Manifest Messages Cache Scheduling.
Open Scope N_scope.

Inductive SchedEffect :=
| AbortTask (task : JoinHandle)
| LinkRemote (actor : ActorId)
| SpawnVmUpdater (task : JoinHandle) (actor : ActorId)
| SpawnAgentUpdater (task : JoinHandle) (actor : ActorId)
| AskCreate (agent : ActorId) (msg : CreateVM)
| TellCreate (agent : ActorId) (msg : CreateVM)
| TellDeleteVM (vm : ActorId) (vmid : Ulid)
| TellShutdownVM (vm : ActorId) (vmid : Ulid).

Definition abort_effect (aborted : option JoinHandle) : list SchedEffect :=
  AbortTask <$> option_list aborted.

(** ** Life cycle *)

(** [on_start]; [finder] is the handle of the spawned discovery loop. *)
Definition scheduler_on_start (finder : JoinHandle) : SchedulerActor := {|
  agent_data_cache := ∅;
  agent_keepalive_tasks := ∅;
  vm_actorid_ulid_map := ∅;
  vm_manifests := ∅;
  vm_placements := ∅;
  vm_data_cache := ∅;
  vm_keepalive_tasks := ∅;
  pending_resources_cache := None;
  agent_vm_index := ∅;
  actor_kinds := ∅;
  cache_actor_finder := Some finder |}.

Inductive ControlFlow := Continue | Break.

(** [alive] is whether the scheduler's own reference can be upgraded. *)
Definition scheduler_on_link_died `{IterOrder} (alive : bool) (id : ActorId) (s : SchedulerActor) :
    SchedulerActor * ControlFlow * list SchedEffect :=
  if negb alive then (s, Break, [])
  else
    let kind := actor_kinds s !! id in
    let s := set_actor_kinds (delete id) s in
    match kind with
    | Some KindAgent => let '(s, aborted) := cleanup_agent_actor id s in
                        (s, Continue, abort_effect aborted)
    | Some KindVm => let '(s, aborted) := cleanup_vm_actor id s in
                     (s, Continue, abort_effect aborted)
    | None => (s, Continue, [])
    end.

(** ** Public messages *)

Definition push_placement (vmid : Ulid) (entry : VmPlacement) (placements : Placements) : Placements :=
  <[vmid := default [] (placements !! vmid) ++ [entry]]> placements.
Definition push_cached_vm (vmid : Ulid) (entry : CachedVMActor) (data_cache : DataCache) : DataCache :=
  <[vmid := default [] (data_cache !! vmid) ++ [entry]]> data_cache.

Definition pending_placement (agent_id : ActorId) (now : Instant) : VmPlacement := {|
  pl_agent_id := agent_id; pl_lifecycle := Pending;
  pl_created_at := now; pl_last_confirmed_at := None |}.

Section handlers.
(** [ActorId::to_bytes] and [ActorId::from_bytes] of the actor runtime. *)
Context (to_bytes : ActorId → list N) (from_bytes : list N → option ActorId).

(** [asked] is the agent's answer to the forwarded request, [actor_exists]
    whether the registry knows a VM actor after a failure. *)
Definition scheduler_create_vm `{IterOrder} (now : Instant)
    (asked : ActorId → result SchedulerError CreateVMReply) (actor_exists : bool)
    (msg : CreateVM) (s : SchedulerActor) :
    SchedulerActor * result SchedulerError CreateVMReply * list SchedEffect :=
  let vmid := create_vmid msg in
  match vm_manifests s !! vmid with
  | Some existing =>
      if decide (existing ≠ create_config msg) then (s, Err ConflictingCreate, [])
      else
        let actor_id := head (omap (λ '(actor_id, mapped_vmid),
          if decide (mapped_vmid = vmid) then Some (to_bytes actor_id) else None)
          (iter_map (vm_actorid_ulid_map s))) in
        (s, Ok {| reply_config := Some existing; reply_actor_id := actor_id |}, [])
  | None =>
      match schedule_agent s msg with
      | (s, Err e) => (s, Err e, [])
      | (s, Ok target_agent) =>
          let s := set_vm_manifests <[vmid := create_config msg]> s in
          let s := invalidate_pending_resources s in
          let s := set_vm_placements (push_placement vmid (pending_placement target_agent now)) s in
          let s := set_vm_data_cache (push_cached_vm vmid {| vm_actor_ref := None |}) s in
          let effects := [AskCreate target_agent msg] in
          match asked target_agent with
          | Ok reply =>
              let s := match reply_actor_id reply ≫= from_bytes with
                       | Some actor_id => set_vm_actorid_ulid_map <[actor_id := vmid]> s
                       | None => s
                       end in
              (s, Ok reply, effects)
          | Err e =>
              (* [reply] is an error here, so the actor identity passed on is [None]. *)
              let '(actor_map, (manifests, placements, data_cache)) :=
                rollback_failed_create vmid actor_exists None (vm_actorid_ulid_map s)
                  (vm_manifests s) (vm_placements s) (vm_data_cache s) in
              let s := set_vm_actorid_ulid_map (λ _, actor_map) s in
              let s := set_vm_manifests (λ _, manifests) s in
              let s := set_vm_placements (λ _, placements) s in
              let s := set_vm_data_cache (λ _, data_cache) s in
              (s, Err e, effects)
          end
      end
  end.

(** Look the VM actor up by name and forward the request. *)
Definition forward_to_vm {A} (lookup : result SchedulerError (option ActorId))
    (asked : ActorId → result SchedulerError A) : result SchedulerError A :=
  vm ← lookup;
  match vm with
  | Some vm => asked vm
  | None => Err VmNotFound
  end.

Definition get_console_history {A} (lookup : Ulid → result SchedulerError (option ActorId))
    (asked : ActorId → result SchedulerError A) (vmid : Ulid) : result SchedulerError A :=
  forward_to_vm (lookup vmid) asked.

Definition send_console_input {A} (lookup : Ulid → result SchedulerError (option ActorId))
    (asked : ActorId → result SchedulerError A) (vmid : Ulid) : result SchedulerError A :=
  forward_to_vm (lookup vmid) asked.

(** [told] is the outcome of the [tell] to the VM actor. *)
Definition scheduler_delete_vm (lookup : result SchedulerError (option ActorId))
    (told : result SchedulerError ()) (vmid : Ulid) (s : SchedulerActor) :
    SchedulerActor * result SchedulerError () * list SchedEffect :=
  match lookup with
  | Err e => (s, Err e, [])
  | Ok None => (s, Err VmNotFound, [])
  | Ok (Some vm) =>
      match told with
      | Err e => (s, Err e, [TellDeleteVM vm vmid])
      | Ok () => (remove_vm_intent vmid s, Ok (), [TellDeleteVM vm vmid])
      end
  end.

Definition scheduler_shutdown_vm (lookup : result SchedulerError (option ActorId))
    (told : result SchedulerError ()) (vmid : Ulid) (s : SchedulerActor) :
    SchedulerActor * result SchedulerError () * list SchedEffect :=
  match lookup with
  | Err e => (s, Err e, [])
  | Ok None => (s, Err VmNotFound, [])
  | Ok (Some vm) =>
      match told with
      | Err e => (s, Err e, [TellShutdownVM vm vmid])
      | Ok () => (remove_vm_intent vmid s, Ok (), [TellShutdownVM vm vmid])
      end
  end.

Definition scheduler_get_vm_info (lookup : Ulid → result SchedulerError (option ActorId))
    (asked : ActorId → result SchedulerError GetVMInfoReply) (vmid : option Ulid) :
    result SchedulerError GetVMInfoReply :=
  vmid ← ok_or vmid VmIdRequired;
  vm ← lookup vmid;
  match vm with
  | None => Ok {| info_vmid := vmid; info_config := None |}
  | Some vm => asked vm
  end.

Definition scheduler_list_vms `{IterOrder} (s : SchedulerActor) : list Ulid :=
  foldl (λ vms agent, vms ++ status_vms (agent_data agent)) [] (iter_values (agent_data_cache s)).
End handlers.

(** ** Discovery messages *)

(** [finished] is [JoinHandle::is_finished], [linked] the outcome of linking,
    [task] the handle of the updater that is spawned. *)
Definition vm_actor_discovered (finished : JoinHandle → bool) (linked : bool) (task : JoinHandle)
    (actor_id : ActorId) (s : SchedulerActor) : SchedulerActor * list SchedEffect :=
  let updater_is_running :=
    match vm_keepalive_tasks s !! actor_id with Some task => negb (finished task) | None => false end in
  if updater_is_running then (s, [])
  else
    let s := set_vm_keepalive_tasks (delete actor_id) s in
    if negb linked then (s, [LinkRemote actor_id])
    else
      let s := set_actor_kinds <[actor_id := KindVm]> s in
      (set_vm_keepalive_tasks <[actor_id := task]> s,
       [LinkRemote actor_id; SpawnVmUpdater task actor_id]).

Definition agent_actor_discovered (finished : JoinHandle → bool) (linked : bool) (task : JoinHandle)
    (actor_id : ActorId) (s : SchedulerActor) : SchedulerActor * list SchedEffect :=
  let updater_is_running :=
    match agent_keepalive_tasks s !! actor_id with
    | Some task => negb (finished task)
    | None => false
    end in
  if updater_is_running then (s, [])
  else
    let s := set_agent_keepalive_tasks (delete actor_id) s in
    if negb linked then (s, [LinkRemote actor_id])
    else
      let s := set_actor_kinds <[actor_id := KindAgent]> s in
      (set_agent_keepalive_tasks <[actor_id := task]> s,
       [LinkRemote actor_id; SpawnAgentUpdater task actor_id]).

Definition vm_updated `{IterOrder} (now : ActorId → Instant) (actor_ref : ActorId)
    (data : GetVMInfoReply) (s : SchedulerActor) : SchedulerActor :=
  let vmid := info_vmid data in
  let s := set_vm_actorid_ulid_map <[actor_ref := vmid]> s in
  let s := match info_config data with
           | Some manifest =>
               let s := set_vm_manifests <[vmid := manifest]> s in
               let s := set_vm_placements
                 (reconcile_discovered_vm now vmid (agent_vm_index s) (vm_manifests s)) s in
               invalidate_pending_resources s
           | None => s
           end in
  set_vm_data_cache (λ data_cache,
    <[vmid := update_cached_vm_entry (default [] (data_cache !! vmid)) actor_ref
                {| vm_actor_ref := Some actor_ref |}]> data_cache) s.

Definition vm_updater_stopped `{IterOrder} (actor_id : ActorId) (s : SchedulerActor) :
    SchedulerActor * list SchedEffect :=
  let s := set_actor_kinds (delete actor_id) s in
  let '(s, aborted) := cleanup_vm_actor actor_id s in (s, abort_effect aborted).

Definition agent_updater_stopped (actor_id : ActorId) (s : SchedulerActor) :
    SchedulerActor * list SchedEffect :=
  let s := set_actor_kinds (delete actor_id) s in
  let '(s, aborted) := cleanup_agent_actor actor_id s in (s, abort_effect aborted).

Definition agent_updated `{IterOrder} (now : Instant) (actor_id actor_ref : ActorId)
    (update : AgentStatusUpdate) (s : SchedulerActor) : SchedulerActor :=
  match agent_data_cache s !! actor_id with
  | None =>
      match update with
      | Full revision status =>
          let s := set_agent_vm_index <[actor_id := list_to_set (status_vms status)]> s in
          let s := invalidate_pending_resources s in
          let s := set_vm_placements
            (reconcile_agent_placements now actor_id status (vm_manifests s)) s in
          let s := invalidate_pending_resources s in
          set_agent_data_cache <[actor_id := {| agent_ref := actor_ref; agent_data := status;
                                                agent_status_revision := revision |}]> s
      | Delta _ _ _ _ _ => s
      end
  | Some cached =>
      if update_revision update <=? agent_status_revision cached then s
      else
        let '(data, revision) := apply_status_update (agent_data cached) update in
        let s := set_agent_data_cache <[actor_id := {| agent_ref := actor_ref; agent_data := data;
                                                       agent_status_revision := revision |}]> s in
        match update with
        | Delta _ added removed _ _ =>
            let s := set_agent_vm_index (λ index,
              <[actor_id := default ∅ (index !! actor_id) ∪ list_to_set added]> index) s in
            let s := set_agent_vm_index (alter (λ index : gset N, index ∖ list_to_set removed) actor_id) s in
            let s := invalidate_pending_resources s in
            set_vm_placements
              (reconcile_agent_delta now actor_id added removed (vm_manifests s)) s
        | Full _ _ =>
            let s := set_agent_vm_index <[actor_id := list_to_set (status_vms data)]> s in
            let s := set_vm_placements
              (reconcile_agent_placements now actor_id data (vm_manifests s)) s in
            invalidate_pending_resources s
        end
  end.

(** One iteration over an unplaced VM. *)
Definition recreate_unplaced `{IterOrder} (now : Ulid → Instant) (told : ActorId → CreateVM → bool)
    (acc : SchedulerActor * list SchedEffect) (vm : Ulid * VmManifest) :
    SchedulerActor * list SchedEffect :=
  let '(s, effects) := acc in
  let '(vmid, config) := vm in
  let request := {| create_vmid := vmid; create_config := config |} in
  match schedule_agent s request with
  | (s, Ok agent) =>
      let s := set_vm_placements (push_placement vmid (pending_placement agent (now vmid))) s in
      let s := set_vm_data_cache (push_cached_vm vmid {| vm_actor_ref := None |}) s in
      let s := if told agent request then invalidate_pending_resources s
               else
                 let s := set_vm_placements <[vmid := []]> s in
                 set_vm_data_cache (delete vmid) s in
      (s, effects ++ [TellCreate agent request])
  | (s, Err _) => (s, effects)
  end.

Definition unplaced_vms `{IterOrder} (s : SchedulerActor) : list (Ulid * VmManifest) :=
  filter (λ vm, default [] (vm_placements s !! vm.1) = []) (iter_map (vm_manifests s)).

Definition reconcile_vm_placements `{IterOrder} (cleanup_now : Instant) (now : Ulid → Instant)
    (told : ActorId → CreateVM → bool) (s : SchedulerActor) : SchedulerActor * list SchedEffect :=
  let '(placements, data_cache) :=
    cleanup_unresolved_vm_cache cleanup_now (vm_placements s) (vm_data_cache s) in
  let s := set_vm_placements (λ _, placements) s in
  let s := set_vm_data_cache (λ _, data_cache) s in
  let s := invalidate_pending_resources s in
  foldl (recreate_unplaced now told) (s, []) (unplaced_vms s).

(** ** Updater tasks

    One iteration of a polling loop consumes the outcome of its request and of
    the [tell] to the scheduler; [None] as the next state is the task's return. *)

(** The messages an updater sends to the scheduler. *)
Inductive UpdaterMsg :=
| MsgVmUpdated (actor : ActorId) (data : GetVMInfoReply)
| MsgVmUpdaterStopped (actor : ActorId)
| MsgAgentUpdated (actor_id actor_ref : ActorId) (update : AgentStatusUpdate)
| MsgAgentUpdaterStopped (actor : ActorId).

Definition u8_saturating_add (a b : N) : N := N.min 255 (a + b).

Record VmUpdater := { vm_fails : N; vm_initialized : bool }.
Definition vm_updater_start : VmUpdater := {| vm_fails := 0; vm_initialized := false |}.

(** What one iteration meets: the reply to [GetVMInfo] or to the heartbeat
    ([None] for a failed request) and whether the scheduler takes the [tell]. *)
Record VmPoll := {
  poll_info : option GetVMInfoReply;
  poll_heartbeat : bool;
  poll_told : bool }.

(** The check at the end of an iteration. *)
Definition vm_updater_check (actor : ActorId) (st : VmUpdater) : option VmUpdater * list UpdaterMsg :=
  if 5 <? vm_fails st then (None, [MsgVmUpdaterStopped actor]) else (Some st, []).

Definition vm_updater_step (actor : ActorId) (st : VmUpdater) (poll : VmPoll) :
    option VmUpdater * list UpdaterMsg :=
  if negb (vm_initialized st) then
    match poll_info poll with
    | Some data =>
        if negb (poll_told poll) then (None, [MsgVmUpdated actor data])
        else
          let '(st, msgs) := vm_updater_check actor {| vm_fails := 0; vm_initialized := true |} in
          (st, MsgVmUpdated actor data :: msgs)
    | None =>
        vm_updater_check actor {| vm_fails := u8_saturating_add (vm_fails st) 1;
                                  vm_initialized := vm_initialized st |}
    end
  else if poll_heartbeat poll then
    vm_updater_check actor {| vm_fails := 0; vm_initialized := vm_initialized st |}
  else
    vm_updater_check actor {| vm_fails := u8_saturating_add (vm_fails st) 1;
                              vm_initialized := vm_initialized st |}.

Fixpoint vm_updater_task (actor : ActorId) (st : VmUpdater) (polls : list VmPoll) :
    option VmUpdater * list UpdaterMsg :=
  match polls with
  | [] => (Some st, [])
  | poll :: polls =>
      match vm_updater_step actor st poll with
      | (None, msgs) => (None, msgs)
      | (Some st, msgs) => let '(st, msgs') := vm_updater_task actor st polls in (st, msgs ++ msgs')
      end
  end.

Record AgentUpdater := {
  updater_status_revision : N;
  updater_initial_status : bool;
  agent_fails : N }.
Definition agent_updater_start : AgentUpdater :=
  {| updater_status_revision := 0; updater_initial_status := true; agent_fails := 0 |}.

(** The agent's reply may depend on the request. *)
Record AgentPoll := {
  poll_status : GetAgentStatus → option AgentStatusUpdate;
  poll_agent_told : bool }.

Definition agent_updater_check (actor : ActorId) (st : AgentUpdater) :
    option AgentUpdater * list UpdaterMsg :=
  if 5 <? agent_fails st then (None, [MsgAgentUpdaterStopped actor]) else (Some st, []).

Definition agent_updater_step (actor : ActorId) (st : AgentUpdater) (poll : AgentPoll) :
    option AgentUpdater * list UpdaterMsg :=
  match poll_status poll {| since_revision := updater_status_revision st;
                            initial := updater_initial_status st |} with
  | Some update =>
      if negb (poll_agent_told poll) then (None, [MsgAgentUpdated actor actor update])
      else
        let '(st, msgs) := agent_updater_check actor
          {| updater_status_revision := update_revision update;
             updater_initial_status := false; agent_fails := 0 |} in
        (st, MsgAgentUpdated actor actor update :: msgs)
  | None =>
      agent_updater_check actor {| updater_status_revision := updater_status_revision st;
                                   updater_initial_status := updater_initial_status st;
                                   agent_fails := u8_saturating_add (agent_fails st) 1 |}
  end.

Fixpoint agent_updater_task (actor : ActorId) (st : AgentUpdater) (polls : list AgentPoll) :
    option AgentUpdater * list UpdaterMsg :=
  match polls with
  | [] => (Some st, [])
  | poll :: polls =>
      match agent_updater_step actor st poll with
      | (None, msgs) => (None, msgs)
      | (Some st, msgs) => let '(st, msgs') := agent_updater_task actor st polls in (st, msgs ++ msgs')
      end
  end.

(** ** The actor as a state machine *)

(** A message the scheduler can receive, with what its handler meets outside. *)
Inductive SchedEvent :=
| SeLinkDied (alive : bool) (id : ActorId)
| SeCreate (now : Instant) (asked : ActorId → result SchedulerError CreateVMReply)
    (actor_exists : bool) (msg : CreateVM)
| SeDelete (lookup : result SchedulerError (option ActorId)) (told : result SchedulerError ())
    (vmid : Ulid)
| SeShutdown (lookup : result SchedulerError (option ActorId)) (told : result SchedulerError ())
    (vmid : Ulid)
| SeVmDiscovered (finished : JoinHandle → bool) (linked : bool) (task : JoinHandle) (actor : ActorId)
| SeAgentDiscovered (finished : JoinHandle → bool) (linked : bool) (task : JoinHandle) (actor : ActorId)
| SeVmUpdated (now : ActorId → Instant) (actor : ActorId) (data : GetVMInfoReply)
| SeVmUpdaterStopped (actor : ActorId)
| SeAgentUpdated (now : Instant) (actor_id actor_ref : ActorId) (update : AgentStatusUpdate)
| SeAgentUpdaterStopped (actor : ActorId)
| SeReconcile (cleanup_now : Instant) (now : Ulid → Instant) (told : ActorId → CreateVM → bool).

Section machine.
Context (to_bytes : ActorId → list N) (from_bytes : list N → option ActorId).

Definition scheduler_handle `{IterOrder} (s : SchedulerActor) (e : SchedEvent) : SchedulerActor :=
  match e with
  | SeLinkDied alive id => (scheduler_on_link_died alive id s).1.1
  | SeCreate now asked actor_exists msg =>
      (scheduler_create_vm to_bytes from_bytes now asked actor_exists msg s).1.1
  | SeDelete lookup told vmid => (scheduler_delete_vm lookup told vmid s).1.1
  | SeShutdown lookup told vmid => (scheduler_shutdown_vm lookup told vmid s).1.1
  | SeVmDiscovered finished linked task actor => (vm_actor_discovered finished linked task actor s).1
  | SeAgentDiscovered finished linked task actor =>
      (agent_actor_discovered finished linked task actor s).1
  | SeVmUpdated now actor data => vm_updated now actor data s
  | SeVmUpdaterStopped actor => (vm_updater_stopped actor s).1
  | SeAgentUpdated now actor_id actor_ref update => agent_updated now actor_id actor_ref update s
  | SeAgentUpdaterStopped actor => (agent_updater_stopped actor s).1
  | SeReconcile cleanup_now now told => (reconcile_vm_placements cleanup_now now told s).1
  end.

(** The states the scheduler reaches: every message may meet another
    iteration order. *)
Inductive reachable (finder : JoinHandle) : SchedulerActor → Prop :=
| reachable_start : reachable finder (scheduler_on_start finder)
| reachable_step (order : IterOrder) s e :
    reachable finder s → reachable finder (@scheduler_handle order s e).
End machine.
