(* ===== verification/SchedInv.v ===== *)
(** * Invariants of the scheduler

    Every reachable state of the scheduler, for every sequence of messages,
    every answer from outside and every hash-map order, keeps its correlated
    maps consistent: a cached reservation table is the one the placements
    give, a VM has at most one placement per agent and at most one pending
    one, a placement exists only for a VM whose manifest is retained. *)

From S2P Require Import Prelude RustString SortedVec Manifest Messages Cache CacheFacts.
From S2P Require Import Scheduling SchedulingFacts SchedHandlers.
Open Scope N_scope.

(** ** Pending requests after an update of one VM *)

Lemma pending_requests_insert manifests placements vmid entries a :
  placements !! vmid = None →
  pending_requests manifests (<[vmid := entries]> placements) a ≡ₚ
  vm_requests manifests a vmid entries ++ pending_requests manifests placements a.
Proof. intros Hn. unfold pending_requests. by rewrite map_to_list_insert. Qed.

Lemma vm_requests_nil manifests a vmid : vm_requests manifests a vmid [] = [].
Proof. unfold vm_requests. by destruct (manifests !! vmid). Qed.

Lemma pending_requests_split manifests placements vmid a :
  pending_requests manifests placements a ≡ₚ
  vm_requests manifests a vmid (default [] (placements !! vmid)) ++
  pending_requests manifests (delete vmid placements) a.
Proof.
  destruct (placements !! vmid) as [l|] eqn:Hl; cbn.
  - rewrite <-pending_requests_insert by apply lookup_delete_eq.
    by rewrite insert_delete_eq, insert_id.
  - by rewrite vm_requests_nil, delete_id.
Qed.

(** Replacing the entries of one VM. *)
Lemma pending_requests_update manifests placements vmid entries a :
  pending_requests manifests (<[vmid := entries]> placements) a ≡ₚ
  vm_requests manifests a vmid entries ++ pending_requests manifests (delete vmid placements) a.
Proof.
  rewrite (pending_requests_split _ (<[vmid := entries]> placements) vmid), lookup_insert_eq.
  cbn. by rewrite delete_insert_eq.
Qed.

(** Only the manifests of placed VMs count. *)
Lemma pending_requests_ext manifests manifests' placements a :
  (∀ vmid, is_Some (placements !! vmid) → manifests !! vmid = manifests' !! vmid) →
  pending_requests manifests placements a = pending_requests manifests' placements a.
Proof.
  intros He. unfold pending_requests.
  assert (∀ p, p ∈ map_to_list placements → manifests !! p.1 = manifests' !! p.1) as Hl.
  { intros [v l] Hin%elem_of_map_to_list. apply He. eauto. }
  induction (map_to_list placements) as [|[v l] ps IH]; [done|].
  rewrite !bind_cons. f_equal; [|apply IH; set_solver].
  assert (manifests !! v = manifests' !! v) as Hv by (apply (Hl (v, l)); set_solver).
  unfold vm_requests. by rewrite Hv.
Qed.

Lemma pending_resources_ext (o : IterOrder) manifests manifests' placements placements' :
  (∀ a, pending_requests manifests placements a ≡ₚ pending_requests manifests' placements' a) →
  pending_resources_by_agent manifests placements =
  pending_resources_by_agent manifests' placements'.
Proof.
  intros He. apply map_eq. intros a. rewrite !lookup_pending_resources_by_agent. by rewrite He.
Qed.

(** An empty entry list reserves nothing. *)
Lemma pending_resources_insert_nil (o : IterOrder) manifests placements vmid :
  default [] (placements !! vmid) = [] →
  pending_resources_by_agent manifests (<[vmid := []]> placements) =
  pending_resources_by_agent manifests placements.
Proof.
  intros Hn. apply pending_resources_ext. intros a.
  by rewrite pending_requests_update, (pending_requests_split _ placements vmid), Hn.
Qed.

(** ** The invariant *)

Record sched_inv (s : SchedulerActor) : Prop := {
  inv_pending : ∀ (o : IterOrder) r, pending_resources_cache s = Some r →
    r = pending_resources_by_agent (vm_manifests s) (vm_placements s);
  inv_placements : placements_all_wf (vm_placements s);
  inv_intent : dom (vm_placements s) ⊆ dom (vm_manifests s);
  inv_index : dom (agent_vm_index s) = dom (agent_data_cache s);
  inv_refs : map_Forall (λ _ entries, NoDup (refs entries)) (vm_data_cache s) }.

(** The part of the invariant that concerns one assignment. *)
Lemma inv_unplaced s vmid :
  sched_inv s → vm_manifests s !! vmid = None → vm_placements s !! vmid = None.
Proof.
  intros [_ _ Hi _ _] Hm. apply not_elem_of_dom. apply not_elem_of_dom in Hm. set_solver.
Qed.

(** A change of placements, manifests and data cache that leaves the pending
    cache invalid. *)
Lemma inv_update s s' :
  sched_inv s →
  pending_resources_cache s' = None →
  agent_vm_index s' = agent_vm_index s → agent_data_cache s' = agent_data_cache s →
  placements_all_wf (vm_placements s') → dom (vm_placements s') ⊆ dom (vm_manifests s') →
  map_Forall (λ _ entries, NoDup (refs entries)) (vm_data_cache s') → sched_inv s'.
Proof.
  intros [] Hp Hx Hc Hw Hi Hr. split; [congruence|done|done|congruence|done].
Qed.

(** An update of fields the invariant does not speak about. *)
Lemma inv_same s s' :
  sched_inv s →
  pending_resources_cache s' = pending_resources_cache s →
  vm_placements s' = vm_placements s → vm_manifests s' = vm_manifests s →
  agent_vm_index s' = agent_vm_index s → agent_data_cache s' = agent_data_cache s →
  vm_data_cache s' = vm_data_cache s → sched_inv s'.
Proof. intros [] Hp Hpl Hm Hx Hc Hd. split; rewrite ?Hp, ?Hpl, ?Hm, ?Hx, ?Hc, ?Hd; done. Qed.

Lemma dom_retain_all {A} (keep : N → A → Prop) `{∀ k x, Decision (keep k x)} m :
  dom (retain_all keep m) = dom m.
Proof.
  apply set_eq. intros k. rewrite !elem_of_dom, lookup_retain_all.
  by rewrite fmap_is_Some.
Qed.

Lemma retain_all_wf (keep : N → VmPlacement → Prop) `{∀ k x, Decision (keep k x)} m :
  placements_all_wf m → placements_all_wf (retain_all keep m).
Proof.
  intros Hwf k l. rewrite lookup_retain_all. intros (l' & Hl & ->)%fmap_Some.
  apply placements_wf_filter. by eapply Hwf.
Qed.

Lemma schedule_agent_state `{IterOrder} s msg :
  ∃ r, (schedule_agent s msg).1 = set_pending_resources_cache (Some r) s ∧
    (sched_inv s → r = pending_resources_by_agent (vm_manifests s) (vm_placements s)).
Proof.
  unfold schedule_agent. pose proof (pending_resources_spec s) as Hs.
  destruct (pending_resources s) as [s' r] eqn:Hp. subst s'.
  destruct (best_of _ _). exists r. split; [done|]. intros Hinv.
  unfold pending_resources in Hp. destruct (pending_resources_cache s) as [r'|] eqn:Hr.
  - simplify_eq. by apply (inv_pending _ Hinv).
  - by simplify_eq.
Qed.

Lemma schedule_agent_inv `{IterOrder} s msg : sched_inv s → sched_inv (schedule_agent s msg).1.
Proof.
  intros Hinv. destruct (schedule_agent_state s msg) as (r & -> & Hr). specialize (Hr Hinv).
  destruct Hinv. split; try done. intros o r' [= <-]. cbn. rewrite Hr. apply pending_resources_order.
Qed.

Lemma remove_vm_intent_inv vmid s : sched_inv s → sched_inv (remove_vm_intent vmid s).
Proof.
  intros [Hp Hw Hi Hx Hr]. split; cbn.
  - done.
  - by apply map_Forall_delete.
  - rewrite !dom_delete_L. set_solver.
  - by rewrite dom_fmap_L.
  - by apply map_Forall_delete.
Qed.

Lemma remove_vm_actor_refs `{IterOrder} a data_cache :
  map_Forall (λ _ entries, NoDup (refs entries)) data_cache →
  map_Forall (λ _ entries, NoDup (refs entries)) (remove_vm_actor a data_cache).
Proof.
  intros Hr vmid entries Hl. replace entries with (default [] (remove_vm_actor a data_cache !! vmid))
    by by rewrite Hl.
  rewrite refs_remove_vm_actor. apply NoDup_filter.
  destruct (data_cache !! vmid) as [l|] eqn:Hd; cbn; [by eapply Hr|constructor].
Qed.

Lemma cleanup_agent_actor_inv a s : sched_inv s → sched_inv (cleanup_agent_actor a s).1.
Proof.
  intros [Hp Hw Hi Hx Hr]. split; cbn.
  - done.
  - by apply retain_all_wf.
  - unfold remove_agent_placements. by rewrite dom_retain_all.
  - by rewrite !dom_delete_L, Hx.
  - done.
Qed.

Lemma cleanup_vm_actor_inv `{IterOrder} a s : sched_inv s → sched_inv (cleanup_vm_actor a s).1.
Proof.
  intros Hinv. unfold cleanup_vm_actor.
  destruct (vm_actorid_ulid_map _ !! a) as [vmid|]; [destruct (decide _)|]; cbn;
    (eapply inv_update; [exact Hinv|done|done|done|..]); destruct Hinv as [Hp Hw Hi Hx Hr]; cbn;
    try done; try by apply remove_vm_actor_refs.
  - intros k l. rewrite lookup_alter. intros Hl.
    destruct (decide (vmid = k)) as [->|]; [|by eapply Hw].
    apply fmap_Some in Hl as (l' & Hl & ->). apply placements_wf_filter. by eapply Hw.
  - by rewrite dom_alter_L.
Qed.

(** ** Reservation of a new placement *)

Lemma pending_placement_wf a now : placements_wf [pending_placement a now].
Proof.
  split; [by apply Forall_singleton|apply NoDup_singleton|].
  rewrite filter_cons. destruct (decide _); cbn; lia.
Qed.

Lemma push_placement_wf vmid a now placements :
  placements_all_wf placements → default [] (placements !! vmid) = [] →
  placements_all_wf (push_placement vmid (pending_placement a now) placements).
Proof.
  intros Hw Hn. unfold push_placement. rewrite Hn. cbn.
  apply map_Forall_insert_2; [apply pending_placement_wf|done].
Qed.

Lemma push_placeholder_refs vmid data_cache :
  map_Forall (λ _ entries, NoDup (refs entries)) data_cache →
  map_Forall (λ _ entries, NoDup (refs entries)) (push_cached_vm vmid {| vm_actor_ref := None |} data_cache).
Proof.
  intros Hr. apply map_Forall_insert_2; [|done]. rewrite refs_app. cbn. rewrite app_nil_r.
  destruct (data_cache !! vmid) as [l|] eqn:Hl; cbn; [by eapply Hr|constructor].
Qed.

(** The state after the optimistic reservation of a create. *)
Definition reserved (vmid : Ulid) (config : VmManifest) (a : ActorId) (now : Instant)
    (s : SchedulerActor) : SchedulerActor :=
  set_vm_data_cache (push_cached_vm vmid {| vm_actor_ref := None |})
    (set_vm_placements (push_placement vmid (pending_placement a now))
      (invalidate_pending_resources (set_vm_manifests <[vmid := config]> s))).

Lemma reserved_inv vmid config a now s :
  sched_inv s → vm_manifests s !! vmid = None → sched_inv (reserved vmid config a now s).
Proof.
  intros Hinv Hm. pose proof (inv_unplaced _ _ Hinv Hm) as Hn.
  eapply inv_update; [exact Hinv|done..| | |]; destruct Hinv as [Hp Hw Hi Hx Hr]; cbn.
  - apply push_placement_wf; [done|]. by rewrite Hn.
  - unfold push_placement. rewrite !dom_insert_L. set_solver.
  - by apply push_placeholder_refs.
Qed.

(** Undoing the reservation when no actor exists. *)
Definition rolled_back (vmid : Ulid) (s : SchedulerActor) : SchedulerActor :=
  set_vm_data_cache (delete vmid) (set_vm_placements (delete vmid) (set_vm_manifests (delete vmid) s)).

Lemma rolled_back_inv vmid s :
  sched_inv s → pending_resources_cache s = None → sched_inv (rolled_back vmid s).
Proof.
  intros Hinv Hc. eapply inv_update; [exact Hinv|done..| | |]; destruct Hinv as [Hp Hw Hi Hx Hr]; cbn.
  - by apply map_Forall_delete.
  - rewrite !dom_delete_L. set_solver.
  - by apply map_Forall_delete.
Qed.

(** A create handled in full: its four outcomes. *)
Lemma scheduler_create_vm_cases `{IterOrder} to_bytes from_bytes now asked exists_ msg s :
  let '(s', reply, effects) := scheduler_create_vm to_bytes from_bytes now asked exists_ msg s in
  match vm_manifests s !! create_vmid msg with
  | Some existing =>
      s' = s ∧ effects = [] ∧
      if decide (existing = create_config msg)
      then ∃ id, reply = Ok {| reply_config := Some existing; reply_actor_id := id |}
      else reply = Err ConflictingCreate
  | None =>
      match schedule_agent s msg with
      | (s1, Err e) => s' = s1 ∧ reply = Err e ∧ effects = []
      | (s1, Ok a) =>
          let s2 := reserved (create_vmid msg) (create_config msg) a now s1 in
          effects = [AskCreate a msg] ∧ reply = asked a ∧
          s' = match asked a with
               | Ok r => match reply_actor_id r ≫= from_bytes with
                         | Some id => set_vm_actorid_ulid_map <[id := create_vmid msg]> s2
                         | None => s2
                         end
               | Err _ => if exists_ : bool then s2 else rolled_back (create_vmid msg) s2
               end
      end
  end.
Proof.
  unfold scheduler_create_vm. destruct (vm_manifests s !! create_vmid msg) as [existing|].
  { destruct (decide (existing ≠ create_config msg)) as [Hne|Heq].
    - by rewrite decide_False.
    - apply dec_stable in Heq. rewrite decide_True by done. by eauto. }
  destruct (schedule_agent s msg) as [s1 [a|e]]; [|done].
  destruct (asked a) as [r|e]; [by destruct (_ ≫= _)|].
  unfold rollback_failed_create, reserved, rolled_back. by destruct exists_, s1.
Qed.

Lemma scheduler_create_vm_inv `{IterOrder} to_bytes from_bytes now asked exists_ msg s :
  sched_inv s →
  sched_inv (scheduler_create_vm to_bytes from_bytes now asked exists_ msg s).1.1.
Proof.
  intros Hinv. pose proof (scheduler_create_vm_cases to_bytes from_bytes now asked exists_ msg s) as Hc.
  destruct (scheduler_create_vm _ _ _ _ _ _ _) as [[s' reply] effects]. cbn.
  destruct (vm_manifests s !! create_vmid msg) as [existing|] eqn:Hm.
  { by destruct Hc as [-> _]. }
  pose proof (schedule_agent_inv s msg Hinv) as Hs1.
  destruct (schedule_agent_state s msg) as (r & Hs & _).
  destruct (schedule_agent s msg) as [s1 [a|e]]; cbn in *; [|by destruct Hc as [-> _]].
  assert (sched_inv (reserved (create_vmid msg) (create_config msg) a now s1)) as H2.
  { apply reserved_inv; [done|]. by subst s1. }
  destruct Hc as (_ & _ & ->). destruct (asked a) as [reply'|].
  - destruct (_ ≫= _); [|done]. by eapply inv_same.
  - destruct exists_; [done|]. by apply rolled_back_inv.
Qed.

(** ** Discovery and status messages *)

Lemma dom_reconcile_agent_delta now a added removed manifests placements :
  dom placements ⊆ dom manifests →
  dom (reconcile_agent_delta now a added removed manifests placements) ⊆ dom manifests.
Proof.
  intros Hd vmid. rewrite !elem_of_dom, lookup_reconcile_agent_delta, fmap_is_Some.
  destruct (decide (vmid ∈ added ∧ _)) as [[_ ?]|_]; [done|].
  intros Hs%elem_of_dom. apply elem_of_dom. by apply Hd.
Qed.

Lemma dom_reconcile_discovered_vm `{IterOrder} now vmid index manifests placements :
  dom placements ⊆ dom manifests →
  dom (reconcile_discovered_vm now vmid index manifests placements) ⊆ dom manifests.
Proof.
  unfold reconcile_discovered_vm. generalize (filter (λ a, reported_on index a vmid)
    (iter_keys index)) as l. intros l. revert placements.
  induction l as [|a l IH]; intros placements Hd; [done|]. cbn [foldl].
  by apply IH, dom_reconcile_agent_delta.
Qed.

Lemma dom_reconcile_agent_placements `{IterOrder} now a status manifests placements :
  dom placements ⊆ dom manifests →
  dom (reconcile_agent_placements now a status manifests placements) ⊆ dom manifests.
Proof.
  intros Hd vmid. rewrite !elem_of_dom, lookup_reconcile_agent_placements. unfold with_missing.
  destruct (decide _) as [(_ & ? & _)|_]; [done|].
  destruct (placements !! vmid) as [l|] eqn:Hl; [|by intros []].
  intros _. apply elem_of_dom, Hd, elem_of_dom. by rewrite Hl.
Qed.

Lemma update_entry_refs vmid a (data_cache : DataCache) :
  map_Forall (λ _ entries, NoDup (refs entries)) data_cache →
  map_Forall (λ _ entries, NoDup (refs entries))
    (<[vmid := update_cached_vm_entry (default [] (data_cache !! vmid)) a
                 {| vm_actor_ref := Some a |}]> data_cache).
Proof.
  intros Hr. apply map_Forall_insert_2; [|done]. apply update_cached_vm_entry_refs.
  destruct (data_cache !! vmid) as [l|] eqn:Hl; cbn; [by eapply Hr|constructor].
Qed.

Lemma vm_updated_inv `{IterOrder} now a data s : sched_inv s → sched_inv (vm_updated now a data s).
Proof.
  intros Hinv. unfold vm_updated. destruct (info_config data) as [m|].
  - eapply inv_update; [exact Hinv|done..| | |]; destruct Hinv as [Hp Hw Hi Hx Hr]; cbn.
    + by apply reconcile_discovered_vm_wf.
    + apply dom_reconcile_discovered_vm. rewrite dom_insert_L. set_solver.
    + by apply update_entry_refs.
  - destruct Hinv as [Hp Hw Hi Hx Hr]. split; try done. cbn. by apply update_entry_refs.
Qed.

Lemma agent_updated_inv `{IterOrder} now id ref update s :
  sched_inv s → sched_inv (agent_updated now id ref update s).
Proof.
  intros [Hp Hw Hi Hx Hr]. unfold agent_updated.
  destruct (agent_data_cache s !! id) as [cached|] eqn:Hc.
  - destruct (_ <=? _); [done|]. destruct (apply_status_update _ _) as [data revision].
    destruct update as [rev status|rev added removed uv ur]; split; cbn; try done.
    + by apply reconcile_agent_placements_wf.
    + by apply dom_reconcile_agent_placements.
    + by rewrite !dom_insert_L, Hx.
    + by apply reconcile_agent_delta_wf.
    + by apply dom_reconcile_agent_delta.
    + by rewrite dom_alter_L, !dom_insert_L, Hx.
  - destruct update as [rev status|rev added removed uv ur]; split; cbn; try done.
    + by apply reconcile_agent_placements_wf.
    + by apply dom_reconcile_agent_placements.
    + by rewrite !dom_insert_L, Hx.
Qed.

(** ** Periodic reconciliation *)

(** One iteration over an unplaced VM touches that VM's placements and cache
    entry only. *)
Lemma recreate_unplaced_spec `{IterOrder} now told s effects vmid config :
  sched_inv s → vm_manifests s !! vmid = Some config → default [] (vm_placements s !! vmid) = [] →
  let request := {| create_vmid := vmid; create_config := config |} in
  let '(s', effects') := recreate_unplaced now told (s, effects) (vmid, config) in
  sched_inv s' ∧ vm_manifests s' = vm_manifests s ∧
  agent_data_cache s' = agent_data_cache s ∧ agent_vm_index s' = agent_vm_index s ∧
  (∀ v, v ≠ vmid → vm_placements s' !! v = vm_placements s !! v) ∧
  match (schedule_agent s request).2 with
  | Ok a =>
      effects' = effects ++ [TellCreate a request] ∧
      vm_placements s' !! vmid =
        Some (if told a request then [pending_placement a (now vmid)] else [])
  | Err _ => effects' = effects ∧ vm_placements s' !! vmid = vm_placements s !! vmid
  end.
Proof.
  intros Hinv Hm Hn request. unfold recreate_unplaced. fold request.
  pose proof (schedule_agent_inv s request Hinv) as Hinv1.
  destruct (schedule_agent_state s request) as (r & Hs1 & _).
  destruct (schedule_agent s request) as [s1 [a|e]]; cbn [fst snd] in *.
  2: { split_and!; try done; by subst s1. }
  assert (vm_placements s1 = vm_placements s ∧ vm_manifests s1 = vm_manifests s ∧
    agent_data_cache s1 = agent_data_cache s ∧ agent_vm_index s1 = agent_vm_index s)
    as (Hpl & Hma & Hca & Hix) by by subst s1.
  assert (vmid ∈ dom (vm_manifests s1)) as Hdom by (rewrite Hma; by apply elem_of_dom_2 in Hm).
  destruct (told a request).
  - split_and!; try done.
    + eapply inv_update; [exact Hinv1|done..| | |]; destruct Hinv1 as [Hp Hw Hi Hx Hr]; cbn.
      * apply push_placement_wf; [done|]. by rewrite Hpl.
      * unfold push_placement. rewrite dom_insert_L. set_solver.
      * by apply push_placeholder_refs.
    + intros v Hv. cbn. unfold push_placement. by rewrite lookup_insert_ne, Hpl.
    + cbn. unfold push_placement. by rewrite lookup_insert_eq, Hpl, Hn.
  - split_and!; try done; cbn; unfold push_placement; rewrite ?insert_insert_eq.
    + destruct Hinv1 as [Hp Hw Hi Hx Hr]. split; cbn; unfold push_placement;
        rewrite ?insert_insert_eq; try done.
      * intros o r' Hr'. rewrite pending_resources_insert_nil by by rewrite Hpl. by apply Hp.
      * apply map_Forall_insert_2; [apply placements_wf_nil|done].
      * rewrite dom_insert_L. set_solver.
      * apply map_Forall_delete. by apply push_placeholder_refs.
    + intros v Hv. by rewrite !lookup_insert_ne, Hpl.
    + by rewrite lookup_insert_eq.
Qed.

(** What a pass over a list of unplaced VMs leaves for one VM. Its turn comes in
    some consistent state [s1] of the pass, with the agents and manifests of the
    pass, in which the other VMs have their old or already their new placements;
    what happens to the VM is decided by scheduling in that state. *)
Definition recreated `{IterOrder} (now : Ulid → Instant) (told : ActorId → CreateVM → bool)
    (old new : SchedulerActor) (sent : list SchedEffect) (vm : Ulid * VmManifest) : Prop :=
  let request := {| create_vmid := vm.1; create_config := vm.2 |} in
  ∃ s1, sched_inv s1 ∧ agent_data_cache s1 = agent_data_cache old ∧
    agent_vm_index s1 = agent_vm_index old ∧ vm_manifests s1 = vm_manifests old ∧
    (∀ v, vm_placements s1 !! v = vm_placements old !! v ∨
          vm_placements s1 !! v = vm_placements new !! v) ∧
    match (schedule_agent s1 request).2 with
    | Ok a => (∀ b, TellCreate b request ∈ sent ↔ b = a) ∧
        vm_placements new !! vm.1 = Some (if told a request then [pending_placement a (now vm.1)] else [])
    | Err _ => (∀ b, TellCreate b request ∉ sent) ∧
        vm_placements new !! vm.1 = vm_placements old !! vm.1
    end.

(** The outcome of the first VM survives the rest of the pass, and the outcome
    of a later VM does not depend on where the pass began. *)
Lemma recreated_first `{IterOrder} now told s s1 s2 new sent vmid config :
  recreated now told s s1 new (vmid, config) →
  (∀ v, v ≠ vmid → vm_placements s1 !! v = vm_placements s !! v) →
  vm_placements s2 !! vmid = vm_placements s1 !! vmid →
  (∀ b, TellCreate b {| create_vmid := vmid; create_config := config |} ∉ sent) →
  recreated now told s s2 (new ++ sent) (vmid, config).
Proof.
  intros (t & Ht & Hag & Hix & Hmf & Hor & Hres) Hpl1 Hpl Hno. exists t. cbn [fst snd] in *.
  split_and!; [done..| |].
  - intros v. destruct (Hor v) as [?|Hv]; [by left|]. destruct (decide (v = vmid)) as [->|].
    + right. by rewrite Hpl.
    + left. by rewrite Hv, Hpl1.
  - rewrite Hpl. destruct ((schedule_agent t _).2) as [a|e]; destruct Hres as [Hs Hp];
      (split; [|done]); intros b; rewrite elem_of_app; specialize (Hno b); set_solver.
Qed.

Lemma recreated_later `{IterOrder} now told s s1 s2 new sent vmid v c :
  recreated now told s1 s2 sent (v, c) → v ≠ vmid →
  agent_data_cache s1 = agent_data_cache s → agent_vm_index s1 = agent_vm_index s →
  vm_manifests s1 = vm_manifests s →
  (∀ u, u ≠ vmid → vm_placements s1 !! u = vm_placements s !! u) →
  vm_placements s2 !! vmid = vm_placements s1 !! vmid →
  (∀ b, TellCreate b {| create_vmid := v; create_config := c |} ∉ new) →
  recreated now told s s2 (new ++ sent) (v, c).
Proof.
  intros (t & Ht & Hag & Hix & Hmf & Hor & Hres) Hv Hca1 Hix1 Hma1 Hpl1 Hpl Hno. exists t. cbn [fst snd] in *.
  split_and!; [done|congruence|congruence|congruence| |].
  - intros u. destruct (Hor u) as [Hu|?]; [|by right]. destruct (decide (u = vmid)) as [->|].
    + right. by rewrite Hu, Hpl.
    + left. by rewrite Hu, Hpl1.
  - rewrite Hpl1 in Hres by done. destruct ((schedule_agent t _).2) as [a|e];
      destruct Hres as [Hs Hp]; (split; [|done]); intros b; rewrite elem_of_app;
      specialize (Hno b); set_solver.
Qed.

Lemma recreate_all_spec `{IterOrder} now told vms s effects :
  sched_inv s → NoDup vms.*1 →
  (∀ vm, vm ∈ vms → vm_manifests s !! vm.1 = Some vm.2 ∧ default [] (vm_placements s !! vm.1) = []) →
  let '(s', effects') := foldl (recreate_unplaced now told) (s, effects) vms in
  sched_inv s' ∧ vm_manifests s' = vm_manifests s ∧ agent_data_cache s' = agent_data_cache s ∧
  (∀ v, v ∉ vms.*1 → vm_placements s' !! v = vm_placements s !! v) ∧
  ∃ sent, effects' = effects ++ sent ∧
    (∀ a msg, TellCreate a msg ∈ sent → (create_vmid msg, create_config msg) ∈ vms) ∧
    (∀ e, e ∈ sent → ∃ a msg, e = TellCreate a msg) ∧
    (∀ vm, vm ∈ vms → recreated now told s s' sent vm).
Proof.
  revert s effects. induction vms as [|[vmid config] vms IH]; intros s effects Hinv Hnd Hvms.
  { cbn. split_and!; try done. exists []. rewrite app_nil_r. split_and!; set_solver. }
  rewrite fmap_cons, NoDup_cons in Hnd. destruct Hnd as [Hnotin Hnd]. cbn [fst] in Hnotin.
  cbn [foldl]. destruct (Hvms (vmid, config)) as [Hm Hn]; [set_solver|]. cbn [fst snd] in Hm, Hn.
  pose proof (recreate_unplaced_spec now told s effects vmid config Hinv Hm Hn) as Hstep.
  cbv zeta in Hstep. set (request := {| create_vmid := vmid; create_config := config |}) in *.
  destruct (recreate_unplaced now told (s, effects) (vmid, config)) as [s1 effects1].
  destruct Hstep as (Hinv1 & Hma1 & Hca1 & Hix1 & Hpl1 & Hcase).
  assert (∃ new, effects1 = effects ++ new ∧ (∀ e, e ∈ new → ∃ a, e = TellCreate a request) ∧
    recreated now told s s1 new (vmid, config)) as (new & -> & Hnew & Hrec).
  { unfold recreated. cbn [fst snd]. fold request.
    destruct ((schedule_agent s request).2) as [a|e] eqn:Hs; destruct Hcase as [-> Hp].
    - exists [TellCreate a request]. split_and!; [done|set_solver|]. exists s. rewrite Hs.
      split_and!; try done; [by left|]. intros b. rewrite list_elem_of_singleton. split; congruence.
    - exists []. rewrite app_nil_r. split_and!; [done|set_solver|]. exists s. rewrite Hs.
      split_and!; try done; [by left|set_solver]. }
  specialize (IH s1 (effects ++ new) Hinv1 Hnd).
  destruct (foldl _ _ vms) as [s2 effects2]. destruct IH as (?&Hma&Hca&Hpl&sent&->&Hsent&Htell&Hvm).
  { intros vm Hin. rewrite Hma1, Hpl1; [apply Hvms; set_solver|].
    intros Heq. apply Hnotin. rewrite <-Heq. by apply list_elem_of_fmap_2. }
  split_and!; [done|congruence|congruence| |].
  { intros v Hv. rewrite Hpl by set_solver. apply Hpl1. set_solver. }
  assert (∀ b c, TellCreate b {| create_vmid := vmid; create_config := c |} ∉ sent) as Hfirst.
  { intros b c Hs%Hsent. apply Hnotin. by apply (list_elem_of_fmap_2 fst) in Hs. }
  exists (new ++ sent). rewrite (assoc_L (++)). split_and!; [done| | |].
  - intros a msg [Hin|Hin]%elem_of_app; [|set_solver].
    apply Hnew in Hin as [a' [= -> ->]]. cbn. set_solver.
  - intros e [Hin|Hin]%elem_of_app; [|by apply Htell]. apply Hnew in Hin as [a' ->]. eauto.
  - intros [v c] [[= -> ->]|Hin]%elem_of_cons.
    + eapply recreated_first; [done|done|by apply Hpl|auto].
    + eapply recreated_later; [by apply Hvm| |done|done|done|done|by apply Hpl|].
      * intros ->. apply Hnotin. by apply (list_elem_of_fmap_2 fst) in Hin.
      * intros b Hs. apply Hnew in Hs as [? [= _ -> _]].
        apply Hnotin. by apply (list_elem_of_fmap_2 fst) in Hin.
Qed.

(** The state after expiry, before VMs are dispatched. *)
Definition after_expiry `{IterOrder} (now : Instant) (s : SchedulerActor) : SchedulerActor :=
  let '(placements, data_cache) :=
    cleanup_unresolved_vm_cache now (vm_placements s) (vm_data_cache s) in
  invalidate_pending_resources
    (set_vm_data_cache (λ _, data_cache) (set_vm_placements (λ _, placements) s)).

Lemma after_expiry_inv `{IterOrder} now s : sched_inv s → sched_inv (after_expiry now s).
Proof.
  intros Hinv. unfold after_expiry.
  destruct (cleanup_unresolved_vm_cache _ _ _) as [p d] eqn:Hc.
  pose proof (lookup_cleanup_placements now (vm_placements s) (vm_data_cache s)) as Hp.
  pose proof (lookup_cleanup_data_cache now (vm_placements s) (vm_data_cache s)) as Hd.
  pose proof (cleanup_placements_wf now (vm_placements s) (vm_data_cache s)) as Hwf.
  rewrite Hc in Hp, Hd, Hwf. cbn in Hp, Hd, Hwf.
  eapply inv_update; [exact Hinv|done..| | |]; destruct Hinv as [Hpend Hw Hi Hx Hr]; cbn.
  - by apply Hwf.
  - etrans; [|exact Hi]. intros k. rewrite !elem_of_dom, Hp. by rewrite fmap_is_Some.
  - intros k l. rewrite Hd. destruct (decide _); [done|]. apply Hr.
Qed.

Lemma reconcile_vm_placements_unfold `{IterOrder} cleanup_now now told s :
  reconcile_vm_placements cleanup_now now told s =
  foldl (recreate_unplaced now told) (after_expiry cleanup_now s, [])
    (unplaced_vms (after_expiry cleanup_now s)).
Proof.
  unfold reconcile_vm_placements, after_expiry. by destruct (cleanup_unresolved_vm_cache _ _ _).
Qed.

Lemma elem_of_unplaced_vms `{IterOrder} s vm :
  vm ∈ unplaced_vms s ↔
  vm_manifests s !! vm.1 = Some vm.2 ∧ default [] (vm_placements s !! vm.1) = [].
Proof.
  unfold unplaced_vms. rewrite list_elem_of_filter. destruct vm as [v m].
  rewrite elem_of_iter_map. cbn. tauto.
Qed.

Lemma NoDup_unplaced_vms `{IterOrder} s : NoDup (unplaced_vms s).*1.
Proof.
  unfold unplaced_vms. eapply sublist_NoDup; [apply (NoDup_iter_keys (vm_manifests s))|].
  apply fmap_sublist, sublist_filter.
Qed.

Lemma reconcile_vm_placements_spec `{IterOrder} cleanup_now now told s :
  sched_inv s →
  let s0 := after_expiry cleanup_now s in
  let '(s', sent) := reconcile_vm_placements cleanup_now now told s in
  sched_inv s' ∧ vm_manifests s' = vm_manifests s ∧ agent_data_cache s' = agent_data_cache s ∧
  (∀ v, v ∉ (unplaced_vms s0).*1 → vm_placements s' !! v = vm_placements s0 !! v) ∧
  (∀ a msg, TellCreate a msg ∈ sent → (create_vmid msg, create_config msg) ∈ unplaced_vms s0) ∧
  (∀ e, e ∈ sent → ∃ a msg, e = TellCreate a msg) ∧
  (∀ vm, vm ∈ unplaced_vms s0 → recreated now told s0 s' sent vm).
Proof.
  intros Hinv s0. rewrite reconcile_vm_placements_unfold. fold s0.
  pose proof (recreate_all_spec now told (unplaced_vms s0) s0 [] (after_expiry_inv cleanup_now s Hinv)
    (NoDup_unplaced_vms s0) (λ vm, proj1 (elem_of_unplaced_vms s0 vm))) as Hall.
  destruct (foldl _ _ _) as [s' sent]. destruct Hall as (?&Hm&Hc&Hpl&sent'&->&?&?&?).
  cbn [app]. assert (vm_manifests s0 = vm_manifests s ∧ agent_data_cache s0 = agent_data_cache s)
    as [Hm0 Hc0].
  { subst s0. unfold after_expiry. by destruct (cleanup_unresolved_vm_cache _ _ _). }
  split_and!; try done; congruence.
Qed.

(** ** The invariant holds in every reachable state *)

Lemma scheduler_handle_inv `{IterOrder} to_bytes from_bytes s e :
  sched_inv s → sched_inv (scheduler_handle to_bytes from_bytes s e).
Proof.
  intros Hinv. destruct e as [alive id|now asked ex msg|lookup told vmid|lookup told vmid
    |fin linked task a|fin linked task a|now a data|a|now id ref update|a|cnow now told];
    cbn [scheduler_handle].
  - unfold scheduler_on_link_died. destruct alive; [|done]. cbn [negb].
    assert (sched_inv (set_actor_kinds (delete id) s)) as Hk by by eapply inv_same.
    destruct (actor_kinds s !! id) as [[]|]; [| |done].
    + pose proof (cleanup_agent_actor_inv id _ Hk). by destruct (cleanup_agent_actor _ _).
    + pose proof (cleanup_vm_actor_inv id _ Hk). by destruct (cleanup_vm_actor _ _).
  - by apply scheduler_create_vm_inv.
  - unfold scheduler_delete_vm. destruct lookup as [[vm|]|]; [|done..].
    destruct told as [[]|]; [by apply remove_vm_intent_inv|done].
  - unfold scheduler_shutdown_vm. destruct lookup as [[vm|]|]; [|done..].
    destruct told as [[]|]; [by apply remove_vm_intent_inv|done].
  - unfold vm_actor_discovered. repeat case_match; try done; by eapply inv_same.
  - unfold agent_actor_discovered. repeat case_match; try done; by eapply inv_same.
  - by apply vm_updated_inv.
  - unfold vm_updater_stopped.
    assert (sched_inv (set_actor_kinds (delete a) s)) as Hk by by eapply inv_same.
    pose proof (cleanup_vm_actor_inv a _ Hk). by destruct (cleanup_vm_actor _ _).
  - by apply agent_updated_inv.
  - unfold agent_updater_stopped.
    assert (sched_inv (set_actor_kinds (delete a) s)) as Hk by by eapply inv_same.
    pose proof (cleanup_agent_actor_inv a _ Hk). by destruct (cleanup_agent_actor _ _).
  - pose proof (reconcile_vm_placements_spec cnow now told s Hinv) as Hr.
    destruct (reconcile_vm_placements _ _ _ _). by destruct Hr.
Qed.

Lemma scheduler_on_start_inv finder : sched_inv (scheduler_on_start finder).
Proof. split; cbn; try done; apply map_Forall_empty. Qed.

Lemma reachable_inv to_bytes from_bytes finder s :
  reachable to_bytes from_bytes finder s → sched_inv s.
Proof.
  induction 1 as [|order s e _ IH]; [apply scheduler_on_start_inv|].
  by apply scheduler_handle_inv.
Qed.
