(* ===== verification/Capacity.v ===== *)
(** * The scheduler does not overcommit

    In exact arithmetic: the usage an agent reported plus the requests that are
    pending on it stay within twice its vCPUs and within its memory, under
    every message except new reports from outside. *)

From S2P Require Import Prelude RustString RustFloat SortedVec Manifest Messages Cache.
From S2P Require Import CacheFacts Scheduling SchedulingFacts SchedHandlers SchedInv.
Open Scope N_scope.

(** ** Fewer placements reserve less *)

(** Every VM keeps a sublist of its entries, with the same manifest. *)
Record shrinks (ms ms' : Manifests) (p p' : Placements) : Prop := {
  shrinks_entries : ∀ v, default [] (p' !! v) `sublist_of` default [] (p !! v);
  shrinks_manifests : ∀ v, default [] (p' !! v) ≠ [] → ms' !! v = ms !! v }.

Lemma sum_N_sublist l k : l `sublist_of` k → sum_N l ≤ sum_N k.
Proof. unfold sum_N. induction 1; cbn in *; lia. Qed.

Lemma sublist_filter_mono {A} (P : A → Prop) `{∀ x, Decision (P x)} l k :
  l `sublist_of` k → filter P l `sublist_of` filter P k.
Proof.
  induction 1 as [|x l k Hs IH|x l k Hs IH]; [done| |]; rewrite ?filter_cons;
    destruct (decide (P x)); by repeat constructor.
Qed.

Lemma vm_requests_sublist ms ms' a v l k :
  l `sublist_of` k → (l ≠ [] → ms' !! v = ms !! v) →
  vm_requests ms' a v l `sublist_of` vm_requests ms a v k.
Proof.
  intros Hs Hm. destruct l as [|e l]; [rewrite vm_requests_nil; apply sublist_nil_l|].
  unfold vm_requests. rewrite Hm by done. destruct (ms !! v); [|done].
  by apply fmap_sublist, sublist_filter_mono.
Qed.

Lemma shrinks_sum (f : N * N → N) ms ms' p p' a :
  shrinks ms ms' p p' →
  sum_N (f <$> pending_requests ms' p' a) ≤ sum_N (f <$> pending_requests ms p a).
Proof.
  revert p. induction p' as [|v l p' Hv IH] using map_ind; intros p [Hs Hm].
  { unfold pending_requests at 1. rewrite map_to_list_empty. unfold sum_N at 1. cbn. lia. }
  rewrite pending_requests_insert, (pending_requests_split ms p v) by done.
  rewrite !fmap_app, !sum_N_app. apply N.add_le_mono.
  - apply sum_N_sublist, fmap_sublist, vm_requests_sublist.
    + specialize (Hs v). by rewrite lookup_insert_eq in Hs.
    + intros Hl. apply Hm. by rewrite lookup_insert_eq.
  - apply IH. split.
    + intros w. destruct (decide (w = v)) as [->|Hne]; [rewrite Hv; apply sublist_nil_l|].
      specialize (Hs w). by rewrite lookup_insert_ne in Hs; [rewrite lookup_delete_ne|].
    + intros w Hw. destruct (decide (w = v)) as [->|Hne]; [by rewrite Hv in Hw|].
      apply Hm. by rewrite lookup_insert_ne.
Qed.

Lemma within_capacity_shrinks ms ms' p p' agent :
  shrinks ms ms' p p' → within_capacity ms p agent → within_capacity ms' p' agent.
Proof.
  intros Hs [Hv Hr]. pose proof (shrinks_sum fst _ _ _ _ (agent_ref agent) Hs).
  pose proof (shrinks_sum snd _ _ _ _ (agent_ref agent) Hs). split; lia.
Qed.

(** ** The capacity invariant *)

(** Reports come from the agent they are about, so that keys and references
    agree. *)
Definition refs_agree (s : SchedulerActor) : Prop :=
  map_Forall (λ id agent, agent_ref agent = id) (agent_data_cache s).

Definition capacity_inv (s : SchedulerActor) : Prop :=
  refs_agree s ∧
  map_Forall (λ _ agent, representable agent →
    within_capacity (vm_manifests s) (vm_placements s) agent) (agent_data_cache s).

Lemma capacity_shrinks s s' :
  capacity_inv s → agent_data_cache s' ⊆ agent_data_cache s →
  shrinks (vm_manifests s) (vm_manifests s') (vm_placements s) (vm_placements s') →
  capacity_inv s'.
Proof.
  intros [Ha Hc] Hsub Hs. split.
  - intros id agent Hid. eapply Ha. by eapply lookup_weaken.
  - intros id agent Hid Hrep. eapply within_capacity_shrinks; [exact Hs|].
    eapply Hc; [|done]. by eapply lookup_weaken.
Qed.

Lemma shrinks_refl ms p : shrinks ms ms p p.
Proof. split; [done|done]. Qed.

Lemma shrinks_retain ms p (keep : N → VmPlacement → Prop) `{∀ k x, Decision (keep k x)} :
  shrinks ms ms p (retain_all keep p).
Proof.
  split; [|done]. intros v. rewrite lookup_retain_all. destruct (p !! v); cbn; [|done].
  apply sublist_filter.
Qed.

(** The chosen agent has room. *)
Lemma schedule_agent_fits `{IterOrder} s msg s1 a :
  sched_inv s → schedule_agent s msg = (s1, Ok a) →
  ∃ id agent, agent_data_cache s !! id = Some agent ∧ agent_ref agent = a ∧
    fits agent (pending_resources_by_agent (vm_manifests s) (vm_placements s))
      (create_config msg) = true.
Proof.
  intros Hinv Hs. unfold schedule_agent in Hs.
  pose proof (pending_resources_spec s) as Hps.
  assert ((pending_resources s).2 =
    pending_resources_by_agent (vm_manifests s) (vm_placements s)) as Hp.
  { unfold pending_resources. destruct (pending_resources_cache s) as [r|] eqn:Hr; [|done].
    by apply (inv_pending _ Hinv). }
  set (pending := pending_resources_by_agent _ _) in *.
  destruct (pending_resources s) as [s' r]. cbn in Hp. subst s' r.
  pose proof (best_of_spec (λ agent, score_agent (set_pending_resources_cache (Some pending) s)
    msg agent pending) (iter_values (agent_data_cache s))) as Hb.
  cbn [agent_data_cache set_pending_resources_cache] in Hs.
  destruct (best_of _ _) as [[a'|] best]; cbn in Hs; simplify_eq.
  destruct Hb as (agent & [id Hid]%elem_of_iter_values & ? & Hbest & Hgt & _).
  exists id, agent. split_and!; [done|done|]. apply not_false_is_true. intros Hf.
  rewrite <-Hbest in Hgt. unfold score_agent, fits in *.
  destruct (default _ _) as [pv pr]. rewrite Hf in Hgt. cbn [negb] in Hgt.
  by rewrite score_gt_irrefl in Hgt.
Qed.

Lemma vm_requests_pending ms v m b a now :
  ms !! v = Some m →
  vm_requests ms b v [pending_placement a now] =
  if decide (a = b) then [(request_vcpus m, request_memory m)] else [].
Proof.
  intros Hm. unfold vm_requests. rewrite Hm, filter_cons. cbn [pl_agent_id pending_placement].
  destruct (decide (a = b)).
  - rewrite decide_True by done. done.
  - rewrite decide_False by naive_solver. done.
Qed.

(** Reserving a request that fits keeps every agent within its capacity. *)
Lemma capacity_reserve `{IterOrder} s s' msg s1 a now :
  sched_inv s → capacity_inv s → schedule_agent s msg = (s1, Ok a) →
  default [] (vm_placements s !! create_vmid msg) = [] →
  agent_data_cache s' = agent_data_cache s →
  vm_manifests s' = <[create_vmid msg := create_config msg]> (vm_manifests s) →
  vm_placements s' = <[create_vmid msg := [pending_placement a now]]> (vm_placements s) →
  capacity_inv s'.
Proof.
  intros Hinv [Hag Hcap] Hs Hn Hc Hm Hp.
  destruct (schedule_agent_fits s msg s1 a Hinv Hs) as (id & target & Hid & Ht & Hfit).
  split; [unfold refs_agree; by rewrite Hc|]. rewrite Hc, Hm, Hp. intros id' agent Hid' Hrep.
  unfold within_capacity.
  assert (pending_requests (<[create_vmid msg := create_config msg]> (vm_manifests s))
    (<[create_vmid msg := [pending_placement a now]]> (vm_placements s)) (agent_ref agent) ≡ₚ
    (if decide (a = agent_ref agent)
     then [(request_vcpus (create_config msg), request_memory (create_config msg))] else []) ++
    pending_requests (vm_manifests s) (vm_placements s) (agent_ref agent)) as Hreq.
  { rewrite pending_requests_update. erewrite vm_requests_pending by apply lookup_insert_eq.
    f_equiv. rewrite (pending_requests_split (vm_manifests s) (vm_placements s) (create_vmid msg)).
    rewrite Hn, vm_requests_nil. cbn. erewrite pending_requests_ext; [done|].
    intros v [l Hl]. destruct (decide (v = create_vmid msg)) as [->|].
    - by rewrite lookup_delete_eq in Hl.
    - by rewrite lookup_insert_ne. }
  cbv zeta. rewrite Hreq. destruct (decide (a = agent_ref agent)) as [Heq|Hne].
  - assert (agent = target) as ->.
    { apply Hag in Hid as Hi. apply Hag in Hid' as Hi'. congruence. }
    apply (fits_exact target (vm_manifests s) (vm_placements s) (create_config msg) Hrep Hfit).
  - by apply (Hcap id' agent).
Qed.

(** ** Preservation *)

Lemma capacity_same s s' :
  capacity_inv s → agent_data_cache s' = agent_data_cache s →
  vm_manifests s' = vm_manifests s → vm_placements s' = vm_placements s → capacity_inv s'.
Proof. intros Hc Ha Hm Hp. unfold capacity_inv, refs_agree. by rewrite Ha, Hm, Hp. Qed.

Lemma shrinks_delete ms ms' p v :
  (∀ w, w ≠ v → ms' !! w = ms !! w) → shrinks ms ms' p (delete v p).
Proof.
  intros Hm. split.
  - intros w. destruct (decide (w = v)) as [->|Hne].
    + rewrite lookup_delete_eq. apply sublist_nil_l.
    + by rewrite lookup_delete_ne.
  - intros w Hw. apply Hm. intros ->. by rewrite lookup_delete_eq in Hw.
Qed.

Lemma capacity_remove_intent vmid s : capacity_inv s → capacity_inv (remove_vm_intent vmid s).
Proof.
  intros Hc. eapply capacity_shrinks; [exact Hc|done|]. cbn. apply shrinks_delete.
  intros w Hw. by rewrite lookup_delete_ne.
Qed.

Lemma capacity_cleanup_agent a s : capacity_inv s → capacity_inv (cleanup_agent_actor a s).1.
Proof.
  intros Hc. eapply capacity_shrinks; [exact Hc|cbn; apply delete_subseteq|].
  cbn. apply shrinks_retain.
Qed.

Lemma capacity_cleanup_vm `{IterOrder} a s : capacity_inv s → capacity_inv (cleanup_vm_actor a s).1.
Proof.
  intros Hc. unfold cleanup_vm_actor.
  destruct (vm_actorid_ulid_map _ !! a) as [vmid|]; [destruct (decide _)|]; cbn;
    [by eapply capacity_same| |by eapply capacity_same].
  eapply capacity_shrinks; [exact Hc|done|]. cbn. split; [|done]. intros v. rewrite lookup_alter.
  destruct (decide (vmid = v)) as [->|]; [|done]. destruct (vm_placements s !! v); [|done].
  apply sublist_filter.
Qed.

Lemma capacity_create `{IterOrder} to_bytes from_bytes now asked ex msg s :
  sched_inv s → capacity_inv s →
  capacity_inv (scheduler_create_vm to_bytes from_bytes now asked ex msg s).1.1.
Proof.
  intros Hinv Hc. pose proof (scheduler_create_vm_cases to_bytes from_bytes now asked ex msg s) as Hcs.
  destruct (scheduler_create_vm _ _ _ _ _ _ _) as [[s' reply] effects]. cbn.
  destruct (vm_manifests s !! create_vmid msg) as [existing|] eqn:Hm.
  { by destruct Hcs as [-> _]. }
  destruct (schedule_agent_state s msg) as (r & Hs1 & _).
  destruct (schedule_agent s msg) as [s1 [a|e]] eqn:Hs; cbn [fst] in Hs1; subst s1.
  2: { destruct Hcs as [-> _]. by eapply capacity_same. }
  pose proof (inv_unplaced _ _ Hinv Hm) as Hn.
  set (s1 := set_pending_resources_cache _ _) in *.
  assert (capacity_inv (reserved (create_vmid msg) (create_config msg) a now s1)) as H2.
  { eapply (capacity_reserve s _ msg); [done|done|exact Hs|by rewrite Hn|done|done|].
    cbn. unfold push_placement. by rewrite Hn. }
  destruct Hcs as (_ & _ & ->). destruct (asked a) as [reply'|].
  - destruct (_ ≫= _); [|done]. by eapply capacity_same.
  - destruct ex; [done|]. eapply capacity_shrinks; [exact H2|done|]. cbn.
    apply shrinks_delete. intros w Hw. by rewrite lookup_delete_ne.
Qed.

Lemma capacity_recreate `{IterOrder} now told s effects vmid config :
  sched_inv s → capacity_inv s → vm_manifests s !! vmid = Some config →
  default [] (vm_placements s !! vmid) = [] →
  capacity_inv (recreate_unplaced now told (s, effects) (vmid, config)).1.
Proof.
  intros Hinv Hc Hm Hn. unfold recreate_unplaced.
  set (request := {| create_vmid := vmid; create_config := config |}).
  destruct (schedule_agent_state s request) as (r & Hs1 & _).
  destruct (schedule_agent s request) as [s1 [a|e]] eqn:Hs; cbn [fst] in Hs1; subst s1;
    [|by eapply capacity_same].
  destruct (told a request); cbn.
  - eapply (capacity_reserve s _ request); [done|done|exact Hs|done|done| |].
    + cbn. by rewrite insert_id.
    + cbn. unfold push_placement. by rewrite Hn.
  - eapply capacity_shrinks; [exact Hc|done|]. cbn. unfold push_placement.
    rewrite insert_insert_eq. split; [|done]. intros v.
    destruct (decide (v = vmid)) as [->|].
    + rewrite lookup_insert_eq. apply sublist_nil_l.
    + by rewrite lookup_insert_ne.
Qed.

Lemma capacity_recreate_all `{IterOrder} now told vms s effects :
  sched_inv s → capacity_inv s → NoDup vms.*1 →
  (∀ vm, vm ∈ vms → vm_manifests s !! vm.1 = Some vm.2 ∧ default [] (vm_placements s !! vm.1) = []) →
  capacity_inv (foldl (recreate_unplaced now told) (s, effects) vms).1.
Proof.
  revert s effects. induction vms as [|[vmid config] vms IH]; intros s effects Hinv Hc Hnd Hvms; [done|].
  rewrite fmap_cons, NoDup_cons in Hnd. destruct Hnd as [Hnotin Hnd].
  destruct (Hvms (vmid, config)) as [Hm Hn]; [apply elem_of_cons; by left|].
  cbn [fst snd foldl] in Hm, Hn, Hnotin |- *.
  pose proof (recreate_unplaced_spec now told s effects vmid config Hinv Hm Hn) as Hstep.
  pose proof (capacity_recreate now told s effects vmid config Hinv Hc Hm Hn) as Hc1.
  destruct (recreate_unplaced now told (s, effects) (vmid, config)) as [s1 effects1].
  destruct Hstep as (Hinv1 & Hma1 & _ & _ & Hpl1 & _). apply IH; [done..|].
  intros vm Hin. rewrite Hma1, Hpl1; [apply Hvms, elem_of_cons; by right|].
  intros Heq. apply Hnotin. rewrite <-Heq. by apply list_elem_of_fmap_2.
Qed.

Lemma capacity_expiry `{IterOrder} now s : capacity_inv s → capacity_inv (after_expiry now s).
Proof.
  intros Hc. unfold after_expiry.
  pose proof (lookup_cleanup_placements now (vm_placements s) (vm_data_cache s)) as Hp.
  destruct (cleanup_unresolved_vm_cache _ _ _) as [p d]. cbn in Hp.
  eapply capacity_shrinks; [exact Hc|done|]. cbn. split; [|done]. intros v. rewrite Hp.
  destruct (vm_placements s !! v); cbn; [apply sublist_filter|done].
Qed.

Lemma capacity_reconcile `{IterOrder} cleanup_now now told s :
  sched_inv s → capacity_inv s →
  capacity_inv (reconcile_vm_placements cleanup_now now told s).1.
Proof.
  intros Hinv Hc. rewrite reconcile_vm_placements_unfold. apply capacity_recreate_all.
  - by apply after_expiry_inv.
  - by apply capacity_expiry.
  - apply NoDup_unplaced_vms.
  - intros vm. apply elem_of_unplaced_vms.
Qed.

(** Everything but a report about a VM or an agent. *)
Definition internal_event (e : SchedEvent) : bool :=
  match e with SeVmUpdated _ _ _ | SeAgentUpdated _ _ _ _ => false | _ => true end.

Lemma handle_capacity `{IterOrder} to_bytes from_bytes s e :
  sched_inv s → capacity_inv s → internal_event e = true →
  capacity_inv (scheduler_handle to_bytes from_bytes s e).
Proof.
  intros Hinv Hc Hev. destruct e as [alive id|now asked ex msg|lookup told vmid|lookup told vmid
    |fin linked task a|fin linked task a|now a data|a|now id ref update|a|cnow now told];
    cbn [scheduler_handle]; try done.
  - unfold scheduler_on_link_died. destruct alive; [|done]. cbn [negb].
    assert (capacity_inv (set_actor_kinds (delete id) s)) as Hk by by eapply capacity_same.
    destruct (actor_kinds s !! id) as [[]|]; [| |done].
    + pose proof (capacity_cleanup_agent id _ Hk). by destruct (cleanup_agent_actor _ _).
    + pose proof (capacity_cleanup_vm id _ Hk). by destruct (cleanup_vm_actor _ _).
  - by apply capacity_create.
  - unfold scheduler_delete_vm. destruct lookup as [[vm|]|]; [|done..].
    destruct told as [[]|]; [by apply capacity_remove_intent|done].
  - unfold scheduler_shutdown_vm. destruct lookup as [[vm|]|]; [|done..].
    destruct told as [[]|]; [by apply capacity_remove_intent|done].
  - unfold vm_actor_discovered. repeat case_match; try done; by eapply capacity_same.
  - unfold agent_actor_discovered. repeat case_match; try done; by eapply capacity_same.
  - assert (capacity_inv (set_actor_kinds (delete a) s)) as Hk by by eapply capacity_same.
    pose proof (capacity_cleanup_vm a _ Hk) as Hc'. unfold vm_updater_stopped.
    by destruct (cleanup_vm_actor _ _).
  - assert (capacity_inv (set_actor_kinds (delete a) s)) as Hk by by eapply capacity_same.
    pose proof (capacity_cleanup_agent a _ Hk) as Hc'. unfold agent_updater_stopped.
    by destruct (cleanup_agent_actor _ _).
  - by apply capacity_reconcile.
Qed.

(** C4. No overcommit. Take a consistent state in which, for every cached
    agent whose limits are below the saturation points, the reported usage plus
    the pending requests are at most twice the vCPUs and at most the memory, in
    exact arithmetic. Handling a create (accepted, refused, failed or rolled
    back), a delete, a shutdown, a death, a lost updater, a discovery or a
    whole reconciliation pass keeps it so. *)
Theorem scheduler_no_overcommit `{IterOrder} to_bytes from_bytes s e :
  sched_inv s → capacity_inv s → internal_event e = true →
  capacity_inv (scheduler_handle to_bytes from_bytes s e).
Proof. apply handle_capacity. Qed.
