(* ===== verification/SchedThms.v ===== *)
(** * The scheduler's guarantees

    What the message handlers promise to their callers: consistency of every
    reachable state, idempotent creation, rollback of failed creation, complete
    removal, retention of intent, and recreation of unplaced VMs without
    duplicates. *)

From S2P Require Import Prelude RustString RustFloat SortedVec Manifest Messages Cache.
From S2P Require Import CacheFacts Scheduling SchedulingFacts SchedHandlers SchedInv Capacity.
Open Scope N_scope.

(** C6. In every state the scheduler can reach, whatever messages, remote
    answers, clock readings and hash-map orders it meets: a cached reservation
    table is the one computed from the manifests and placements; every VM has
    at most one placement per agent and at most one pending placement, and a
    placement is confirmed exactly when it is running; placements exist only
    for VMs with a manifest; the VM index covers exactly the cached agents; no
    VM lists an actor twice. *)
Theorem scheduler_invariant to_bytes from_bytes finder s :
  reachable to_bytes from_bytes finder s → sched_inv s.
Proof. apply reachable_inv. Qed.

(** ** Creation *)

Section create.
Context (to_bytes : ActorId → list N) (from_bytes : list N → option ActorId).

Lemma create_ok_manifest `{IterOrder} now asked ex msg s s' r effects :
  scheduler_create_vm to_bytes from_bytes now asked ex msg s = (s', Ok r, effects) →
  vm_manifests s' !! create_vmid msg = Some (create_config msg).
Proof.
  intros Hc. pose proof (scheduler_create_vm_cases to_bytes from_bytes now asked ex msg s) as Hcs.
  rewrite Hc in Hcs. destruct (vm_manifests s !! create_vmid msg) as [existing|] eqn:Hm.
  - destruct Hcs as (-> & _ & Hr). by destruct (decide _) as [->|].
  - destruct (schedule_agent s msg) as [s1 [a|e]]; [|by destruct Hcs as (_ & ? & _)].
    destruct Hcs as (_ & Ha & ->). rewrite <-Ha.
    destruct (_ ≫= _); cbn; by rewrite lookup_insert_eq.
Qed.

Lemma create_existing `{IterOrder} now asked ex msg s existing :
  vm_manifests s !! create_vmid msg = Some existing →
  ∃ id, scheduler_create_vm to_bytes from_bytes now asked ex msg s =
    (s, if decide (existing = create_config msg)
        then Ok {| reply_config := Some existing; reply_actor_id := id |}
        else Err ConflictingCreate, []).
Proof.
  intros Hm. pose proof (scheduler_create_vm_cases to_bytes from_bytes now asked ex msg s) as Hcs.
  destruct (scheduler_create_vm _ _ _ _ _ _ _) as [[s' reply] effects]. rewrite Hm in Hcs.
  destruct Hcs as (-> & -> & Hr). destruct (decide _).
  - destruct Hr as [id ->]. by exists id.
  - exists None. by rewrite Hr.
Qed.
End create.

(** C24. Creation is idempotent at the scheduler. After a create was accepted,
    a repeated create with the same configuration succeeds with that
    configuration, one with a different configuration is refused as
    conflicting; neither changes any state nor contacts an agent, whatever
    happens to the outside world. *)
Theorem create_idempotent (o o' : IterOrder) to_bytes from_bytes now asked ex msg s s' r effects
    now' asked' ex' config :
  @scheduler_create_vm to_bytes from_bytes o now asked ex msg s = (s', Ok r, effects) →
  let msg' := {| create_vmid := create_vmid msg; create_config := config |} in
  ∃ id, @scheduler_create_vm to_bytes from_bytes o' now' asked' ex' msg' s' =
    (s', if decide (create_config msg = config)
         then Ok {| reply_config := Some config; reply_actor_id := id |}
         else Err ConflictingCreate, []).
Proof.
  intros Hc%create_ok_manifest msg'.
  destruct (create_existing to_bytes from_bytes now' asked' ex' msg' s' _ Hc) as [id ->].
  exists id. cbn. by destruct (decide _) as [->|].
Qed.

Lemma failed_create_restores `{IterOrder} to_bytes from_bytes now asked msg s s' e effects :
  sched_inv s → vm_manifests s !! create_vmid msg = None → vm_data_cache s !! create_vmid msg = None →
  scheduler_create_vm to_bytes from_bytes now asked false msg s = (s', Err e, effects) →
  vm_manifests s' = vm_manifests s ∧ vm_placements s' = vm_placements s ∧
  vm_data_cache s' = vm_data_cache s ∧ vm_actorid_ulid_map s' = vm_actorid_ulid_map s ∧
  agent_vm_index s' = agent_vm_index s ∧ agent_data_cache s' = agent_data_cache s.
Proof.
  intros Hinv Hm Hd Hc. pose proof (inv_unplaced _ _ Hinv Hm) as Hn.
  pose proof (scheduler_create_vm_cases to_bytes from_bytes now asked false msg s) as Hcs.
  rewrite Hc, Hm in Hcs. destruct (schedule_agent_state s msg) as (r & Hs & _).
  destruct (schedule_agent s msg) as [s1 [a|e']]; cbn [fst] in Hs; subst s1.
  - destruct Hcs as (_ & Ha & ->). rewrite <-Ha. cbn. unfold push_placement, push_cached_vm.
    rewrite !delete_insert_eq, !delete_id by done. done.
  - by destruct Hcs as [-> _].
Qed.

(** C23. A failed creation leaves no trace. If the VM was unknown, the agent
    refused or did not answer and the registry knows no actor for the VM, the
    manifests, placements, actor references and actor map are those before the
    request. *)
Theorem failed_create_rolls_back `{IterOrder} to_bytes from_bytes now asked msg s s' e effects :
  sched_inv s → vm_manifests s !! create_vmid msg = None → vm_data_cache s !! create_vmid msg = None →
  scheduler_create_vm to_bytes from_bytes now asked false msg s = (s', Err e, effects) →
  vm_manifests s' = vm_manifests s ∧ vm_placements s' = vm_placements s ∧
  vm_data_cache s' = vm_data_cache s ∧ vm_actorid_ulid_map s' = vm_actorid_ulid_map s ∧
  agent_vm_index s' = agent_vm_index s ∧ agent_data_cache s' = agent_data_cache s.
Proof. apply failed_create_restores. Qed.

(** An accepted creation reserves its resources: the manifest is retained,
    the VM has exactly one placement, pending on the agent that was asked, and
    the pending requests of that agent grow by the request's vCPUs and memory
    while those of every other agent are unchanged. *)
Theorem create_reserves `{IterOrder} to_bytes from_bytes now asked ex msg s s' r effects b :
  sched_inv s → vm_manifests s !! create_vmid msg = None →
  scheduler_create_vm to_bytes from_bytes now asked ex msg s = (s', Ok r, effects) →
  ∃ a, effects = [AskCreate a msg] ∧ asked a = Ok r ∧
    vm_manifests s' = <[create_vmid msg := create_config msg]> (vm_manifests s) ∧
    vm_placements s' !! create_vmid msg = Some [pending_placement a now] ∧
    pending_requests (vm_manifests s') (vm_placements s') b ≡ₚ
      (if decide (a = b)
       then [(request_vcpus (create_config msg), request_memory (create_config msg))] else []) ++
      pending_requests (vm_manifests s) (vm_placements s) b.
Proof.
  intros Hinv Hm Hc. pose proof (inv_unplaced _ _ Hinv Hm) as Hn.
  pose proof (scheduler_create_vm_cases to_bytes from_bytes now asked ex msg s) as Hcs.
  rewrite Hc, Hm in Hcs. destruct (schedule_agent_state s msg) as (r' & Hs & _).
  destruct (schedule_agent s msg) as [s1 [a|e']]; cbn [fst] in Hs; subst s1;
    [|by destruct Hcs as (_ & ? & _)].
  destruct Hcs as (-> & Ha & Hs'). rewrite <-Ha in Hs'. exists a.
  assert (vm_manifests s' = <[create_vmid msg := create_config msg]> (vm_manifests s) ∧
    vm_placements s' = <[create_vmid msg := [pending_placement a now]]> (vm_placements s)) as [-> ->].
  { subst s'. destruct (_ ≫= _); cbn; unfold push_placement; by rewrite Hn. }
  split_and!; [done|done|done|by rewrite lookup_insert_eq|].
  rewrite pending_requests_insert by done.
  erewrite vm_requests_pending by apply lookup_insert_eq. f_equiv.
  erewrite pending_requests_ext; [done|]. intros v [l Hl].
  rewrite lookup_insert_ne; [done|]. intros <-. congruence.
Qed.

(** ** Removal and retention of intent *)

(** A delete that reaches the VM actor removes every trace of the VM: its
    manifest, placements and references, every actor identity mapped to it and
    its entry in every agent's index; the other VMs keep theirs, and the
    requests pending for other VMs are unaffected. *)
Theorem delete_forgets vm vmid s :
  let s' := (scheduler_delete_vm (Ok (Some vm)) (Ok ()) vmid s).1.1 in
  vm_manifests s' = delete vmid (vm_manifests s) ∧
  vm_placements s' = delete vmid (vm_placements s) ∧
  vm_data_cache s' = delete vmid (vm_data_cache s) ∧
  (∀ a v, vm_actorid_ulid_map s' !! a = Some v ↔ vm_actorid_ulid_map s !! a = Some v ∧ v ≠ vmid) ∧
  (∀ a v, reported_on (agent_vm_index s') a v ↔ reported_on (agent_vm_index s) a v ∧ v ≠ vmid) ∧
  ∀ a, pending_requests (vm_manifests s) (vm_placements s) a ≡ₚ
    vm_requests (vm_manifests s) a vmid (default [] (vm_placements s !! vmid)) ++
    pending_requests (vm_manifests s') (vm_placements s') a.
Proof.
  cbn. split_and!; try done.
  - intros a v. rewrite map_lookup_filter_Some. done.
  - intros a v. unfold reported_on. rewrite lookup_fmap.
    destruct (agent_vm_index s !! a); cbn; set_solver.
  - intros a. rewrite (pending_requests_split _ _ vmid). f_equiv.
    erewrite pending_requests_ext; [done|]. intros v [l Hl].
    rewrite lookup_delete_ne; [done|]. intros <-. by rewrite lookup_delete_eq in Hl.
Qed.

(** The messages that may introduce a VM, and those that may end it. *)
Definition introduces (vmid : Ulid) (e : SchedEvent) : bool :=
  match e with
  | SeCreate _ _ _ msg => bool_decide (create_vmid msg = vmid)
  | SeVmUpdated _ _ data => bool_decide (info_vmid data = vmid) && is_some (info_config data)
  | _ => false
  end.
Definition ends (vmid : Ulid) (e : SchedEvent) : bool :=
  match e with
  | SeDelete (Ok (Some _)) (Ok ()) v | SeShutdown (Ok (Some _)) (Ok ()) v => bool_decide (v = vmid)
  | _ => false
  end.

(** What a message may do to the manifest of one VM. *)
Record manifest_step (vmid : Ulid) (e : SchedEvent) (old new : option VmManifest) : Prop := {
  step_untouched : introduces vmid e = false → ends vmid e = false → new = old;
  step_absent : introduces vmid e = false → old = None → new = None;
  step_retained : ends vmid e = false → is_Some old → is_Some new }.

Lemma manifest_step_refl vmid e old new : new = old → manifest_step vmid e old new.
Proof. by intros ->. Qed.

Lemma create_manifests `{IterOrder} to_bytes from_bytes now asked ex msg s w :
  w ≠ create_vmid msg ∨ is_Some (vm_manifests s !! w) →
  vm_manifests (scheduler_create_vm to_bytes from_bytes now asked ex msg s).1.1 !! w =
  vm_manifests s !! w.
Proof.
  intros Hw. pose proof (scheduler_create_vm_cases to_bytes from_bytes now asked ex msg s) as Hc.
  destruct (scheduler_create_vm _ _ _ _ _ _ _) as [[s' reply] eff]. cbn [fst].
  destruct (vm_manifests s !! create_vmid msg) as [existing|] eqn:Hm.
  { by destruct Hc as [-> _]. }
  assert (w ≠ create_vmid msg) as Hne.
  { destruct Hw as [|Hw]; [done|]. intros ->. rewrite Hm in Hw. by destruct Hw. }
  destruct (schedule_agent_state s msg) as (r & Hs & _).
  destruct (schedule_agent s msg) as [s1 [a|e']]; cbn [fst] in Hs; subst s1;
    [|by destruct Hc as [-> _]].
  destruct Hc as (_ & _ & ->). destruct (asked a); [destruct (_ ≫= _)|destruct ex]; cbn;
    rewrite ?lookup_delete_ne, ?lookup_insert_ne by done; done.
Qed.

Lemma remove_intent_manifest vmid v e s :
  (ends vmid e = false → v ≠ vmid) →
  manifest_step vmid e (vm_manifests s !! vmid) (vm_manifests (remove_vm_intent v s) !! vmid).
Proof.
  intros Hv. cbn. split.
  - intros _ He. by rewrite lookup_delete_ne by auto.
  - intros _ Hn. apply lookup_delete_None. by right.
  - intros He Hs. by rewrite lookup_delete_ne by auto.
Qed.

Lemma cleanup_vm_actor_manifests `{IterOrder} a s :
  vm_manifests (cleanup_vm_actor a s).1 = vm_manifests s.
Proof. unfold cleanup_vm_actor. by repeat case_match. Qed.

(** Each handler's effect on the manifest of one VM. *)
Lemma handle_manifest `{IterOrder} to_bytes from_bytes s e vmid :
  sched_inv s →
  manifest_step vmid e (vm_manifests s !! vmid)
    (vm_manifests (scheduler_handle to_bytes from_bytes s e) !! vmid).
Proof.
  intros Hinv. destruct e as [alive id|now asked ex msg|lookup told v|lookup told v
    |fin linked task a|fin linked task a|now a data|a|now id ref update|a|cnow now told];
    cbn [scheduler_handle].
  - apply manifest_step_refl. unfold scheduler_on_link_died. destruct alive; [|done]. cbn [negb].
    destruct (actor_kinds s !! id) as [[]|]; [done| |done].
    pose proof (cleanup_vm_actor_manifests id (set_actor_kinds (delete id) s)) as Hm.
    destruct (cleanup_vm_actor _ _). cbn in *. by rewrite Hm.
  - split; cbn.
    + intros Hi%bool_decide_eq_false _. apply create_manifests. left. congruence.
    + intros Hi%bool_decide_eq_false Hn. rewrite create_manifests; [done|]. left. congruence.
    + intros _ Hs. rewrite create_manifests; [done|by right].
  - unfold scheduler_delete_vm. destruct lookup as [[vm|]|], told as [[]|];
      try by apply manifest_step_refl.
    apply remove_intent_manifest. cbn. by intros ?%bool_decide_eq_false.
  - unfold scheduler_shutdown_vm. destruct lookup as [[vm|]|], told as [[]|];
      try by apply manifest_step_refl.
    apply remove_intent_manifest. cbn. by intros ?%bool_decide_eq_false.
  - apply manifest_step_refl. unfold vm_actor_discovered. by repeat case_match.
  - apply manifest_step_refl. unfold agent_actor_discovered. by repeat case_match.
  - unfold vm_updated. destruct (info_config data) as [m|] eqn:Hcfg; [|by apply manifest_step_refl].
    cbn. destruct (decide (info_vmid data = vmid)) as [<-|Hne].
    + rewrite lookup_insert_eq. split; [| |done]; cbn;
        by rewrite Hcfg, bool_decide_eq_true_2 by done.
    + rewrite lookup_insert_ne by done. by apply manifest_step_refl.
  - apply manifest_step_refl. unfold vm_updater_stopped.
    pose proof (cleanup_vm_actor_manifests a (set_actor_kinds (delete a) s)) as Hm.
    destruct (cleanup_vm_actor _ _). cbn in *. by rewrite Hm.
  - apply manifest_step_refl. unfold agent_updated. by repeat case_match.
  - by apply manifest_step_refl.
  - apply manifest_step_refl. pose proof (reconcile_vm_placements_spec cnow now told s Hinv) as Hr.
    destruct (reconcile_vm_placements _ _ _ _). destruct Hr as (_ & Hm & _). cbn. by rewrite Hm.
Qed.

(** A run of the actor; every message may meet another iteration order. *)
Definition scheduler_run (to_bytes : ActorId → list N) (from_bytes : list N → option ActorId)
    (s : SchedulerActor) (es : list (IterOrder * SchedEvent)) : SchedulerActor :=
  foldl (λ s '(o, e), @scheduler_handle to_bytes from_bytes o s e) s es.

Lemma scheduler_run_inv to_bytes from_bytes s es :
  sched_inv s → sched_inv (scheduler_run to_bytes from_bytes s es).
Proof.
  revert s. induction es as [|[o e] es IH]; intros s Hs; [done|].
  cbn. by apply IH, scheduler_handle_inv.
Qed.

(** C7. Intent is retained. Whatever fails around it (agents or VM actors die,
    updaters stop, creates conflict, placements expire), the manifest of a VM
    stays with the scheduler until a delete or a shutdown of that VM succeeds. *)
Theorem intent_retained to_bytes from_bytes s es vmid :
  sched_inv s → Forall (λ oe, ends vmid oe.2 = false) es →
  is_Some (vm_manifests s !! vmid) →
  is_Some (vm_manifests (scheduler_run to_bytes from_bytes s es) !! vmid).
Proof.
  revert s. induction es as [|[o e] es IH]; intros s Hs He Hm; [done|].
  apply Forall_cons in He as [He Hes]. cbn. apply IH; [by apply scheduler_handle_inv|done|].
  eapply step_retained; [by apply handle_manifest|done|done].
Qed.

(** C26. A removed VM stays removed. Once a VM has no manifest, it gets neither
    a manifest nor a placement until a create for it arrives or a VM actor
    reports it with its configuration. *)
Theorem removed_stays_removed to_bytes from_bytes s es vmid :
  sched_inv s → Forall (λ oe, introduces vmid oe.2 = false) es →
  vm_manifests s !! vmid = None →
  vm_manifests (scheduler_run to_bytes from_bytes s es) !! vmid = None ∧
  vm_placements (scheduler_run to_bytes from_bytes s es) !! vmid = None.
Proof.
  intros Hs He Hm. assert (vm_manifests (scheduler_run to_bytes from_bytes s es) !! vmid = None) as Hn.
  { revert s Hs Hm. induction He as [|[o e] es He Hes IH]; intros s Hs Hm; [done|].
    cbn. apply IH; [by apply scheduler_handle_inv|].
    eapply step_absent; [by apply handle_manifest|done|done]. }
  split; [done|]. apply inv_unplaced; [by apply scheduler_run_inv|done].
Qed.

(** ** Recreation of unplaced VMs *)

Lemma reconcile_outcome `{IterOrder} cleanup_now now told s vmid m :
  sched_inv s → vm_manifests s !! vmid = Some m →
  let s0 := after_expiry cleanup_now s in
  let '(s', sent) := reconcile_vm_placements cleanup_now now told s in
  vm_manifests s' = vm_manifests s ∧
  let request := {| create_vmid := vmid; create_config := m |} in
  if decide (default [] (vm_placements s0 !! vmid) = [])
  then ∃ s1, sched_inv s1 ∧ agent_data_cache s1 = agent_data_cache s ∧
    agent_vm_index s1 = agent_vm_index s ∧ vm_manifests s1 = vm_manifests s ∧
    (∀ v, vm_placements s1 !! v = vm_placements s0 !! v ∨ vm_placements s1 !! v = vm_placements s' !! v) ∧
    match (schedule_agent s1 request).2 with
    | Ok a => (∀ b, TellCreate b request ∈ sent ↔ b = a) ∧
        vm_placements s' !! vmid = Some (if told a request then [pending_placement a (now vmid)] else [])
    | Err _ => (∀ b, TellCreate b request ∉ sent) ∧ vm_placements s' !! vmid = vm_placements s0 !! vmid
    end
  else vm_placements s' !! vmid = vm_placements s0 !! vmid ∧
       ∀ a msg, create_vmid msg = vmid → TellCreate a msg ∉ sent.
Proof.
  intros Hinv Hm s0. pose proof (reconcile_vm_placements_spec cleanup_now now told s Hinv) as Hr.
  destruct (reconcile_vm_placements _ _ _ _) as [s' sent]. cbv zeta in Hr. fold s0 in Hr.
  destruct Hr as (_ & Hma & _ & Hother & Hsent & _ & Hrec). split; [done|]. cbv zeta.
  assert (vm_manifests s0 = vm_manifests s ∧ agent_data_cache s0 = agent_data_cache s ∧
    agent_vm_index s0 = agent_vm_index s) as (Hm0 & Ha0 & Hi0).
  { subst s0. unfold after_expiry. by destruct (cleanup_unresolved_vm_cache _ _ _). }
  destruct (decide _) as [He|He].
  - destruct (Hrec (vmid, m)) as (s1 & Hs1).
    { apply elem_of_unplaced_vms. by rewrite Hm0. }
    exists s1. by rewrite Hm0, Ha0, Hi0 in Hs1.
  - assert (vmid ∉ (unplaced_vms s0).*1) as Hno.
    { intros ([v c] & -> & [_ Hc]%elem_of_unplaced_vms)%list_elem_of_fmap. done. }
    split; [by apply Hother|]. intros a msg <- Hin. apply Hno.
    apply Hsent in Hin. by apply (list_elem_of_fmap_2 fst) in Hin.
Qed.

(** C8. A reconciliation pass dispatches exactly the unplaced VMs. After
    expiry, a VM that still has a placement is neither touched nor created
    again. For a VM without placement, its turn comes in a consistent state with
    the same agents, reports and manifests and some of the pass's reservations already
    made: if scheduling finds an agent there, that agent and no other is asked
    and then holds the only, pending, placement (or none, if the request could
    not be sent); only if no agent is found is the VM left as it was. *)
Theorem reconcile_dispatches `{IterOrder} cleanup_now now told s vmid m :
  sched_inv s → vm_manifests s !! vmid = Some m →
  let s0 := after_expiry cleanup_now s in
  let '(s', sent) := reconcile_vm_placements cleanup_now now told s in
  vm_manifests s' = vm_manifests s ∧
  let request := {| create_vmid := vmid; create_config := m |} in
  if decide (default [] (vm_placements s0 !! vmid) = [])
  then ∃ s1, sched_inv s1 ∧ agent_data_cache s1 = agent_data_cache s ∧
    agent_vm_index s1 = agent_vm_index s ∧ vm_manifests s1 = vm_manifests s ∧
    (∀ v, vm_placements s1 !! v = vm_placements s0 !! v ∨ vm_placements s1 !! v = vm_placements s' !! v) ∧
    match (schedule_agent s1 request).2 with
    | Ok a => (∀ b, TellCreate b request ∈ sent ↔ b = a) ∧
        vm_placements s' !! vmid = Some (if told a request then [pending_placement a (now vmid)] else [])
    | Err _ => (∀ b, TellCreate b request ∉ sent) ∧ vm_placements s' !! vmid = vm_placements s0 !! vmid
    end
  else vm_placements s' !! vmid = vm_placements s0 !! vmid ∧
       ∀ a msg, create_vmid msg = vmid → TellCreate a msg ∉ sent.
Proof. apply reconcile_outcome. Qed.

(** ** Departed actors *)

(** The death of a VM actor forgets that actor and nothing else of other
    VMs. If no other actor of its VM is known, the VM keeps only placements
    that are pending or that an agent still reports, so a VM that nobody
    represents becomes unplaced and is recreated by reconciliation; its
    manifest is kept. *)
Theorem vm_death_recoverable `{IterOrder} a vmid s :
  vm_actorid_ulid_map s !! a = Some vmid →
  let s' := (cleanup_vm_actor a s).1 in
  vm_manifests s' = vm_manifests s ∧
  vm_actorid_ulid_map s' = delete a (vm_actorid_ulid_map s) ∧
  vm_keepalive_tasks s' = delete a (vm_keepalive_tasks s) ∧
  (∀ v, refs (default [] (vm_data_cache s' !! v)) =
        filter (λ b, b ≠ a) (refs (default [] (vm_data_cache s !! v)))) ∧
  (∀ v, v ≠ vmid → vm_placements s' !! v = vm_placements s !! v) ∧
  ((∃ b, b ≠ a ∧ b ∈ refs (default [] (vm_data_cache s !! vmid))) →
    vm_placements s' !! vmid = vm_placements s !! vmid) ∧
  ((∀ b, b ∈ refs (default [] (vm_data_cache s !! vmid)) → b = a) →
    ∀ e, e ∈ default [] (vm_placements s' !! vmid) ↔
      e ∈ default [] (vm_placements s !! vmid) ∧
      (pl_lifecycle e = Pending ∨ reported_on (agent_vm_index s) (pl_agent_id e) vmid)).
Proof.
  intros Hmap s'. subst s'. unfold cleanup_vm_actor.
  cbn [vm_actorid_ulid_map set_vm_keepalive_tasks]. rewrite Hmap.
  assert (has_discovered (remove_vm_actor a (vm_data_cache s)) vmid ↔
    ∃ b, b ≠ a ∧ b ∈ refs (default [] (vm_data_cache s !! vmid))) as Hdisc.
  { rewrite has_discovered_refs, refs_remove_vm_actor.
    setoid_rewrite list_elem_of_filter. done. }
  destruct (decide _) as [Hd|Hd]; cbn in Hd; rewrite Hdisc in Hd; cbn.
  - split_and!; try done; [intros v; apply refs_remove_vm_actor|].
    intros Hall. destruct Hd as (b & ? & ?%Hall). done.
  - split_and!; try done.
    + intros v. apply refs_remove_vm_actor.
    + intros v Hv. by rewrite lookup_alter_ne.
    + intros _ e. rewrite lookup_alter_eq. destruct (vm_placements s !! vmid); cbn; [|set_solver].
      rewrite list_elem_of_filter. tauto.
Qed.

Lemma cleanup_agent_placement_of a s v b :
  placements_all_wf (vm_placements s) →
  placement_of (vm_placements (cleanup_agent_actor a s).1) v b =
  if decide (b = a ∧ ¬ (reported_on (agent_vm_index s) a v ∧ has_discovered (vm_data_cache s) v))
  then None else placement_of (vm_placements s) v b.
Proof.
  intros Hwf. cbn. unfold placement_of, remove_agent_placements.
  rewrite lookup_retain_all. destruct (vm_placements s !! v) as [l|] eqn:Hl; cbn;
    [|by destruct (decide _)].
  rewrite find_placement_filter by (eapply pw_agents, Hwf, Hl).
  destruct (find_placement b l) as [e|] eqn:He; cbn; [|by destruct (decide (b = a ∧ _))].
  apply find_placement_Some in He as [_ <-].
  assert (v ∈ filter (has_discovered (vm_data_cache s)) (default ∅ (agent_vm_index s !! a)) ↔
    reported_on (agent_vm_index s) a v ∧ has_discovered (vm_data_cache s) v) as Hr.
  { rewrite elem_of_filter. unfold reported_on.
    destruct (agent_vm_index s !! a); cbn; set_solver. }
  destruct (decide (pl_agent_id e = a ∧ _)) as [[Ha Hno]|Hno].
  - rewrite decide_False; [done|]. intros [?|?]; naive_solver.
  - rewrite decide_True; [done|]. destruct (decide (pl_agent_id e = a)); [right|by left].
    apply Hr. apply dec_stable. naive_solver.
Qed.

(** The death of an agent removes its snapshot, its index and its
    placements, except those of VMs it reported that still have a discovered
    actor; placements on other agents and all manifests are kept. *)
Theorem agent_death_frees_placements a s v b :
  placements_all_wf (vm_placements s) →
  let s' := (cleanup_agent_actor a s).1 in
  vm_manifests s' = vm_manifests s ∧
  agent_data_cache s' = delete a (agent_data_cache s) ∧
  agent_vm_index s' = delete a (agent_vm_index s) ∧
  placement_of (vm_placements s') v b =
    (if decide (b = a ∧ ¬ (reported_on (agent_vm_index s) a v ∧ has_discovered (vm_data_cache s) v))
     then None else placement_of (vm_placements s) v b).
Proof. intros Hwf. split_and!; [done..|]. by apply cleanup_agent_placement_of. Qed.
