(* ===== verification/Updaters.v ===== *)
(** * The updater tasks and end-to-end synchronisation

    The failure budget of the polling tasks of [discovery.rs], and the
    composition agent, updater, scheduler: the snapshot the scheduler keeps of
    an agent follows the agent's own registry. *)

From S2P Require Import Prelude RustString SortedVec Manifest Messages Config Agent Cache.
From S2P Require Import CacheFacts Scheduling SchedHandlers.
Open Scope N_scope.

(** ** The failure budget *)

(** The counter both tasks keep: reset by a success, incremented by a failure,
    exhausted above five. *)
Fixpoint budget (fails : N) (outcomes : list bool) : option N :=
  match outcomes with
  | [] => Some fails
  | ok :: outcomes =>
      let fails := if ok then 0 else fails + 1 in
      if 5 <? fails then None else budget fails outcomes
  end.

Definition six_failures (outcomes : list bool) : Prop :=
  ∃ pre post, outcomes = pre ++ replicate 6 false ++ post.

Lemma six_failures_cons_true l : six_failures (true :: l) ↔ six_failures l.
Proof.
  split.
  - intros ([|x pre] & post & Heq); [done|]. cbn in Heq. simplify_eq. by exists pre, post.
  - intros (pre & post & ->). by exists (true :: pre), post.
Qed.

Lemma budget_spec outcomes (k : nat) :
  (k ≤ 5)%nat →
  budget (N.of_nat k) outcomes = None ↔
  (∃ post, outcomes = replicate (6 - k) false ++ post) ∨ six_failures outcomes.
Proof.
  revert k. induction outcomes as [|ok outcomes IH]; intros k Hk.
  { cbn. split; [done|]. intros [[post Hp]|(pre & post & Hp)].
    - by destruct (6 - k)%nat eqn:?; [lia|].
    - by destruct pre. }
  cbn [budget]. destruct ok.
  - change (5 <? 0) with false. cbv iota.
    rewrite (IH 0%nat) by lia. rewrite six_failures_cons_true. split.
    + intros [[post ->]|?]; right; [by exists [], post|done].
    + intros [[post Hp]|?]; [|by right]. by destruct (6 - k)%nat eqn:?; [lia|].
  - destruct (decide (k = 5)%nat) as [->|Hne].
    + split; [|done]. intros _. left. by exists outcomes.
    + replace (5 <? N.of_nat k + 1) with false by (symmetry; apply N.ltb_ge; lia). cbv iota.
      replace (N.of_nat k + 1) with (N.of_nat (S k)) by lia. rewrite (IH (S k)) by lia.
      replace (6 - k)%nat with (S (6 - S k)) by lia. cbn [replicate app]. split.
      * intros [[post ->]|(pre & post & ->)]; [by left; exists post|right].
        by exists (false :: pre), post.
      * intros [[post Hp]|(pre & post & Hp)]; [simplify_eq; by left; exists post|].
        destruct pre as [|x pre]; cbn in Hp; simplify_eq; [left|by right; exists pre, post].
        exists (replicate k false ++ post). rewrite (assoc_L (++)), <-replicate_add.
        replace (6 - S k + k)%nat with 5%nat by lia. done.
Qed.

Lemma budget_from_zero outcomes : budget 0 outcomes = None ↔ six_failures outcomes.
Proof.
  rewrite (budget_spec _ 0) by lia. split; [|by right].
  intros [[post Hp]|?]; [|done]. by exists [], post.
Qed.

(** ** The VM updater *)

(** A poll during which the VM actor answers, or does not, both requests. *)
Definition vm_reachable (poll : VmPoll) : bool := poll_heartbeat poll.
Definition vm_poll_uniform (poll : VmPoll) : Prop :=
  poll_told poll = true ∧ is_some (poll_info poll) = poll_heartbeat poll.

Lemma vm_updater_step_budget actor st poll :
  vm_fails st ≤ 5 → vm_poll_uniform poll →
  let fails := if vm_reachable poll then 0 else vm_fails st + 1 in
  match vm_updater_step actor st poll with
  | (Some st', msgs) => fails ≤ 5 ∧ vm_fails st' = fails ∧
      vm_initialized st' = (vm_initialized st || vm_reachable poll) ∧
      msgs = match poll_info poll with
             | Some data => if vm_initialized st then [] else [MsgVmUpdated actor data]
             | None => []
             end
  | (None, msgs) => 5 < fails ∧ msgs = [MsgVmUpdaterStopped actor]
  end.
Proof.
  intros Hf [Ht Hu]. unfold vm_updater_step, vm_updater_check, vm_reachable, u8_saturating_add.
  rewrite Ht, <-Hu. destruct (poll_info poll) as [data|], (vm_initialized st); cbn;
    try (split_and!; done || lia);
    replace (N.min 255 (vm_fails st + 1)) with (vm_fails st + 1) by lia;
    destruct (N.ltb_spec 5 (vm_fails st + 1)); cbn; split_and!; try done; lia.
Qed.

Lemma vm_updater_task_budget actor st polls :
  vm_fails st ≤ 5 → Forall vm_poll_uniform polls →
  vm_fails <$> (vm_updater_task actor st polls).1 = budget (vm_fails st) (vm_reachable <$> polls).
Proof.
  revert st. induction polls as [|poll polls IH]; intros st Hf Hall; [done|].
  apply Forall_cons in Hall as [Hp Hall]. cbn [vm_updater_task fmap list_fmap budget].
  pose proof (vm_updater_step_budget actor st poll Hf Hp) as Hstep.
  destruct (vm_updater_step actor st poll) as [[st'|] msgs].
  - destruct Hstep as (Hle & Hst & _).
    replace (5 <? _) with false by (symmetry; by apply N.ltb_ge).
    specialize (IH st'). rewrite Hst in IH. specialize (IH Hle Hall).
    destruct (vm_updater_task actor st' polls). done.
  - destruct Hstep as [Hlt _]. by replace (5 <? _) with true by (symmetry; by apply N.ltb_lt).
Qed.

Lemma vm_updater_task_stops actor st polls :
  vm_fails st ≤ 5 → Forall vm_poll_uniform polls →
  MsgVmUpdaterStopped actor ∈ (vm_updater_task actor st polls).2 ↔
  (vm_updater_task actor st polls).1 = None.
Proof.
  revert st. induction polls as [|poll polls IH]; intros st Hf Hall; [set_solver|].
  apply Forall_cons in Hall as [Hp Hall]. cbn [vm_updater_task].
  pose proof (vm_updater_step_budget actor st poll Hf Hp) as Hstep.
  destruct (vm_updater_step actor st poll) as [[st'|] msgs].
  - destruct Hstep as (Hle & Hst & _ & Hmsgs). rewrite <-Hst in Hle. specialize (IH st' Hle Hall).
    destruct (vm_updater_task actor st' polls) as [st2 msgs2]. cbn in *. rewrite elem_of_app, <-IH.
    destruct (poll_info poll), (vm_initialized st); set_solver.
  - destruct Hstep as [_ ->]. cbn. set_solver.
Qed.

(** The VM updater gives up exactly after six consecutive unanswered
    polls: over any sequence of polls it returns if and only if the sequence
    contains six unanswered ones in a row, and it asks the scheduler to clean
    up if and only if it returns. *)
Theorem vm_updater_six_failures actor polls :
  Forall vm_poll_uniform polls →
  let '(st, msgs) := vm_updater_task actor vm_updater_start polls in
  (st = None ↔ six_failures (vm_reachable <$> polls)) ∧
  (MsgVmUpdaterStopped actor ∈ msgs ↔ st = None).
Proof.
  intros Hall. pose proof (vm_updater_task_stops actor vm_updater_start polls ltac:(done) Hall) as Hs.
  pose proof (vm_updater_task_budget actor vm_updater_start polls ltac:(done) Hall) as Hb.
  destruct (vm_updater_task _ _ polls) as [st msgs]. split; [|done]. cbn in Hb.
  rewrite <-(fmap_None vm_fails), Hb. apply budget_from_zero.
Qed.

(** ** The agent updater *)

Definition agent_reachable (poll : AgentPoll) : bool :=
  is_some (poll_status poll {| since_revision := 0; initial := true |}).
Definition agent_poll_uniform (poll : AgentPoll) : Prop :=
  poll_agent_told poll = true ∧ ∀ request, is_some (poll_status poll request) = agent_reachable poll.

Lemma agent_updater_step_budget actor st poll :
  agent_fails st ≤ 5 → agent_poll_uniform poll →
  let fails := if agent_reachable poll then 0 else agent_fails st + 1 in
  match agent_updater_step actor st poll with
  | (Some st', msgs) => fails ≤ 5 ∧ agent_fails st' = fails ∧ MsgAgentUpdaterStopped actor ∉ msgs
  | (None, msgs) => 5 < fails ∧ msgs = [MsgAgentUpdaterStopped actor]
  end.
Proof.
  intros Hf [Ht Hu]. unfold agent_updater_step, agent_updater_check, u8_saturating_add.
  rewrite <-(Hu {| since_revision := updater_status_revision st; initial := updater_initial_status st |}).
  rewrite Ht. destruct (poll_status poll _); cbn; [split_and!; [done|done|set_solver]|].
  replace (N.min 255 (agent_fails st + 1)) with (agent_fails st + 1) by lia.
  destruct (N.ltb_spec 5 (agent_fails st + 1)); cbn; split_and!; try done; lia || set_solver.
Qed.

Lemma agent_updater_task_budget actor st polls :
  agent_fails st ≤ 5 → Forall agent_poll_uniform polls →
  agent_fails <$> (agent_updater_task actor st polls).1 =
  budget (agent_fails st) (agent_reachable <$> polls).
Proof.
  revert st. induction polls as [|poll polls IH]; intros st Hf Hall; [done|].
  apply Forall_cons in Hall as [Hp Hall]. cbn [agent_updater_task fmap list_fmap budget].
  pose proof (agent_updater_step_budget actor st poll Hf Hp) as Hstep.
  destruct (agent_updater_step actor st poll) as [[st'|] msgs].
  - destruct Hstep as (Hle & Hst & _).
    replace (5 <? _) with false by (symmetry; by apply N.ltb_ge).
    specialize (IH st'). rewrite Hst in IH. specialize (IH Hle Hall).
    destruct (agent_updater_task actor st' polls). done.
  - destruct Hstep as [Hlt _]. by replace (5 <? _) with true by (symmetry; by apply N.ltb_lt).
Qed.

Lemma agent_updater_task_stops actor st polls :
  agent_fails st ≤ 5 → Forall agent_poll_uniform polls →
  MsgAgentUpdaterStopped actor ∈ (agent_updater_task actor st polls).2 ↔
  (agent_updater_task actor st polls).1 = None.
Proof.
  revert st. induction polls as [|poll polls IH]; intros st Hf Hall; [set_solver|].
  apply Forall_cons in Hall as [Hp Hall]. cbn [agent_updater_task].
  pose proof (agent_updater_step_budget actor st poll Hf Hp) as Hstep.
  destruct (agent_updater_step actor st poll) as [[st'|] msgs].
  - destruct Hstep as (Hle & Hst & Hmsgs). rewrite <-Hst in Hle. specialize (IH st' Hle Hall).
    destruct (agent_updater_task actor st' polls) as [st2 msgs2]. cbn in *.
    rewrite elem_of_app, <-IH. tauto.
  - destruct Hstep as [_ ->]. cbn. set_solver.
Qed.

(** C39. The agent updater gives up exactly after six consecutive unanswered
    status requests, and it asks the scheduler to clean up if and only if it
    gives up. *)
Theorem agent_updater_six_failures actor polls :
  Forall agent_poll_uniform polls →
  let '(st, msgs) := agent_updater_task actor agent_updater_start polls in
  (st = None ↔ six_failures (agent_reachable <$> polls)) ∧
  (MsgAgentUpdaterStopped actor ∈ msgs ↔ st = None).
Proof.
  intros Hall. pose proof (agent_updater_task_stops actor agent_updater_start polls ltac:(done) Hall) as Hs.
  pose proof (agent_updater_task_budget actor agent_updater_start polls ltac:(done) Hall) as Hb.
  destruct (agent_updater_task _ _ polls) as [st msgs]. split; [|done]. cbn in Hb.
  rewrite <-(fmap_None agent_fails), Hb. apply budget_from_zero.
Qed.

(** ** Agent, updater and scheduler together *)

(** The scheduler's handling of an updater's message. *)
Definition deliver `{IterOrder} (now : Instant) (s : SchedulerActor) (msg : UpdaterMsg) : SchedulerActor :=
  match msg with
  | MsgVmUpdated actor data => vm_updated (λ _, now) actor data s
  | MsgVmUpdaterStopped actor => (vm_updater_stopped actor s).1
  | MsgAgentUpdated actor_id actor_ref update => agent_updated now actor_id actor_ref update s
  | MsgAgentUpdaterStopped actor => (agent_updater_stopped actor s).1
  end.

Section sync.
(** The hash-map orders of the agent and of the scheduler. *)
Context (oa os : IterOrder) (host_name : option rstring) (actor : ActorId).

Definition poll_agent (ag : AgentActor) : AgentPoll := {|
  poll_status := λ request, Some (@agent_get_status oa host_name ag request);
  poll_agent_told := true |}.

(** One poll of the agent, with the scheduler handling what it produces. *)
Definition poll_round (now : Instant) (ag : AgentActor) (s : SchedulerActor) (u : AgentUpdater) :
    SchedulerActor * AgentUpdater :=
  let '(next, msgs) := agent_updater_step actor u (poll_agent ag) in
  (foldl (@deliver os now) s msgs, default u next).

(** Batches of agent events, with a poll after each. *)
Fixpoint sync_run (now : Instant) (ag : AgentActor) (s : SchedulerActor) (u : AgentUpdater)
    (batches : list (list AgentEvent)) : AgentActor * SchedulerActor * AgentUpdater :=
  match batches with
  | [] => (ag, s, u)
  | es :: batches =>
      let ag := agent_run ag es in
      let '(s, u) := poll_round now ag s u in
      sync_run now ag s u batches
  end.

(** The scheduler's snapshot has the agent's revision and sorted VM list. *)
Record in_sync (ag : AgentActor) (s : SchedulerActor) (u : AgentUpdater) : Prop := {
  sync_initial : updater_initial_status u = false;
  sync_revision : updater_status_revision u = membership_revision ag;
  sync_cached : ∃ cached, agent_data_cache s !! actor = Some cached ∧
    agent_status_revision cached = membership_revision ag ∧
    status_vms (agent_data cached) = status_vms (@full_status oa host_name ag) }.

Lemma poll_round_unfold now ag s u :
  poll_round now ag s u =
  (let update := @agent_get_status oa host_name ag
     {| since_revision := updater_status_revision u; initial := updater_initial_status u |} in
   (@agent_updated os now actor actor update s,
    {| updater_status_revision := update_revision update;
       updater_initial_status := false; agent_fails := 0 |})).
Proof. done. Qed.

Lemma agent_get_status_revision ag request :
  update_revision (@agent_get_status oa host_name ag request) = membership_revision ag.
Proof. unfold agent_get_status. by destruct (_ || _). Qed.

(** The first poll establishes the snapshot. *)
Lemma first_round_syncs now ag s u :
  updater_initial_status u = true → agent_data_cache s !! actor = None →
  let '(s', u') := poll_round now ag s u in in_sync ag s' u'.
Proof.
  intros Hi Hn. rewrite poll_round_unfold. unfold agent_get_status. rewrite Hi. cbn.
  split; cbn; [done|done|]. unfold agent_updated. rewrite Hn. cbn. rewrite lookup_insert_eq.
  by eexists.
Qed.

(** Same revision, same VMs. *)
Lemma same_revision_same_vms ag es :
  history_wf ag → u64_ok (membership_revision ag) →
  membership_revision (agent_run ag es) < u64_max →
  membership_revision (agent_run ag es) = membership_revision ag →
  status_vms (@full_status oa host_name (agent_run ag es)) = status_vms (@full_status oa host_name ag).
Proof.
  intros Hwf Hok Hlt Heq. destruct (agent_run_logged ag es Hwf Hok Hlt) as [log Hlog].
  assert (log = []) as ->.
  { apply length_zero_iff_nil. pose proof (logged_revision _ _ _ Hlog). lia. }
  apply sorted_strict_ext; [apply full_status_vms_sorted..|]. intros x.
  rewrite !full_status_vms_elem_of, (logged_vms _ _ _ Hlog). done.
Qed.

(** Later polls keep it. *)
Lemma round_keeps_sync now ag s u es :
  history_wf ag → u64_ok (membership_revision ag) →
  membership_revision (agent_run ag es) < u64_max → in_sync ag s u →
  let '(s', u') := poll_round now (agent_run ag es) s u in in_sync (agent_run ag es) s' u'.
Proof.
  intros Hwf Hok Hlt [Hi Hr (cached & Hc & Hrev & Hvms)].
  rewrite poll_round_unfold. cbv zeta. rewrite Hi, Hr.
  pose proof (@status_delta_applies oa host_name ag es (agent_data cached) Hwf Hok Hlt Hvms) as Hd.
  cbv zeta in Hd. set (request := {| since_revision := _; initial := false |}) in *.
  pose proof (agent_get_status_revision (agent_run ag es) request) as Hur.
  set (update := @agent_get_status oa host_name (agent_run ag es) request) in *.
  split; [done|by cbn|]. unfold agent_updated. rewrite Hc, Hur.
  destruct (N.leb_spec (membership_revision (agent_run ag es)) (agent_status_revision cached)) as [Hle|Hgt].
  - exists cached. assert (membership_revision (agent_run ag es) = membership_revision ag) as Heq.
    { destruct (agent_run_tracks ag es Hok) as (_ & Hm & _). lia. }
    rewrite same_revision_same_vms by done. split_and!; [done|congruence|done].
  - destruct (apply_status_update (agent_data cached) update) as [data revision].
    destruct Hd as (Hv & _ & _ & Hrv).
    exists {| agent_ref := actor; agent_data := data; agent_status_revision := revision |}.
    split; [|done]. destruct update; cbn; by rewrite lookup_insert_eq.
Qed.

Lemma agent_run_wf ag es :
  history_wf ag → u64_ok (membership_revision ag) →
  membership_revision (agent_run ag es) < u64_max → history_wf (agent_run ag es).
Proof.
  intros Hwf Hok Hlt. destruct (agent_run_logged ag es Hwf Hok Hlt) as [log Hlog].
  by eapply logged_wf.
Qed.

Lemma sync_run_agent now ag s u batches :
  (sync_run now ag s u batches).1.1 = agent_run ag (concat batches).
Proof.
  revert ag s u. induction batches as [|es batches IH]; intros ag s u; [done|].
  cbn [sync_run]. destruct (poll_round _ _ _ _) as [s' u']. rewrite IH. cbn.
  unfold agent_run. by rewrite foldl_app.
Qed.

Lemma sync_run_keeps now ag s u batches :
  history_wf ag → u64_ok (membership_revision ag) → in_sync ag s u →
  membership_revision (agent_run ag (concat batches)) < u64_max →
  let '(ag', s', u') := sync_run now ag s u batches in in_sync ag' s' u'.
Proof.
  revert ag s u. induction batches as [|es batches IH]; intros ag s u Hwf Hok Hsync Hlt; [done|].
  cbn [sync_run concat] in *. unfold agent_run in Hlt at 1. rewrite foldl_app in Hlt.
  change (foldl agent_handle (foldl agent_handle ag es) (concat batches))
    with (agent_run (agent_run ag es) (concat batches)) in Hlt.
  destruct (agent_run_tracks ag es Hok) as (Hok' & _ & _).
  destruct (agent_run_tracks (agent_run ag es) (concat batches) Hok') as (_ & Hm & _).
  assert (membership_revision (agent_run ag es) < u64_max) as Hlt' by lia.
  pose proof (round_keeps_sync now ag s u es Hwf Hok Hlt' Hsync) as Hround.
  destruct (poll_round now (agent_run ag es) s u) as [s' u'].
  apply IH; [by apply agent_run_wf|done|done|done].
Qed.
End sync.

(** C11. End-to-end synchronisation. An agent starts, the scheduler discovers
    it and polls it after every batch of creates, migrations, deletes and
    deaths on the agent. After each poll, the scheduler's cached snapshot has
    the agent's current membership revision and exactly its sorted VM list, for
    any number of rounds and any batch sizes (also beyond the history limit),
    as long as the 64-bit revision has not run out. *)
Theorem scheduler_follows_agent (oa os : IterOrder) host_name actor now config cpus memory s
    first batches :
  agent_data_cache s !! actor = None →
  membership_revision (agent_run (agent_on_start config cpus memory) (first ++ concat batches)) < u64_max →
  let '(ag, s', u) := sync_run oa os host_name actor now (agent_on_start config cpus memory) s
                        agent_updater_start (first :: batches) in
  ag = agent_run (agent_on_start config cpus memory) (first ++ concat batches) ∧
  in_sync oa host_name actor ag s' u.
Proof.
  intros Hn Hlt. set (ag0 := agent_on_start config cpus memory) in *.
  pose proof (sync_run_agent oa os host_name actor now ag0 s agent_updater_start (first :: batches)) as Hag.
  cbn [sync_run concat] in *.
  pose proof (first_round_syncs oa os host_name actor now (agent_run ag0 first) s agent_updater_start
    eq_refl Hn) as Hfirst.
  destruct (poll_round _ _ _ _ _ _ _ _) as [s1 u1].
  assert (u64_ok (membership_revision ag0)) as Hok by done.
  unfold agent_run in Hlt at 1. rewrite foldl_app in Hlt.
  change (foldl agent_handle (foldl agent_handle ag0 first) (concat batches))
    with (agent_run (agent_run ag0 first) (concat batches)) in Hlt.
  destruct (agent_run_tracks ag0 first Hok) as (Hok' & _ & _).
  destruct (agent_run_tracks (agent_run ag0 first) (concat batches) Hok') as (_ & Hm & _).
  pose proof (sync_run_keeps oa os host_name actor now (agent_run ag0 first) s1 u1 batches) as Hkeep.
  destruct (sync_run _ _ _ _ _ _ _ _ _) as [[ag s'] u]. cbn [fst] in Hag. split; [done|].
  apply Hkeep; [|done|done|done]. apply agent_run_wf; [apply agent_on_start_wf|done|lia].
Qed.
