(* ===== verification/Witnesses.v ===== *)
(** * Concrete runs

    Small states of the scheduler, the agent and the updaters on which the
    hypotheses of the theorems hold: one agent with four vCPUs, one VM created
    on it, reports, deaths and reconciliation. *)

From S2P Require Import Prelude RustString RustFloat SortedVec Manifest Messages Config Agent.
From S2P Require Import Cache CacheFacts Scheduling SchedulingFacts SchedHandlers SchedInv.
From S2P Require Import Capacity SchedThms Updaters.
Open Scope N_scope.

#[local] Existing Instance canonical_order.

(** ** A scheduler with one agent and one VM *)

Definition ex_status (vms : list Ulid) : AgentStatus := {|
  status_hostname := lit "node"; status_vcpus := 4; status_ram := 8192;
  status_used_vcpus := 1; status_used_ram := 512; status_vms := vms;
  status_metadata := {| object_labels := ∅; object_annotations := ∅ |} |}.
Definition ex_request : CreateVM := {| create_vmid := 7; create_config := minimal_manifest 7 2 1024 |}.
Definition ex_reply : CreateVMReply := {| reply_config := None; reply_actor_id := Some [70] |}.
Definition ex_to_bytes (a : ActorId) : list N := [a].
Definition ex_from_bytes (bytes : list N) : option ActorId := head bytes.

Definition ex_report : SchedEvent := SeAgentUpdated 0 10 10 (Full 1 (ex_status [])).
Definition ex_create : SchedEvent := SeCreate 5 (λ _, Ok ex_reply) false ex_request.
Definition ex_vm_updated : SchedEvent :=
  SeVmUpdated (λ _, 6) 70 {| info_vmid := 7; info_config := Some (minimal_manifest 7 2 1024) |}.
Definition ex_delete : SchedEvent := SeDelete (Ok (Some 70)) (Ok ()) 7.
Definition ex_reconcile : SchedEvent := SeReconcile (from_secs 200) (λ _, from_secs 200) (λ _ _, true).

Definition ex_run (es : list SchedEvent) : SchedulerActor :=
  scheduler_run ex_to_bytes ex_from_bytes (scheduler_on_start 1) ((λ e, (canonical_order, e)) <$> es).
Definition ex_known : SchedulerActor := ex_run [ex_report].
Definition ex_created : SchedulerActor := ex_run [ex_report; ex_create].
Definition ex_discovered : SchedulerActor := ex_run [ex_report; ex_create; ex_vm_updated].

Lemma ex_run_inv es : sched_inv (ex_run es).
Proof. apply scheduler_run_inv, scheduler_on_start_inv. Qed.

Lemma ex_run_wf es : placements_all_wf (vm_placements (ex_run es)).
Proof. apply inv_placements, ex_run_inv. Qed.

Definition ex_cached : CachedAgentActor :=
  {| agent_ref := 10; agent_data := ex_status []; agent_status_revision := 1 |}.

Lemma ex_known_agents id agent :
  agent_data_cache ex_known !! id = Some agent → id = 10 ∧ agent = ex_cached.
Proof.
  change (agent_data_cache ex_known) with (<[10 := ex_cached]> (∅ : gmap N CachedAgentActor)).
  intros [[<- <-]|[_ Hid]]%lookup_insert_Some; [done|]. by rewrite lookup_empty in Hid.
Qed.

(** The VM is placed on the agent that was asked and nowhere else. *)
Example ex_created_placement :
  vm_placements ex_created !! 7 = Some [pending_placement 10 5].
Proof. vm_compute. reflexivity. Qed.

(** After 120 seconds the pending placement expires and the VM is dispatched again. *)
Example ex_reconciled :
  (reconcile_vm_placements (from_secs 200) (λ _, from_secs 200) (λ _ _, true) ex_created).2
  = [TellCreate 10 ex_request].
Proof. vm_compute. reflexivity. Qed.

(** ** Witnesses of the cache theorems *)

Lemma reconcile_agent_delta_spec_witness :
  placement_of (reconcile_agent_delta 9 10 [7] [] (vm_manifests ex_created) (vm_placements ex_created))
    7 10 = Some {| pl_agent_id := 10; pl_lifecycle := Running; pl_created_at := 5;
                   pl_last_confirmed_at := Some 9 |}.
Proof.
  rewrite (reconcile_agent_delta_spec 9 10 [7] [] (vm_manifests ex_created) (vm_placements ex_created)
    7 10 (ex_run_wf _)).
  vm_compute. reflexivity.
Defined.

Lemma reconcile_agent_placements_spec_witness :
  placement_of (reconcile_agent_placements (from_secs 200) 10 (ex_status [])
    (vm_manifests ex_created) (vm_placements ex_created)) 7 10 = None.
Proof.
  rewrite (reconcile_agent_placements_spec (from_secs 200) 10 (ex_status []) (vm_manifests ex_created)
    (vm_placements ex_created) 7 10 (ex_run_wf _)).
  vm_compute. reflexivity.
Defined.

Lemma reconcile_discovered_vm_spec_witness :
  placement_of (reconcile_discovered_vm (λ _, 8) 7 {[10 := {[7]}]}
    (vm_manifests ex_created) (vm_placements ex_created)) 7 10
  = Some {| pl_agent_id := 10; pl_lifecycle := Running; pl_created_at := 5;
            pl_last_confirmed_at := Some 8 |}.
Proof.
  assert (Hm : is_Some (vm_manifests ex_created !! 7)) by (vm_compute; by eexists).
  rewrite (reconcile_discovered_vm_spec (λ _, 8) 7 {[10 := {[7]}]} (vm_manifests ex_created)
    (vm_placements ex_created) 7 10 (ex_run_wf _) Hm).
  vm_compute. reflexivity.
Defined.

(** ** Witnesses of the scheduling theorems *)

Lemma schedule_agent_correct_witness :
  ∃ id agent, agent_data_cache ex_known !! id = Some agent ∧ agent_ref agent = 10.
Proof.
  assert (Hv : valid_request ex_request) by (by vm_compute).
  assert (Hr : map_Forall (λ _ agent, status_ram (agent_data agent) ≤ u64_max) (agent_data_cache ex_known))
    by (intros id agent [_ ->]%ex_known_agents; by vm_compute).
  pose proof (schedule_agent_correct ex_known ex_request Hv Hr) as H.
  assert (Hs : (schedule_agent ex_known ex_request).2 = Ok 10) by (vm_compute; reflexivity).
  destruct (pending_resources ex_known) as [s0 p]. destruct (schedule_agent ex_known ex_request) as [s1 r].
  cbn in Hs. subst r. destruct H as (id & agent & ? & ? & _). by exists id, agent.
Defined.

Lemma ex_known_capacity : capacity_inv ex_known.
Proof.
  split.
  - by intros id agent [-> ->]%ex_known_agents.
  - intros id agent [_ ->]%ex_known_agents _. split; vm_compute; discriminate.
Qed.

(** Two creates for two vCPUs each: the second is still within twice four. *)
Lemma scheduler_no_overcommit_witness :
  capacity_inv (scheduler_handle ex_to_bytes ex_from_bytes ex_known ex_create).
Proof.
  exact (scheduler_no_overcommit ex_to_bytes ex_from_bytes ex_known ex_create
           (ex_run_inv _) ex_known_capacity eq_refl).
Defined.

(** ** Witnesses of the handlers' theorems *)

Lemma ex_reachable : reachable ex_to_bytes ex_from_bytes 1 ex_created.
Proof. repeat apply (reachable_step _ _ _ canonical_order). apply reachable_start. Qed.

Lemma scheduler_invariant_witness : dom (vm_placements ex_created) ⊆ dom (vm_manifests ex_created).
Proof.
  exact (inv_intent _ (scheduler_invariant ex_to_bytes ex_from_bytes 1 ex_created ex_reachable)).
Defined.

Definition ex_create_with (asked : result SchedulerError CreateVMReply) (s : SchedulerActor) :=
  scheduler_create_vm ex_to_bytes ex_from_bytes 5 (λ _, asked) false ex_request s.

Lemma ex_create_ok :
  ex_create_with (Ok ex_reply) ex_known = (ex_created, Ok ex_reply, [AskCreate 10 ex_request]).
Proof. vm_compute. reflexivity. Qed.

Lemma create_idempotent_witness :
  ∃ id, scheduler_create_vm ex_to_bytes ex_from_bytes 9 (λ _, Err RemoteFailed) true
    {| create_vmid := 7; create_config := minimal_manifest 7 64 1 |} ex_created
  = (ex_created, if decide (minimal_manifest 7 2 1024 = minimal_manifest 7 64 1)
                 then Ok {| reply_config := Some (minimal_manifest 7 64 1); reply_actor_id := id |}
                 else Err ConflictingCreate, []).
Proof.
  exact (create_idempotent canonical_order canonical_order ex_to_bytes ex_from_bytes 5 (λ _, Ok ex_reply)
    false ex_request ex_known ex_created ex_reply [AskCreate 10 ex_request]
    9 (λ _, Err RemoteFailed) true (minimal_manifest 7 64 1) ex_create_ok).
Defined.

Lemma failed_create_rolls_back_witness :
  vm_manifests (ex_create_with (Err RemoteFailed) ex_known).1.1 = vm_manifests ex_known.
Proof.
  assert (Hc : ex_create_with (Err RemoteFailed) ex_known =
    ((ex_create_with (Err RemoteFailed) ex_known).1.1, Err RemoteFailed, [AskCreate 10 ex_request]))
    by (vm_compute; reflexivity).
  destruct (failed_create_rolls_back ex_to_bytes ex_from_bytes 5 (λ _, Err RemoteFailed) ex_request
    ex_known _ RemoteFailed [AskCreate 10 ex_request] (ex_run_inv _) eq_refl eq_refl Hc) as [-> _].
  reflexivity.
Defined.

Lemma create_reserves_witness :
  ∃ a, [AskCreate 10 ex_request] = [AskCreate a ex_request] ∧
    pending_requests (vm_manifests ex_created) (vm_placements ex_created) 10 ≡ₚ
      (if decide (a = 10) then [(2, 1024)] else []) ++ [].
Proof.
  destruct (create_reserves ex_to_bytes ex_from_bytes 5 (λ _, Ok ex_reply) false ex_request ex_known
    ex_created ex_reply [AskCreate 10 ex_request] 10 (ex_run_inv _) eq_refl ex_create_ok)
    as (a & He & _ & _ & _ & Hp).
  exists a. split; [exact He|exact Hp].
Defined.

Definition ex_order (es : list SchedEvent) : list (IterOrder * SchedEvent) :=
  (λ e, (canonical_order, e)) <$> es.

Lemma intent_retained_witness :
  is_Some (vm_manifests (scheduler_run ex_to_bytes ex_from_bytes ex_created
    (ex_order [SeLinkDied true 10; SeAgentUpdaterStopped 10; ex_reconcile])) !! 7).
Proof.
  apply (intent_retained ex_to_bytes ex_from_bytes ex_created
    (ex_order [SeLinkDied true 10; SeAgentUpdaterStopped 10; ex_reconcile]) 7 (ex_run_inv _)).
  - repeat constructor.
  - vm_compute. by eexists.
Defined.

Lemma removed_stays_removed_witness :
  vm_placements (scheduler_run ex_to_bytes ex_from_bytes (ex_run [ex_report; ex_create; ex_delete])
    (ex_order [SeAgentUpdated 9 10 10 (Delta 2 [7] [] 2 1024); ex_reconcile])) !! 7 = None.
Proof.
  apply (removed_stays_removed ex_to_bytes ex_from_bytes (ex_run [ex_report; ex_create; ex_delete])
    (ex_order [SeAgentUpdated 9 10 10 (Delta 2 [7] [] 2 1024); ex_reconcile]) 7 (ex_run_inv _)).
  - repeat constructor.
  - vm_compute. reflexivity.
Defined.

Lemma reconcile_dispatches_witness :
  vm_manifests (reconcile_vm_placements (from_secs 200) (λ _, from_secs 200) (λ _ _, true) ex_created).1
  = vm_manifests ex_created.
Proof.
  pose proof (reconcile_dispatches (from_secs 200) (λ _, from_secs 200) (λ _ _, true) ex_created 7
    (minimal_manifest 7 2 1024) (ex_run_inv _) eq_refl) as H. cbv zeta in H.
  destruct (reconcile_vm_placements _ _ _ _) as [s' sent]. by destruct H as [H _].
Defined.

Lemma vm_death_recoverable_witness :
  vm_manifests (cleanup_vm_actor 70 ex_discovered).1 = vm_manifests ex_discovered.
Proof.
  assert (Hmap : vm_actorid_ulid_map ex_discovered !! 70 = Some 7) by (vm_compute; reflexivity).
  by destruct (vm_death_recoverable 70 7 ex_discovered Hmap) as [-> _].
Defined.

Lemma agent_death_frees_placements_witness :
  placement_of (vm_placements (cleanup_agent_actor 10 ex_created).1) 7 10 = None.
Proof.
  destruct (agent_death_frees_placements 10 ex_created 7 10 (ex_run_wf _)) as (_ & _ & _ & ->).
  vm_compute. reflexivity.
Defined.

(** ** Witnesses of the updater theorems *)

Definition ex_info : GetVMInfoReply := {| info_vmid := 7; info_config := None |}.
Definition ex_vm_poll (ok : bool) : VmPoll :=
  {| poll_info := if ok then Some ex_info else None; poll_heartbeat := ok; poll_told := true |}.

Definition ex_outcomes : list bool :=
  [true; false; true; false; false; false; false; false; false; true].

Lemma vm_updater_six_failures_witness :
  let '(st, msgs) := vm_updater_task 70 vm_updater_start (ex_vm_poll <$> ex_outcomes) in
  st = None ∧ MsgVmUpdaterStopped 70 ∈ msgs.
Proof.
  assert (Hall : Forall vm_poll_uniform (ex_vm_poll <$> ex_outcomes)) by repeat constructor.
  pose proof (vm_updater_six_failures 70 _ Hall) as H.
  destruct (vm_updater_task 70 vm_updater_start (ex_vm_poll <$> ex_outcomes)) as [st msgs].
  destruct H as [Hst Hmsg]. assert (st = None) as ->.
  { apply Hst. exists [true; false; true], [true]. reflexivity. }
  split; [done|by apply Hmsg].
Defined.

Definition ex_agent_poll (ok : bool) : AgentPoll :=
  {| poll_status := λ _, if ok then Some (Full 1 (ex_status [])) else None; poll_agent_told := true |}.

Lemma agent_updater_six_failures_witness :
  let '(st, msgs) := agent_updater_task 10 agent_updater_start (ex_agent_poll <$> replicate 6 false) in
  st = None ∧ MsgAgentUpdaterStopped 10 ∈ msgs.
Proof.
  assert (Hall : Forall agent_poll_uniform (ex_agent_poll <$> replicate 6 false)) by repeat constructor.
  pose proof (agent_updater_six_failures 10 _ Hall) as H.
  destruct (agent_updater_task 10 agent_updater_start (ex_agent_poll <$> replicate 6 false)) as [st msgs].
  destruct H as [Hst Hmsg]. assert (st = None) as ->.
  { apply Hst. exists [], []. reflexivity. }
  split; [done|by apply Hmsg].
Defined.

Lemma scheduler_follows_agent_witness :
  status_vms <$> (agent_data <$>
    agent_data_cache (sync_run canonical_order canonical_order None 10 0 example_agent
      (scheduler_on_start 1) agent_updater_start [take 3 example_events; drop 3 example_events]).1.2 !! 10)
  = Some [9].
Proof.
  assert (Hlt : membership_revision (agent_run (agent_on_start example_config 8 1048576)
    (take 3 example_events ++ concat [drop 3 example_events])) < u64_max) by (by vm_compute).
  pose proof (scheduler_follows_agent canonical_order canonical_order None 10 0 example_config 8 1048576
    (scheduler_on_start 1) (take 3 example_events) [drop 3 example_events] eq_refl Hlt) as H.
  change (agent_on_start example_config 8 1048576) with example_agent in H.
  destruct (sync_run _ _ _ _ _ _ _ _ _) as [[ag s'] u]. cbn [fst snd].
  destruct H as [-> [_ _ (cached & -> & _ & Hv)]]. cbn. rewrite Hv. vm_compute. reflexivity.
Defined.
