(* ===== verification/Accounting.v ===== *)
(** * Reservations against the agents' registries

    The arithmetic that relates the scheduler's reservations (pending
    placements, [scheduler_actor/scheduling.rs]) to the usage counters of an
    agent ([agent_actor.rs]): sums over registries, the load a VM puts on an
    agent through its placement, and how that load moves when an agent reports. *)

From S2P Require Import Prelude RustString SortedVec Manifest Messages Config Agent Cache.
From S2P Require Import CacheFacts Scheduling SchedulingFacts SchedHandlers SchedInv.
Open Scope N_scope.

(** ** Sums over a registry *)

Lemma total_empty f : total f ∅ = 0.
Proof. unfold total. by rewrite map_to_list_empty. Qed.

Lemma total_union f m1 m2 : m1 ##ₘ m2 → total f (m1 ∪ m2) = total f m1 + total f m2.
Proof.
  intros Hd. induction m1 as [|k c m1 Hk IH] using map_ind.
  { by rewrite (left_id_L ∅ (∪)), total_empty. }
  apply map_disjoint_insert_l in Hd as [Hk2 Hd]. rewrite <-insert_union_l.
  rewrite !total_insert by (done || by apply lookup_union_None). rewrite IH by done. lia.
Qed.

Lemma total_subseteq f m1 m2 : m1 ⊆ m2 → total f m1 ≤ total f m2.
Proof.
  intros Hs. rewrite <-(map_difference_union m1 m2) by done.
  rewrite total_union by by apply map_disjoint_difference_r1. lia.
Qed.

(** A registry that agrees with an earlier one except on some VMs holds at most
    the earlier usage and the usage of those VMs. *)
Lemma total_changed f (P : N * VMCacheData → Prop) `{∀ x, Decision (P x)} m base :
  (∀ v c, m !! v = Some c → ¬ P (v, c) → base !! v = Some c) →
  total f m ≤ total f base + total f (filter P m).
Proof.
  intros Hb. rewrite <-(map_filter_union_complement P m) at 1.
  rewrite total_union by apply map_disjoint_filter_complement.
  rewrite N.add_comm. apply N.add_le_mono_r, total_subseteq.
  apply map_subseteq_spec. intros v c [? ?]%map_lookup_filter_Some. by apply Hb.
Qed.

(** ** The load of a VM on an agent *)

Section load.
(** The vCPUs or the memory of a request, and of a registered VM. *)
Context (f : N * N → N) (g : VMCacheData → N).

Definition vm_load (ms : Manifests) (p : Placements) (a : ActorId) (v : Ulid) : N :=
  sum_N (f <$> vm_requests ms a v (default [] (p !! v))).
Definition load (ms : Manifests) (p : Placements) (a : ActorId) : N :=
  sum_N (f <$> pending_requests ms p a).

Lemma load_split ms p a v : load ms p a = vm_load ms p a v + load ms (delete v p) a.
Proof. unfold load, vm_load. by rewrite (pending_requests_split ms p v), fmap_app, sum_N_app. Qed.

Lemma vm_load_delete ms p a v w :
  vm_load ms (delete v p) a w = if decide (w = v) then 0 else vm_load ms p a w.
Proof.
  unfold vm_load. destruct (decide (w = v)) as [->|Hne].
  - rewrite lookup_delete_eq. cbn. by rewrite vm_requests_nil.
  - by rewrite lookup_delete_ne.
Qed.

Lemma load_empty ms a : load ms ∅ a = 0.
Proof. unfold load, pending_requests. by rewrite map_to_list_empty. Qed.

(** VM by VM, a registry [W] of VMs moved out of the reservations. *)
Lemma load_moves ms ms' p p' a (W : gmap Ulid VMCacheData) :
  (∀ v, vm_load ms' p' a v + from_option g 0 (W !! v) ≤ vm_load ms p a v) →
  load ms' p' a + total g W ≤ load ms p a.
Proof.
  revert p W. induction p' as [|v l p' Hv IH] using map_ind; intros p W Hle.
  - rewrite load_empty. revert p Hle.
    induction W as [|v c W Hv IH] using map_ind; intros p Hle; [rewrite total_empty; lia|].
    rewrite total_insert, (load_split ms p a v) by done.
    pose proof (Hle v) as Hv'. rewrite lookup_insert_eq in Hv'. cbn in Hv'.
    enough (0 + total g W ≤ load ms (delete v p) a) by lia. apply IH. intros w.
    rewrite vm_load_delete. destruct (decide (w = v)) as [->|Hne].
    + rewrite Hv. unfold vm_load. cbn. by rewrite vm_requests_nil.
    + specialize (Hle w). by rewrite lookup_insert_ne in Hle by done.
  - rewrite (load_split ms' _ a v), (load_split ms p a v), delete_insert_id by done.
    assert (total g W = from_option g 0 (W !! v) + total g (delete v W)) as ->.
    { destruct (W !! v) as [c|] eqn:Hw; cbn; [by apply total_delete|by rewrite delete_id]. }
    pose proof (Hle v) as Hlev.
    enough (load ms' p' a + total g (delete v W) ≤ load ms (delete v p) a) by lia.
    apply IH. intros w. rewrite vm_load_delete. specialize (Hle w). unfold vm_load in Hle |- *.
    destruct (decide (w = v)) as [->|Hne].
    + rewrite Hv, lookup_delete_eq. cbn. by rewrite vm_requests_nil.
    + rewrite lookup_insert_ne in Hle by done. by rewrite lookup_delete_ne.
Qed.

(** The load is decided by the placement of the VM on the agent. *)
Definition placement_load (m : option VmManifest) (e : option VmPlacement) : N :=
  match m, e with
  | Some m, Some e => if decide (is_pending e) then f (request_vcpus m, request_memory m) else 0
  | _, _ => 0
  end.

Lemma filter_pending_on l a :
  NoDup (pl_agent_id <$> l) →
  filter (λ e, is_pending e ∧ pl_agent_id e = a) l =
  match find_placement a l with
  | Some e => if decide (is_pending e) then [e] else []
  | None => []
  end.
Proof.
  induction l as [|e l IH]; [done|]. rewrite fmap_cons, NoDup_cons. intros [He Hn].
  rewrite filter_cons, find_placement_cons, IH by done.
  destruct (decide (pl_agent_id e = a)) as [<-|Hne].
  - rewrite (proj2 (find_placement_None _ l)).
    2: { apply Forall_forall. intros x Hx Ha. apply He. rewrite <-Ha. by apply list_elem_of_fmap_2. }
    destruct (decide (is_pending e)); [by rewrite decide_True|by rewrite decide_False by tauto].
  - by rewrite decide_False by tauto.
Qed.

Lemma vm_load_placement ms p a v :
  placements_all_wf p → vm_load ms p a v = placement_load (ms !! v) (placement_of p v a).
Proof.
  intros Hwf. unfold vm_load, vm_requests, placement_load, placement_of.
  destruct (ms !! v) as [m|]; [|done].
  destruct (p !! v) as [l|] eqn:Hl; [|done]. cbn.
  rewrite filter_pending_on by by eapply pw_agents, Hwf.
  destruct (find_placement a l) as [e|]; [|done]. destruct (decide (is_pending e)); [|done].
  unfold sum_N. cbn. lia.
Qed.

End load.

(** VM by VM comparison of two states. *)
Lemma load_le f ms ms' p p' a :
  (∀ v, vm_load f ms' p' a v ≤ vm_load f ms p a v) → load f ms' p' a ≤ load f ms p a.
Proof.
  intros Hle. pose proof (load_moves f (λ _, 0) ms ms' p p' a ∅) as Hm.
  rewrite total_empty, N.add_0_r in Hm. apply Hm. intros v. rewrite lookup_empty. cbn.
  specialize (Hle v). lia.
Qed.

(** Agents whose placements did not change keep their load. *)
Lemma load_same f ms p p' a :
  placements_all_wf p → placements_all_wf p' →
  (∀ v, placement_of p' v a = placement_of p v a) → load f ms p' a ≤ load f ms p a.
Proof. intros Hwf Hwf' He. apply load_le. intros v. rewrite !vm_load_placement, He by done. lia. Qed.

(** ** A snapshot covers a registry

    [base] is the agent when the scheduler last took its status, [log] what
    happened to its registry since. *)

(** The VMs of the registry that changed since the snapshot. *)
Definition changed (log : list MembershipChange) (ag : AgentActor) : gmap Ulid VMCacheData :=
  filter (λ p : N * VMCacheData, is_Some (latest_changes log !! p.1)) (vms ag).

(** A VM of the registry whose reservation is pending on the agent. *)
Definition reserved_on (ms : Manifests) (p : Placements) (a : ActorId) (v : Ulid)
    (c : VMCacheData) : Prop :=
  ∃ actor m e, c = cache_entry actor m ∧ ms !! v = Some m ∧
    placement_of p v a = Some e ∧ is_pending e.

Record covers (ms : Manifests) (p : Placements) (a : ActorId) (ag : AgentActor)
    (cached : CachedAgentActor) (base : AgentActor) (log : list MembershipChange) : Prop := {
  cov_logged : logged base ag log;
  cov_history : history_wf base;
  cov_base : usage_exact base;
  cov_config : agent_config base = agent_config ag;
  cov_revision : agent_status_revision cached = membership_revision base;
  cov_vcpus : status_used_vcpus (agent_data cached) = reported_vcpus base;
  cov_ram : status_used_ram (agent_data cached) = used_memory_bytes base;
  cov_max_vcpus : status_vcpus (agent_data cached) = agent_vcpus ag;
  cov_max_ram : status_ram (agent_data cached) = agent_memory ag;
  cov_representable : representable cached;
  cov_unchanged : ∀ v, latest_changes log !! v = None → vms ag !! v = vms base !! v;
  cov_changed : map_Forall (reserved_on ms p a) (changed log ag) }.

Definition covered (ms : Manifests) (p : Placements) (a : ActorId) (ag : AgentActor)
    (cached : CachedAgentActor) : Prop := ∃ base log, covers ms p a ag cached base log.

(** The pending reservations on [a] of the VMs that [ag] holds survive a step. *)
Definition keeps_pending (ag : AgentActor) (ms ms' : Manifests) (p p' : Placements)
    (a : ActorId) : Prop :=
  ∀ v m e, is_Some (vms ag !! v) → ms !! v = Some m → placement_of p v a = Some e → is_pending e →
    ms' !! v = Some m ∧ ∃ e', placement_of p' v a = Some e' ∧ is_pending e'.

Lemma keeps_pending_refl ag ms p a : keeps_pending ag ms ms p p a.
Proof. intros v m e ????. eauto. Qed.

Lemma covers_keep ms ms' p p' a ag cached base log :
  keeps_pending ag ms ms' p p' a → covers ms p a ag cached base log →
  covers ms' p' a ag cached base log.
Proof.
  intros Hk []. split; try done.
  intros v c Hv. destruct (cov_changed0 v c Hv) as (actor & m & e & -> & Hm & He & Hp).
  assert (is_Some (vms ag !! v)) as Hh by (apply map_lookup_filter_Some in Hv as [? _]; eauto).
  destruct (Hk v m e Hh Hm He Hp) as [? (e' & ? & ?)]. by exists actor, m, e'.
Qed.

Lemma covered_keep ms ms' p p' a ag cached :
  keeps_pending ag ms ms' p p' a → covered ms p a ag cached → covered ms' p' a ag cached.
Proof. intros Hk (base & log & Hc). exists base, log. by eapply covers_keep. Qed.

(** A status just taken covers the registry it was taken from. *)
Lemma covered_fresh ms p a ag cached :
  history_wf ag → usage_exact ag →
  agent_status_revision cached = membership_revision ag →
  status_used_vcpus (agent_data cached) = reported_vcpus ag →
  status_used_ram (agent_data cached) = used_memory_bytes ag →
  status_vcpus (agent_data cached) = agent_vcpus ag →
  status_ram (agent_data cached) = agent_memory ag → representable cached →
  covered ms p a ag cached.
Proof.
  intros. exists ag, []. split; try done; [by apply logged_refl|].
  intros v c [_ Hl]%map_lookup_filter_Some. by destruct Hl.
Qed.

Lemma latest_changes_snoc log c :
  latest_changes (log ++ [c]) = <[change_vmid c := change_added c]> (latest_changes log).
Proof. unfold latest_changes. by rewrite foldl_app. Qed.

(** One more membership change of the registry. *)
Lemma covers_record ms p a ag ag' cached base log change :
  covers ms p a ag cached base log → logged ag ag' [change] →
  agent_config ag' = agent_config ag → agent_vcpus ag' = agent_vcpus ag →
  agent_memory ag' = agent_memory ag →
  (∀ w, w ≠ change_vmid change → vms ag' !! w = vms ag !! w) →
  (∀ c, vms ag' !! change_vmid change = Some c → reserved_on ms p a (change_vmid change) c) →
  covers ms p a ag' cached base (log ++ [change]).
Proof.
  intros [] Hl Hc Hv Hm Hother Hnew. split; try congruence.
  - by eapply logged_trans.
  - intros w. rewrite latest_changes_snoc, lookup_insert_None. intros [Hw ?].
    rewrite Hother by done. by apply cov_unchanged0.
  - intros w c [Hw Hch]%map_lookup_filter_Some. cbn in Hch.
    destruct (decide (w = change_vmid change)) as [->|Hne]; [by apply Hnew|].
    rewrite latest_changes_snoc, lookup_insert_ne in Hch by done.
    apply cov_changed0. apply map_lookup_filter_Some. by rewrite <-Hother.
Qed.

(** The record of one change, when the revision is not exhausted. *)
Lemma logged_one ag ag' v added :
  history_wf ag → membership_revision ag < u64_max →
  membership_revision ag' = membership_revision (record_membership_change ag v added) →
  status_history ag' = status_history (record_membership_change ag v added) →
  dom (vms ag') = (if added then {[v]} ∪ dom (vms ag) else dom (vms ag) ∖ {[v]}) →
  logged ag ag' [{| change_revision := membership_revision ag + 1;
                    change_vmid := v; change_added := added |}].
Proof.
  intros Hwf Hlt Hr Hh Hd. cbn in Hr, Hh. unfold u64_saturating_add in *.
  replace (N.min u64_max (membership_revision ag + 1)) with (membership_revision ag + 1) in * by lia.
  rewrite pop_excess_lastn in Hh. split; [cbn; lia|exact Hh| |].
  - intros [|i] c Hi; [|done]. cbn in Hi. simplify_eq/=. lia.
  - rewrite Hd. cbn. unfold replay_change. cbn. by destruct added.
Qed.

Lemma covers_create to_bytes ms p a ag cached base log msg actor :
  covers ms p a ag cached base log → history_wf ag → membership_revision ag < u64_max →
  vms ag !! create_vmid msg = None →
  reserved_on ms p a (create_vmid msg) (cache_entry actor (create_config msg)) →
  covers ms p a (agent_create_vm to_bytes ag msg actor).1.1 cached base
    (log ++ [{| change_revision := membership_revision ag + 1;
                change_vmid := create_vmid msg; change_added := true |}]).
Proof.
  intros Hc Hwf Hlt Hv Hr. unfold agent_create_vm. rewrite Hv. cbn [fst].
  unfold insert_vm. rewrite Hv. eapply covers_record; [exact Hc| |done..| |]; cbn.
  - apply (logged_one _ _ _ true); [done|done|done|done|]. cbn. by rewrite dom_insert_L.
  - intros w Hw. by rewrite lookup_insert_ne.
  - intros c. rewrite lookup_insert_eq. by intros [= <-].
Qed.

Lemma covered_create to_bytes ms p a ag cached msg actor :
  covered ms p a ag cached → history_wf ag → membership_revision ag < u64_max →
  reserved_on ms p a (create_vmid msg) (cache_entry actor (create_config msg)) →
  covered ms p a (agent_create_vm to_bytes ag msg actor).1.1 cached.
Proof.
  intros (base & log & Hc) Hwf Hlt Hr. destruct (vms ag !! create_vmid msg) as [c|] eqn:Hv.
  - unfold agent_create_vm. rewrite Hv. by exists base, log.
  - eexists base, _. by apply covers_create.
Qed.

Lemma covered_remove_vm ms p a ag cached v :
  covered ms p a ag cached → history_wf ag → membership_revision ag < u64_max →
  covered ms p a (remove_vm ag v).1 cached.
Proof.
  intros (base & log & Hc) Hwf Hlt. unfold remove_vm.
  destruct (vms ag !! v) as [c|] eqn:Hv; cbn [fst]; [|by exists base, log].
  exists base, (log ++ [{| change_revision := membership_revision ag + 1;
                           change_vmid := v; change_added := false |}]).
  eapply covers_record; [exact Hc| |done..| |]; cbn.
  - apply logged_one; [done|done|done|done|]. cbn. by rewrite dom_delete_L.
  - intros w Hw. by rewrite lookup_delete_ne.
  - intros c'. by rewrite lookup_delete_eq.
Qed.

(** ** What a covered registry can hold *)

Section settle.
Context (ms : Manifests) (p p' : Placements) (a : ActorId) (ag : AgentActor)
  (cached : CachedAgentActor) (base : AgentActor) (log : list MembershipChange).
Hypothesis Hcov : covers ms p a ag cached base log.
Hypothesis Hwf : placements_all_wf p.
(** In [p'] the changed VMs are no longer pending, and no load is added. *)
Hypothesis Hsettled : ∀ f v,
  vm_load f ms p' a v ≤ if decide (is_Some (changed log ag !! v)) then 0 else vm_load f ms p a v.

Lemma settle_moves f g :
  (∀ actor m, g (cache_entry actor m) = f (request_vcpus m, request_memory m)) →
  total g (vms ag) + load f ms p' a ≤ total g (vms base) + load f ms p a.
Proof.
  intros Hfg.
  assert (total g (vms ag) ≤ total g (vms base) + total g (changed log ag)) as Ht.
  { apply total_changed. intros v c Hv Hn. cbn in Hn. rewrite <-eq_None_not_Some in Hn.
    by rewrite <-(cov_unchanged _ _ _ _ _ _ _ Hcov). }
  pose proof (load_moves f g ms ms p p' a (changed log ag)) as Hm.
  enough (load f ms p' a + total g (changed log ag) ≤ load f ms p a) by lia. apply Hm.
  intros v. specialize (Hsettled f v). destruct (changed log ag !! v) as [c|] eqn:Hv.
  - rewrite decide_True in Hsettled by done. cbn.
    destruct (cov_changed _ _ _ _ _ _ _ Hcov v c Hv) as (actor & m & e & -> & Hms & He & Hp).
    rewrite Hfg, (vm_load_placement f ms p) by done. unfold placement_load.
    rewrite Hms, He, decide_True by done. lia.
  - rewrite decide_False in Hsettled by by intros []. cbn. lia.
Qed.

Lemma settle_capacity :
  agent_ref cached = a → within_capacity ms p cached →
  total cache_vcpus (vms ag) + get_reserved_vcpus (agent_config ag) + load fst ms p' a
    ≤ 2 * agent_vcpus ag ∧
  total cache_memory_bytes (vms ag) + load snd ms p' a ≤ agent_memory ag.
Proof.
  intros Ha [Hv Hr]. rewrite Ha in *. fold (load fst ms p a) (load snd ms p a) in Hv, Hr.
  pose proof (settle_moves fst cache_vcpus ltac:(done)) as Hmv.
  pose proof (settle_moves snd cache_memory_bytes ltac:(done)) as Hmr.
  destruct Hcov as [_ _ [Huv Hum] Hcfg _ Hcv Hcr Hmaxv Hmaxr [Hrep _] _ _].
  rewrite Hmaxv, Hcv in Hv. rewrite Hmaxr, Hcr in Hr. rewrite Hmaxv in Hrep.
  unfold reported_vcpus, u32_saturating_add in Hv. rewrite <-Hcfg, <-Huv, <-Hum in *. lia.
Qed.
End settle.

(** The VMs an agent really holds fit its node. *)
Lemma covered_fits ms p a ag cached :
  covered ms p a ag cached → placements_all_wf p → agent_ref cached = a →
  within_capacity ms p cached →
  total cache_vcpus (vms ag) + get_reserved_vcpus (agent_config ag) ≤ 2 * agent_vcpus ag ∧
  total cache_memory_bytes (vms ag) ≤ agent_memory ag ∧
  2 * agent_vcpus ag < u32_max ∧ agent_memory ag < u64_max.
Proof.
  intros (base & log & Hcov) Hwf Ha Hcap.
  pose proof (settle_capacity ms p ∅ a ag cached base log Hcov Hwf) as Hs.
  destruct Hs as [Hv Hr]; [|done|done|].
  { intros f v. assert (vm_load f ms ∅ a v = 0) as ->; [|lia].
    unfold vm_load. by rewrite lookup_empty, vm_requests_nil. }
  destruct (cov_representable _ _ _ _ _ _ _ Hcov) as [Hrv Hrr].
  rewrite (cov_max_vcpus _ _ _ _ _ _ _ Hcov) in Hrv.
  rewrite (cov_max_ram _ _ _ _ _ _ _ Hcov) in Hrr. lia.
Qed.

(** ** Taking a new status *)

(** Placements after a report of [a]: those of other agents are untouched, the
    report creates no pending placement, and the VMs of [X] are confirmed. *)
Record reported_by (now : Instant) (a : ActorId) (X : gmap Ulid VMCacheData)
    (p p' : Placements) : Prop := {
  rep_others : ∀ v b, b ≠ a → placement_of p' v b = placement_of p v b;
  rep_pending : ∀ v e, placement_of p' v a = Some e → is_pending e → placement_of p v a = Some e;
  rep_settled : ∀ v e, is_Some (X !! v) → placement_of p' v a = Some e → ¬ is_pending e;
  rep_confirmed : ∀ v e, is_Some (X !! v) → placement_of p v a = Some e →
    placement_of p' v a = Some (confirmed now a (Some e)) }.

Lemma reported_by_settles now a X p p' ms f v :
  reported_by now a X p p' → placements_all_wf p → placements_all_wf p' →
  vm_load f ms p' a v ≤ if decide (is_Some (X !! v)) then 0 else vm_load f ms p a v.
Proof.
  intros [_ Hp Hs _] Hwf Hwf'. rewrite !vm_load_placement by done. unfold placement_load.
  destruct (ms !! v) as [m|]; [|destruct (decide _); lia].
  destruct (placement_of p' v a) as [e|] eqn:He; [|lia].
  destruct (decide (is_pending e)) as [Hpe|]; [|lia].
  destruct (decide (is_Some (X !! v))) as [HX|]; [by destruct (Hs v e HX He)|].
  by rewrite (Hp v e He Hpe), decide_True.
Qed.

Lemma reported_by_keeps now a X p p' ms ag b :
  reported_by now a X p p' → b ≠ a → keeps_pending ag ms ms p p' b.
Proof. intros [Ho _ _ _] Hb v m e _ Hm He Hp. split; [done|]. exists e. by rewrite Ho. Qed.

Lemma confirmed_running now a old : ¬ is_pending (confirmed now a old).
Proof. done. Qed.
#[export] Hint Resolve confirmed_running : odorobo.

Lemma changed_latest base ag log v :
  logged base ag log → is_Some (changed log ag !! v) → latest_changes log !! v = Some true.
Proof.
  intros Hl [c [Hv [b Hb]]%map_lookup_filter_Some]. cbn in Hb. rewrite Hb. f_equal.
  assert (v ∈ replay log (dom (vms base))) as Hin.
  { rewrite <-(logged_vms _ _ _ Hl). by apply elem_of_dom_2 in Hv. }
  apply replay_latest in Hin. by rewrite Hb in Hin.
Qed.

Lemma reported_by_delta now a ms p X added removed :
  placements_all_wf p →
  (∀ v, is_Some (X !! v) → v ∈ added ∧ v ∉ removed ∧ is_Some (ms !! v)) →
  reported_by now a X p (reconcile_agent_delta now a added removed ms p).
Proof.
  intros Hwf HX. split; intros v.
  - intros b Hb. by rewrite placement_of_reconcile_agent_delta, decide_False by done.
  - intros e. rewrite placement_of_reconcile_agent_delta, decide_True by done.
    unfold delta_placement. destruct (bool_decide (v ∈ added ∧ _)), (bool_decide (v ∈ removed));
      cbn; intros He Hp; simplify_eq; try by destruct (confirmed_running _ _ _ Hp).
    + by destruct (placement_of p v a) as [e'|]; [cbn in He; case_decide; simplify_eq|].
    + done.
  - intros e Hv. destruct (HX v Hv) as (? & ? & ?).
    rewrite placement_of_reconcile_agent_delta, decide_True by done. unfold delta_placement.
    rewrite (bool_decide_eq_true_2 (v ∈ added ∧ _)), (bool_decide_eq_false_2 (v ∈ removed)) by done.
    intros [= <-]. auto with odorobo.
  - intros e Hv He. destruct (HX v Hv) as (? & ? & ?).
    rewrite placement_of_reconcile_agent_delta, decide_True by done. unfold delta_placement.
    rewrite (bool_decide_eq_true_2 (v ∈ added ∧ _)), (bool_decide_eq_false_2 (v ∈ removed)) by done.
    by rewrite He.
Qed.

Lemma reported_by_snapshot `{IterOrder} now a ms p X status :
  placements_all_wf p → (∀ v, is_Some (X !! v) → v ∈ status_vms status) →
  reported_by now a X p (reconcile_agent_placements now a status ms p).
Proof.
  intros Hwf HX. split; intros v.
  - intros b Hb. by rewrite placement_of_reconcile_agent_placements, decide_False by done.
  - intros e. rewrite placement_of_reconcile_agent_placements, decide_True by done.
    unfold snapshot_placement. destruct (bool_decide (v ∈ _)).
    + destruct (placement_of p v a); [|case_match]; intros [= <-] Hp;
        by destruct (confirmed_running _ _ _ Hp).
    + destruct (placement_of p v a) as [e'|]; [cbn|done]. intros He _. by repeat case_match; simplify_eq.
  - intros e Hv. rewrite placement_of_reconcile_agent_placements, decide_True by done.
    unfold snapshot_placement. rewrite bool_decide_eq_true_2 by by apply HX.
    destruct (placement_of p v a); [|case_match]; intros [= <-]; auto with odorobo.
  - intros e Hv He. rewrite placement_of_reconcile_agent_placements, decide_True by done.
    unfold snapshot_placement. by rewrite bool_decide_eq_true_2, He by by apply HX.
Qed.
