(* ===== verification/Cluster.v ===== *)
(** * The cluster: one scheduler and its agents

    The actors composed. The requests the scheduler sends ([handlers.rs] asks
    an agent to create a VM, [discovery.rs] tells it to) are handled by the
    agents' [CreateVM] handler ([agent_actor.rs]), the agents' answers to
    [GetAgentStatus] come back as [AgentUpdated] messages. The scheduler never
    reads an agent's registry: it relies on the last status and on its own
    reservations. The theorem says when this is enough: events come in any order
    and requests meet any fate, and under the conditions of [careful] what the
    agents really hold stays within what their nodes can carry. *)

From S2P Require Import Prelude RustString SortedVec Manifest Messages Config Agent Cache.
From S2P Require Import CacheFacts Scheduling SchedulingFacts SchedHandlers SchedInv Capacity.
From S2P Require Import SchedThms Accounting.
Open Scope N_scope.

Record Cluster := { sched : SchedulerActor; nodes : gmap ActorId AgentActor }.

Section cluster.
Context (to_bytes : ActorId → list N) (from_bytes : list N → option ActorId)
  (host_name : option rstring).

(** ** Composition *)

(** What becomes of a request: whether the agent executes it, and whether its
    acknowledgement reaches the scheduler. A request may be lost, or executed
    although its sender only sees an error. *)
Record Fate := { executed : bool; acknowledged : bool }.

Section network.
(** The fate of a request to an agent, and the identity of the VM actor an
    agent spawns for a VM. *)
Context (fate : ActorId → Fate) (fresh : Ulid → ActorId).

Definition node_create (ag : AgentActor) (msg : CreateVM) : AgentActor :=
  (agent_create_vm to_bytes ag msg (fresh (create_vmid msg))).1.1.

Definition deliver_create (ns : gmap ActorId AgentActor) (a : ActorId) (msg : CreateVM) :
    gmap ActorId AgentActor :=
  match ns !! a with
  | Some ag => if executed (fate a) then <[a := node_create ag msg]> ns else ns
  | None => ns
  end.

Definition deliver_request (ns : gmap ActorId AgentActor) (e : SchedEffect) : gmap ActorId AgentActor :=
  match e with
  | AskCreate a msg | TellCreate a msg => deliver_create ns a msg
  | _ => ns
  end.

(** What the scheduler is answered, and whether a message counts as sent. *)
Definition ask_agent (ns : gmap ActorId AgentActor) (msg : CreateVM) (a : ActorId) :
    result SchedulerError CreateVMReply :=
  match ns !! a with
  | Some ag => if executed (fate a) && acknowledged (fate a)
               then Ok (agent_create_vm to_bytes ag msg (fresh (create_vmid msg))).1.2
               else Err RemoteFailed
  | None => Err RemoteFailed
  end.
Definition tell_agent (a : ActorId) (_ : CreateVM) : bool := acknowledged (fate a).

Definition cluster_create `{IterOrder} (now : Instant) (actor_exists : bool) (msg : CreateVM)
    (c : Cluster) : Cluster * result SchedulerError CreateVMReply :=
  let '(s, reply, effects) := scheduler_create_vm to_bytes from_bytes now
    (ask_agent (nodes c) msg) actor_exists msg (sched c) in
  ({| sched := s; nodes := foldl deliver_request (nodes c) effects |}, reply).

Definition cluster_reconcile `{IterOrder} (cleanup_now : Instant) (now : Ulid → Instant)
    (c : Cluster) : Cluster :=
  let '(s, effects) := reconcile_vm_placements cleanup_now now tell_agent (sched c) in
  {| sched := s; nodes := foldl deliver_request (nodes c) effects |}.
End network.

(** A status request of the agent's updater, answered and handled. *)
Definition cluster_poll (oa os : IterOrder) (now : Instant) (a : ActorId) (ag : AgentActor)
    (request : GetAgentStatus) (c : Cluster) : Cluster :=
  {| sched := @agent_updated os now a a (@agent_get_status oa host_name ag request) (sched c);
     nodes := nodes c |}.

(** ** Events *)

(** Everything that happens in a cluster, in any order: agents start and crash,
    the scheduler handles a create or a reconciliation pass (the requests it
    sends meet their fate), polls an agent, or handles any other message; an
    agent handles any other message, for instance a create that was delayed. *)
Inductive ClusterEvent :=
| CeStart (a : ActorId) (config : Config) (cpus memory : N)
| CeCrash (a : ActorId)
| CeCreate (o : IterOrder) (fate : ActorId → Fate) (fresh : Ulid → ActorId) (now : Instant)
    (actor_exists : bool) (msg : CreateVM)
| CeReconcile (o : IterOrder) (fate : ActorId → Fate) (fresh : Ulid → ActorId)
    (cleanup_now : Instant) (now : Ulid → Instant)
| CePoll (oa os : IterOrder) (now : Instant) (a : ActorId) (request : GetAgentStatus)
| CeAgent (a : ActorId) (e : AgentEvent)
| CeSched (o : IterOrder) (e : SchedEvent).

Definition cluster_handle (c : Cluster) (e : ClusterEvent) : Cluster :=
  match e with
  | CeStart a config cpus memory =>
      {| sched := sched c; nodes := <[a := agent_on_start config cpus memory]> (nodes c) |}
  | CeCrash a => {| sched := sched c; nodes := delete a (nodes c) |}
  | CeCreate o fate fresh now actor_exists msg =>
      (cluster_create fate fresh now actor_exists msg c).1
  | CeReconcile o fate fresh cleanup_now now => cluster_reconcile fate fresh cleanup_now now c
  | CePoll oa os now a request =>
      match nodes c !! a with
      | Some ag => cluster_poll oa os now a ag request c
      | None => c
      end
  | CeAgent a e => {| sched := sched c; nodes := alter (λ ag, agent_handle ag e) a (nodes c) |}
  | CeSched o e =>
      {| sched := scheduler_handle to_bytes from_bytes (sched c) e; nodes := nodes c |}
  end.

Definition cluster_start (finder : JoinHandle) : Cluster :=
  {| sched := scheduler_on_start finder; nodes := ∅ |}.

(** ** The conditions of the capacity bound *)

(** The scheduler holds a pending reservation for a VM the agent already has. *)
Definition unreported (c : Cluster) (v : Ulid) (a : ActorId) (e : VmPlacement) : Prop :=
  (∃ ag, nodes c !! a = Some ag ∧ is_Some (vms ag !! v)) ∧
  placement_of (vm_placements (sched c)) v a = Some e ∧ is_pending e.

(** Messages the scheduler handles without asking an agent. A delete or a
    shutdown concerns a VM that is held nowhere without having been reported; a
    VM actor reports the retained configuration, and does so before its agent
    only if the reservation there does not back a VM. *)
Definition local_event (c : Cluster) (e : SchedEvent) : Prop :=
  match e with
  | SeCreate _ _ _ _ | SeReconcile _ _ _ | SeAgentUpdated _ _ _ _ => False
  | SeDelete _ _ v | SeShutdown _ _ v => ∀ a e, ¬ unreported c v a e
  | SeVmUpdated _ _ data => ∀ m, info_config data = Some m →
      (vm_manifests (sched c) !! info_vmid data = None ∨
       vm_manifests (sched c) !! info_vmid data = Some m) ∧
      ∀ a e, unreported c (info_vmid data) a e →
        ¬ reported_on (agent_vm_index (sched c)) a (info_vmid data)
  | _ => True
  end.

(** No reservation of a VM its agent holds expires before the agent is polled. *)
Definition no_expiry (now : Instant) (c : Cluster) : Prop :=
  ∀ v a e, unreported c v a e → unexpired now (has_discovered (vm_data_cache (sched c)) v) e.

(** The snapshot a first status establishes. *)
Definition joined (oa : IterOrder) (a : ActorId) (ag : AgentActor) : CachedAgentActor :=
  {| agent_ref := a; agent_data := @full_status oa host_name ag;
     agent_status_revision := membership_revision ag |}.

(** Whether an execution is acknowledged. *)
Definition acknowledges (f : Fate) : bool := negb (executed f) || acknowledged f.

(** The conditions event by event. Identities of actors are not reused. The
    answer of an executed create is lost only if the VM's actor is found
    afterwards; an executed request of a reconciliation pass is acknowledged,
    and the pass expires no reservation that backs a VM. Polls ask for the
    changes since the last status, and an agent that joins fits. An agent
    executes a create outside these exchanges only for a VM that is reserved on
    it, and receives no migration. *)
Definition careful (c : Cluster) (e : ClusterEvent) : Prop :=
  match e with
  | CeStart a _ _ _ => nodes c !! a = None ∧ agent_data_cache (sched c) !! a = None
  | CeCrash _ => True
  | CeCreate _ fate _ _ actor_exists _ =>
      actor_exists = true ∨ ∀ a, acknowledges (fate a) = true
  | CeReconcile _ fate _ cleanup_now _ =>
      no_expiry cleanup_now c ∧ ∀ a, acknowledges (fate a) = true
  | CePoll oa _ _ a request => ∀ ag, nodes c !! a = Some ag →
      match agent_data_cache (sched c) !! a with
      | Some cached =>
          initial request = true ∨ since_revision request = agent_status_revision cached
      | None => initial request = true ∧ representable (joined oa a ag) ∧
          within_capacity (vm_manifests (sched c)) (vm_placements (sched c)) (joined oa a ag)
      end
  | CeAgent a (EvCreate msg actor) =>
      ∀ ag, nodes c !! a = Some ag → vms ag !! create_vmid msg = None →
      is_Some (agent_data_cache (sched c) !! a) ∧
      reserved_on (vm_manifests (sched c)) (vm_placements (sched c)) a (create_vmid msg)
        (cache_entry actor (create_config msg))
  | CeAgent _ (EvMigrate _ _ _) => False
  | CeAgent _ _ => True
  | CeSched _ e => local_event c e
  end.

(** Membership revisions are 64-bit counters; runs that exhaust one are left out. *)
Definition revisions_left (c : Cluster) : Prop :=
  map_Forall (λ _ ag, membership_revision ag < u64_max) (nodes c).

Fixpoint careful_run (c : Cluster) (es : list ClusterEvent) : Prop :=
  match es with
  | [] => True
  | e :: es' =>
      careful c e ∧ revisions_left (cluster_handle c e) ∧ careful_run (cluster_handle c e) es'
  end.

(** ** The invariant *)

Record node_ok (ag : AgentActor) : Prop := {
  node_usage : usage_exact ag;
  node_history : history_wf ag }.

Record cluster_inv (c : Cluster) : Prop := {
  ci_sched : sched_inv (sched c);
  ci_capacity : capacity_inv (sched c);
  ci_nodes : map_Forall (λ _, node_ok) (nodes c);
  ci_revisions : revisions_left c;
  ci_covered : ∀ a ag cached, nodes c !! a = Some ag →
    agent_data_cache (sched c) !! a = Some cached →
    covered (vm_manifests (sched c)) (vm_placements (sched c)) a ag cached }.

(** A cached agent and its node. *)
Lemma cluster_fits c a ag cached :
  cluster_inv c → nodes c !! a = Some ag → agent_data_cache (sched c) !! a = Some cached →
  total cache_vcpus (vms ag) + get_reserved_vcpus (agent_config ag) ≤ 2 * agent_vcpus ag ∧
  total cache_memory_bytes (vms ag) ≤ agent_memory ag ∧
  2 * agent_vcpus ag < u32_max ∧ agent_memory ag < u64_max.
Proof.
  intros [Hs [Hrefs Hcap] _ _ Hcov] Ha Hc. pose proof (Hcov a ag cached Ha Hc) as Hcv.
  eapply covered_fits; [exact Hcv|apply (inv_placements _ Hs)|by apply Hrefs|].
  apply (Hcap a cached Hc). destruct Hcv as (base & log & Hcv). by destruct Hcv.
Qed.

(** ** A change of the scheduler alone *)

Lemma sched_change_inv c s :
  cluster_inv c → sched_inv s → capacity_inv s →
  (∀ a ag cached, nodes c !! a = Some ag → agent_data_cache s !! a = Some cached →
    agent_data_cache (sched c) !! a = Some cached ∧
    keeps_pending ag (vm_manifests (sched c)) (vm_manifests s)
      (vm_placements (sched c)) (vm_placements s) a) →
  cluster_inv {| sched := s; nodes := nodes c |}.
Proof.
  intros [_ _ Hn Hr Hcov] Hs Hcap Hk. split; [done..|]. cbn. intros a ag cached Ha Hc.
  destruct (Hk a ag cached Ha Hc) as [Hc' Hkp]. eapply covered_keep; [exact Hkp|]. by apply Hcov.
Qed.

Lemma keeps_pending_same ag ms ms' p p' a :
  (∀ v l, p !! v = Some l → l ≠ [] → ms' !! v = ms !! v ∧ p' !! v = Some l) →
  keeps_pending ag ms ms' p p' a.
Proof.
  intros Hs v m e _ Hm He Hp. unfold placement_of in *. destruct (p !! v) as [l|] eqn:Hl; [|done].
  destruct (Hs v l Hl) as [-> ->]; [by intros ->|]. eauto.
Qed.

(** ** Delivering a request *)

Section deliver.
Context (fate : ActorId → Fate) (fresh : Ulid → ActorId).

Lemma node_create_revision ag msg :
  membership_revision (node_create fresh ag msg) < u64_max → membership_revision ag < u64_max.
Proof.
  unfold node_create, agent_create_vm. destruct (vms ag !! _) eqn:Hv; cbn; [done|].
  unfold insert_vm. rewrite Hv. cbn. unfold u64_saturating_add. lia.
Qed.

(** A create that was sent is covered by a reservation, if it arrives. *)
Definition create_reserved (s : SchedulerActor) (ns : gmap ActorId AgentActor) (a : ActorId)
    (msg : CreateVM) : Prop :=
  executed (fate a) = true → is_Some (ns !! a) →
  is_Some (agent_data_cache s !! a) ∧
  reserved_on (vm_manifests s) (vm_placements s) a (create_vmid msg)
    (cache_entry (fresh (create_vmid msg)) (create_config msg)).

Definition dispatched (s : SchedulerActor) (ns : gmap ActorId AgentActor) (e : SchedEffect) : Prop :=
  match e with
  | AskCreate a msg | TellCreate a msg => create_reserved s ns a msg
  | _ => True
  end.

Lemma node_create_ok ag msg :
  node_ok ag → membership_revision ag < u64_max →
  (vms ag !! create_vmid msg = None → vm_fits ag (create_config msg)) →
  node_ok (node_create fresh ag msg).
Proof.
  intros [Hu Hh] Hlt Hf. unfold node_create, agent_create_vm.
  destruct (vms ag !! create_vmid msg) as [c|] eqn:Hv; cbn [fst]; [done|]. split.
  - by apply insert_vm_usage, Hf.
  - eapply logged_wf; [exact Hh|]. eapply (logged_one _ _ (create_vmid msg) true); [done|done|..];
      unfold insert_vm; rewrite Hv; cbn; [done..|]. by rewrite dom_insert_L.
Qed.

Lemma node_create_vms ag msg :
  vms ag !! create_vmid msg = None →
  vms (node_create fresh ag msg) =
    <[create_vmid msg := cache_entry (fresh (create_vmid msg)) (create_config msg)]> (vms ag) ∧
  agent_vcpus (node_create fresh ag msg) = agent_vcpus ag ∧
  agent_memory (node_create fresh ag msg) = agent_memory ag.
Proof.
  intros Hv. unfold node_create, agent_create_vm. rewrite Hv. cbn. unfold insert_vm. by rewrite Hv.
Qed.

Lemma alter_create_inv s ns a msg ag :
  cluster_inv {| sched := s; nodes := ns |} → ns !! a = Some ag →
  membership_revision (node_create fresh ag msg) < u64_max →
  is_Some (agent_data_cache s !! a) →
  reserved_on (vm_manifests s) (vm_placements s) a (create_vmid msg)
    (cache_entry (fresh (create_vmid msg)) (create_config msg)) →
  cluster_inv {| sched := s; nodes := <[a := node_create fresh ag msg]> ns |}.
Proof.
  intros Hinv Ha Hrev' [cached Hc] Hr. pose proof (node_create_revision ag msg Hrev') as Hrev.
  destruct Hinv as [Hs [Hrefs Hcap] Hn Hrv Hcov]. cbn in *.
  pose proof (Hn a ag Ha) as Hok. pose proof (Hcov a ag cached Ha Hc) as Hcv.
  assert (covered (vm_manifests s) (vm_placements s) a (node_create fresh ag msg) cached) as Hcv'.
  { apply covered_create; [done|by destruct Hok|done|done]. }
  pose proof (covered_fits _ _ _ _ _ Hcv' (inv_placements _ Hs) (Hrefs a cached Hc)) as Hfit.
  split; cbn; [done|done| | |].
  - apply map_Forall_insert_2; [|done]. apply node_create_ok; [done|done|]. intros Hv.
    destruct (node_create_vms ag msg Hv) as (Hvms & Hmv & Hmm). rewrite Hvms, Hmv, Hmm in Hfit.
    rewrite !total_insert in Hfit by done. unfold vm_fits. cbn in Hfit.
    destruct Hfit as (? & ? & ? & ?); [|lia]. apply (Hcap a cached Hc).
    destruct Hcv as (base & log & Hcv). by destruct Hcv.
  - by apply map_Forall_insert_2.
  - intros b bg cached'. destruct (decide (b = a)) as [->|Hb].
    + rewrite lookup_insert_eq. intros [= <-] ?. by simplify_eq.
    + rewrite lookup_insert_ne by done. by apply Hcov.
Qed.

Lemma deliver_create_inv s ns a msg :
  cluster_inv {| sched := s; nodes := ns |} →
  revisions_left {| sched := s; nodes := deliver_create fate fresh ns a msg |} →
  create_reserved s ns a msg →
  cluster_inv {| sched := s; nodes := deliver_create fate fresh ns a msg |}.
Proof.
  unfold deliver_create, create_reserved. intros Hinv. destruct (ns !! a) as [ag|] eqn:Ha; [|done].
  destruct (executed (fate a)); [|done]. intros Hr Hd. destruct Hd as [Hc Hres]; [done|done|].
  apply alter_create_inv; [done|done| |done|done].
  apply (Hr a). cbn. apply lookup_insert_eq.
Qed.

Lemma deliver_request_inv s ns e :
  cluster_inv {| sched := s; nodes := ns |} →
  revisions_left {| sched := s; nodes := deliver_request fate fresh ns e |} →
  dispatched s ns e → cluster_inv {| sched := s; nodes := deliver_request fate fresh ns e |}.
Proof. destruct e; try done; apply deliver_create_inv. Qed.

(** Revisions only grow, and no node appears or disappears. *)
Lemma deliver_request_back s ns e :
  revisions_left {| sched := s; nodes := deliver_request fate fresh ns e |} →
  revisions_left {| sched := s; nodes := ns |}.
Proof.
  assert (∀ a msg, revisions_left {| sched := s; nodes := deliver_create fate fresh ns a msg |} →
    revisions_left {| sched := s; nodes := ns |}) as Hgo; [|by destruct e; try done; apply Hgo].
  intros a msg Hr b bg Hb. unfold deliver_create in Hr. cbn in *.
  destruct (ns !! a) as [ag|] eqn:Ha; [|by apply (Hr b)]. destruct (executed (fate a)); [|by apply (Hr b)].
  destruct (decide (b = a)) as [->|Hne].
  - simplify_eq. apply (node_create_revision _ msg), (Hr a). cbn. apply lookup_insert_eq.
  - apply (Hr b). cbn. by rewrite lookup_insert_ne.
Qed.

Lemma deliver_request_dom ns e a :
  is_Some (deliver_request fate fresh ns e !! a) ↔ is_Some (ns !! a).
Proof.
  destruct e as [| | | |b msg|b msg| |]; cbn; try done; unfold deliver_create;
    (destruct (ns !! b) eqn:Hb; [|done]); (destruct (executed (fate b)); [|done]);
    rewrite lookup_insert_is_Some'; naive_solver.
Qed.

Lemma deliver_all_inv s ns es :
  cluster_inv {| sched := s; nodes := ns |} →
  revisions_left {| sched := s; nodes := foldl (deliver_request fate fresh) ns es |} →
  Forall (dispatched s ns) es →
  cluster_inv {| sched := s; nodes := foldl (deliver_request fate fresh) ns es |}.
Proof.
  revert ns. induction es as [|e es IH]; intros ns Hinv Hr Hd; [done|]. cbn in *.
  apply Forall_cons in Hd as [He Hes].
  assert (∀ ns, revisions_left {| sched := s; nodes := foldl (deliver_request fate fresh) ns es |} →
    revisions_left {| sched := s; nodes := ns |}) as Hback.
  { clear. induction es as [|e es IH]; [done|]. intros ns Hr%IH. by eapply deliver_request_back. }
  apply IH; [by apply deliver_request_inv, He; [done|apply Hback]|done|].
  eapply Forall_impl; [exact Hes|]. intros e'. unfold dispatched, create_reserved.
  destruct e'; try done; by rewrite deliver_request_dom.
Qed.
End deliver.

(** ** Creation *)

Lemma placement_of_single p v a now b :
  p !! v = Some [pending_placement a now] →
  placement_of p v b = if decide (a = b) then Some (pending_placement a now) else None.
Proof. intros Hp. unfold placement_of. rewrite Hp. cbn [mbind option_bind].
  rewrite find_placement_cons. by destruct (decide _). Qed.

Lemma chosen_is_cached `{IterOrder} s msg s1 a :
  sched_inv s → refs_agree s → schedule_agent s msg = (s1, Ok a) → is_Some (agent_data_cache s !! a).
Proof.
  intros Hinv Hrefs Hs. destruct (schedule_agent_fits s msg s1 a Hinv Hs) as (id & agent & Hid & <- & _).
  rewrite (Hrefs id agent Hid). eauto.
Qed.

Lemma create_keeps `{IterOrder} now asked ex msg s ag a :
  sched_inv s →
  let s' := (scheduler_create_vm to_bytes from_bytes now asked ex msg s).1.1 in
  agent_data_cache s' = agent_data_cache s ∧
  keeps_pending ag (vm_manifests s) (vm_manifests s') (vm_placements s) (vm_placements s') a.
Proof.
  intros Hinv. pose proof (scheduler_create_vm_cases to_bytes from_bytes now asked ex msg s) as Hcs.
  destruct (scheduler_create_vm _ _ _ _ _ _ _) as [[s' reply] effects]. cbn.
  destruct (vm_manifests s !! create_vmid msg) as [existing|] eqn:Hm.
  { destruct Hcs as (-> & _). split; [done|apply keeps_pending_refl]. }
  pose proof (inv_unplaced _ _ Hinv Hm) as Hn.
  destruct (schedule_agent_state s msg) as (r & Hs & _).
  destruct (schedule_agent s msg) as [s1 [b|e]]; cbn [fst] in Hs; subst s1.
  2: { destruct Hcs as (-> & _). split; [done|apply keeps_pending_refl]. }
  destruct Hcs as (_ & _ & ->). split.
  - destruct (asked b); [destruct (_ ≫= _)|destruct ex]; done.
  - apply keeps_pending_same. intros v l Hl _. assert (create_vmid msg ≠ v) by congruence.
    destruct (asked b); [destruct (_ ≫= _)|destruct ex]; cbn; unfold push_placement;
      rewrite ?lookup_delete_ne, ?lookup_insert_ne by done; done.
Qed.

(** The reservation of a create is kept if the request is executed and either
    acknowledged or followed by a successful lookup. *)
Lemma create_dispatched `{IterOrder} fate fresh now ex msg s ns :
  sched_inv s → refs_agree s → ex = true ∨ (∀ a, acknowledges (fate a) = true) →
  let '(s', _, effects) := scheduler_create_vm to_bytes from_bytes now
    (ask_agent fate fresh ns msg) ex msg s in
  Forall (dispatched fate fresh s' ns) effects.
Proof.
  intros Hinv Hrefs Hack.
  pose proof (scheduler_create_vm_cases to_bytes from_bytes now (ask_agent fate fresh ns msg) ex msg s) as Hcs.
  destruct (scheduler_create_vm _ _ _ _ _ _ _) as [[s' reply] effects].
  destruct (vm_manifests s !! create_vmid msg) as [existing|] eqn:Hm.
  { destruct Hcs as (_ & -> & _). constructor. }
  pose proof (inv_unplaced _ _ Hinv Hm) as Hn.
  destruct (schedule_agent_state s msg) as (r & Hs1 & _).
  destruct (schedule_agent s msg) as [s1 [a|e]] eqn:Hs; cbn [fst] in Hs1.
  2: { destruct Hcs as (_ & _ & ->). constructor. }
  pose proof (chosen_is_cached s msg s1 a Hinv Hrefs Hs) as Hc. subst s1.
  destruct Hcs as (-> & _ & Hs'). apply Forall_singleton. intros Hexec [ag Ha].
  unfold ask_agent in Hs'. rewrite Ha, Hexec in Hs'.
  assert (acknowledged (fate a) = true ∨ ex = true) as Hkept.
  { destruct Hack as [->|Hack]; [by right|left]. specialize (Hack a). unfold acknowledges in Hack.
    by rewrite Hexec in Hack. }
  assert (agent_data_cache s' = agent_data_cache s ∧
    vm_manifests s' = <[create_vmid msg := create_config msg]> (vm_manifests s) ∧
    vm_placements s' = <[create_vmid msg := [pending_placement a now]]> (vm_placements s))
    as (-> & -> & ->).
  { cbn [andb] in Hs'. destruct (acknowledged (fate a)); [|destruct ex; [|by destruct Hkept]]; subst s';
      [destruct (_ ≫= _)|]; cbn; unfold push_placement; by rewrite Hn. }
  split; [done|]. eexists _, _, (pending_placement a now). split_and!; [done|apply lookup_insert_eq| |done].
  erewrite placement_of_single by apply lookup_insert_eq. by rewrite decide_True.
Qed.

Lemma step_create_inv `{IterOrder} fate fresh now ex msg c :
  cluster_inv c → ex = true ∨ (∀ a, acknowledges (fate a) = true) → revisions_left (cluster_create fate fresh now ex msg c).1 →
  cluster_inv (cluster_create fate fresh now ex msg c).1.
Proof.
  intros Hinv Hack. destruct (Hinv) as [Hs Hcap _ _ _]. unfold cluster_create.
  pose proof (create_dispatched fate fresh now ex msg _ (nodes c) Hs (proj1 Hcap) Hack) as Hd.
  set (asked := ask_agent _ _ _ _) in *.
  pose proof (scheduler_create_vm_inv to_bytes from_bytes now asked ex msg _ Hs) as Hs'.
  pose proof (capacity_create to_bytes from_bytes now asked ex msg _ Hs Hcap) as Hcap'.
  pose proof (λ ag a, create_keeps now asked ex msg _ ag a Hs) as Hk. cbv zeta in Hk.
  destruct (scheduler_create_vm _ _ _ _ _ _ _) as [[s' reply] effects]. cbn in *. intros Hr.
  apply deliver_all_inv; [|done|done]. apply sched_change_inv; [done|done|done|].
  intros a ag cached _ Hc. destruct (Hk ag a) as [Hca Hkp]. by rewrite <-Hca.
Qed.

(** ** Reconciliation *)

Lemma expiry_keeps `{IterOrder} cleanup_now s v a e :
  sched_inv s → unexpired cleanup_now (has_discovered (vm_data_cache s) v) e →
  placement_of (vm_placements s) v a = Some e →
  placement_of (vm_placements (after_expiry cleanup_now s)) v a = Some e.
Proof.
  intros Hinv Hu He. unfold after_expiry.
  pose proof (lookup_cleanup_placements cleanup_now (vm_placements s) (vm_data_cache s) v) as Hl.
  destruct (cleanup_unresolved_vm_cache _ _ _) as [p d]. cbn in *. unfold placement_of in *.
  rewrite Hl. destruct (vm_placements s !! v) as [l|] eqn:Hv; [|done]. cbn in *.
  rewrite find_placement_filter by (eapply pw_agents, (inv_placements _ Hinv), Hv).
  rewrite He. cbn. by rewrite decide_True.
Qed.

Lemma reconcile_keeps `{IterOrder} cleanup_now now told c a ag :
  sched_inv (sched c) → no_expiry cleanup_now c → nodes c !! a = Some ag →
  let s := sched c in let s' := (reconcile_vm_placements cleanup_now now told s).1 in
  keeps_pending ag (vm_manifests s) (vm_manifests s') (vm_placements s) (vm_placements s') a.
Proof.
  intros Hinv Hne Ha s. pose proof (reconcile_vm_placements_spec cleanup_now now told s Hinv) as Hr.
  pose proof (λ v a e, expiry_keeps cleanup_now s v a e Hinv) as Hexp.
  destruct (reconcile_vm_placements _ _ _ _) as [s' sent]. cbv zeta in Hr. cbn [fst].
  set (s0 := after_expiry cleanup_now s) in *. clearbody s0.
  destruct Hr as (_ & Hma & _ & Hother & _). intros v m e Hv Hm He Hp. rewrite Hma. split; [done|].
  pose proof (Hexp v a e (Hne v a e (conj (ex_intro _ ag (conj Ha Hv)) (conj He Hp))) He) as He'.
  exists e. split; [|done].
  unfold placement_of in *. rewrite Hother; [done|].
  intros ([w cfg] & -> & [_ Hc]%elem_of_unplaced_vms)%list_elem_of_fmap. cbn in *.
  destruct (vm_placements s0 !! w); cbn in *; by subst.
Qed.

Lemma reconcile_dispatched `{IterOrder} fate fresh cleanup_now now s ns :
  sched_inv s → refs_agree s → (∀ a, acknowledges (fate a) = true) →
  let '(s', effects) := reconcile_vm_placements cleanup_now now (tell_agent fate) s in
  Forall (dispatched fate fresh s' ns) effects.
Proof.
  intros Hinv Hrefs Hack.
  pose proof (reconcile_vm_placements_spec cleanup_now now (tell_agent fate) s Hinv) as Hr.
  assert (agent_data_cache (after_expiry cleanup_now s) = agent_data_cache s ∧
    vm_manifests (after_expiry cleanup_now s) = vm_manifests s) as [Hc0 Hm0].
  { unfold after_expiry. by destruct (cleanup_unresolved_vm_cache _ _ _). }
  destruct (reconcile_vm_placements _ _ _ _) as [s' sent].
  destruct Hr as (_ & Hma & Hca & _ & Hsent & Htell & Hrec). apply Forall_forall. intros e He.
  destruct (Htell e He) as (a & msg & ->). intros Hexec [ag Ha]. pose proof (Hsent a msg He) as Hin.
  destruct (Hrec _ Hin) as (s1 & Hs1 & Hc1 & _ & _ & _ & Hres). cbn [fst snd] in Hres.
  replace {| create_vmid := create_vmid msg; create_config := create_config msg |} with msg in Hres
    by by destruct msg.
  destruct (schedule_agent s1 msg) as [s2 [b|]] eqn:Hs; cbn [snd] in Hres; [|by destruct Hres as [? _]; set_solver].
  destruct Hres as [Hb Hp]. apply Hb in He as ->.
  assert (refs_agree s1) as Hrefs1 by (unfold refs_agree; by rewrite Hc1, Hc0).
  pose proof (chosen_is_cached s1 msg s2 b Hs1 Hrefs1 Hs) as Hcached. rewrite Hc1, Hc0 in Hcached.
  rewrite Hca. split; [done|]. rewrite Hma. apply elem_of_unplaced_vms in Hin as [Hm _].
  rewrite Hm0 in Hm. eexists _, _, (pending_placement b _). split_and!; [done|done| |done].
  specialize (Hack b). unfold acknowledges in Hack. rewrite Hexec in Hack. cbn in Hack.
  unfold tell_agent in Hp. rewrite Hack in Hp.
  rewrite (placement_of_single _ _ _ _ _ Hp). by rewrite decide_True.
Qed.

Lemma step_reconcile_inv `{IterOrder} fate fresh cleanup_now now c :
  cluster_inv c → no_expiry cleanup_now c → (∀ a, acknowledges (fate a) = true) →
  revisions_left (cluster_reconcile fate fresh cleanup_now now c) →
  cluster_inv (cluster_reconcile fate fresh cleanup_now now c).
Proof.
  intros Hinv Hne Hack. destruct (Hinv) as [Hs Hcap _ _ _]. unfold cluster_reconcile.
  pose proof (reconcile_dispatched fate fresh cleanup_now now _ (nodes c) Hs (proj1 Hcap) Hack) as Hd.
  set (told := tell_agent _) in *.
  pose proof (reconcile_vm_placements_spec cleanup_now now told _ Hs) as Hr.
  pose proof (capacity_reconcile cleanup_now now told _ Hs Hcap) as Hcap'.
  pose proof (λ a ag, reconcile_keeps cleanup_now now told c a ag Hs Hne) as Hk. cbv zeta in Hk.
  destruct (reconcile_vm_placements _ _ _ _) as [s' effects]. cbn in *. intros Hrev.
  destruct Hr as (Hs' & _ & Hca & _). apply deliver_all_inv; [|done|done].
  apply sched_change_inv; [done|done|done|]. intros a ag cached Ha Hc. rewrite <-Hca. eauto.
Qed.

(** ** Reports *)

(** The snapshot is the agent's status. *)
Record snapshot_of (a : ActorId) (ag : AgentActor) (cached : CachedAgentActor) : Prop := {
  so_ref : agent_ref cached = a;
  so_revision : agent_status_revision cached = membership_revision ag;
  so_vcpus : status_used_vcpus (agent_data cached) = reported_vcpus ag;
  so_ram : status_used_ram (agent_data cached) = used_memory_bytes ag;
  so_max_vcpus : status_vcpus (agent_data cached) = agent_vcpus ag;
  so_max_ram : status_ram (agent_data cached) = agent_memory ag;
  so_representable : representable cached }.

Lemma report_inv c s now a ag cached X :
  cluster_inv c → nodes c !! a = Some ag → sched_inv s →
  agent_data_cache s = <[a := cached]> (agent_data_cache (sched c)) →
  vm_manifests s = vm_manifests (sched c) →
  reported_by now a X (vm_placements (sched c)) (vm_placements s) →
  snapshot_of a ag cached → within_capacity (vm_manifests s) (vm_placements s) cached →
  cluster_inv {| sched := s; nodes := nodes c |}.
Proof.
  intros [Hs0 [Hrefs Hcap] Hn Hr Hcov] Ha Hs Hca Hma Hrep Hso Hwc. split; [done| |done|done|]; cbn.
  - split; [unfold refs_agree; rewrite Hca; apply map_Forall_insert_2; [by destruct Hso|done]|].
    rewrite Hca. intros b agent Hb Hre. destruct (decide (b = a)) as [->|Hne].
    { rewrite lookup_insert_eq in Hb. by simplify_eq. }
    rewrite lookup_insert_ne in Hb by done. destruct (Hcap b agent Hb Hre) as [Hv Hm].
    assert (∀ f, load f (vm_manifests s) (vm_placements s) b ≤
      load f (vm_manifests s) (vm_placements (sched c)) b) as Hl.
    { intros f. apply load_same; [by apply inv_placements..|]. intros v. by apply (rep_others _ _ _ _ _ Hrep). }
    rewrite Hma in Hl. unfold within_capacity. rewrite Hma, (Hrefs b agent Hb) in *.
    pose proof (Hl fst). pose proof (Hl snd). unfold load in *. lia.
  - intros b bg cached'. rewrite Hca. destruct (decide (b = a)) as [->|Hne].
    + rewrite lookup_insert_eq. intros ? [= <-]. simplify_eq. destruct (Hn a ag Ha), Hso.
      by apply covered_fresh.
    + rewrite lookup_insert_ne by done. intros Hb Hc. eapply covered_keep; [|by apply Hcov].
      rewrite Hma. by eapply reported_by_keeps.
Qed.

Lemma step_join_inv oa os now a ag since c :
  cluster_inv c → nodes c !! a = Some ag → agent_data_cache (sched c) !! a = None →
  representable (joined oa a ag) →
  within_capacity (vm_manifests (sched c)) (vm_placements (sched c)) (joined oa a ag) →
  cluster_inv (cluster_poll oa os now a ag {| since_revision := since; initial := true |} c).
Proof.
  intros Hinv Ha Hc Hrep Hwc. destruct (Hinv) as [Hs _ _ _ _]. unfold cluster_poll.
  pose proof (@agent_updated_inv os now a a (@agent_get_status oa host_name ag
    {| since_revision := since; initial := true |}) _ Hs) as Hs'.
  change (@agent_get_status oa host_name ag {| since_revision := since; initial := true |})
    with (Full (membership_revision ag) (@full_status oa host_name ag)) in *.
  set (s' := agent_updated _ _ _ _ _) in *.
  assert (agent_data_cache s' = <[a := joined oa a ag]> (agent_data_cache (sched c)) ∧
    vm_manifests s' = vm_manifests (sched c) ∧
    vm_placements s' = @reconcile_agent_placements os now a (@full_status oa host_name ag)
      (vm_manifests (sched c)) (vm_placements (sched c))) as (Hca & Hma & Hpl).
  { subst s'. unfold agent_updated. by rewrite Hc. }
  assert (reported_by now a ∅ (vm_placements (sched c)) (vm_placements s')) as Hby.
  { rewrite Hpl. apply reported_by_snapshot; [by apply inv_placements|].
    intros v [? Hv]. by rewrite lookup_empty in Hv. }
  eapply report_inv; [done..|by split|]. destruct Hwc as [Hv Hr].
  assert (∀ f, load f (vm_manifests s') (vm_placements s') a ≤
    load f (vm_manifests (sched c)) (vm_placements (sched c)) a) as Hl.
  { intros f. rewrite Hma. apply load_le. intros v.
    pose proof (reported_by_settles _ _ _ _ _ (vm_manifests (sched c)) f v Hby
      (inv_placements _ Hs) (inv_placements _ Hs')) as Hle.
    by rewrite decide_False in Hle by (rewrite lookup_empty; by intros []). }
  pose proof (Hl fst). pose proof (Hl snd). unfold within_capacity, load in *. cbn in *. lia.
Qed.

(** A new status of a known agent: the VMs that changed since the last one are
    confirmed, so their load moves from the reservations to the report. *)
Lemma poll_applies oa os now a ag cached base log request s :
  sched_inv s → membership_revision ag < u64_max → agent_data_cache s !! a = Some cached →
  covers (vm_manifests s) (vm_placements s) a ag cached base log →
  initial request = true ∨ since_revision request = agent_status_revision cached →
  let s' := @agent_updated os now a a (@agent_get_status oa host_name ag request) s in
  (membership_revision ag ≤ agent_status_revision cached ∧ s' = s) ∨
  ∃ cached', agent_data_cache s' = <[a := cached']> (agent_data_cache s) ∧
    vm_manifests s' = vm_manifests s ∧ snapshot_of a ag cached' ∧
    reported_by now a (changed log ag) (vm_placements s) (vm_placements s').
Proof.
  intros Hs Hlt Hc Hcv Hreq. pose proof (inv_placements _ Hs) as Hwf.
  destruct (Hcv) as [Hlog Hh _ _ Hrev _ _ Hmv Hmr Hrep _ Hch].
  assert (∀ v, is_Some (changed log ag !! v) → v ∈ dom (vms ag) ∧
    latest_changes log !! v = Some true ∧ is_Some (vm_manifests s !! v)) as HX.
  { intros v Hv. split_and!; [|by eapply changed_latest|].
    - destruct Hv as [x [Hv _]%map_lookup_filter_Some]. by apply elem_of_dom_2 in Hv.
    - destruct Hv as [x Hv]. destruct (Hch v x Hv) as (? & m & ? & _ & -> & _). eauto. }
  assert (let u := @agent_get_status oa host_name ag request in
    u = Full (membership_revision ag) (@full_status oa host_name ag) ∨
    u = Delta (membership_revision ag) (latest_vmids (H := oa) true (latest_changes log))
          (latest_vmids (H := oa) false (latest_changes log)) (reported_vcpus ag)
          (used_memory_bytes ag)) as Hu.
  { destruct request as [since ini]. cbn in Hreq. destruct ini; [by left|].
    destruct Hreq as [?| ->]; [done|]. rewrite Hrev. by apply agent_get_status_logged. }
  cbv zeta. destruct Hu as [-> | ->]; unfold agent_updated; rewrite Hc; cbn [update_revision];
    (destruct (N.leb_spec (membership_revision ag) (agent_status_revision cached)); [by left|right]);
    cbn [apply_status_update]; eexists _;
    (split; [reflexivity|]); (split; [done|]);
    (split; [split; [done..|]; unfold representable in *; cbn; rewrite ?Hmv, ?Hmr in *; done|]).
  - apply reported_by_snapshot; [done|]. intros v [Hv _]%HX. by apply full_status_vms_elem_of.
  - apply reported_by_delta; [done|]. intros v (_ & Hv & Hm)%HX.
    rewrite !latest_vmids_elem_of, Hv. done.
Qed.

Lemma step_poll_inv oa os now a ag cached request c :
  cluster_inv c → nodes c !! a = Some ag → agent_data_cache (sched c) !! a = Some cached →
  initial request = true ∨ since_revision request = agent_status_revision cached →
  cluster_inv (cluster_poll oa os now a ag request c).
Proof.
  intros Hinv Ha Hc Hreq. destruct (Hinv) as [Hs [Hrefs Hcap] Hn Hrv Hcov]. unfold cluster_poll.
  destruct (Hcov a ag cached Ha Hc) as (base & log & Hcv).
  pose proof (poll_applies oa os now a ag cached base log request _ Hs (Hrv a ag Ha) Hc Hcv Hreq) as Hp.
  pose proof (@agent_updated_inv os now a a (@agent_get_status oa host_name ag request) _ Hs) as Hs'.
  set (s' := agent_updated _ _ _ _ _) in *. cbv zeta in Hp. clearbody s'.
  destruct Hp as [[_ ->] | (cached' & Hca & Hma & Hso & Hby)]; [by destruct c|].
  eapply report_inv; [done..|].
  destruct (settle_capacity _ _ (vm_placements s') _ _ _ _ _ Hcv (inv_placements _ Hs)) as [Hv Hr].
  - intros f v. eapply reported_by_settles; [done|by apply inv_placements..].
  - by apply Hrefs.
  - apply (Hcap a cached Hc). by destruct Hcv.
  - destruct (Hn a ag Ha) as [[Huv Hum] _]. destruct Hso as [Href _ Hsv Hsr Hmv Hmr _].
    unfold within_capacity. rewrite Href, Hsv, Hsr, Hmv, Hmr, Hma. unfold load in *.
    unfold reported_vcpus, u32_saturating_add. rewrite Huv, Hum. lia.
Qed.

(** ** Departures *)

Lemma remove_vm_revision ag v :
  membership_revision (remove_vm ag v).1 < u64_max → membership_revision ag < u64_max.
Proof.
  unfold remove_vm. destruct (vms ag !! v); cbn; [|done]. unfold u64_saturating_add. lia.
Qed.

Lemma remove_vm_ok ag v : node_ok ag → membership_revision ag < u64_max → node_ok (remove_vm ag v).1.
Proof.
  intros [Hu Hh] Hlt. split; [by apply remove_vm_usage|]. unfold remove_vm.
  destruct (vms ag !! v) eqn:Hv; cbn; [|done]. eapply logged_wf; [exact Hh|].
  apply (logged_one _ _ v false); [done|done|done|done|]. cbn. by rewrite dom_delete_L.
Qed.

(** The agent after some of its VMs left. *)
Definition without (ag : AgentActor) (l : list Ulid) : AgentActor :=
  foldl (λ st vmid, (remove_vm st vmid).1) ag l.

Lemma without_revision ag l :
  membership_revision (without ag l) < u64_max → membership_revision ag < u64_max.
Proof.
  revert ag. induction l as [|v l IH]; intros ag Hlt; [done|]. eapply remove_vm_revision, IH, Hlt.
Qed.

Lemma without_ok ag l : node_ok ag → membership_revision (without ag l) < u64_max → node_ok (without ag l).
Proof.
  revert ag. induction l as [|v l IH]; intros ag Hok Hlt; [done|]. cbn in *.
  apply IH; [|done]. apply remove_vm_ok; [done|]. eapply remove_vm_revision, without_revision, Hlt.
Qed.

Lemma without_covered ms p a ag cached l :
  covered ms p a ag cached → node_ok ag → membership_revision (without ag l) < u64_max →
  covered ms p a (without ag l) cached.
Proof.
  revert ag. induction l as [|v l IH]; intros ag Hc Hok Hlt; [done|]. cbn in *.
  assert (membership_revision ag < u64_max) by (eapply remove_vm_revision, without_revision, Hlt).
  apply IH; [|by apply remove_vm_ok|done]. apply covered_remove_vm; [done|by destruct Hok|done].
Qed.

(** VMs leave an agent: a delete, or the death of VM actors. *)
Definition leaves (e : AgentEvent) : bool :=
  match e with EvDelete _ _ | EvLinkDied _ _ => true | _ => false end.

Lemma leaves_without ag e : leaves e = true → ∃ l, agent_handle ag e = without ag l.
Proof.
  destruct e as [| |v told|o id]; cbn; [done..| |].
  - intros _. exists [v]. cbn. unfold agent_delete_vm. by destruct (remove_vm ag v) as [? [?|]].
  - intros _. unfold agent_on_link_died. by eexists.
Qed.

Lemma step_leave_inv a ag e c :
  cluster_inv c → nodes c !! a = Some ag → leaves e = true →
  membership_revision (agent_handle ag e) < u64_max →
  cluster_inv {| sched := sched c; nodes := <[a := agent_handle ag e]> (nodes c) |}.
Proof.
  intros [Hs Hcap Hn Hr Hcov] Ha [l ->]%(leaves_without ag) Hlt.
  pose proof (Hn a ag Ha) as Hok. split; cbn; [done|done| | |].
  - apply map_Forall_insert_2; [|done]. by apply without_ok.
  - by apply map_Forall_insert_2.
  - intros b bg cached. destruct (decide (b = a)) as [->|Hne].
    + rewrite lookup_insert_eq. intros [= <-] Hc. apply without_covered; [by apply Hcov|done|done].
    + rewrite lookup_insert_ne by done. by apply Hcov.
Qed.

(** ** Messages of the scheduler alone *)

(** Nothing that backs a VM is lost for the agents that remain. *)
Definition sched_keeps (ns : gmap ActorId AgentActor) (s s' : SchedulerActor) : Prop :=
  ∀ a ag cached, ns !! a = Some ag → agent_data_cache s' !! a = Some cached →
    agent_data_cache s !! a = Some cached ∧
    keeps_pending ag (vm_manifests s) (vm_manifests s') (vm_placements s) (vm_placements s') a.

Lemma sched_keeps_same ns s s' :
  agent_data_cache s' = agent_data_cache s → vm_manifests s' = vm_manifests s →
  vm_placements s' = vm_placements s → sched_keeps ns s s'.
Proof. intros Ha Hm Hp a ag cached. rewrite Ha, Hm, Hp. eauto using keeps_pending_refl. Qed.

Lemma cleanup_agent_keeps ns a s : sched_inv s → sched_keeps ns s (cleanup_agent_actor a s).1.
Proof.
  intros Hinv b ag cached _ Hb. cbn in Hb. apply lookup_delete_Some in Hb as [Hne Hb]. split; [done|].
  intros v m e _ Hm He Hp. split; [done|]. exists e. split; [|done].
  rewrite cleanup_agent_placement_of by by apply inv_placements. by rewrite decide_False by naive_solver.
Qed.

Lemma cleanup_vm_keeps `{IterOrder} ns a s : sched_inv s → sched_keeps ns s (cleanup_vm_actor a s).1.
Proof.
  intros Hinv b ag cached _ Hb. unfold cleanup_vm_actor in *.
  destruct (vm_actorid_ulid_map _ !! a) as [vmid|]; [destruct (decide _)|]; cbn in *;
    (split; [done|]); try apply keeps_pending_refl.
  intros v m e _ Hm He Hp. split; [done|]. exists e. split; [|done]. unfold placement_of in *.
  destruct (decide (vmid = v)) as [->|Hne]; [|by rewrite lookup_alter_ne].
  rewrite lookup_alter_eq. destruct (vm_placements s !! v) as [l|] eqn:Hl; [|done]. cbn in *.
  rewrite find_placement_filter by (eapply pw_agents, (inv_placements _ Hinv), Hl).
  rewrite He. cbn. rewrite decide_True; [done|]. by left.
Qed.

Lemma remove_intent_keeps v c :
  (∀ a e, ¬ unreported c v a e) → sched_keeps (nodes c) (sched c) (remove_vm_intent v (sched c)).
Proof.
  intros Hset a ag cached Ha Hc. split; [done|]. cbn. intros w m e Hw Hm He Hp.
  assert (w ≠ v) as Hne by (intros ->; apply (Hset a e); split; eauto).
  rewrite lookup_delete_ne by done. split; [done|]. exists e. unfold placement_of in *.
  by rewrite lookup_delete_ne.
Qed.

(** A VM actor's report, under the condition of [local_event]. *)
Lemma vm_updated_placement `{IterOrder} now actor data c v b :
  sched_inv (sched c) → local_event c (SeVmUpdated now actor data) →
  let s := sched c in let s' := vm_updated now actor data s in
  (vm_manifests s' !! v = vm_manifests s !! v ∧
   placement_of (vm_placements s') v b = placement_of (vm_placements s) v b) ∨
  (∀ e, placement_of (vm_placements s') v b = Some e → ¬ is_pending e) ∧
  (∀ e, ¬ unreported c v b e).
Proof.
  intros Hinv Hev s s'. subst s s'. unfold vm_updated. cbn in Hev.
  destruct (info_config data) as [m|] eqn:Hcfg; [|by left]. cbn.
  destruct (Hev m eq_refl) as [Hm Hrep].
  rewrite reconcile_discovered_vm_spec; [|by apply inv_placements|by rewrite lookup_insert_eq].
  destruct (decide (v = info_vmid data)) as [->|Hne].
  2: { left. rewrite lookup_insert_ne, decide_False by naive_solver. done. }
  destruct (decide (_ = _ ∧ _)) as [[_ Hr]|Hr].
  - right. split; [intros e [= <-]; auto with odorobo|]. intros e He. by eapply Hrep.
  - rewrite lookup_insert_eq. destruct Hm as [Hm|Hm]; [|by left; rewrite Hm]. right.
    pose proof (inv_unplaced _ _ Hinv Hm) as Hn. unfold unreported, placement_of. rewrite Hn.
    split; [done|]. by intros e (_ & ? & _).
Qed.

Lemma vm_updated_cluster `{IterOrder} now actor data c :
  cluster_inv c → local_event c (SeVmUpdated now actor data) →
  let s' := vm_updated now actor data (sched c) in
  capacity_inv s' ∧ sched_keeps (nodes c) (sched c) s'.
Proof.
  intros [Hinv [Hrefs Hcap] _ _ _] Hev s'. pose proof (vm_updated_inv now actor data _ Hinv) as Hinv'.
  pose proof (λ v b, vm_updated_placement now actor data c v b Hinv Hev) as Hpl. cbv zeta in Hpl.
  assert (agent_data_cache s' = agent_data_cache (sched c)) as Hca.
  { subst s'. unfold vm_updated. by destruct (info_config data). }
  fold s' in Hinv', Hpl. clearbody s'. split; [split|].
  - unfold refs_agree. by rewrite Hca.
  - rewrite Hca. intros a agent Ha Hre. destruct (Hcap a agent Ha Hre) as [Hv Hm].
    assert (∀ f, load f (vm_manifests s') (vm_placements s') (agent_ref agent) ≤
      load f (vm_manifests (sched c)) (vm_placements (sched c)) (agent_ref agent)) as Hl.
    { intros f. apply load_le. intros v. rewrite !vm_load_placement by by apply inv_placements.
      destruct (Hpl v (agent_ref agent)) as [[-> ->]|[Hno _]]; [done|]. unfold placement_load.
      destruct (vm_manifests s' !! v); [|lia].
      destruct (placement_of (vm_placements s') v _); [|lia].
      rewrite decide_False by eauto. lia. }
    pose proof (Hl fst). pose proof (Hl snd). unfold within_capacity, load in *. lia.
  - intros a ag cached Ha. rewrite Hca. split; [done|]. intros v m e Hv Hm He Hp.
    destruct (Hpl v a) as [[-> ->]|[_ Hno]]; [eauto|]. destruct (Hno e). split; eauto.
Qed.

Lemma local_keeps `{IterOrder} c e :
  cluster_inv c → local_event c e →
  sched_keeps (nodes c) (sched c) (scheduler_handle to_bytes from_bytes (sched c) e).
Proof.
  intros Hc Hev. pose proof (ci_sched _ Hc) as Hinv.
  destruct e as [alive id|now asked ex msg|lookup told v|lookup told v
    |fin linked task a|fin linked task a|now a data|a|now id ref update|a|cnow now told];
    cbn [scheduler_handle]; try done.
  - unfold scheduler_on_link_died. destruct alive; [|by apply sched_keeps_same]. cbn [negb].
    assert (sched_inv (set_actor_kinds (delete id) (sched c))) as Hk by by eapply inv_same.
    destruct (actor_kinds (sched c) !! id) as [[]|]; [| |by apply sched_keeps_same].
    + pose proof (cleanup_agent_keeps (nodes c) id _ Hk). by destruct (cleanup_agent_actor _ _).
    + pose proof (cleanup_vm_keeps (nodes c) id _ Hk). by destruct (cleanup_vm_actor _ _).
  - unfold scheduler_delete_vm. destruct lookup as [[vm|]|], told as [[]|];
      try by apply sched_keeps_same. by apply remove_intent_keeps.
  - unfold scheduler_shutdown_vm. destruct lookup as [[vm|]|], told as [[]|];
      try by apply sched_keeps_same. by apply remove_intent_keeps.
  - unfold vm_actor_discovered. repeat case_match; by apply sched_keeps_same.
  - unfold agent_actor_discovered. repeat case_match; by apply sched_keeps_same.
  - by apply (vm_updated_cluster now a data).
  - assert (sched_inv (set_actor_kinds (delete a) (sched c))) as Hk by by eapply inv_same.
    pose proof (cleanup_vm_keeps (nodes c) a _ Hk) as Hcl. unfold vm_updater_stopped.
    by destruct (cleanup_vm_actor _ _).
  - assert (sched_inv (set_actor_kinds (delete a) (sched c))) as Hk by by eapply inv_same.
    pose proof (cleanup_agent_keeps (nodes c) a _ Hk) as Hcl. unfold agent_updater_stopped.
    by destruct (cleanup_agent_actor _ _).
Qed.

Lemma step_local_inv `{IterOrder} e c :
  cluster_inv c → local_event c e →
  cluster_inv {| sched := scheduler_handle to_bytes from_bytes (sched c) e; nodes := nodes c |}.
Proof.
  intros Hinv Hev. destruct (Hinv) as [Hs Hcap _ _ _].
  apply sched_change_inv; [done|by apply scheduler_handle_inv| |by apply local_keeps].
  destruct (internal_event e) eqn:Hi; [by apply handle_capacity|].
  destruct e; cbn in Hi, Hev; try done. by apply vm_updated_cluster.
Qed.

(** ** Messages of an agent alone *)

Lemma alter_cases {A} (f : A → A) (i : ActorId) (m : gmap ActorId A) :
  alter f i m = match m !! i with Some x => <[i := f x]> m | None => m end.
Proof.
  apply map_eq. intros j. destruct (decide (i = j)) as [<-|Hne].
  - rewrite lookup_alter_eq. destruct (m !! i) eqn:Hi; [by rewrite lookup_insert_eq|by rewrite Hi].
  - rewrite lookup_alter_ne by done. by destruct (m !! i); [rewrite lookup_insert_ne|].
Qed.

Lemma step_agent_inv a e c :
  cluster_inv c → careful c (CeAgent a e) → revisions_left (cluster_handle c (CeAgent a e)) →
  cluster_inv (cluster_handle c (CeAgent a e)).
Proof.
  intros Hinv Hev Hr. cbn [cluster_handle] in *. rewrite alter_cases in *.
  destruct (nodes c !! a) as [ag|] eqn:Ha; [|by destruct c].
  assert (membership_revision (agent_handle ag e) < u64_max) as Hlt.
  { apply (Hr a). cbn. apply lookup_insert_eq. }
  destruct e as [msg actor|msg actor asked|v told|o id]; [|done|by apply step_leave_inv..].
  destruct (vms ag !! create_vmid msg) as [x|] eqn:Hv.
  - cbn [agent_handle] in *. unfold agent_create_vm. rewrite Hv. cbn. rewrite insert_id by done.
    by destruct c.
  - destruct (Hev ag Ha Hv) as [Hc Hres]. destruct c as [s ns]. cbn [sched nodes] in *.
    assert (agent_handle ag (EvCreate msg actor) = node_create (λ _, actor) ag msg) as Heq.
    { cbn. unfold node_create, agent_create_vm. by rewrite Hv. }
    rewrite Heq in *. by apply alter_create_inv.
Qed.

(** ** Every reachable cluster *)

Lemma agent_on_start_ok config cpus memory : node_ok (agent_on_start config cpus memory).
Proof. split; [by split|apply agent_on_start_wf]. Qed.

Lemma step_poll_any_inv oa os now a request c :
  cluster_inv c → careful c (CePoll oa os now a request) →
  cluster_inv (cluster_handle c (CePoll oa os now a request)).
Proof.
  intros Hinv Hev. cbn in *. destruct (nodes c !! a) as [ag|] eqn:Ha; [|done].
  specialize (Hev ag eq_refl). destruct (agent_data_cache (sched c) !! a) as [cached|] eqn:Hc.
  - by eapply step_poll_inv.
  - destruct Hev as (Hi & Hrep & Hwc), request as [since ini]. cbn in Hi. subst ini.
    by apply step_join_inv.
Qed.

Lemma cluster_handle_inv c e :
  cluster_inv c → careful c e → revisions_left (cluster_handle c e) → cluster_inv (cluster_handle c e).
Proof.
  intros Hinv Hev Hr. destruct e as [a config cpus memory|a|o fate fresh now ex msg
    |o fate fresh cnow now|oa os now a request|a e|o e].
  - destruct Hinv as [Hs Hcap Hn Hr0 Hcov], Hev as [Ha Hc]. split; cbn; [done|done| |done|].
    + apply map_Forall_insert_2; [apply agent_on_start_ok|done].
    + intros b bg cached. destruct (decide (b = a)) as [->|Hne]; [congruence|].
      rewrite lookup_insert_ne by done. by apply Hcov.
  - destruct Hinv as [Hs Hcap Hn Hr0 Hcov]. split; cbn; [done|done|by apply map_Forall_delete|done|].
    intros b bg cached [_ Hb]%lookup_delete_Some. by apply Hcov.
  - by apply step_create_inv.
  - destruct Hev. by apply step_reconcile_inv.
  - by apply step_poll_any_inv.
  - by apply step_agent_inv.
  - by apply step_local_inv.
Qed.

Lemma careful_run_inv c es : cluster_inv c → careful_run c es → cluster_inv (foldl cluster_handle c es).
Proof.
  revert c. induction es as [|e es IH]; intros c Hinv; [done|]. cbn. intros (He & Hr & Hes).
  apply IH; [by apply cluster_handle_inv|done].
Qed.

Lemma cluster_start_inv finder : cluster_inv (cluster_start finder).
Proof.
  split; cbn; try apply map_Forall_empty; [apply scheduler_on_start_inv|split; apply map_Forall_empty|done].
Qed.


(** ** From a create to its confirmation *)

Lemma create_ok_reserved `{IterOrder} fate fresh now ex msg c c' r :
  cluster_inv c → vm_manifests (sched c) !! create_vmid msg = None →
  cluster_create fate fresh now ex msg c = (c', Ok r) →
  ∃ a ag, nodes c !! a = Some ag ∧ is_Some (agent_data_cache (sched c) !! a) ∧
    r = (agent_create_vm to_bytes ag msg (fresh (create_vmid msg))).1.2 ∧
    nodes c' = <[a := node_create fresh ag msg]> (nodes c) ∧
    agent_data_cache (sched c') = agent_data_cache (sched c) ∧
    vm_manifests (sched c') = <[create_vmid msg := create_config msg]> (vm_manifests (sched c)) ∧
    vm_placements (sched c') !! create_vmid msg = Some [pending_placement a now] ∧
    ∀ bg b, keeps_pending bg (vm_manifests (sched c)) (vm_manifests (sched c'))
           (vm_placements (sched c)) (vm_placements (sched c')) b.
Proof.
  intros [Hs [Hrefs _] _ _ _] Hm. unfold cluster_create. pose proof (inv_unplaced _ _ Hs Hm) as Hn.
  set (asked := ask_agent fate fresh (nodes c) msg).
  pose proof (scheduler_create_vm_cases to_bytes from_bytes now asked ex msg (sched c)) as Hcs.
  pose proof (λ bg b, create_keeps now asked ex msg (sched c) bg b Hs) as Hk. cbv zeta in Hk.
  destruct (scheduler_create_vm _ _ _ _ _ _ _) as [[s' reply] effects]. rewrite Hm in Hcs.
  intros [= <- ->]. destruct (schedule_agent_state (sched c) msg) as (p & Hs1 & _).
  destruct (schedule_agent (sched c) msg) as [s1 [a|e]] eqn:Hsch; cbn [fst] in Hs1;
    [|by destruct Hcs as (_ & ? & _)].
  pose proof (chosen_is_cached _ _ _ _ Hs Hrefs Hsch) as Hca. subst s1.
  destruct Hcs as (-> & Hask & Hs'). rewrite <-Hask in Hs'. subst asked. unfold ask_agent in Hask.
  destruct (nodes c !! a) as [ag|] eqn:Ha; [|done]. 
  destruct (executed (fate a) && acknowledged (fate a)) eqn:Hre; [|done].
  apply andb_prop in Hre as [Hre _].
  injection Hask as ->. exists a, ag. cbn. unfold deliver_create. rewrite Ha, Hre. cbn in Hk.
  split_and!; [done|done|done|done|by apply (Hk ag a)| | |intros bg b; by apply Hk].
  - subst s'. by destruct (_ ≫= _).
  - subst s'. destruct (_ ≫= _); cbn; unfold push_placement; rewrite Hn; apply lookup_insert_eq.
Qed.

(** The agent's registry after the create, as the scheduler's state covers it. *)
Lemma created_covers fresh now msg c c' a ag cached :
  cluster_inv c → nodes c !! a = Some ag → agent_data_cache (sched c) !! a = Some cached →
  vms ag !! create_vmid msg = None →
  vm_manifests (sched c') !! create_vmid msg = Some (create_config msg) →
  placement_of (vm_placements (sched c')) (create_vmid msg) a = Some (pending_placement a now) →
  keeps_pending ag (vm_manifests (sched c)) (vm_manifests (sched c'))
    (vm_placements (sched c)) (vm_placements (sched c')) a →
  ∃ base log,
    covers (vm_manifests (sched c')) (vm_placements (sched c')) a (node_create fresh ag msg)
      cached base log ∧
    is_Some (changed log (node_create fresh ag msg) !! create_vmid msg) ∧
    agent_status_revision cached < membership_revision (node_create fresh ag msg).
Proof.
  intros [Hs _ Hn Hrv Hcov] Ha Hca Hv Hm Hpl Hk.
  destruct (Hcov a ag cached Ha Hca) as (base & log & Hcv).
  apply (covers_keep _ _ _ _ _ _ _ _ _ Hk) in Hcv.
  apply (covers_create to_bytes _ _ _ _ _ _ _ msg (fresh (create_vmid msg))) in Hcv;
    [|by apply (Hn a ag)|by apply (Hrv a ag)|done|by eexists _, _, _].
  fold (node_create fresh ag msg) in Hcv. eexists _, _. split_and!; [exact Hcv| |].
  - destruct (node_create_vms fresh ag msg Hv) as (Hvms & _). eexists.
    apply map_lookup_filter_Some. rewrite Hvms, latest_changes_snoc. cbn.
    rewrite !lookup_insert_eq. eauto.
  - pose proof (logged_revision _ _ _ (cov_logged _ _ _ _ _ _ _ Hcv)) as Hr.
    rewrite (cov_revision _ _ _ _ _ _ _ Hcv). rewrite length_app in Hr. cbn in Hr. lia.
Qed.

(** C9. An accepted create is executed once and then confirmed. Let the scheduler
    retain no manifest of the VM and no agent hold it (a repeated create is
    answered from the retained manifest, and an agent that holds the VM answers
    with its old configuration), in a cluster that satisfies the invariant of
    [careful_run_inv] and has membership revisions left. When the create is then
    answered with success, whatever becomes of requests to other agents and
    whatever a lookup would find, exactly one agent holds the VM, with the requested configuration and exactly its vCPUs and memory, the
    VM is pending on that agent, and the next status poll of that agent
    (whether it is answered by a delta or by a full status) turns the placement
    into a running one that is confirmed at the poll, so that its load moves
    from the reservations to the reported usage. *)
Theorem cluster_create_confirmed `{IterOrder} fate fresh now ex msg c c' r :
  cluster_inv c → vm_manifests (sched c) !! create_vmid msg = None →
  map_Forall (λ _ ag, vms ag !! create_vmid msg = None) (nodes c) →
  cluster_create fate fresh now ex msg c = (c', Ok r) → revisions_left c' →
  reply_config r = Some (create_config msg) ∧
  ∃ a ag cached, nodes c' !! a = Some ag ∧ agent_data_cache (sched c') !! a = Some cached ∧
    (∀ b bg, nodes c' !! b = Some bg → vms bg !! create_vmid msg =
      if decide (b = a) then Some (cache_entry (fresh (create_vmid msg)) (create_config msg)) else None) ∧
    vm_placements (sched c') !! create_vmid msg = Some [pending_placement a now] ∧
    ∀ oa os now' request,
      initial request = true ∨ since_revision request = agent_status_revision cached →
      let s := sched (cluster_poll oa os now' a ag request c') in
      placement_of (vm_placements s) (create_vmid msg) a =
        Some (confirmed now' a (Some (pending_placement a now))) ∧
      ∃ next, agent_data_cache s !! a = Some next ∧ snapshot_of a ag next.
Proof.
  intros Hinv Hm Hfree Hc Hrev. destruct (Hinv) as [Hs _ Hn Hrv Hcov].
  destruct (create_ok_reserved _ _ _ _ _ _ _ _ Hinv Hm Hc)
    as (a & ag & Ha & [cached Hca] & -> & Hns & Hcc & Hmm & Hp & Hk).
  pose proof (Hfree a ag Ha) as Hv. cbn in Hv. split; [unfold agent_create_vm; by rewrite Hv|].
  destruct (node_create_vms fresh ag msg Hv) as (Hvms & _).
  exists a, (node_create fresh ag msg), cached. rewrite Hns, Hcc.
  split_and!; [apply lookup_insert_eq|done| |done|].
  { intros b bg. destruct (decide (b = a)) as [->|Hne].
    - rewrite lookup_insert_eq. intros [= <-]. rewrite Hvms. apply lookup_insert_eq.
    - rewrite lookup_insert_ne by done. apply Hfree. }
  assert (sched_inv (sched c')) as Hs'.
  { unfold cluster_create in Hc. pose proof (scheduler_create_vm_inv to_bytes from_bytes now
      (ask_agent fate fresh (nodes c) msg) ex msg _ Hs) as Hi.
    destruct (scheduler_create_vm _ _ _ _ _ _ _) as [[s' reply] effects]. by injection Hc as <- _. }
  intros oa os now' request Hreq. cbv zeta. unfold cluster_poll. cbn [sched].
  assert (placement_of (vm_placements (sched c')) (create_vmid msg) a =
    Some (pending_placement a now)) as Hpl.
  { rewrite (placement_of_single _ _ _ _ _ Hp). by rewrite decide_True. }
  destruct (created_covers fresh now msg c c' a ag cached Hinv Ha Hca Hv) as (base & log & Hcv & Hch & Hgt);
    [rewrite Hmm; apply lookup_insert_eq|done|apply Hk|].
  assert (membership_revision (node_create fresh ag msg) < u64_max) as Hlt.
  { apply (Hrev a). rewrite Hns. apply lookup_insert_eq. }
  rewrite <-Hcc in Hca.
  destruct (poll_applies oa os now' a _ cached _ _ request _ Hs' Hlt Hca Hcv Hreq)
    as [[Hle _]|(next & Hnext & _ & Hso & Hby)]; [lia|].
  split; [|exists next; rewrite Hnext; split; [apply lookup_insert_eq|done]].
  by apply (rep_confirmed _ _ _ _ _ Hby).
Qed.
End cluster.

(** ** Recovery from the death of an agent *)

Lemma stopped_unplaced a s v :
  Forall (λ e, pl_agent_id e = a) (default [] (vm_placements s !! v)) →
  ¬ (reported_on (agent_vm_index s) a v ∧ has_discovered (vm_data_cache s) v) →
  let s1 := (agent_updater_stopped a s).1 in
  agent_data_cache s1 = delete a (agent_data_cache s) ∧
  agent_vm_index s1 = delete a (agent_vm_index s) ∧ vm_manifests s1 = vm_manifests s ∧
  default [] (vm_placements s1 !! v) = [].
Proof.
  intros Hall Hgone. cbn. split_and!; [done..|]. unfold remove_agent_placements.
  rewrite lookup_retain_all. destruct (vm_placements s !! v) as [l|]; [|done]. cbn in *.
  apply filter_none. eapply Forall_impl; [exact Hall|]. intros e He. cbn. rewrite elem_of_filter.
  unfold reported_on in Hgone. destruct (agent_vm_index s !! a); cbn; set_solver.
Qed.

Lemma lookup_after_expiry `{IterOrder} now s v :
  vm_placements (after_expiry now s) !! v =
  filter (unexpired now (has_discovered (vm_data_cache s) v)) <$> vm_placements s !! v.
Proof.
  unfold after_expiry. rewrite <-lookup_cleanup_placements.
  by destruct (cleanup_unresolved_vm_cache _ _ _).
Qed.

(** C10. The VMs of a dead agent are scheduled again. When the updater of an
    agent gives up (or its link dies: both end in the same cleanup), take a VM
    with a retained manifest that was placed nowhere else and that no
    discovered actor keeps alive. The next reconciliation pass dispatches it. Its
    turn comes in a consistent scheduler state (its pending sums, if cached, are
    those of its placements) that has exactly the surviving agents and
    their reports, all the manifests, and every VM's placements as they were after expiry or as the
    pass leaves them. If a surviving agent is eligible there, an eligible one
    that no surviving agent outscores, and no other, is asked to create the VM
    and then holds its only, pending, placement (none if the request could not
    be sent); the VM stays undispatched only if no surviving agent is
    eligible. *)
Theorem agent_death_recovers `{IterOrder} cleanup_now now told a s v m :
  sched_inv s → refs_agree s → vm_manifests s !! v = Some m →
  map_Forall (λ _ agent, status_ram (agent_data agent) ≤ u64_max) (agent_data_cache s) →
  valid_request {| create_vmid := v; create_config := m |} →
  Forall (λ e, pl_agent_id e = a) (default [] (vm_placements s !! v)) →
  ¬ (reported_on (agent_vm_index s) a v ∧ has_discovered (vm_data_cache s) v) →
  let request := {| create_vmid := v; create_config := m |} in
  let s1 := (agent_updater_stopped a s).1 in
  let '(s2, sent) := reconcile_vm_placements cleanup_now now told s1 in
  ∃ t, sched_inv t ∧ agent_data_cache t = delete a (agent_data_cache s) ∧
    agent_vm_index t = delete a (agent_vm_index s) ∧ vm_manifests t = vm_manifests s ∧
    (∀ w, vm_placements t !! w = vm_placements (after_expiry cleanup_now s1) !! w ∨
          vm_placements t !! w = vm_placements s2 !! w) ∧
    let pending := (pending_resources t).2 in
    (∃ b agent, b ≠ a ∧ agent_data_cache s !! b = Some agent ∧ eligible t agent pending m ∧
      (∀ b' other, b' ≠ a → agent_data_cache s !! b' = Some other →
        score_gt (score_agent t request other pending) (score_agent t request agent pending) = false) ∧
      (∀ b', TellCreate b' request ∈ sent ↔ b' = b) ∧
      vm_placements s2 !! v = Some (if told b request then [pending_placement b (now v)] else [])) ∨
    ((∀ b' agent, b' ≠ a → agent_data_cache s !! b' = Some agent → ¬ eligible t agent pending m) ∧
      (∀ b', TellCreate b' request ∉ sent) ∧ default [] (vm_placements s2 !! v) = []).
Proof.
  intros Hinv Hrefs Hm Hram Hvalid Hall Hgone request s1.
  destruct (stopped_unplaced a s v Hall Hgone) as (Hca & Hia & Hma & Hp). fold s1 in Hca, Hia, Hma, Hp.
  assert (sched_inv s1) as Hinv1 by exact (scheduler_handle_inv (λ _, []) (λ _, None) s
    (SeAgentUpdaterStopped a) Hinv). clearbody s1.
  assert (vm_manifests s1 !! v = Some m) as Hm1 by congruence.
  assert (default [] (vm_placements (after_expiry cleanup_now s1) !! v) = []) as Hp0.
  { rewrite lookup_after_expiry. destruct (vm_placements s1 !! v); cbn in *; by subst. }
  pose proof (reconcile_outcome cleanup_now now told s1 v m Hinv1 Hm1) as Hr.
  destruct (reconcile_vm_placements _ _ _ _) as [s2 sent]. cbv zeta in Hr. fold request in Hr.
  destruct Hr as [_ Hr]. rewrite decide_True in Hr by exact Hp0.
  destruct Hr as (t & Hint & Hct & Hit & Hmt & Hpt & Hres). rewrite Hca in Hct. exists t.
  split; [done|]. split; [done|]. split; [congruence|]. split; [congruence|]. split; [done|]. cbv zeta.
  assert (map_Forall (λ _ agent, status_ram (agent_data agent) ≤ u64_max) (agent_data_cache t)) as Hramt.
  { rewrite Hct. by apply map_Forall_delete. }
  pose proof (schedule_agent_outcome t request Hvalid Hramt) as Ho.
  destruct (pending_resources t) as [t' pending]. cbn [snd].
  destruct (schedule_agent t request) as [t'' [b|e]]; cbn [snd] in *; rewrite Hct in Ho; [left|right].
  - destruct Ho as (id & agent & [Hne Hid]%lookup_delete_Some & <- & Hel & Hbest).
    rewrite (Hrefs id agent Hid) in *. exists id, agent. split_and!; [done|done|done| |by apply Hres|by apply Hres].
    intros b' other Hb Hb'. apply (Hbest b'). by apply lookup_delete_Some.
  - destruct Ho as [_ Hno], Hres as [Hun ->]. split_and!; [|done|done]. intros b' agent Hb Ha.
    apply (Hno b'). by apply lookup_delete_Some.
Qed.
