(* ===== verification/ClusterExamples.v ===== *)
(** * A cluster of two nodes

    A concrete run of [Cluster]: two nodes of eight and four vCPUs join, a VM is
    created and confirmed, the node that holds it dies and the VM moves to the
    other one. The last examples show that the conditions of the capacity
    bound are needed. *)

From S2P Require Import Prelude RustString RustFloat SortedVec Manifest Messages Config Agent.
From S2P Require Import Cache CacheFacts Scheduling SchedulingFacts SchedHandlers SchedInv.
From S2P Require Import Capacity SchedThms Updaters Witnesses Accounting Cluster.
Open Scope N_scope.

#[local] Existing Instance canonical_order.

Definition node_create_msg (vmid vcpus memory : N) : CreateVM :=
  {| create_vmid := vmid; create_config := minimal_manifest vmid vcpus memory |}.
Definition first_poll : GetAgentStatus := {| since_revision := 0; initial := true |}.

(** Requests that are executed and answered, that are lost, and that are
    executed although no answer comes back. *)
Definition answered (_ : ActorId) : Fate := {| executed := true; acknowledged := true |}.
Definition lost (_ : ActorId) : Fate := {| executed := false; acknowledged := false |}.
Definition unanswered (_ : ActorId) : Fate := {| executed := true; acknowledged := false |}.
Definition spawned (vmid : Ulid) : ActorId := vmid + 100.

Definition cl_run (c : Cluster) (es : list ClusterEvent) : Cluster :=
  foldl (cluster_handle ex_to_bytes ex_from_bytes None) c es.
Definition cl_create (now : N) (msg : CreateVM) (c : Cluster) :
    Cluster * result SchedulerError CreateVMReply :=
  cluster_create ex_to_bytes ex_from_bytes answered spawned now false msg c.
Definition ev_poll (now a : N) (request : GetAgentStatus) : ClusterEvent :=
  CePoll canonical_order canonical_order now a request.
Definition ev_create (fate : ActorId → Fate) (now vmid vcpus : N) : ClusterEvent :=
  CeCreate canonical_order fate spawned now false (node_create_msg vmid vcpus 1024).

Definition cl0 : Cluster := cluster_start 1.
Definition join_events : list ClusterEvent := [CeStart 10 example_config 8 1048576; ev_poll 1 10 first_poll].
Definition create_events : list ClusterEvent :=
  join_events ++ [ev_create answered 2 7 4; ev_poll 3 10 {| since_revision := 0; initial := false |}].
Definition cl2 : Cluster := cl_run cl0 join_events.
Definition cl4 : Cluster := cl_run cl0 create_events.

Lemma revisions_left_decide c :
  bool_decide (revisions_left c) = true → revisions_left c.
Proof. apply bool_decide_eq_true_1. Qed.

Notation careful_ex := (careful None).

(** The condition of the next event of a run, its revisions being checked. *)
Ltac careful_next := split; [|split; [apply revisions_left_decide; vm_compute; reflexivity|]].

(** An agent joins, and a later poll is incremental. *)
Lemma poll_joins c now a cpus memory :
  nodes c !! a = Some (agent_on_start example_config cpus memory) →
  agent_data_cache (sched c) !! a = None →
  bool_decide (representable (joined None canonical_order a (agent_on_start example_config cpus memory))) = true →
  bool_decide (within_capacity (vm_manifests (sched c)) (vm_placements (sched c))
    (joined None canonical_order a (agent_on_start example_config cpus memory))) = true →
  careful_ex c (ev_poll now a first_poll).
Proof.
  intros Ha Hc Hr%bool_decide_eq_true_1 Hw%bool_decide_eq_true_1 ag Ha'. rewrite Ha in Ha'.
  injection Ha' as <-. by rewrite Hc.
Qed.

Lemma poll_follows c now a since :
  agent_status_revision <$> agent_data_cache (sched c) !! a = Some since →
  careful_ex c (ev_poll now a {| since_revision := since; initial := false |}).
Proof.
  intros Hc ag _. destruct (agent_data_cache (sched c) !! a); [|done]. right. by injection Hc as <-.
Qed.

Lemma join_careful : careful_run ex_to_bytes ex_from_bytes None cl0 join_events.
Proof.
  careful_next; [done|]. careful_next; [|done].
  apply (poll_joins _ 1 10 8 1048576); vm_compute; reflexivity.
Qed.

Lemma create_careful : careful_run ex_to_bytes ex_from_bytes None cl0 create_events.
Proof.
  careful_next; [done|]. careful_next; [|careful_next; [|careful_next; [|done]]].
  - apply (poll_joins _ 1 10 8 1048576); vm_compute; reflexivity.
  - by right.
  - apply (poll_follows _ 3 10 0). vm_compute. reflexivity.
Qed.

Lemma cl2_inv : cluster_inv cl2.
Proof. exact (careful_run_inv _ _ _ _ _ (cluster_start_inv 1) join_careful). Qed.


(** The created VM is held by node 10 alone, and confirmed by the next poll. *)
Lemma cluster_create_confirmed_witness :
  ∃ r, (cl_create 2 (node_create_msg 7 4 1024) cl2).2 = Ok r ∧
    reply_config r = Some (minimal_manifest 7 4 1024).
Proof.
  destruct (cl_create 2 (node_create_msg 7 4 1024) cl2) as [c' [r|e]] eqn:Hc;
    [|by vm_compute in Hc].
  assert (Hf : map_Forall (λ _ ag, vms ag !! 7 = None) (nodes cl2)).
  { apply (bool_decide_eq_true_1 _). vm_compute. reflexivity. }
  assert (Hr : revisions_left c').
  { change c' with ((c', Ok (E := SchedulerError) r).1). rewrite <-Hc.
    apply revisions_left_decide. vm_compute. reflexivity. }
  pose proof (cluster_create_confirmed ex_to_bytes ex_from_bytes None answered spawned
    2 false (node_create_msg 7 4 1024) cl2 c' r
    cl2_inv eq_refl Hf Hc Hr) as [H _].
  by exists r.
Defined.

Example cl4_confirmed :
  placement_of (vm_placements (sched cl4)) 7 10 =
  Some {| pl_agent_id := 10; pl_lifecycle := Running; pl_created_at := 2;
          pl_last_confirmed_at := Some 3 |}.
Proof. vm_compute. reflexivity. Qed.

(** ** The node dies *)

Definition second_events : list ClusterEvent :=
  [CeStart 20 example_config 4 1048576; ev_poll 4 20 first_poll].
Definition cl5 : Cluster := cl_run cl4 second_events.

Lemma cl5_inv : cluster_inv cl5.
Proof.
  apply careful_run_inv; [exact (careful_run_inv _ _ _ _ _ (cluster_start_inv 1) create_careful)|].
  careful_next; [split; vm_compute; reflexivity|]. careful_next; [|done].
  apply (poll_joins _ 4 20 4 1048576); vm_compute; reflexivity.
Qed.

Lemma cl5_ram : map_Forall (λ _ agent, status_ram (agent_data agent) ≤ u64_max) (agent_data_cache (sched cl5)).
Proof. apply (bool_decide_eq_true_1 _). vm_compute. reflexivity. Qed.

Lemma cl5_placed : Forall (λ e, pl_agent_id e = 10) (default [] (vm_placements (sched cl5) !! 7)).
Proof. apply (bool_decide_eq_true_1 _). vm_compute. reflexivity. Qed.

Lemma cl5_undiscovered : ¬ (reported_on (agent_vm_index (sched cl5)) 10 7 ∧
  has_discovered (vm_data_cache (sched cl5)) 7).
Proof. apply (bool_decide_eq_true_1 _). vm_compute. reflexivity. Qed.

Lemma cl5_manifest : vm_manifests (sched cl5) !! 7 = Some (minimal_manifest 7 4 1024).
Proof. vm_compute. reflexivity. Qed.

Example cl5_dispatch :
  (reconcile_vm_placements (from_secs 1) (λ _, from_secs 1) (λ _ _, true)
    (agent_updater_stopped 10 (sched cl5)).1).2 = [TellCreate 20 (node_create_msg 7 4 1024)].
Proof. vm_compute. reflexivity. Qed.

(** The VM actor was never discovered, so the death of node 10 frees the VM and
    the next pass sends it to node 20. *)
Lemma agent_death_recovers_witness :
  let '(s2, sent) := reconcile_vm_placements (from_secs 1) (λ _, from_secs 1) (λ _ _, true)
    (agent_updater_stopped 10 (sched cl5)).1 in
  ∃ b, b ≠ 10 ∧ TellCreate b (node_create_msg 7 4 1024) ∈ sent ∧
    vm_placements s2 !! 7 = Some [pending_placement b (from_secs 1)].
Proof.
  pose proof cl5_dispatch as Hd.
  pose proof (agent_death_recovers (from_secs 1) (λ _, from_secs 1) (λ _ _, true) 10 (sched cl5) 7
    (minimal_manifest 7 4 1024) (ci_sched _ cl5_inv) (proj1 (ci_capacity _ cl5_inv)) cl5_manifest cl5_ram
    (conj eq_refl eq_refl) cl5_placed cl5_undiscovered) as H.
  cbv zeta in H. destruct (reconcile_vm_placements _ _ _ _) as [s2 sent].
  destruct H as (t & _ & _ & _ & _ & _ & [(b & agent & Hb & _ & _ & _ & Hs & Hp)|(_ & Hn & _)]).
  - exists b. split; [exact Hb|]. split; [by apply Hs|exact Hp].
  - cbn in Hd. subst sent. exfalso. apply (Hn 20). by apply list_elem_of_singleton.
Defined.

(** ** The conditions are needed

    The node has eight vCPUs and takes sixteen. In each of these runs one
    condition of [careful] fails once, and the node ends with twenty-eight. *)

(** A delete releases the reservation at once, while the agent holds the VM
    until its actor has stopped. *)
Example early_delete_overcommits :
  let c := cl_run cl2 [ev_create answered 2 7 14;
    CeSched canonical_order (SeDelete (Ok (Some 107)) (Ok ()) 7); ev_create answered 3 8 14] in
  used_vcpus <$> nodes c !! 10 = Some 28.
Proof. vm_compute. reflexivity. Qed.

(** A pass expires the reservation before the agent was polled, and its own
    request is lost. *)
Example expiry_overcommits :
  let c := cl_run cl2 [ev_create answered 2 7 14;
    CeReconcile canonical_order lost spawned (from_secs 1000) (λ _, from_secs 1000);
    ev_create answered (from_secs 1001) 8 14] in
  used_vcpus <$> nodes c !! 10 = Some 28.
Proof. vm_compute. reflexivity. Qed.

(** The agent executes a create whose answer is lost, the VM's actor is not
    found, and the scheduler rolls back. *)
Example lost_answer_overcommits :
  let c := cl_run cl2 [ev_create unanswered 2 7 14; ev_create answered 3 8 14] in
  used_vcpus <$> nodes c !! 10 = Some 28.
Proof. vm_compute. reflexivity. Qed.

(** The same create with its answer lost, but with the actor found: the
    reservation stays and the second create is refused. *)
Example lost_answer_found :
  let c := cl_run cl2 [CeCreate canonical_order unanswered spawned 2 true (node_create_msg 7 14 1024);
    ev_create answered 3 8 14] in
  used_vcpus <$> nodes c !! 10 = Some 14.
Proof. vm_compute. reflexivity. Qed.
