(* ===== verification/SchedulerTests.v ===== *)
(** * The scheduler's unit tests on the model

    Every test of [scheduler_actor/tests.rs], translated statement by
    statement: the state it builds, the operation it calls and its assertions,
    as a boolean that evaluates on the definitions of this development. The
    clock of a test reads [t0] throughout. *)

From S2P Require Import Prelude RustString RustFloat SortedVec Manifest Messages Cache CacheFacts.
From S2P Require Import Scheduling Json ManifestJson ManifestExamples.
Open Scope N_scope.

#[local] Existing Instance canonical_order.

(** [pending_resources_for_agent], the tests' view of the reservations. *)
Definition pending_resources_for_agent (manifests : Manifests) (placements : Placements)
    (agent_id : ActorId) : N * N :=
  default (0, 0) (pending_resources_by_agent manifests placements !! agent_id).

(** ** Fixtures *)

Definition t0 : Instant := from_secs 1000.
Definition gib (n : N) : N := n * 1073741824.
Definition vmid : Ulid := default 0 (ulid_from_string (lit "01ARZ3NDEKTSV4RRFFQ69G5FAV")).

Definition test_manifest (vcpus memory_bytes : N) : VmManifest := {|
  api_version := MANIFEST_VERSION;
  manifest_id := vmid;
  desired := {|
    metadata := {| metadata_name := lit "test"; metadata_labels := ∅; metadata_annotations := ∅ |};
    compute := {| compute_vcpus := vcpus; compute_max_vcpus := None;
                  compute_memory_bytes := memory_bytes |};
    storage := [];
    networks := [];
    placement := {| placement_node := None; placement_required_labels := ∅; placement_affinity := [] |};
    boot := {| boot_start := false; boot_firmware := None; boot_kernel := None; boot_cmdline := None |};
    cloud_init := None;
    vsock := None |};
  observed := None |}.

Definition requirement (operator : Operator) (values : list rstring) : AffinityRequirement := {|
  requirement_key := lit "tier"; requirement_table := Label;
  requirement_operator := operator; requirement_values := values |}.

Definition pending_at (agent_id : ActorId) (created_at : Instant) : VmPlacement := {|
  pl_agent_id := agent_id; pl_lifecycle := Pending; pl_created_at := created_at;
  pl_last_confirmed_at := None |}.
Definition running_at (agent_id : ActorId) (confirmed_at : Instant) : VmPlacement := {|
  pl_agent_id := agent_id; pl_lifecycle := Running; pl_created_at := t0;
  pl_last_confirmed_at := Some confirmed_at |}.
Definition test_status (hostname : rstring) (vms : list Ulid) : AgentStatus := {|
  status_hostname := hostname; status_vcpus := 1; status_ram := 1; status_used_vcpus := 0;
  status_used_ram := 0; status_vms := vms;
  status_metadata := {| object_labels := ∅; object_annotations := ∅ |} |}.
Definition test_manifests : Manifests := {[vmid := test_manifest 1 1]}.

Definition contains_key {A} (m : gmap N A) (k : N) : bool := is_some (m !! k).
(** [map[&k]]: the test fails if the key is missing. *)
Definition with_key {A} (m : gmap N A) (k : N) (p : A → bool) : bool :=
  match m !! k with Some a => p a | None => false end.
Definition is_empty {A} (l : list A) : bool := match l with [] => true | _ => false end.

Definition test_scheduler (actors : gmap ActorId Ulid) (placements : Placements) (data : DataCache)
    (index : VmIndex) (kinds : gmap ActorId CachedActorKind) : SchedulerActor := {|
  agent_data_cache := ∅; agent_keepalive_tasks := ∅; vm_actorid_ulid_map := actors;
  vm_manifests := test_manifests; vm_placements := placements; vm_data_cache := data;
  vm_keepalive_tasks := ∅; pending_resources_cache := None; agent_vm_index := index;
  actor_kinds := kinds; cache_actor_finder := None |}.
Definition placeholder : DataCache := {[vmid := [{| vm_actor_ref := None |}]]}.

(** ** Placements *)

Definition expires_unresolved_vm_placeholder_but_retains_vm_intent : bool :=
  let '(placements, data_cache) :=
    cleanup_unresolved_vm_cache t0 {[vmid := [pending_at 1 (t0 - from_secs 121)]]} ∅ in
  contains_key test_manifests vmid && with_key placements vmid is_empty &&
  negb (contains_key data_cache vmid).

Definition reserves_pending_vm_resources_until_agent_status_confirms_them : bool :=
  bool_decide (pending_resources_for_agent {[vmid := test_manifest 4 (gib 8)]}
    {[vmid := [pending_at 1 t0]]} 1 = (4, gib 8)).

Definition reconciling_source_agent_preserves_destination_migration_placement : bool :=
  let placements : Placements := {[vmid := [running_at 1 t0]]} in
  let placements :=
    reconcile_agent_placements t0 2 (test_status (lit "destination") [vmid]) test_manifests placements in
  let placements :=
    reconcile_agent_placements t0 1 (test_status (lit "source") []) test_manifests placements in
  (size test_manifests =? 1)%nat && with_key placements vmid (λ remaining,
    (length remaining =? 2)%nat &&
    existsb (λ entry, pl_agent_id entry =? 1) remaining &&
    existsb (λ entry, pl_agent_id entry =? 2) remaining).

Definition agent_delta_removal_unplaces_running_placement : bool :=
  with_key (reconcile_agent_delta t0 1 [] [vmid] test_manifests {[vmid := [running_at 1 t0]]})
    vmid is_empty.

Definition agent_delta_removal_retains_pending_placement : bool :=
  with_key (reconcile_agent_delta t0 1 [] [vmid] test_manifests {[vmid := [pending_at 1 t0]]})
    vmid (λ entries, (length entries =? 1)%nat &&
      match entries with entry :: _ => bool_decide (pl_lifecycle entry = Pending) | [] => false end).

Definition departed_agent_leaves_empty_placement_for_reconciliation : bool :=
  let placements := remove_agent_placements 1 ∅ {[vmid := [running_at 1 t0]]} in
  contains_key placements vmid && with_key placements vmid is_empty.

Definition departed_agent_preserves_placement_while_vm_actor_is_reachable : bool :=
  with_key (remove_agent_placements 1 {[vmid]} {[vmid := [running_at 1 t0]]}) vmid
    (λ entries, (length entries =? 1)%nat).

Definition discovered_vm_reconciles_agent_snapshot_received_first : bool :=
  with_key (reconcile_discovered_vm (λ _, t0) vmid {[1 := {[vmid]}]} test_manifests ∅) vmid
    (λ entries, match entries with
                | placement :: _ => (pl_agent_id placement =? 1) &&
                    bool_decide (pl_lifecycle placement = Running)
                | [] => false
                end).

Definition pending_placement_survives_full_snapshot_until_pending_timeout : bool :=
  with_key (reconcile_agent_placements t0 1 (test_status (lit "agent") []) test_manifests
    {[vmid := [pending_at 1 t0]]}) vmid
    (λ entries, match entries with
                | entry :: _ => bool_decide (pl_lifecycle entry = Pending)
                | [] => false
                end).

Definition stale_running_placement_is_expired_by_full_snapshot : bool :=
  negb (contains_key (reconcile_agent_placements t0 1 (test_status (lit "agent") []) test_manifests
    {[vmid := [running_at 1 (t0 - from_secs 31)]]}) vmid).

(** ** Cleanup and rollback *)

Definition vm_cleanup_unplaces_vm_without_another_discovered_actor : bool :=
  let s := (cleanup_vm_actor 2
    (test_scheduler {[2 := vmid]} {[vmid := [running_at 1 t0]]} placeholder ∅ ∅)).1 in
  contains_key (vm_manifests s) vmid && with_key (vm_placements s) vmid is_empty.

Definition failed_create_rolls_back_state_without_an_actor : bool :=
  let '(_, (manifests, placements, data_cache)) :=
    rollback_failed_create vmid false None ∅ test_manifests {[vmid := [pending_at 1 t0]]} placeholder in
  negb (contains_key manifests vmid) && negb (contains_key placements vmid) &&
  negb (contains_key data_cache vmid).

Definition failed_create_keeps_state_if_actor_exists : bool :=
  let '(_, (manifests, _, _)) := rollback_failed_create vmid true None ∅ test_manifests ∅ ∅ in
  contains_key manifests vmid.

Definition explicit_stop_removes_vm_intent_and_actor_mapping : bool :=
  let s := remove_vm_intent vmid
    (test_scheduler {[2 := vmid]} {[vmid := []]} placeholder {[1 := {[vmid]}]} ∅) in
  negb (contains_key (vm_manifests s) vmid) && negb (contains_key (vm_placements s) vmid) &&
  negb (contains_key (vm_data_cache s) vmid) && negb (contains_key (vm_actorid_ulid_map s) 2) &&
  with_key (agent_vm_index s) 1 (λ vmids, negb (bool_decide (vmid ∈ vmids))).

Definition agent_cleanup_does_not_remove_unrelated_vm_state : bool :=
  let s := (cleanup_agent_actor 1
    (test_scheduler {[2 := vmid]} {[vmid := [running_at 3 t0]]} placeholder ∅ {[1 := KindAgent]})).1 in
  contains_key (vm_placements s) vmid && contains_key (vm_manifests s) vmid &&
  contains_key (vm_actorid_ulid_map s) 2 && contains_key (vm_data_cache s) vmid.

Definition vm_cleanup_does_not_remove_unrelated_agent_state : bool :=
  let s := (cleanup_vm_actor 2 (test_scheduler {[2 := vmid]} ∅ placeholder ∅ {[1 := KindAgent]})).1 in
  contains_key (actor_kinds s) 1 && contains_key (vm_manifests s) vmid &&
  contains_key (vm_data_cache s) vmid.

(** ** Affinity and capacity *)

Definition evaluates_membership_and_missing_keys : bool :=
  let tier := Some (lit "frontend") in
  evaluate_table_value tier (requirement OpIn [lit "frontend"; lit "api"]) &&
  negb (evaluate_table_value tier (requirement OpIn [lit "backend"])) &&
  negb (evaluate_table_value None (requirement OpIn [lit "frontend"])) &&
  evaluate_table_value None (requirement OpNotIn [lit "frontend"]).

Definition evaluates_not_in_and_numeric_comparisons : bool :=
  let tier := Some (lit "4") in
  evaluate_table_value tier (requirement OpNotIn [lit "5"]) &&
  evaluate_table_value tier (requirement OpLt [lit "5"]) &&
  evaluate_table_value tier (requirement OpGt [lit "3"]) &&
  negb (evaluate_table_value tier (requirement OpLt [lit "4"; lit "5"])) &&
  negb (evaluate_table_value tier (requirement OpGt [lit "not-a-number"])).

Definition test_rule (inverse : bool) (requirements : list AffinityRequirement) : AffinityRule := {|
  rule_strictness := Required; rule_affinity_type := Agent; rule_inverse := inverse;
  rule_requirements := requirements |}.

Definition evaluates_inverse_and_empty_requirements : bool :=
  let metadata : gmap rstring rstring * gmap rstring rstring :=
    ({[lit "tier" := lit "frontend"]}, ∅) in
  negb (evaluate_affinity_rule [metadata] (test_rule true [requirement OpIn [lit "frontend"]])) &&
  evaluate_affinity_rule [metadata] (test_rule true [requirement OpIn [lit "backend"]]) &&
  negb (evaluate_affinity_rule [] (test_rule false [])).

Definition evaluates_required_preferred_and_capacity_rules : bool :=
  bool_decide (affinity_delta Required true = Some 0%Z) &&
  bool_decide (affinity_delta Required false = None) &&
  bool_decide (affinity_delta (Preferred 7) true = Some 7%Z) &&
  bool_decide (affinity_delta (Preferred 7) false = Some 0%Z) &&
  has_capacity 8 2 2 16 4 4 && has_capacity 8 6 2 16 4 4 && has_capacity 8 2 2 16 12 4 &&
  negb (has_capacity 8 7 2 16 4 4) && negb (has_capacity 8 2 2 16 13 4).

(** The suite passes. *)
Example scheduler_tests_pass : forallb id
  [expires_unresolved_vm_placeholder_but_retains_vm_intent;
   reserves_pending_vm_resources_until_agent_status_confirms_them;
   reconciling_source_agent_preserves_destination_migration_placement;
   agent_delta_removal_unplaces_running_placement; agent_delta_removal_retains_pending_placement;
   departed_agent_leaves_empty_placement_for_reconciliation;
   departed_agent_preserves_placement_while_vm_actor_is_reachable;
   discovered_vm_reconciles_agent_snapshot_received_first;
   pending_placement_survives_full_snapshot_until_pending_timeout;
   stale_running_placement_is_expired_by_full_snapshot;
   vm_cleanup_unplaces_vm_without_another_discovered_actor;
   failed_create_rolls_back_state_without_an_actor; failed_create_keeps_state_if_actor_exists;
   explicit_stop_removes_vm_intent_and_actor_mapping;
   agent_cleanup_does_not_remove_unrelated_vm_state; vm_cleanup_does_not_remove_unrelated_agent_state;
   evaluates_membership_and_missing_keys; evaluates_not_in_and_numeric_comparisons;
   evaluates_inverse_and_empty_requirements; evaluates_required_preferred_and_capacity_rules] = true.
Proof. vm_compute. reflexivity. Qed.
