(* ===== verification/ManifestTests.v ===== *)
(** * The manifest's unit tests on the model

    The tests of [odorobo/src/manifest.rs], translated statement by statement.
    A fixture is the JSON value of its file; where a test edits the text of a
    fixture, the value is edited. [Ulid::generate] is an argument. The test of
    the generated JSON schema is about the [schemars] library and is left out. *)

From S2P Require Import Prelude RustString RustFloat SortedVec Manifest Json ManifestJson ManifestExamples.
Open Scope N_scope.

#[local] Instance ManifestError_eq_dec : EqDecision ManifestError.
Proof. solve_decision. Defined.

(** ** Editing a manifest *)

Definition with_desired (f : DesiredState → DesiredState) (m : VmManifest) : VmManifest := {|
  api_version := api_version m; manifest_id := manifest_id m; desired := f (desired m);
  observed := observed m |}.
Definition with_version (v : N) (m : VmManifest) : VmManifest := {|
  api_version := v; manifest_id := manifest_id m; desired := desired m; observed := observed m |}.
Definition edit_desired (name : rstring) (c : Compute) (s : list Storage) (n : list Network)
    (p : Placement) (ci : option CloudInit) (v : option Vsock) (d : DesiredState) : DesiredState := {|
  metadata := {| metadata_name := name; metadata_labels := metadata_labels (metadata d);
                 metadata_annotations := metadata_annotations (metadata d) |};
  compute := c; storage := s; networks := n; placement := p; boot := boot d; cloud_init := ci;
  vsock := v |}.
Definition edited (m : VmManifest) (name : option rstring) (c : option Compute)
    (s : option (list Storage)) (n : option (list Network)) (p : option Placement)
    (ci : option CloudInit) (v : option Vsock) : VmManifest :=
  with_desired (λ d, edit_desired (default (metadata_name (metadata d)) name)
    (default (compute d) c) (default (storage d) s) (default (networks d) n)
    (default (placement d) p) ci v d) m.

Definition set_compute (m : VmManifest) (c : Compute) : VmManifest :=
  edited m None (Some c) None None None None None.
Definition set_storage (m : VmManifest) (s : list Storage) : VmManifest :=
  edited m None None (Some s) None None None None.
Definition set_networks (m : VmManifest) (n : list Network) : VmManifest :=
  edited m None None None (Some n) None None None.
Definition set_affinity (m : VmManifest) (rules : list AffinityRule) : VmManifest :=
  edited m None None None None (Some {| placement_node := placement_node (placement (desired m));
    placement_required_labels := placement_required_labels (placement (desired m));
    placement_affinity := rules |}) None None.
Definition set_cloud_init (m : VmManifest) (ci : CloudInit) : VmManifest :=
  edited m None None None None None (Some ci) None.
Definition set_vsock (m : VmManifest) (v : Vsock) : VmManifest :=
  edited m None None None None None None (Some v).

(** [assert_eq!(manifest.validate(), Err(e))] and [Ok(())]. *)
Definition fails_with (e : ManifestError) (m : VmManifest) : bool :=
  match validate m with Err e' => bool_decide (e' = e) | Ok _ => false end.
Definition passes (m : VmManifest) : bool := match validate m with Ok _ => true | Err _ => false end.
Definition fails_like (p : ManifestError → bool) (m : VmManifest) : bool :=
  match validate m with Err e => p e | Ok _ => false end.
Definition refused (j : Json) : bool :=
  match manifest_from_json j with Err _ => true | Ok _ => false end.

(** ** Fixtures *)

Definition cloud_init_json : Json :=
  fixture "01J00000000000000000000004" "cloud-init"
    (obj [("vcpus", JInt 2); ("memory_bytes", JInt 2147483648)]%string)
    (JArr []) (JArr []) (obj []) true
    [("cloud_init", obj
      [("user_data", JStr (lit "#cloud-config" ++ [10] ++ lit "users:" ++ [10] ++
                           lit "  - name: odorobo" ++ [10])%list);
       ("meta_data", JStr (lit "instance-id: vm-04" ++ [10] ++
                           lit "local-hostname: cloud-init" ++ [10])%list)])]%string.

Definition minimal : VmManifest := read minimal_json.

(** The minimal fixture with other values and additional entries. *)
Definition minimal_variant (version vcpus : Z) (top name_rest start_rest : list (string * Json)) : Json :=
  obj ([("api_version"%string, JInt version)] ++ top ++
   [("id"%string, JStr (lit "01J00000000000000000000000"));
    ("desired"%string, obj
      [("metadata"%string, obj ([("name"%string, JStr (lit "minimal"))] ++ name_rest ++
          [("labels"%string, obj []); ("annotations"%string, obj [])]));
       ("compute"%string, obj [("vcpus"%string, JInt vcpus); ("memory_bytes"%string, JInt 536870912)]);
       ("storage"%string, JArr []); ("networks"%string, JArr []); ("placement"%string, obj []);
       ("boot"%string, obj ([("start"%string, JBool false)] ++ start_rest))])]).

Example minimal_variant_fixture : minimal_variant 1 1 [] [] [] = minimal_json.
Proof. reflexivity. Qed.

(** ** Tests *)

Definition fixture_round_trips : bool :=
  forallb (λ json,
    match manifest_from_json json with
    | Err _ => false
    | Ok manifest => passes manifest &&
        match manifest_from_json (manifest_to_json manifest) with
        | Ok decoded => bool_decide (manifest = decoded)
        | Err _ => false
        end
    end) [minimal_json; storage_backed_json; networked_json; cloud_init_json; vsock_json].

Definition rejects_unknown_fields : bool :=
  refused (obj
    [("api_version", JInt 1); ("id", JStr (lit "01J00000000000000000000000"));
     ("desired", obj
       [("metadata", obj [("name", JStr (lit "vm"))]);
        ("compute", obj [("vcpus", JInt 1); ("memory_bytes", JInt 1)]);
        ("boot", obj [("start", JBool false)]);
        ("unexpected", JBool true)])]%string).

Definition rejects_unsupported_version_during_validation_and_deserialization : bool :=
  fails_with (UnsupportedVersion (MANIFEST_VERSION + 1)) (with_version (MANIFEST_VERSION + 1) minimal) &&
  refused (minimal_variant 2 1 [] [] []).

Definition validates_compute_boundaries : bool :=
  let c := compute (desired minimal) in
  let memory := compute_memory_bytes c in
  let mk vcpus max memory := {| compute_vcpus := vcpus; compute_max_vcpus := max;
                                compute_memory_bytes := memory |} in
  passes (set_compute minimal (mk (compute_vcpus c) (Some (compute_vcpus c)) memory)) &&
  fails_with NoVcpus (set_compute minimal (mk 0 (Some (compute_vcpus c)) memory)) &&
  fails_like (λ e, match e with MaxVcpusLessThanBoot _ _ => true | _ => false end)
    (set_compute minimal (mk 1 (Some 0) memory)) &&
  fails_with NoMemory (set_compute minimal (mk 1 None 0)) &&
  refused (minimal_variant 1 0 [] [] []).

Definition disk (id : string) (uri : option rstring) (volume : option Ulid) : Storage := {|
  storage_id := lit id; storage_uri := uri; storage_volume_id := volume; storage_read_only := false |}.

Definition accepts_valid_storage_variants (generated : Ulid) : bool :=
  passes (set_storage minimal [{| storage_id := lit "volume"; storage_uri := None;
    storage_volume_id := Some generated; storage_read_only := true |}]).

Definition rejects_invalid_storage (generated : Ulid) : bool :=
  let invalid_source := fails_like (λ e, match e with InvalidStorageSource _ => true | _ => false end) in
  let file := lit "file:///disk.img" in
  invalid_source (set_storage minimal [disk "missing-source" None None]) &&
  invalid_source (set_storage minimal [disk "invalid" (Some file) (Some generated)]) &&
  invalid_source (set_storage minimal [disk "root" (Some (lit "  ")) None]) &&
  fails_like (λ e, match e with DuplicateStorageId _ => true | _ => false end)
    (set_storage minimal [disk "root" (Some file) None;
                          disk "root" (Some (lit "file:///other.img")) None]) &&
  fails_like (λ e, match e with EmptyStorageId => true | _ => false end)
    (set_storage minimal [disk "  " (Some file) None]).

Definition rejects_invalid_vsock_and_metadata : bool :=
  let v cid socket := {| vsock_guest_cid := cid; vsock_socket := lit socket |} in
  passes (set_vsock minimal (v 42 "/run/odorobo/vsock.sock"%string)) &&
  fails_with InvalidVsockCid (set_vsock minimal (v 0 "/run/odorobo/vsock.sock"%string)) &&
  fails_with InvalidVsockSocket (set_vsock minimal (v 42 "  "%string)) &&
  fails_with InvalidVsockSocket (set_vsock minimal (v 42 "relative.sock"%string)) &&
  fails_like (λ e, match e with EmptyMetadataName => true | _ => false end)
    (edited minimal (Some (lit "  ")) None None None None None None).

Definition rejects_invalid_network_and_cloud_init : bool :=
  let ci user meta := {| cloud_user_data := user; cloud_meta_data := meta |} in
  let user := Some (lit "#cloud-config") in
  let meta := Some (lit "instance-id: vm") in
  fails_with (NetworkWithoutId 0)
    (set_networks minimal [{| network_id := lit "  "; network_mac_address := None |}]) &&
  forallb (λ c, fails_with IncompleteCloudInit (set_cloud_init minimal c))
    [ci None None; ci user None; ci None meta] &&
  forallb (λ c, fails_with EmptyCloudInitData (set_cloud_init minimal c))
    [ci (Some (lit "  ")) meta; ci user (Some (lit "  "))].

Definition rejects_unknown_fields_at_multiple_levels : bool :=
  let extra := [("extra", JBool true)]%string in
  forallb refused [minimal_variant 1 1 extra [] []; minimal_variant 1 1 [] extra [];
                   minimal_variant 1 1 [] [] extra].

Definition rejects_invalid_affinity_comparisons : bool :=
  forallb (λ values, fails_with (InvalidAffinityComparison (lit "capacity"))
    (set_affinity minimal [{| rule_strictness := Required; rule_affinity_type := Agent;
      rule_inverse := false;
      rule_requirements := [{| requirement_key := lit "capacity"; requirement_table := Annotation;
                               requirement_operator := OpGt; requirement_values := values |}] |}]))
    [[]; [lit "1"; lit "2"]; [lit "not-a-number"]; [lit "NaN"]].

(** Whether a value mentions a key or a string, and whether it has an entry. *)
Fixpoint mentions (s : rstring) (j : Json) : bool :=
  match j with
  | JStr t => bool_decide (t = s)
  | JArr l => existsb (mentions s) l
  | JObj kvs => existsb (λ kv, bool_decide (kv.1 = s) || mentions s kv.2) kvs
  | _ => false
  end.
Fixpoint has_true (k : rstring) (j : Json) : bool :=
  match j with
  | JArr l => existsb (has_true k) l
  | JObj kvs => existsb (λ kv,
      (bool_decide (kv.1 = k) && match kv.2 with JBool true => true | _ => false end) ||
      has_true k kv.2) kvs
  | _ => false
  end.

Definition serializes_affinity : bool :=
  let encoded := manifest_to_json (set_affinity minimal
    [{| rule_strictness := Preferred 10; rule_affinity_type := VirtualMachine; rule_inverse := true;
        rule_requirements := [{| requirement_key := lit "tier"; requirement_table := Label;
          requirement_operator := OpIn; requirement_values := [lit "batch"] |}] |}]) in
  mentions (lit "preferred") encoded && mentions (lit "virtual_machine") encoded &&
  has_true (lit "inverse") encoded.

(** The suite passes. *)
Example manifest_tests_pass : forallb id
  [fixture_round_trips; rejects_unknown_fields;
   rejects_unsupported_version_during_validation_and_deserialization; validates_compute_boundaries;
   accepts_valid_storage_variants 7; rejects_invalid_storage 7; rejects_invalid_vsock_and_metadata;
   rejects_invalid_network_and_cloud_init; rejects_unknown_fields_at_multiple_levels;
   rejects_invalid_affinity_comparisons; serializes_affinity] = true.
Proof. vm_compute. reflexivity. Qed.
