(* ===== verification/Discovery.v ===== *)
(** * Actor discovery

    The finders of [scheduler_actor/discovery.rs]: a pass over the registry
    announces every actor it meets to the scheduler and ends with the request
    to reconcile. The registry's streams and the outcome of each [tell] are
    arguments; what a pass sends is a list of messages. *)

From S2P Require Import Prelude RustString SortedVec Manifest Messages Cache Scheduling SchedHandlers.
Open Scope N_scope.

Inductive FinderMsg :=
| FoundVm (actor : ActorId)
| FoundAgent (actor : ActorId)
| Reconcile.

Inductive FinderError := StreamFailed | SchedulerGone.

(** [while let Some(actor) = stream.try_next().await? { tell(..).await? }]. *)
Fixpoint drain_stream (found : ActorId → FinderMsg) (told : FinderMsg → bool)
    (stream : list (result () ActorId)) : list FinderMsg * result FinderError () :=
  match stream with
  | [] => ([], Ok ())
  | Err () :: _ => ([], Err StreamFailed)
  | Ok actor :: stream =>
      if told (found actor) then
        let '(msgs, r) := drain_stream found told stream in (found actor :: msgs, r)
      else ([found actor], Err SchedulerGone)
  end.

Definition vm_actor_finder := drain_stream FoundVm.
Definition agent_actor_finder := drain_stream FoundAgent.

(** One pass of the loop [start_actor_finder] spawns: a failed lookup is logged. *)
Definition finder_pass (told : FinderMsg → bool) (vm_stream agent_stream : list (result () ActorId)) :
    list FinderMsg :=
  let '(vm_msgs, _) := vm_actor_finder told vm_stream in
  let '(agent_msgs, _) := agent_actor_finder told agent_stream in
  vm_msgs ++ agent_msgs ++ [Reconcile].

(** [self.cache_actor_finder = Some(tokio::spawn(..))]. *)
Definition start_actor_finder (task : JoinHandle) (s : SchedulerActor) : SchedulerActor := {|
  agent_data_cache := agent_data_cache s; agent_keepalive_tasks := agent_keepalive_tasks s;
  vm_actorid_ulid_map := vm_actorid_ulid_map s; vm_manifests := vm_manifests s;
  vm_placements := vm_placements s; vm_data_cache := vm_data_cache s;
  vm_keepalive_tasks := vm_keepalive_tasks s;
  pending_resources_cache := pending_resources_cache s; agent_vm_index := agent_vm_index s;
  actor_kinds := actor_kinds s; cache_actor_finder := Some task |}.

(** The actors a stream yields before its first failure. *)
Fixpoint found_before_failure (stream : list (result () ActorId)) : list ActorId :=
  match stream with Ok actor :: stream => actor :: found_before_failure stream | _ => [] end.

Lemma drain_stream_told found told stream :
  (∀ m, told m = true) →
  (drain_stream found told stream).1 = found <$> found_before_failure stream.
Proof.
  intros Ht. induction stream as [|[actor|[]] stream IH]; cbn; [done| |done].
  rewrite Ht. destruct (drain_stream found told stream) as [msgs r]. cbn in *. by rewrite IH.
Qed.

(** While the scheduler takes its messages, a pass announces every VM and then
    every agent found before a failure of the respective stream, in order, and
    always ends with the request to reconcile: a failed lookup of one kind
    neither hides the actors of the other nor skips the maintenance. *)
Lemma finder_pass_complete told vm_stream agent_stream :
  (∀ m, told m = true) →
  finder_pass told vm_stream agent_stream =
  (FoundVm <$> found_before_failure vm_stream)
  ++ (FoundAgent <$> found_before_failure agent_stream) ++ [Reconcile].
Proof.
  intros Ht. unfold finder_pass, vm_actor_finder, agent_actor_finder.
  rewrite <-(drain_stream_told FoundVm told vm_stream), <-(drain_stream_told FoundAgent told agent_stream)
    by done.
  by destruct (drain_stream FoundVm told vm_stream), (drain_stream FoundAgent told agent_stream).
Qed.

(** Each message of a pass is an event of the scheduler's state machine. *)
Definition finder_event (finished : JoinHandle → bool) (linked : ActorId → bool)
    (task : ActorId → JoinHandle) (cleanup_now : Instant) (now : Ulid → Instant)
    (told : ActorId → CreateVM → bool) (m : FinderMsg) : SchedEvent :=
  match m with
  | FoundVm actor => SeVmDiscovered finished (linked actor) (task actor) actor
  | FoundAgent actor => SeAgentDiscovered finished (linked actor) (task actor) actor
  | Reconcile => SeReconcile cleanup_now now told
  end.

(** So the invariants of the reachable states hold after every pass. *)
Lemma finder_pass_reachable to_bytes from_bytes finder (order : IterOrder)
    (event : FinderMsg → SchedEvent) msgs s :
  reachable to_bytes from_bytes finder s →
  reachable to_bytes from_bytes finder
    (foldl (λ s m, scheduler_handle to_bytes from_bytes s (event m)) s msgs).
Proof.
  revert s. induction msgs as [|m msgs IH]; intros s Hs; cbn; [done|].
  by apply IH, reachable_step.
Qed.
