(* ===== verification/Services.v ===== *)
(** * Small services

    [actors/ip_management_actor.rs], the actors whose service is deferred
    ([storage_actor.rs], [serial_terminal_websocket_actor.rs]) and the network
    actor of hosts without Linux networking ([networking/actor_unsupported.rs]). *)

From S2P Require Import Prelude RustString Manifest Messages Config.
Open Scope N_scope.

(** ** MAC addresses *)

Definition FYRA_OUI : list N := [70; 89; 82].

(** [dst[start..start + len].copy_from_slice(src)], of slices of equal length. *)
Definition copy_at (start : nat) (src dst : list N) : list N :=
  take start dst ++ src ++ drop (start + length src) dst.

Definition calculate_mac_address (ip : list N) : list N :=
  let mac := replicate 6 0 in
  let mac := copy_at 0 FYRA_OUI mac in
  copy_at 3 (drop 1 ip) mac.

(** A [[u8; n]]. *)
Definition octets (n : nat) (l : list N) : Prop := length l = n ∧ Forall (λ b, b < 256) l.

Lemma calculate_mac_address_eq a b c d :
  calculate_mac_address [a; b; c; d] = [70; 89; 82; b; c; d].
Proof. reflexivity. Qed.

(** The MAC address of an IP address is six octets, a unicast and locally
    administered address under the reserved prefix; and two IP addresses get
    the same one exactly when their last three octets agree. *)
Theorem mac_address_wf ip ip' :
  octets 4 ip → octets 4 ip' →
  octets 6 (calculate_mac_address ip) ∧
  take 3 (calculate_mac_address ip) = FYRA_OUI ∧
  (∃ first, head (calculate_mac_address ip) = Some first ∧
     N.testbit first 0 = false ∧ N.testbit first 1 = true) ∧
  (calculate_mac_address ip = calculate_mac_address ip' ↔ drop 1 ip = drop 1 ip').
Proof.
  intros [Hl Hb] [Hl' _].
  destruct ip as [|a [|b [|c [|d [|]]]]]; try done.
  destruct ip' as [|a' [|b' [|c' [|d' [|]]]]]; try done.
  rewrite !calculate_mac_address_eq. split_and!.
  - split; [done|]. apply Forall_cons in Hb as [_ Hb].
    by repeat (apply Forall_cons; split; [done|]).
  - done.
  - by exists 70.
  - cbn [drop]. split; intros [= -> -> ->]; done.
Qed.

Example mac_address_wf_witness :
  octets 6 (calculate_mac_address [192; 168; 1; 1]) ∧
  calculate_mac_address [192; 168; 1; 1] = [70; 89; 82; 168; 1; 1] ∧
  (calculate_mac_address [192; 168; 1; 1] = calculate_mac_address [10; 168; 1; 1] ↔
   drop 1 [192; 168; 1; 1] = drop 1 [10; 168; 1; 1]).
Proof.
  assert (octets 4 [192; 168; 1; 1]) as H1 by (split; [reflexivity|repeat constructor]).
  assert (octets 4 [10; 168; 1; 1]) as H2 by (split; [reflexivity|repeat constructor]).
  destruct (mac_address_wf [192; 168; 1; 1] [10; 168; 1; 1] H1 H2) as (H & _ & _ & Heq).
  split; [exact H|]. split; [reflexivity|exact Heq].
Defined.

(** ** Actors *)

Inductive ServiceError := NotImplemented | LinuxOnly (tap : rstring).

Definition ip_management_on_start : result ServiceError () := Ok ().
Definition storage_on_start : result ServiceError () := Err NotImplemented.
Definition serial_terminal_on_start : result ServiceError () := Err NotImplemented.

(** The network actor without Linux: it starts and refuses every request. *)
Definition unsupported_on_start (args : NetworkConfig) : result ServiceError NetworkConfig := Ok args.
Definition unsupported_attach_tap (msg : AttachTap) : result ServiceError () :=
  Err (LinuxOnly (attach_tap_name msg)).
Definition unsupported_detach_tap (msg : DetachTap) : result ServiceError () :=
  Err (LinuxOnly (detach_tap_name msg)).
