(* ===== verification/Console.v ===== *)
(** * The serial console spool

    [Console] of [odorobo/src/ch_driver/actor.rs]: the bounded history of a
    VM's serial output, a ring of chunks with a byte count, and the write half
    of the console socket. The mutexes make every operation atomic, so an
    operation is a function on the state. Broadcasting a chunk to live
    subscribers is the list of chunks handed to the channel. *)

From S2P Require Import Prelude RustString.
Open Scope N_scope.

Definition CONSOLE_SPOOL_SIZE : N := 1024 * 1024.

(** A byte is a number below 256. *)
Record ConsoleBuffer := { ring : list (list N); buffer_len : N }.
Definition empty_buffer : ConsoleBuffer := {| ring := []; buffer_len := 0 |}.

Notation vec_len l := (N.of_nat (length l)).

(** The eviction loop. Each iteration removes the oldest chunk, or shortens it
    and thereby reaches the limit, so one iteration per chunk and a last test
    are enough. *)
Fixpoint evict (fuel : nat) (b : ConsoleBuffer) : ConsoleBuffer :=
  match fuel with
  | O => b
  | S fuel =>
      if CONSOLE_SPOOL_SIZE <? buffer_len b then
        let excess := saturating_sub (buffer_len b) CONSOLE_SPOOL_SIZE in
        match ring b with
        | oldest :: rest =>
            if excess <? vec_len oldest
            then evict fuel {| ring := drop (N.to_nat excess) oldest :: rest;
                               buffer_len := saturating_sub (buffer_len b) excess |}
            else evict fuel {| ring := rest;
                               buffer_len := saturating_sub (buffer_len b) (vec_len oldest) |}
        | [] => {| ring := []; buffer_len := 0 |}
        end
      else b
  end.

Definition truncate_chunk (chunk : list N) : list N :=
  if CONSOLE_SPOOL_SIZE <? vec_len chunk
  then drop (N.to_nat (saturating_sub (vec_len chunk) CONSOLE_SPOOL_SIZE)) chunk
  else chunk.

Definition push (b : ConsoleBuffer) (chunk : list N) : ConsoleBuffer :=
  let chunk := truncate_chunk chunk in
  let b := {| ring := ring b ++ [chunk];
              buffer_len := u64_saturating_add (buffer_len b) (vec_len chunk) |} in
  evict (S (length (ring b))) b.

Definition history (b : ConsoleBuffer) : list N :=
  foldl (λ history chunk, history ++ chunk) [] (ring b).

(** ** The console with its socket *)

(** [writer] holds the bytes written to the guest once a socket is attached. *)
Record Console := {
  inner : ConsoleBuffer;
  output : list (list N);
  writer : option (list N) }.
Definition default_console : Console := {| inner := empty_buffer; output := []; writer := None |}.

Definition console_push (c : Console) (chunk : list N) : Console :=
  {| inner := push (inner c) chunk; output := output c ++ [chunk]; writer := writer c |}.

Inductive ConsoleError := AttachFailed | NotAttached | WriteFailed.

(** The reads of the spooling task, up to the end of the stream or an error. *)
Definition spool (c : Console) (reads : list (list N)) : Console := foldl console_push c reads.

(** [connected] is the outcome of connecting to the socket. A console that
    has a writer keeps it, and no second spooling task is started. *)
Definition attach_socket (c : Console) (connected : bool) : Console * result ConsoleError bool :=
  if negb connected then (c, Err AttachFailed)
  else match writer c with
       | Some _ => (c, Ok false)
       | None => ({| inner := inner c; output := output c; writer := Some [] |}, Ok true)
       end.

(** [written] is the outcome of [write_all]: a failed write may have
    transmitted a prefix of the input, of the given length. *)
Definition write_input (c : Console) (written : result nat ()) (input : list N) :
    Console * result ConsoleError () :=
  match writer c with
  | None => (c, Err NotAttached)
  | Some w =>
      match written with
      | Ok _ => ({| inner := inner c; output := output c; writer := Some (w ++ input) |}, Ok ())
      | Err n =>
          ({| inner := inner c; output := output c; writer := Some (w ++ take n input) |},
           Err WriteFailed)
      end
  end.

(** ** The spool keeps the last mebibyte *)

Definition buffer_wf (b : ConsoleBuffer) : Prop :=
  buffer_len b = vec_len (concat (ring b)).

Lemma history_concat b : history b = concat (ring b).
Proof.
  unfold history. change (concat (ring b)) with ([] ++ concat (ring b)).
  generalize (@nil N) as acc. induction (ring b) as [|x l IH]; intros acc; cbn.
  - by rewrite app_nil_r.
  - by rewrite IH, (assoc_L (++)).
Qed.

Lemma lastn_drop {A} n (l : list A) k : (k + n = length l)%nat → lastn n l = drop k l.
Proof. intros Hk. unfold lastn. f_equal. lia. Qed.

Notation spool_nat := (N.to_nat CONSOLE_SPOOL_SIZE).
Opaque CONSOLE_SPOOL_SIZE.

(** With enough fuel, eviction leaves exactly the last bytes. *)
Lemma evict_spec fuel b :
  buffer_wf b → (length (ring b) < fuel)%nat →
  buffer_wf (evict fuel b) ∧ concat (ring (evict fuel b)) = lastn spool_nat (concat (ring b)).
Proof.
  revert b. induction fuel as [|fuel IH]; intros b Hwf Hfuel; [lia|]. cbn [evict].
  unfold buffer_wf in Hwf. destruct (N.ltb_spec CONSOLE_SPOOL_SIZE (buffer_len b)) as [Hlt|Hge].
  2: { split; [done|]. rewrite lastn_le; [done|lia]. }
  destruct (ring b) as [|oldest rest] eqn:Hr; cbn [concat length] in *; [cbn in Hwf; lia|].
  rewrite length_app in Hwf. unfold saturating_sub.
  destruct (N.ltb_spec (buffer_len b - CONSOLE_SPOOL_SIZE) (vec_len oldest)) as [Hlo|Hhi].
  - set (excess := buffer_len b - CONSOLE_SPOOL_SIZE) in *.
    assert (concat (drop (N.to_nat excess) oldest :: rest) =
      lastn spool_nat (oldest ++ concat rest)) as Hc.
    { rewrite (lastn_drop _ _ (N.to_nat excess)) by (rewrite length_app; lia).
      by rewrite drop_app_le by lia. }
    destruct fuel as [|fuel]; [lia|]. cbn [evict buffer_len].
    replace (CONSOLE_SPOOL_SIZE <? buffer_len b - excess) with false
      by (symmetry; apply N.ltb_ge; lia).
    split; [|exact Hc]. unfold buffer_wf. cbn [buffer_len ring concat].
    rewrite length_app, length_drop. lia.
  - destruct (IH {| ring := rest; buffer_len := buffer_len b - vec_len oldest |}) as [Hw Hc].
    + unfold buffer_wf. cbn [buffer_len ring]. lia.
    + cbn. lia.
    + split; [exact Hw|]. rewrite Hc. cbn [ring]. symmetry. apply lastn_app_ge. lia.
Qed.

Lemma truncate_chunk_lastn chunk : truncate_chunk chunk = lastn spool_nat chunk.
Proof.
  unfold truncate_chunk, saturating_sub.
  destruct (N.ltb_spec CONSOLE_SPOOL_SIZE (vec_len chunk)).
  - symmetry. apply lastn_drop. lia.
  - symmetry. apply lastn_le. lia.
Qed.

(** Truncating what is appended does not change the last bytes. *)
Lemma lastn_app_lastn_r {A} n (l k : list A) : lastn n (l ++ lastn n k) = lastn n (l ++ k).
Proof.
  destruct (decide (length k ≤ n)%nat) as [Hle|Hgt]; [by rewrite (lastn_le n k)|].
  assert (length (lastn n k) = n) as Hlen by (unfold lastn; rewrite length_drop; lia).
  rewrite !lastn_app_ge by lia. by apply lastn_le; lia.
Qed.

(** A well-formed buffer within the limit; lengths stay far from [usize::MAX]. *)
Record spool_wf (b : ConsoleBuffer) (stream : list N) : Prop := {
  spool_len : buffer_len b = vec_len (concat (ring b));
  spool_bytes : concat (ring b) = lastn spool_nat stream }.

Lemma length_lastn {A} n (l : list A) : length (lastn n l) = Nat.min n (length l).
Proof. unfold lastn. rewrite length_drop. lia. Qed.

Lemma spool_size_small : 2 * CONSOLE_SPOOL_SIZE ≤ u64_max.
Proof. by vm_compute. Qed.

Lemma push_spool_wf b stream chunk : spool_wf b stream → spool_wf (push b chunk) (stream ++ chunk).
Proof.
  intros [Hl Hb]. unfold push. rewrite truncate_chunk_lastn.
  set (b1 := {| ring := ring b ++ [lastn spool_nat chunk]; buffer_len := _ |}).
  assert (concat (ring b1) = lastn spool_nat stream ++ lastn spool_nat chunk) as Hc.
  { cbn [ring b1]. by rewrite concat_app, Hb, concat_cons, app_nil_r. }
  assert (buffer_wf b1) as Hwf.
  { unfold buffer_wf. rewrite Hc. cbn [buffer_len b1]. unfold u64_saturating_add.
    rewrite Hl, Hb, length_app, !length_lastn. pose proof spool_size_small. lia. }
  destruct (evict_spec (S (length (ring b1))) b1 Hwf) as [Hw He]; [lia|].
  split; [exact Hw|]. rewrite He, Hc, lastn_app_lastn_r, lastn_app_lastn. done.
Qed.

(** C38. The console history is exactly the last mebibyte of the serial stream:
    whatever the sizes of the chunks read from the socket, the retained bytes
    are the suffix of length [CONSOLE_SPOOL_SIZE] of everything received, in
    order, and the recorded length is their number. *)
Theorem console_history_exact (chunks : list (list N)) :
  let b := inner (spool default_console chunks) in
  history b = lastn spool_nat (concat chunks) ∧ buffer_len b = vec_len (history b) ∧
  buffer_len b ≤ CONSOLE_SPOOL_SIZE ∧ output (spool default_console chunks) = chunks.
Proof.
  cbv zeta. assert (∀ c chunks stream, spool_wf (inner c) stream →
    spool_wf (inner (spool c chunks)) (stream ++ concat chunks) ∧
    output (spool c chunks) = output c ++ chunks) as Hspool.
  { clear chunks. intros c chunks. revert c. induction chunks as [|x chunks IH]; intros c stream Hw.
    { cbn. by rewrite !app_nil_r. }
    change (spool c (x :: chunks)) with (spool (console_push c x) chunks). cbn [concat].
    destruct (IH (console_push c x) (stream ++ x)) as [Hs Ho].
    { by apply push_spool_wf. }
    rewrite <-(assoc_L (++)) in Hs. split; [exact Hs|]. rewrite Ho. cbn.
    by rewrite <-(assoc_L (++)). }
  destruct (Hspool default_console chunks []) as [[Hl Hb] Ho]; [by split|].
  rewrite history_concat. cbn [app] in Hb. split_and!; [done|done| |done].
  rewrite Hl, Hb, length_lastn. lia.
Qed.

Lemma write_inputs c w inputs :
  writer c = Some w →
  writer (foldl (λ c input, (write_input c (Ok ()) input).1) c inputs) = Some (w ++ concat inputs).
Proof.
  revert c w. induction inputs as [|i inputs IH]; intros c w Hw; cbn; [by rewrite app_nil_r|].
  rewrite (IH _ (w ++ i)); [by rewrite (assoc_L (++))|]. unfold write_input. by rewrite Hw.
Qed.

(** Input reaches the guest only through an attached socket, and attaching
    again keeps the first connection: after the first successful attach, the
    bytes written by successful inputs are exactly those inputs in order. *)
Theorem write_input_in_order (c : Console) (inputs : list (list N)) :
  writer c = None →
  (∀ input written, write_input c written input = (c, Err NotAttached)) ∧
  let c1 := (attach_socket c true).1 in
  (∀ connected, (attach_socket c1 connected).1 = c1) ∧
  writer (foldl (λ c input, (write_input c (Ok ()) input).1) c1 inputs) = Some (concat inputs).
Proof.
  intros Hw. unfold attach_socket. rewrite Hw. split_and!.
  - intros input written. unfold write_input. by rewrite Hw.
  - by intros [].
  - by apply (write_inputs _ []).
Qed.

(** ** Concrete runs *)

Lemma write_input_in_order_witness :
  writer (foldl (λ c input, (write_input c (Ok ()) input).1) (attach_socket default_console true).1
    [[104; 105]; [10]]) = Some [104; 105; 10].
Proof.
  destruct (write_input_in_order default_console [[104; 105]; [10]] eq_refl) as (_ & _ & ->).
  reflexivity.
Defined.
