(* ===== verification/ConsoleLive.v ===== *)
(** * Live subscribers of the serial console

    [Console::subscribe] of [odorobo/src/ch_driver/actor.rs] with the
    documented behaviour of the broadcast channel it uses: the channel keeps
    the last 256 chunks, a receiver starts at the end of the channel, and a
    receiver that fell behind is told how many chunks it lost and continues
    with the oldest one kept. *)

From S2P Require Import Prelude RustString Console.
Open Scope nat_scope.

(** [broadcast::channel(256)]. *)
Definition CHANNEL_CAPACITY : nat := 256.

(** A receiver is the number of chunks sent before its next one. *)
Notation Receiver := nat (only parsing).
Definition subscribe (c : Console) : Receiver := length (output c).

Inductive Recv := Chunk (chunk : list N) | Lagged (n : nat) | Empty.

Definition recv (c : Console) (r : Receiver) : Receiver * Recv :=
  let oldest := length (output c) - CHANNEL_CAPACITY in
  if Nat.ltb r oldest then (oldest, Lagged (oldest - r))
  else match output c !! r with
       | Some chunk => (S r, Chunk chunk)
       | None => (r, Empty)
       end.

(** Receiving until the channel is empty; every turn but the first, which may
    report a lag, yields a chunk. *)
Fixpoint recv_all (fuel : nat) (c : Console) (r : Receiver) : list Recv :=
  match fuel with
  | O => []
  | S fuel => match recv c r with
              | (_, Empty) => []
              | (r, m) => m :: recv_all fuel c r
              end
  end.

Lemma recv_all_chunks fuel c r :
  length (output c) - CHANNEL_CAPACITY ≤ r → length (output c) - r < fuel →
  recv_all fuel c r = Chunk <$> drop r (output c).
Proof.
  revert r. induction fuel as [|fuel IH]; intros r Hr Hf; [lia|]. cbn [recv_all]. unfold recv at 1.
  destruct (Nat.ltb_spec r (length (output c) - CHANNEL_CAPACITY)); [lia|].
  destruct (output c !! r) as [chunk|] eqn:Hl.
  - rewrite (drop_S _ _ _ Hl). cbn [fmap list_fmap]. f_equal.
    apply lookup_lt_Some in Hl. apply IH; lia.
  - apply lookup_ge_None in Hl. by rewrite drop_ge.
Qed.

Lemma spool_output c chunks : output (spool c chunks) = output c ++ chunks.
Proof.
  revert c. induction chunks as [|x chunks IH]; intros c; [by rewrite app_nil_r|].
  change (spool c (x :: chunks)) with (spool (console_push c x) chunks). rewrite IH. cbn.
  by rewrite <-(assoc_L (++)).
Qed.

(** A subscriber gets no replay, and misses nothing it was not told about: what
    it receives is the chunks spooled after it subscribed, in order and whole,
    when they fit the channel; when they do not, it is first told exactly how
    many it lost and then receives the last 256. *)
Theorem subscriber_stream c chunks fuel :
  S (length chunks) < fuel →
  recv_all fuel (spool c chunks) (subscribe c) =
  if decide (length chunks ≤ CHANNEL_CAPACITY) then Chunk <$> chunks
  else Lagged (length chunks - CHANNEL_CAPACITY) ::
       (Chunk <$> drop (length chunks - CHANNEL_CAPACITY) chunks).
Proof.
  intros Hf. assert (output (spool c chunks) = output c ++ chunks) as Ho by apply spool_output.
  unfold subscribe. destruct (decide _) as [Hle|Hgt].
  - rewrite recv_all_chunks by (rewrite Ho, length_app; lia).
    by rewrite Ho, drop_app_length.
  - destruct fuel as [|fuel]; [lia|]. cbn [recv_all]. unfold recv at 1. rewrite Ho, length_app.
    destruct (Nat.ltb_spec (length (output c)) (length (output c) + length chunks - CHANNEL_CAPACITY)); [|lia].
    f_equal; [f_equal; lia|].
    rewrite recv_all_chunks by (rewrite Ho, length_app; lia). rewrite Ho. f_equal.
    rewrite drop_app_ge by lia. f_equal. lia.
Qed.

Example subscriber_stream_witness :
  recv_all 4 (spool (console_push default_console [104%N]) [[105%N]; [10%N]])
    (subscribe (console_push default_console [104%N])) = [Chunk [105%N]; Chunk [10%N]].
Proof.
  rewrite (subscriber_stream (console_push default_console [104%N]) [[105%N]; [10%N]] 4) by (cbn; lia).
  by rewrite decide_True by (cbn; unfold CHANNEL_CAPACITY; lia).
Defined.
