(* ===== verification/Lifecycle.v ===== *)
(** * Actor lifecycles

    What the actor runtime does with the agent's panics
    ([odorobo/src/actors/agent_actor.rs]), the liveness messages, and the start
    of the HTTP actor ([odorobo/src/actors/http_actor.rs]) with its detached
    server task. *)

From S2P Require Import Prelude RustString Manifest Messages Config Agent Cache.
Open Scope N_scope.

(** ** The agent's mailbox *)

Inductive ActorStopReason := Panicked | Normal.
Inductive ControlFlow := Continue | Break (reason : ActorStopReason).

(** A panic stops the agent. *)
Definition agent_on_panic : ControlFlow := Break Panicked.

(** [vmid] is the text of the identifier; a failed lookup is an unknown actor. *)
Definition lookup_vm_actor {E} (lookup : rstring → result E (option ActorId)) (vmid : rstring) :
    option ActorId :=
  match lookup (lit "vm:" ++ vmid) with Ok (Some actor) => Some actor | Ok None | Err _ => None end.

Inductive Pong := PongReply.
Definition agent_ping (st : AgentActor) : AgentActor * Pong := (st, PongReply).
Definition scheduler_ping (s : SchedulerActor) : SchedulerActor * Pong := (s, PongReply).

(** The messages by what they do to the agent: an event, a ping, a panic. *)
Inductive AgentMsg := MsgEvent (e : AgentEvent) | MsgPing | MsgPanic.

(** One message: the state, or the panic of [PanicAgent]'s handler. *)
Definition agent_receive (st : AgentActor) (m : AgentMsg) : option AgentActor :=
  match m with
  | MsgEvent e => Some (agent_handle st e)
  | MsgPing => Some (agent_ping st).1
  | MsgPanic => None
  end.

(** The actor's loop over its mailbox, up to a panic. *)
Fixpoint agent_mailbox (st : AgentActor) (ms : list AgentMsg) : AgentActor * ControlFlow :=
  match ms with
  | [] => (st, Continue)
  | m :: ms =>
      match agent_receive st m with
      | Some st => agent_mailbox st ms
      | None => match agent_on_panic with
                | Break r => (st, Break r)
                | Continue => agent_mailbox st ms
                end
      end
  end.

Definition msg_event (m : AgentMsg) : option AgentEvent :=
  match m with MsgEvent e => Some e | _ => None end.

(** The agent runs exactly the events before the first panic, and none after
    it: its registry is not repaired and not used again. *)
Theorem agent_stops_at_panic st before after :
  MsgPanic ∉ before →
  agent_mailbox st (before ++ MsgPanic :: after) = (agent_run st (omap msg_event before), Break Panicked) ∧
  agent_mailbox st before = (agent_run st (omap msg_event before), Continue).
Proof.
  revert st. induction before as [|m before IH]; intros st Hn; [done|].
  apply not_elem_of_cons in Hn as [Hm Hn]. cbn [app agent_mailbox omap list_omap].
  destruct m as [e| |]; [|by apply IH|done].
  cbn [agent_receive]. rewrite (proj1 (IH (agent_handle st e) Hn)), (proj2 (IH (agent_handle st e) Hn)).
  done.
Qed.

Example agent_stops_at_panic_witness :
  (agent_mailbox example_agent [MsgPing; MsgPanic; MsgEvent (EvDelete 7 true)]).2 = Break Panicked.
Proof.
  destruct (agent_stops_at_panic example_agent [MsgPing] [MsgEvent (EvDelete 7 true)]) as [H _];
    [by rewrite list_elem_of_singleton|].
  exact (f_equal snd H).
Defined.

(** ** The HTTP actor *)

Definition EXTERNAL_HTTP_ADDRESS : rstring := lit "0.0.0.0:3000".

(** The detached task: it serves until the server fails, or panics when the
    address cannot be bound. *)
Inductive ServerTask := Serving (address : rstring) | TaskPanicked.
Definition server_task (bound : bool) : ServerTask :=
  if bound then Serving EXTERNAL_HTTP_ADDRESS else TaskPanicked.

(** [on_start] spawns the task and does not wait for it. *)
Definition http_on_start (scheduler : ActorId) (bound : bool) : result () ActorId * ServerTask :=
  (Ok scheduler, server_task bound).

(** A manager whose address is taken starts without an API: the actor is up,
    only the task has panicked. *)
Lemma http_start_ignores_bind scheduler :
  http_on_start scheduler false = (Ok scheduler, TaskPanicked).
Proof. reflexivity. Qed.
