(* ===== verification/ChConfig.v ===== *)
(** * From manifest to Cloud Hypervisor configuration

    [odorobo/src/ch_driver/manifest.rs]: the provider boundary. The
    configuration records keep the fields of the Cloud Hypervisor client's
    models that the program reads or writes; the others stay at their default. *)

From S2P Require Import Prelude RustString RustFloat Manifest.
Open Scope N_scope.

(** ** Cloud Hypervisor models *)

Record CpusConfig := { boot_vcpus : N; max_vcpus : N }.
Record MemoryConfig := { memory_size : N }.
Record PayloadConfig := {
  payload_firmware : option rstring;
  payload_kernel : option rstring;
  payload_initramfs : option rstring;
  payload_cmdline : option rstring }.
Inductive ImageType := Raw.
Record DiskConfig := {
  disk_id : option rstring;
  disk_path : option rstring;
  disk_readonly : option bool;
  disk_image_type : option ImageType }.
Record NetConfig := {
  net_id : option rstring;
  net_tap : option rstring;
  net_mac : option rstring }.
Record VsockConfig := {
  vsock_config_cid : N;
  vsock_config_socket : rstring;
  vsock_config_id : option rstring }.
Record PlatformConfig := { serial_number : option rstring }.
Inductive ConsoleMode := ConsoleOff | ConsoleSocket.
Record ConsoleConfig := {
  console_mode : ConsoleMode;
  console_socket : option rstring;
  console_file : option rstring }.

Record VmConfig := {
  cpus : option CpusConfig;
  memory : option MemoryConfig;
  payload : PayloadConfig;
  disks : option (list DiskConfig);
  net : option (list NetConfig);
  vsock_device : option VsockConfig;
  platform : option PlatformConfig;
  console : option ConsoleConfig;
  serial : option ConsoleConfig }.

(** [VmConfig::default()]. *)
Definition default_vm_config : VmConfig := {|
  cpus := None; memory := None;
  payload := {| payload_firmware := None; payload_kernel := None;
                payload_initramfs := None; payload_cmdline := None |};
  disks := None; net := None; vsock_device := None; platform := None;
  console := None; serial := None |}.

(** ** Conversion *)

Inductive ConvertError :=
| InvalidManifest (e : ManifestError)
| UnsupportedScheme (id uri : rstring)
| VolumeUnresolved (id : rstring) (volume_id : Ulid)
| NoUsableSource (id : rstring)
| CloudInitUnsupported
| VcpusExceedLimits
| MaxVcpusExceedLimits
| MemoryExceedsLimits.

Definition supported_uri (uri : rstring) : bool :=
  starts_with uri (lit "file://") || starts_with uri (lit "rbd://") ||
  starts_with uri (lit "iscsi://").

Definition storage_to_disk (s : Storage) : result ConvertError DiskConfig :=
  path ← match storage_uri s, storage_volume_id s with
         | Some uri, None =>
             if supported_uri uri then Ok uri else Err (UnsupportedScheme (storage_id s) uri)
         | None, Some volume_id => Err (VolumeUnresolved (storage_id s) volume_id)
         | _, _ => Err (NoUsableSource (storage_id s))
         end;
  Ok {| disk_id := Some (storage_id s); disk_path := Some path;
        disk_readonly := Some (storage_read_only s); disk_image_type := Some Raw |}.

(** [iter().map(f).collect::<Result<Vec<_>>>()]: the first error wins. *)
Fixpoint collect {E A B} (f : A → result E B) (l : list A) : result E (list B) :=
  match l with
  | [] => Ok []
  | x :: l => y ← f x; ys ← collect f l; Ok (y :: ys)
  end.

Definition i32_try_from (n : N) (e : ConvertError) : result ConvertError N :=
  if n <=? i32_max then Ok n else Err e.
Definition i64_try_from (n : N) (e : ConvertError) : result ConvertError N :=
  if n <=? Z.to_N i64_max then Ok n else Err e.

Definition default_firmware : rstring := lit "/var/lib/odorobo/CLOUDHV.fd".

(** [(!v.is_empty()).then_some(v)]. *)
Definition non_empty {A} (l : list A) : option (list A) :=
  match l with [] => None | _ => Some l end.

Definition network_to_net (n : Network) : NetConfig :=
  {| net_id := Some (lit "net://" ++ network_id n); net_tap := None; net_mac := network_mac_address n |}.

Definition vsock_to_device (v : Vsock) : VsockConfig :=
  {| vsock_config_cid := vsock_guest_cid v; vsock_config_socket := vsock_socket v;
     vsock_config_id := Some (lit "odorobo-vsock") |}.

Definition boot_firmware_of (b : Boot) : option rstring :=
  match boot_firmware b with
  | Some firmware => Some firmware
  | None => match boot_kernel b with Some _ => None | None => Some default_firmware end
  end.

Definition to_vm_config (m : VmManifest) : result ConvertError VmConfig :=
  match validate m with
  | Err e => Err (InvalidManifest e)
  | Ok () =>
      let d := desired m in
      disks ← collect storage_to_disk (storage d);
      let networks := network_to_net <$> networks d in
      match cloud_init d with
      | Some _ => Err CloudInitUnsupported
      | None =>
          boot_vcpus ← i32_try_from (compute_vcpus (compute d)) VcpusExceedLimits;
          max_vcpus ← i32_try_from (default (compute_vcpus (compute d)) (compute_max_vcpus (compute d)))
                        MaxVcpusExceedLimits;
          size ← i64_try_from (compute_memory_bytes (compute d)) MemoryExceedsLimits;
          Ok {| cpus := Some {| boot_vcpus := boot_vcpus; max_vcpus := max_vcpus |};
                memory := Some {| memory_size := size |};
                payload := {| payload_firmware := boot_firmware_of (boot d);
                              payload_kernel := boot_kernel (boot d);
                              payload_initramfs := None;
                              payload_cmdline := boot_cmdline (boot d) |};
                disks := non_empty disks;
                net := non_empty networks;
                vsock_device := vsock_to_device <$> vsock d;
                platform := Some {| serial_number := Some (lit "ds=nocloud") |};
                console := None;
                serial := None |}
      end
  end.

(** ** What the conversion accepts *)

(** Storage the conversion can hand to the node: exactly a supported URI. *)
Definition convertible_storage (s : Storage) : Prop :=
  ∃ uri, storage_uri s = Some uri ∧ storage_volume_id s = None ∧ supported_uri uri = true.

Definition storage_disk (s : Storage) : DiskConfig :=
  {| disk_id := Some (storage_id s); disk_path := storage_uri s;
     disk_readonly := Some (storage_read_only s); disk_image_type := Some Raw |}.

(** Compute sizes within the hypervisor's integers. *)
Definition convertible_compute (c : Compute) : Prop :=
  compute_vcpus c ≤ i32_max ∧ default (compute_vcpus c) (compute_max_vcpus c) ≤ i32_max ∧
  (Z.of_N (compute_memory_bytes c) ≤ i64_max)%Z.

Lemma storage_to_disk_ok s disk :
  storage_to_disk s = Ok disk ↔ convertible_storage s ∧ disk = storage_disk s.
Proof.
  unfold storage_to_disk, convertible_storage, storage_disk.
  destruct (storage_uri s) as [uri|], (storage_volume_id s) as [v|]; cbn;
    try (split; [done|by intros [(u & ? & ? & _) _]]).
  destruct (supported_uri uri) eqn:Hs; cbn; split; try done.
  - intros [= <-]. split; [by exists uri|done].
  - by intros [_ ->].
  - intros [(u & [= <-] & _ & Hu) _]. congruence.
Qed.

Lemma collect_ok {E A B} (f : A → result E B) l ys :
  collect f l = Ok ys ↔ Forall2 (λ x y, f x = Ok y) l ys.
Proof.
  revert ys. induction l as [|x l IH]; intros ys; cbn.
  - split; [intros [= <-]; constructor|by intros ->%Forall2_nil_inv_l].
  - rewrite result_bind_ok. split.
    + intros (y & Hy & (ys' & Hys & [= <-])%result_bind_ok). constructor; [done|by apply IH].
    + intros (y & ys' & Hy & Hys & ->)%Forall2_cons_inv_l. exists y. split; [done|].
      apply result_bind_ok. exists ys'. split; [by apply IH|done].
Qed.

Lemma collect_disks l ds :
  collect storage_to_disk l = Ok ds ↔ Forall convertible_storage l ∧ ds = storage_disk <$> l.
Proof.
  rewrite collect_ok. revert ds. induction l as [|s l IH]; intros ds.
  - split.
    + intros ->%Forall2_nil_inv_l. by split.
    + intros [_ ->]. constructor.
  - split.
    + intros (d & ds' & [? ->]%storage_to_disk_ok & [? ->]%IH & ->)%Forall2_cons_inv_l.
      split; [by constructor|done].
    + intros [[Hs Hl]%Forall_cons ->]. cbn. constructor; [by apply storage_to_disk_ok|].
      by apply IH.
Qed.

Lemma to_vm_config_ok m c :
  to_vm_config m = Ok c ↔
  validate m = Ok () ∧ cloud_init (desired m) = None ∧ convertible_compute (compute (desired m)) ∧
  Forall convertible_storage (storage (desired m)) ∧
  cpus c = Some {| boot_vcpus := compute_vcpus (compute (desired m));
                   max_vcpus := default (compute_vcpus (compute (desired m)))
                                  (compute_max_vcpus (compute (desired m))) |} ∧
  memory c = Some {| memory_size := compute_memory_bytes (compute (desired m)) |} ∧
  payload c = {| payload_firmware := boot_firmware_of (boot (desired m));
                 payload_kernel := boot_kernel (boot (desired m)); payload_initramfs := None;
                 payload_cmdline := boot_cmdline (boot (desired m)) |} ∧
  disks c = non_empty (storage_disk <$> storage (desired m)) ∧
  net c = non_empty (network_to_net <$> networks (desired m)) ∧
  vsock_device c = vsock_to_device <$> vsock (desired m) ∧
  platform c = Some {| serial_number := Some (lit "ds=nocloud") |} ∧
  console c = None ∧ serial c = None.
Proof.
  unfold to_vm_config, convertible_compute. destruct (validate m) as [[]|e]; [|split; [done|by intros [? _]]].
  rewrite result_bind_ok. unfold i32_try_from, i64_try_from.
  split.
  - intros (ds & [Hst ->]%collect_disks & Hc). destruct (cloud_init (desired m)); [done|].
    apply result_bind_ok in Hc as (v & Hv & (mv & Hmv & (sz & Hsz & [= <-])%result_bind_ok)%result_bind_ok).
    repeat case_match; simplify_eq. bool_to_prop. split_and!; try done; cbn. unfold i64_max in *. lia.
  - intros (_ & -> & (Hv & Hmv & Hsz) & Hst & H1 & H2 & H3 & H4 & H5 & H6 & H7 & H8 & H9).
    exists (storage_disk <$> storage (desired m)). split; [by apply collect_disks|].
    assert (compute_memory_bytes (compute (desired m)) <=? Z.to_N i64_max = true) as ->
      by (apply N.leb_le; unfold i64_max in *; lia).
    apply N.leb_le in Hv as ->. apply N.leb_le in Hmv as ->.
    destruct c. cbn in *. by subst.
Qed.

(** C34. The conversion to a hypervisor configuration succeeds exactly on the
    valid manifests without cloud-init whose sizes fit the hypervisor's
    integers and whose storage consists of file, RBD or iSCSI URIs; the result
    keeps the order of disks (hence the boot order) and of networks, passes
    sizes, identities and sources through unchanged, and sets the default
    firmware only when neither firmware nor kernel is given. *)
Theorem to_vm_config_spec m c :
  to_vm_config m = Ok c ↔
  validate m = Ok () ∧ cloud_init (desired m) = None ∧ convertible_compute (compute (desired m)) ∧
  Forall convertible_storage (storage (desired m)) ∧
  cpus c = Some {| boot_vcpus := compute_vcpus (compute (desired m));
                   max_vcpus := default (compute_vcpus (compute (desired m)))
                                  (compute_max_vcpus (compute (desired m))) |} ∧
  memory c = Some {| memory_size := compute_memory_bytes (compute (desired m)) |} ∧
  payload c = {| payload_firmware := boot_firmware_of (boot (desired m));
                 payload_kernel := boot_kernel (boot (desired m)); payload_initramfs := None;
                 payload_cmdline := boot_cmdline (boot (desired m)) |} ∧
  disks c = non_empty (storage_disk <$> storage (desired m)) ∧
  net c = non_empty (network_to_net <$> networks (desired m)) ∧
  vsock_device c = vsock_to_device <$> vsock (desired m) ∧
  platform c = Some {| serial_number := Some (lit "ds=nocloud") |} ∧
  console c = None ∧ serial c = None.
Proof. apply to_vm_config_ok. Qed.

Lemma to_vm_config_ok_net m c :
  to_vm_config m = Ok c → net c = non_empty (network_to_net <$> networks (desired m)).
Proof. intros Hc. by apply to_vm_config_ok in Hc as (_&_&_&_&_&_&_&_&?&_). Qed.
