(* ===== verification/Transform.v ===== *)
(** * Node-local configuration transforms

    [odorobo/src/ch_driver/transform/]: the [ConfigTransform] trait and the
    transform chain, the console, network and path transforms. A transform
    mutates the configuration also when it fails, so it returns the
    configuration beside the outcome; the storage transform acts on the node,
    whose state is threaded as [W]. *)

From S2P Require Import Prelude RustString RustFloat Manifest ChConfig.
Open Scope N_scope.

Inductive TransformError :=
| InvalidNetworkId (id : rstring)
| KernelNotAbsolute
| InitramfsNotAbsolute
| FirmwareNotAbsolute
| DiskNotAbsolute (id : rstring)
| StorageFailed.

(** ** The trait and the chain *)

Record ConfigTransform (W : Type) := {
  transform : rstring → VmConfig → W → VmConfig * W * result TransformError ();
  teardown : rstring → VmConfig → W → VmConfig * W * result TransformError () }.
Arguments transform {W}.
Arguments teardown {W}.

(** The default [teardown] of the trait. *)
Definition no_teardown {W} (_ : rstring) (c : VmConfig) (w : W) : VmConfig * W * result TransformError () :=
  (c, w, Ok ()).

Section chain.
Context {W : Type}.

(** The loop with [?]: the first error ends it. *)
Fixpoint apply_all (fs : list (rstring → VmConfig → W → VmConfig * W * result TransformError ()))
    (vmid : rstring) (c : VmConfig) (w : W) : VmConfig * W * result TransformError () :=
  match fs with
  | [] => (c, w, Ok ())
  | f :: fs =>
      match f vmid c w with
      | (c, w, Ok ()) => apply_all fs vmid c w
      | (c, w, Err e) => (c, w, Err e)
      end
  end.

Definition chain (ts : list (ConfigTransform W)) : ConfigTransform W := {|
  transform := apply_all (transform <$> ts);
  teardown := apply_all (teardown <$> reverse ts) |}.
End chain.

(** ** Field updates *)

Definition set_net (nets : option (list NetConfig)) (c : VmConfig) : VmConfig := {|
  cpus := cpus c; memory := memory c; payload := payload c; disks := disks c; net := nets;
  vsock_device := vsock_device c; platform := platform c; console := console c; serial := serial c |}.
Definition set_disks (ds : option (list DiskConfig)) (c : VmConfig) : VmConfig := {|
  cpus := cpus c; memory := memory c; payload := payload c; disks := ds; net := net c;
  vsock_device := vsock_device c; platform := platform c; console := console c; serial := serial c |}.
Definition set_consoles (con ser : option ConsoleConfig) (c : VmConfig) : VmConfig := {|
  cpus := cpus c; memory := memory c; payload := payload c; disks := disks c; net := net c;
  vsock_device := vsock_device c; platform := platform c; console := con; serial := ser |}.

(** ** Runtime paths *)

(** [Path::join] on Unix. *)
Definition path_join (a b : rstring) : rstring :=
  if is_absolute b then b
  else match last a with
       | None => b
       | Some c => if c =? 47 then a ++ b else a ++ 47 :: b
       end.

Definition VMS_DIR_NAME : rstring := lit "vms".
Definition DEFAULT_RUNTIME_ROOT_DIR : rstring := lit "/run/odorobo".

(** [env] is the value of [ODOROBO_RUNTIME_DIR]. *)
Definition configured_runtime_root (env : option rstring) : rstring :=
  default DEFAULT_RUNTIME_ROOT_DIR env.
Definition runtime_root (env : option rstring) : rstring :=
  path_join (configured_runtime_root env) VMS_DIR_NAME.
Definition runtime_dir_for (env : option rstring) (id : rstring) : rstring :=
  path_join (runtime_root env) id.
Definition console_socket_path (env : option rstring) (id : rstring) : rstring :=
  path_join (runtime_dir_for env id) (lit "console.sock").

(** ** Console *)

Definition console_transform {W} (env : option rstring) : ConfigTransform W := {|
  transform := λ vmid c w,
    (set_consoles
       (Some {| console_mode := ConsoleOff; console_socket := None; console_file := None |})
       (Some {| console_mode := ConsoleSocket;
                console_socket := Some (runtime_dir_for env vmid ++ lit "/console.sock");
                console_file := None |}) c,
     w, Ok ());
  teardown := no_teardown |}.

(** ** Networks *)

Definition NETWORK_URI_PREFIX : rstring := lit "net://".
Definition TAP_PREFIX : rstring := lit "vmtap".
Definition MAX_IFNAME_LEN : nat := 15.

Definition is_name_char (c : N) : bool := is_ascii_alphanumeric c || (c =? 45) || (c =? 95).

Definition validate_network_id (network_id : rstring) : bool :=
  negb (is_empty network_id) && forallb is_name_char network_id.

Definition sanitize_component (value : rstring) : rstring :=
  (λ c, if is_name_char c then to_ascii_lowercase c else 45) <$> value.

(** [&s[s.len() - budget..]] when [s] is longer than the budget. *)
Definition keep_suffix (budget : nat) (s : rstring) : rstring :=
  if Nat.ltb budget (length s) then drop (length s - budget) s else s.

Definition deterministic_tap_name (vmid network_id : rstring) : rstring :=
  let vmid_part := sanitize_component vmid in
  let network_part := sanitize_component network_id in
  let separator_len := 2%nat in
  let fixed_len := (length TAP_PREFIX + separator_len)%nat in
  let available := (MAX_IFNAME_LEN - fixed_len)%nat in
  if Nat.eqb available 0 then take (Nat.min MAX_IFNAME_LEN (length TAP_PREFIX)) TAP_PREFIX
  else
    let half := Nat.div available 2 in
    let vmid_budget := Nat.max half 1 in
    let network_budget := Nat.max (available - vmid_budget) 1 in
    let vmid_part := keep_suffix vmid_budget vmid_part in
    let network_part := keep_suffix network_budget network_part in
    let tap := TAP_PREFIX ++ lit "-" ++ vmid_part ++ lit "-" ++ network_part in
    if Nat.ltb MAX_IFNAME_LEN (length tap) then take MAX_IFNAME_LEN tap else tap.

Definition rewrite_net_config (vmid : rstring) (n : NetConfig) : result TransformError NetConfig :=
  match net_id n with
  | None => Ok n
  | Some id =>
      match strip_prefix id NETWORK_URI_PREFIX with
      | None => Ok n
      | Some network_id =>
          if validate_network_id network_id
          then Ok {| net_id := Some id; net_tap := Some (deterministic_tap_name vmid network_id);
                     net_mac := net_mac n |}
          else Err (InvalidNetworkId id)
      end
  end.

Fixpoint rewrite_nets (vmid : rstring) (nets : list NetConfig) :
    list NetConfig * result TransformError () :=
  match nets with
  | [] => ([], Ok ())
  | n :: nets =>
      match rewrite_net_config vmid n with
      | Err e => (n :: nets, Err e)
      | Ok n => let '(nets, r) := rewrite_nets vmid nets in (n :: nets, r)
      end
  end.

Definition network_transform {W} : ConfigTransform W := {|
  transform := λ vmid c w,
    match net c with
    | None => (c, w, Ok ())
    | Some nets => let '(nets, r) := rewrite_nets vmid nets in (set_net (Some nets) c, w, r)
    end;
  teardown := no_teardown |}.

(** ** Path verification *)

Definition some_relative (path : option rstring) : bool :=
  match path with Some path => negb (is_absolute path) | None => false end.

Fixpoint verify_disks (ds : list DiskConfig) : result TransformError () :=
  match ds with
  | [] => Ok ()
  | d :: ds =>
      if some_relative (disk_path d)
      then Err (DiskNotAbsolute (default (lit "<unknown>") (disk_id d)))
      else verify_disks ds
  end.

Definition verify_paths (c : VmConfig) : result TransformError () :=
  if some_relative (payload_kernel (payload c)) then Err KernelNotAbsolute
  else if some_relative (payload_initramfs (payload c)) then Err InitramfsNotAbsolute
  else if some_relative (payload_firmware (payload c)) then Err FirmwareNotAbsolute
  else match disks c with Some ds => verify_disks ds | None => Ok () end.

Definition path_verify {W} : ConfigTransform W := {|
  transform := λ _ c w, (c, w, verify_paths c);
  teardown := no_teardown |}.

(** ** TAP names *)

(** The characters of a generated interface name. *)
Definition is_tap_char (c : N) : bool :=
  is_ascii_digit c || is_ascii_lowercase c || (c =? 45) || (c =? 95).

Lemma sanitize_chars value : Forall (λ c, is_tap_char c = true) (sanitize_component value).
Proof.
  apply Forall_fmap, Forall_true. intros c. cbn.
  destruct (is_name_char c) eqn:Hn; [|done]. unfold to_ascii_lowercase, is_tap_char.
  destruct (is_ascii_uppercase c) eqn:Hu.
  - unfold is_ascii_uppercase in Hu. bool_to_prop.
    assert (is_ascii_lowercase (c + 32) = true) as ->.
    { unfold is_ascii_lowercase. apply andb_true_iff. split; apply N.leb_le; lia. }
    by rewrite orb_true_r.
  - unfold is_name_char, is_ascii_alphanumeric in Hn. by rewrite Hu, orb_false_r in Hn.
Qed.

Lemma keep_suffix_spec n s :
  (length (keep_suffix n s) ≤ n)%nat ∧ ∃ k, s = k ++ keep_suffix n s.
Proof.
  unfold keep_suffix. destruct (Nat.ltb_spec n (length s)).
  - split; [rewrite length_drop; lia|]. exists (take (length s - n) s). by rewrite take_drop.
  - split; [done|by exists []].
Qed.

Lemma keep_suffix_chars (P : N → Prop) n s : Forall P s → Forall P (keep_suffix n s).
Proof. destruct (keep_suffix_spec n s) as [_ [k Hk]]. rewrite Hk at 1. by intros [_ ?]%Forall_app. Qed.

(** The budgets leave four characters for each side. *)
Lemma deterministic_tap_name_eq vmid network_id :
  deterministic_tap_name vmid network_id =
  lit "vmtap-" ++ keep_suffix 4 (sanitize_component vmid) ++ lit "-" ++
  keep_suffix 4 (sanitize_component network_id).
Proof.
  unfold deterministic_tap_name.
  change (Nat.eqb _ 0) with false. cbv iota zeta.
  change (Nat.max (Nat.div (MAX_IFNAME_LEN - (length TAP_PREFIX + 2)) 2) 1) with 4%nat.
  change (Nat.max (MAX_IFNAME_LEN - (length TAP_PREFIX + 2) - 4) 1) with 4%nat.
  destruct (keep_suffix_spec 4 (sanitize_component vmid)) as [H1 _].
  destruct (keep_suffix_spec 4 (sanitize_component network_id)) as [H2 _].
  match goal with |- context [Nat.ltb ?a ?b] => destruct (Nat.ltb_spec a b) as [Hlt|Hge] end.
  - rewrite !length_app in Hlt. change (length TAP_PREFIX) with 5%nat in Hlt.
    change (length (lit "-")) with 1%nat in Hlt. unfold MAX_IFNAME_LEN in Hlt. lia.
  - unfold TAP_PREFIX. rewrite (assoc_L (++) (lit "vmtap")). done.
Qed.

(** A generated TAP name is a valid Linux interface name: at most 15
    bytes, only lower-case ASCII letters, digits, dash and underscore, with the
    fixed prefix, for every VM id and network id. *)
Theorem tap_name_valid vmid network_id :
  let tap := deterministic_tap_name vmid network_id in
  (length tap ≤ MAX_IFNAME_LEN)%nat ∧ Forall (λ c, is_tap_char c = true) tap ∧
  lit "vmtap-" `prefix_of` tap.
Proof.
  cbv zeta. rewrite deterministic_tap_name_eq.
  destruct (keep_suffix_spec 4 (sanitize_component vmid)) as [H1 _].
  destruct (keep_suffix_spec 4 (sanitize_component network_id)) as [H2 _].
  split_and!.
  - rewrite !length_app. change (length (lit "vmtap-")) with 6%nat.
    change (length (lit "-")) with 1%nat. unfold MAX_IFNAME_LEN. lia.
  - rewrite !Forall_app. split_and!; try apply keep_suffix_chars, sanitize_chars;
      repeat constructor.
  - by eexists.
Qed.

(** Two networks of one VM whose names end alike get the same TAP name. *)
Lemma tap_names_collide vmid :
  deterministic_tap_name vmid (lit "devnet") = deterministic_tap_name vmid (lit "vnet").
Proof. rewrite !deterministic_tap_name_eq. f_equal. Qed.

(** ** Network rewriting *)

Lemma rewrite_net_config_idemp vmid n n' :
  rewrite_net_config vmid n = Ok n' → rewrite_net_config vmid n' = Ok n'.
Proof.
  unfold rewrite_net_config. destruct (net_id n) as [id|] eqn:Hid.
  - destruct (strip_prefix id _) as [nid|] eqn:Hp.
    + destruct (validate_network_id nid) eqn:Hv; [|done]. intros [= <-]. cbn. by rewrite Hp, Hv.
    + intros [= <-]. by rewrite Hid, Hp.
  - intros [= <-]. by rewrite Hid.
Qed.

Lemma rewrite_nets_ok vmid nets nets' :
  rewrite_nets vmid nets = (nets', Ok ()) ↔ Forall2 (λ n n', rewrite_net_config vmid n = Ok n') nets nets'.
Proof.
  revert nets'. induction nets as [|n nets IH]; intros nets'; cbn.
  - split; [intros [= <-]; constructor|by intros ->%Forall2_nil_inv_l].
  - destruct (rewrite_net_config vmid n) as [m|e] eqn:Hn.
    + destruct (rewrite_nets vmid nets) as [ms r]. split.
      * intros [= <- ->]. constructor; [done|]. by apply IH.
      * intros (m' & ms' & Hm & Hms & ->)%Forall2_cons_inv_l. apply IH in Hms.
        rewrite Hn in Hm. by simplify_eq.
    + split; [done|]. intros (m' & ms' & Hm & _)%Forall2_cons_inv_l. congruence.
Qed.

Lemma network_transform_ok {W} vmid (c c' : VmConfig) (w w' : W) :
  transform network_transform vmid c w = (c', w', Ok ()) →
  w' = w ∧ transform network_transform vmid c' w = (c', w, Ok ()) ∧
  match net c, net c' with
  | None, None => True
  | Some nets, Some nets' => Forall2 (λ n n',
      net_id n' = net_id n ∧ net_mac n' = net_mac n ∧
      match net_id n ≫= λ id, strip_prefix id NETWORK_URI_PREFIX with
      | Some network_id => validate_network_id network_id = true ∧
          net_tap n' = Some (deterministic_tap_name vmid network_id)
      | None => net_tap n' = net_tap n
      end) nets nets'
  | _, _ => False
  end.
Proof.
  unfold network_transform. cbn. destruct (net c) as [nets|] eqn:Hn.
  - destruct (rewrite_nets vmid nets) as [nets' r] eqn:Hr. intros [= <- <- ->]. split; [done|].
    apply rewrite_nets_ok in Hr as Hf. cbn. split.
    + assert (rewrite_nets vmid nets' = (nets', Ok ())) as ->; [|done].
      apply rewrite_nets_ok. clear -Hf. induction Hf as [|n n' l l' Hn _ IH]; constructor; [|done].
      by eapply rewrite_net_config_idemp.
    + eapply Forall2_impl; [exact Hf|]. intros n n' Hrw. unfold rewrite_net_config in Hrw.
      destruct (net_id n) as [id|] eqn:Hid; cbn; [|by simplify_eq].
      destruct (strip_prefix id _) as [nid|]; [|by simplify_eq].
      destruct (validate_network_id nid) eqn:Hv; [|done]. by injection Hrw as <-.
  - intros [= <- <-]. split; [done|]. by rewrite Hn.
Qed.

(** The network an interface is named after, if it is named by a network URI,
    and the names that are allowed there. *)
Definition network_of (n : NetConfig) : option rstring :=
  net_id n ≫= λ id, strip_prefix id (lit "net://").
Definition network_name (network_id : rstring) : Prop :=
  network_id ≠ [] ∧ Forall (λ c, is_ascii_alphanumeric c = true ∨ c = 45 ∨ c = 95) network_id.

Lemma validate_network_id_spec network_id :
  validate_network_id network_id = true ↔ network_name network_id.
Proof.
  unfold validate_network_id, network_name. rewrite andb_true_iff, negb_true_iff, forallb_forall.
  rewrite <-not_true_iff_false, is_empty_spec, Forall_forall. unfold is_name_char.
  apply and_iff_compat_l. setoid_rewrite list_elem_of_In.
  split; intros H c Hc; specialize (H c Hc); rewrite !orb_true_iff, !N.eqb_eq in *; tauto.
Qed.

(** The interface name of a VM on a network: the prefix, then the last four
    characters of the sanitized VM and network identifiers (all of them, if
    there are fewer). *)
Definition tap_name_of (vmid network_id tap : rstring) : Prop :=
  (∃ v n, tap = lit "vmtap-" ++ v ++ lit "-" ++ n ∧
    v `suffix_of` sanitize_component vmid ∧ length v = Nat.min 4 (length vmid) ∧
    n `suffix_of` sanitize_component network_id ∧ length n = Nat.min 4 (length network_id)) ∧
  (length tap ≤ 15)%nat ∧ Forall (λ c, is_tap_char c = true) tap.

Lemma keep_suffix_length n s : length (keep_suffix n s) = Nat.min n (length s).
Proof. unfold keep_suffix. destruct (Nat.ltb_spec n (length s)); rewrite ?length_drop; lia. Qed.

Lemma deterministic_tap_name_of vmid network_id :
  tap_name_of vmid network_id (deterministic_tap_name vmid network_id).
Proof.
  destruct (tap_name_valid vmid network_id) as (Hl & Hc & _). split; [|done].
  rewrite deterministic_tap_name_eq. eexists _, _. split; [done|].
  assert (∀ s, length (sanitize_component s) = length s) as Hs by (intros; apply length_fmap).
  rewrite !keep_suffix_length, !Hs.
  split_and!; try done; apply keep_suffix_spec.
Qed.

(** An interface before and after the transform. *)
Definition rewired (vmid : rstring) (n n' : NetConfig) : Prop :=
  net_id n' = net_id n ∧ net_mac n' = net_mac n ∧
  match network_of n with
  | Some network_id => ∃ tap, net_tap n' = Some tap ∧ tap_name_of vmid network_id tap
  | None => net_tap n' = net_tap n
  end.

Lemma rewrite_net_config_cases vmid n :
  match rewrite_net_config vmid n with
  | Ok n' => rewired vmid n n' ∧ ∀ network_id, network_of n = Some network_id → network_name network_id
  | Err e => ∃ id network_id, net_id n = Some id ∧ network_of n = Some network_id ∧
      ¬ network_name network_id ∧ e = InvalidNetworkId id
  end.
Proof.
  unfold rewrite_net_config, rewired, network_of. change NETWORK_URI_PREFIX with (lit "net://").
  destruct (net_id n) as [id|] eqn:Hid; cbn [mbind option_bind]; [|done].
  destruct (strip_prefix id (lit "net://")) as [nid|] eqn:Hs; [|by rewrite Hid].
  destruct (validate_network_id nid) eqn:Hv.
  - cbn [net_id net_mac net_tap]. apply validate_network_id_spec in Hv. split_and!; [done|done| |naive_solver].
    eexists. split; [done|apply deterministic_tap_name_of].
  - exists id, nid. rewrite <-validate_network_id_spec. naive_solver congruence.
Qed.

Lemma rewrite_nets_cases vmid nets :
  match rewrite_nets vmid nets with
  | (nets', Ok ()) => Forall2 (rewired vmid) nets nets' ∧
      ∀ n network_id, n ∈ nets → network_of n = Some network_id → network_name network_id
  | (_, Err e) => ∃ n id network_id, n ∈ nets ∧ net_id n = Some id ∧
      network_of n = Some network_id ∧ ¬ network_name network_id ∧ e = InvalidNetworkId id
  end.
Proof.
  induction nets as [|n nets IH]; cbn; [split; [constructor|set_solver]|].
  pose proof (rewrite_net_config_cases vmid n) as Hn. destruct (rewrite_net_config vmid n) as [n'|e].
  - destruct (rewrite_nets vmid nets) as [nets' [[]|e]].
    + destruct Hn as [Hn Hn'], IH as [IH IH']. split; [by constructor|].
      intros m nid [->|Hm]%elem_of_cons; eauto.
    + destruct IH as (m & id & nid & Hm & Hr). exists m, id, nid. set_solver.
  - destruct Hn as (id & nid & Hr). exists n, id, nid. split; [set_solver|tauto].
Qed.

(** C35. The network transform connects the interfaces of its VM and touches
    nothing else. It leaves the node alone and every part of the configuration
    other than the interfaces as it was, also when it fails. It succeeds exactly
    if every interface named by a [net://] URI has a non-empty network name of
    ASCII letters, digits, dashes and underscores, and otherwise reports such an
    interface. After a success every interface has its identity and MAC address,
    and the interfaces named by a URI a TAP device whose name is [vmtap-], the
    last four sanitized characters of the VM identifier, a dash and those of the
    network name, hence at most 15 characters from the lower-case letters,
    digits, dash and underscore, while the others keep their device; and
    transforming again changes nothing. *)
Theorem network_transform_spec {W} vmid (c : VmConfig) (w : W) :
  let '(c', w', r) := transform network_transform vmid c w in
  w' = w ∧ c' = set_net (net c') c ∧
  (r = Ok () ↔ ∀ n network_id, n ∈ default [] (net c) → network_of n = Some network_id →
     network_name network_id) ∧
  (∀ e, r = Err e → ∃ n id network_id, n ∈ default [] (net c) ∧ net_id n = Some id ∧
     network_of n = Some network_id ∧ ¬ network_name network_id ∧ e = InvalidNetworkId id) ∧
  (r = Ok () → transform network_transform vmid c' w = (c', w, Ok ()) ∧
     option_Forall2 (Forall2 (rewired vmid)) (net c) (net c')).
Proof.
  pose proof (λ c' w', network_transform_ok vmid c c' w w') as Hidem. revert Hidem.
  cbn [transform network_transform]. destruct (net c) as [nets|] eqn:Hn.
  2: { intros _. split_and!; try done; [by destruct c; cbn in *; subst|set_solver|].
       intros _. rewrite Hn. split; [done|constructor]. }
  pose proof (rewrite_nets_cases vmid nets) as Hc.
  destruct (rewrite_nets vmid nets) as [nets' [[]|e]]; intros Hidem; cbn [default].
  - destruct Hc as [Hf Ha]. split_and!; try done. intros _.
    destruct (Hidem _ _ eq_refl) as (_ & Hi & _). split; [done|by constructor].
  - destruct Hc as (n & id & nid & Hin & Hid & Hnid & Hbad & ->). split_and!; try done.
    + split; [done|]. intros Hall. by destruct Hbad; eapply Hall.
    + intros e' [= <-]. naive_solver.
Qed.

(** ** Path verification and the console socket *)

Lemma verify_disks_ok ds :
  verify_disks ds = Ok () ↔ ∀ d p, d ∈ ds → disk_path d = Some p → is_absolute p = true.
Proof.
  induction ds as [|d ds IH]; cbn; [set_solver|].
  destruct (disk_path d) as [p|] eqn:Hp; cbn.
  - destruct (is_absolute p) eqn:Ha; cbn.
    + rewrite IH. split; [|set_solver]. intros H d' p' [->|?]%elem_of_cons ?; [congruence|eauto].
    + split; [done|]. intros H. rewrite (H d p) in Ha; set_solver.
  - rewrite IH. split; [|set_solver]. intros H d' p' [->|?]%elem_of_cons ?; [congruence|eauto].
Qed.

(** Path verification accepts a configuration exactly when kernel,
    initramfs, firmware and every disk path that is given are absolute. *)
Theorem verify_paths_spec c :
  verify_paths c = Ok () ↔
  (∀ p, p ∈ option_list (payload_kernel (payload c)) ++ option_list (payload_initramfs (payload c)) ++
        option_list (payload_firmware (payload c)) → is_absolute p = true) ∧
  (∀ d p, d ∈ default [] (disks c) → disk_path d = Some p → is_absolute p = true).
Proof.
  unfold verify_paths.
  assert (∀ o, some_relative o = false ↔ ∀ p, p ∈ option_list o → is_absolute p = true) as Hrel.
  { intros [p|]; cbn; [|set_solver]. rewrite negb_false_iff. set_solver. }
  destruct (some_relative (payload_kernel _)) eqn:Hk.
  { split; [done|]. intros [H _]. assert (some_relative (payload_kernel (payload c)) = false); [|congruence].
    apply Hrel. set_solver. }
  destruct (some_relative (payload_initramfs _)) eqn:Hi.
  { split; [done|]. intros [H _]. assert (some_relative (payload_initramfs (payload c)) = false); [|congruence].
    apply Hrel. set_solver. }
  destruct (some_relative (payload_firmware _)) eqn:Hf.
  { split; [done|]. intros [H _]. assert (some_relative (payload_firmware (payload c)) = false); [|congruence].
    apply Hrel. set_solver. }
  rewrite Hrel in Hk, Hi, Hf. destruct (disks c) as [ds|]; cbn; [rewrite verify_disks_ok|]; set_solver.
Qed.

(** The serial socket named in the configuration is the socket the VM
    actor later connects to, for every VM id that is a plain file name. *)
Theorem console_socket_agrees {W} env vmid (c : VmConfig) (w : W) :
  vmid ≠ [] → 47 ∉ vmid →
  (serial (transform (console_transform env) vmid c w).1.1 ≫= console_socket) =
  Some (console_socket_path env vmid).
Proof.
  intros Hne Hsl. cbn. unfold console_socket_path. f_equal. unfold path_join at 1.
  change (is_absolute (lit "console.sock")) with false. cbv iota.
  assert (last (runtime_dir_for env vmid) = last vmid) as Hlast.
  { unfold runtime_dir_for, path_join at 1. destruct vmid as [|x vmid] using rev_ind; [done|].
    clear IHvmid. rewrite last_snoc. destruct (is_absolute _); [by rewrite last_snoc|].
    destruct (last (runtime_root env)) as [y|]; [|by rewrite last_snoc].
    destruct (y =? 47); [by rewrite (assoc_L (++)), last_snoc|].
    rewrite app_comm_cons, (assoc_L (++)). by rewrite last_snoc. }
  rewrite Hlast. destruct vmid as [|x vmid] using rev_ind; [done|]. clear IHvmid.
  rewrite last_snoc. destruct (N.eqb_spec x 47) as [->|]; [set_solver|]. done.
Qed.

(** ** Concrete runs *)

Definition ex_net : NetConfig := {| net_id := Some (lit "net://devnet"); net_tap := None; net_mac := None |}.
Definition ex_vm_config : VmConfig := set_net (Some [ex_net]) default_vm_config.

Definition ex_tap_config : VmConfig :=
  set_net (Some [{| net_id := Some (lit "net://devnet");
                    net_tap := Some (lit "vmtap-mhwt-vnet"); net_mac := None |}]) default_vm_config.

Lemma network_transform_spec_witness :
  transform (@network_transform ()) (lit "01KPB9AMVWXC2D1PF4W6E7MHWT") ex_vm_config () =
    (ex_tap_config, (), Ok ()) ∧
  transform (@network_transform ()) (lit "01KPB9AMVWXC2D1PF4W6E7MHWT") ex_tap_config () =
    (ex_tap_config, (), Ok ()).
Proof.
  split; [reflexivity|].
  pose proof (network_transform_spec (lit "01KPB9AMVWXC2D1PF4W6E7MHWT") ex_vm_config ()) as H.
  change (transform network_transform (lit "01KPB9AMVWXC2D1PF4W6E7MHWT") ex_vm_config ())
    with (ex_tap_config, (), Ok (E := TransformError) ()) in H.
  destruct H as (_ & _ & _ & _ & H). exact (proj1 (H eq_refl)).
Defined.

Lemma console_socket_agrees_witness :
  serial (transform (console_transform None) (lit "01KPB9AMVWXC2D1PF4W6E7MHWT") default_vm_config ()).1.1
    ≫= console_socket = Some (lit "/run/odorobo/vms/01KPB9AMVWXC2D1PF4W6E7MHWT/console.sock").
Proof.
  assert (47 ∉ lit "01KPB9AMVWXC2D1PF4W6E7MHWT") as Hs by (vm_compute; set_solver).
  rewrite (console_socket_agrees None (lit "01KPB9AMVWXC2D1PF4W6E7MHWT") default_vm_config ()
    ltac:(done) Hs).
  vm_compute. reflexivity.
Defined.
