(* ===== verification/Storage.v ===== *)
(** * Storage backends

    [odorobo/src/ch_driver/transform/storage/]: the drivers that resolve a
    disk URI to a node-local path and release it, the RBD and iSCSI targets
    with their textual forms, and the storage transform that dispatches on the
    URI scheme. URLs are those of the [url] library: their operations are the
    class [UrlOps], what the program relies on is [UrlLaws]. The node (the
    [rbd] and [iscsiadm] commands, the file system) is the class [Node] on a
    state [W]. *)

From S2P Require Import Prelude RustString RustFloat Manifest ChConfig Transform.
Open Scope N_scope.

(** ** Interfaces *)

Class UrlOps := {
  Url : Type;
  url_parse : rstring → option Url;
  url_scheme : Url → rstring;
  url_host_str : Url → option rstring;
  url_port : Url → option N;
  url_path : Url → rstring;
  url_path_segments : Url → option (list rstring);
  url_to_file_path : Url → option rstring;
  (** [query_pairs_mut().append_pair("id", value).finish().to_string()] *)
  url_with_id : Url → rstring → rstring }.

(** Two URLs that name the same resource: they differ in the query at most. *)
Definition same_resource `{UrlOps} (u v : Url) : Prop :=
  url_scheme u = url_scheme v ∧ url_host_str u = url_host_str v ∧ url_port u = url_port v ∧
  url_path u = url_path v ∧ url_path_segments u = url_path_segments v ∧
  url_to_file_path u = url_to_file_path v.

(** Documented behaviour of the library: appending a query pair and printing
    gives a URL that parses back to the same resource, a string that begins
    with a slash is no absolute URL, and a file path is absolute. *)
Class UrlLaws `{UrlOps} : Prop := {
  url_with_id_parse : ∀ u id, ∃ v, url_parse (url_with_id u id) = Some v ∧ same_resource v u;
  url_parse_absolute : ∀ p, is_absolute p = true → url_parse p = None;
  url_file_path_absolute : ∀ u p, url_to_file_path u = Some p → is_absolute p = true }.

(** The node: external commands and the file system. A command's outcome is
    its success and standard output. *)
Class Node (W : Type) := {
  rbd_device_list : W → W * option rstring;
  rbd_device_map : rstring → W → W * bool;
  rbd_device_unmap : rstring → W → W * bool;
  iscsi_login : rstring → rstring → W → W * bool;
  iscsi_logout : rstring → rstring → W → W * bool;
  path_exists : rstring → W → W * bool }.

Inductive StorageError :=
| NotAFilePath
| RbdListFailed
| RbdMapFailed
| RbdUnmapFailed
| RbdNoHost
| RbdNoPath
| RbdNoDevice
| IscsiLoginFailed
| IscsiLogoutFailed
| NotAnIscsiPath.

Record StorageDriver `{UrlOps} (W : Type) := {
  driver_scheme : rstring;
  driver_resolve : Url → W → W * result StorageError rstring;
  driver_release : Url → W → W * result StorageError () }.
Arguments driver_scheme {_ W}.
Arguments driver_resolve {_ W}.
Arguments driver_release {_ W}.

(** ** Files *)

Definition file_target `{UrlOps} (u : Url) : result StorageError rstring :=
  ok_or (url_to_file_path u) NotAFilePath.

Definition file_storage `{UrlOps} {W} : StorageDriver W := {|
  driver_scheme := lit "file";
  driver_resolve := λ u w, (w, file_target u);
  driver_release := λ _ w, (w, Ok ()) |}.

(** ** RBD *)

Record RbdImage := { pool : rstring; image : rstring }.
Definition rbd_path (i : RbdImage) : rstring := pool i ++ lit "/" ++ image i.
Definition device_path (i : RbdImage) : rstring := lit "/dev/rbd/" ++ pool i ++ lit "/" ++ image i.

Definition rbd_image_of `{UrlOps} (u : Url) : result StorageError RbdImage :=
  match url_host_str u with
  | None => Err RbdNoHost
  | Some pool =>
      if is_empty (url_path u) || bool_decide (url_path u = lit "/") then Err RbdNoPath
      else Ok {| pool := pool; image := trim_start_matches 47 (url_path u) |}
  end.

(** One line of [rbd device list]: its mapping, if it has one. *)
Definition rbd_line (line : rstring) : option (rstring * rstring) :=
  match split_whitespace line with
  | _ :: pool :: field :: next :: fifth :: rest =>
      match rest with
      | device :: _ => Some (pool ++ lit "/" ++ next, device)
      | [] => if starts_with fifth (lit "/dev/") then Some (pool ++ lit "/" ++ field, fifth) else None
      end
  | _ => None
  end.
Definition rbd_lines_list (input : rstring) : list (rstring * rstring) :=
  omap rbd_line (drop 1 (lines input)).

Definition rbd_map_list `{Node W} (w : W) : W * result StorageError (list (rstring * rstring)) :=
  match rbd_device_list w with
  | (w, Some out) => (w, Ok (rbd_lines_list out))
  | (w, None) => (w, Err RbdListFailed)
  end.

Definition rbd_map `{Node W} (i : RbdImage) (w : W) : W * result StorageError () :=
  match rbd_map_list w with
  | (w, Err e) => (w, Err e)
  | (w, Ok mappings) =>
      if existsb (λ m, bool_decide (m.1 = rbd_path i)) mappings then (w, Ok ())
      else match rbd_device_map (rbd_path i) w with
           | (w, true) => (w, Ok ())
           | (w, false) => (w, Err RbdMapFailed)
           end
  end.

Definition rbd_unmap `{Node W} (i : RbdImage) (w : W) : W * result StorageError () :=
  match rbd_device_unmap (rbd_path i) w with
  | (w, true) => (w, Ok ())
  | (w, false) => (w, Err RbdUnmapFailed)
  end.

(** The wait for the stable path: [attempts] looks, 100 ms apart. *)
Fixpoint wait_for_path `{Node W} (attempts : nat) (path : rstring) (w : W) : W * bool :=
  match attempts with
  | O => (w, false)
  | S attempts =>
      match path_exists path w with
      | (w, true) => (w, true)
      | (w, false) => wait_for_path attempts path w
      end
  end.

Definition rbd_resolve `{UrlOps, Node W} (u : Url) (w : W) : W * result StorageError rstring :=
  match rbd_image_of u with
  | Err e => (w, Err e)
  | Ok i =>
      match rbd_map i w with
      | (w, Err e) => (w, Err e)
      | (w, Ok ()) =>
          match wait_for_path 100 (device_path i) w with
          | (w, true) => (w, Ok (device_path i))
          | (w, false) =>
              match rbd_map_list w with
              | (w, Err e) => (w, Err e)
              | (w, Ok mappings) =>
                  (w, ok_or (snd <$> List.find (λ m, bool_decide (m.1 = rbd_path i)) mappings) RbdNoDevice)
              end
          end
      end
  end.

Definition rbd_release `{UrlOps, Node W} (u : Url) (w : W) : W * result StorageError () :=
  match rbd_image_of u with
  | Err e => (w, Err e)
  | Ok i => rbd_unmap i w
  end.

Definition rbd_storage `{UrlOps, Node W} : StorageDriver W := {|
  driver_scheme := lit "rbd"; driver_resolve := rbd_resolve; driver_release := rbd_release |}.

(** ** iSCSI *)

Record ISCSITarget := { host : rstring; iqn : rstring; lun : N }.

Definition to_device_path (t : ISCSITarget) : rstring :=
  lit "/dev/disk/by-path/ip-" ++ host t ++ lit "-iscsi-" ++ iqn t ++ lit "-lun-" ++ show_N (lun t).

Definition iscsi_attach `{Node W} (t : ISCSITarget) (w : W) : W * result StorageError rstring :=
  match iscsi_login (iqn t) (host t) w with
  | (w, true) => (w, Ok (to_device_path t))
  | (w, false) => (w, Err IscsiLoginFailed)
  end.
Definition iscsi_detach `{Node W} (t : ISCSITarget) (w : W) : W * result StorageError () :=
  match iscsi_logout (iqn t) (host t) w with
  | (w, true) => (w, Ok ())
  | (w, false) => (w, Err IscsiLogoutFailed)
  end.

Definition iscsi_target_of `{UrlOps} (u : Url) : ISCSITarget :=
  let host_ip := default [] (url_host_str u) in
  let port := default 3260 (url_port u) in
  let segments := default [] (url_path_segments u) in
  let lun_str := default [] (segments !! 1%nat) in
  {| host := host_ip ++ lit ":" ++ show_N port;
     iqn := default [] (head segments);
     lun := default 0 (parse_u32 (default lun_str (strip_prefix lun_str (lit "lun")))) |}.

Definition iscsi_target_of_path (path : rstring) : result StorageError ISCSITarget :=
  let name := default [] (file_name path) in
  stripped ← ok_or (strip_prefix name (lit "ip-")) NotAnIscsiPath;
  parts ← ok_or (split_once stripped (lit "-iscsi-")) NotAnIscsiPath;
  let '(host_part, rest) := parts in
  let '(iqn_part, lun_part) := default (rest, lit "0") (rsplit_once rest (lit "-lun-")) in
  Ok {| host := host_part; iqn := iqn_part; lun := default 0 (parse_u32 lun_part) |}.

Definition iscsi_storage `{UrlOps, Node W} : StorageDriver W := {|
  driver_scheme := lit "iscsi";
  driver_resolve := λ u w, iscsi_attach (iscsi_target_of u) w;
  driver_release := λ u w, iscsi_detach (iscsi_target_of u) w |}.

(** ** The storage transform *)

Section transformer.
Context `{UrlOps} {W : Type} (backends : list (StorageDriver W)).

Definition find_backend (u : Url) : option (StorageDriver W) :=
  List.find (λ b, bool_decide (driver_scheme b = url_scheme u)) backends.

(** The URL of a string and the backend that handles it. *)
Definition parse_backend (s : rstring) : option (Url * StorageDriver W) :=
  u ← url_parse s; b ← find_backend u; Some (u, b).

(** The disk's URI, looked for in its path and then in its identity. *)
Definition release_target (d : DiskConfig) : option (Url * StorageDriver W) :=
  head (omap parse_backend (option_list (disk_path d) ++ option_list (disk_id d))).

(** Errors are logged and do not stop the other releases. *)
Definition release_disk (w : W) (d : DiskConfig) : W :=
  match release_target d with
  | Some (u, b) => (driver_release b u w).1
  | None => w
  end.
Definition release_config (c : VmConfig) (w : W) : W :=
  match disks c with
  | None => w
  | Some ds => foldl release_disk w ds
  end.

(** The body of the loop over the disks. *)
Definition resolve_disk (d : DiskConfig) (w : W) : DiskConfig * W * result TransformError () :=
  match disk_path d with
  | None => (d, w, Ok ())
  | Some path =>
      match parse_backend path with
      | None => (d, w, Ok ())
      | Some (u, b) =>
          let id := Some (url_with_id u (default (lit "<unknown>") (disk_id d))) in
          match driver_resolve b u w with
          | (w, Err _) =>
              ({| disk_id := id; disk_path := disk_path d; disk_readonly := disk_readonly d;
                  disk_image_type := disk_image_type d |}, w, Err StorageFailed)
          | (w, Ok resolved) =>
              ({| disk_id := id; disk_path := Some resolved; disk_readonly := disk_readonly d;
                  disk_image_type := disk_image_type d |}, w, Ok ())
          end
      end
  end.

Fixpoint resolve_disks (ds : list DiskConfig) (w : W) :
    list DiskConfig * W * result TransformError () :=
  match ds with
  | [] => ([], w, Ok ())
  | d :: ds =>
      match resolve_disk d w with
      | (d, w, Err e) => (d :: ds, w, Err e)
      | (d, w, Ok ()) => let '(ds, w, r) := resolve_disks ds w in (d :: ds, w, r)
      end
  end.

Definition storage_transform : ConfigTransform W := {|
  transform := λ _ c w,
    match disks c with
    | None => (c, w, Ok ())
    | Some ds => let '(ds, w, r) := resolve_disks ds w in (set_disks (Some ds) c, w, r)
    end;
  teardown := λ _ c w, (c, release_config c w, Ok ()) |}.
End transformer.

Definition default_backends `{UrlOps, Node W} : list (StorageDriver W) :=
  [file_storage; rbd_storage; iscsi_storage].

(** [TransformChain::default()]. *)
Definition default_chain `{UrlOps, Node W} (env : option rstring) : ConfigTransform W :=
  chain [storage_transform default_backends; console_transform env; network_transform; path_verify].
