(* ===== verification/StorageFacts.v ===== *)
(** * Correctness of the storage backends

    The textual forms of iSCSI targets and of the RBD device list parse back to
    what was printed; the storage transform and its teardown are balanced. *)

From S2P Require Import Prelude RustString RustFloat Manifest ChConfig Transform Storage.
Open Scope N_scope.

(** ** iSCSI device paths *)

Lemma elem_of_app_inv_length {A} (a b k l : list A) :
  a ++ b = k ++ l → (length k < length a)%nat → ∃ m, a = k ++ m ∧ l = m ++ b ∧ m ≠ [].
Proof.
  intros Heq Hlt. exists (drop (length k) a).
  assert (take (length k) a = k) as Htake.
  { apply (f_equal (take (length k))) in Heq. rewrite take_app_length, take_app_le in Heq by lia. done. }
  assert (a = k ++ drop (length k) a) as Ha by by rewrite <-Htake at 1; rewrite take_drop.
  split_and!; [done| |].
  - rewrite Ha in Heq. rewrite <-(assoc_L (++)) in Heq. by apply app_inv_head in Heq.
  - intros Hd. rewrite Hd, app_nil_r in Ha. subst. lia.
Qed.

(** A separator whose characters do not end the prefix does not occur earlier. *)
Lemma first_occurrence (a b sep : rstring) :
  (∀ k l, a ≠ k ++ sep ++ l) → (∀ c, last a = Some c → c ∉ sep) →
  ∀ k l, a ++ sep ++ b = k ++ sep ++ l → (length a ≤ length k)%nat.
Proof.
  intros Hno Hlast k l Heq. destruct (decide (length a ≤ length k)%nat) as [|Hlt]; [done|exfalso].
  destruct (elem_of_app_inv_length a (sep ++ b) k (sep ++ l) Heq) as (m & Ha & Hm & Hne); [lia|].
  destruct (decide (length sep ≤ length m)%nat) as [Hle|Hgt].
  - destruct (decide (length sep = length m)) as [Hl|Hl].
    + apply app_inj_1 in Hm as [-> _]; [|done]. apply (Hno k []). by rewrite app_nil_r.
    + symmetry in Hm. destruct (elem_of_app_inv_length m (sep ++ b) sep l Hm) as (m' & -> & _); [lia|].
      by apply (Hno k m').
  - destruct (elem_of_app_inv_length sep l m (sep ++ b) Hm) as (m' & Hs & _); [lia|].
    destruct m as [|c m] using rev_ind; [done|]. clear IHm.
    apply (Hlast c); [by rewrite Ha, (assoc_L (++)), last_snoc|]. rewrite Hs. set_solver.
Qed.

(** A separator that ends in a character the suffix lacks does not occur later. *)
Lemma last_occurrence (b sep : rstring) c :
  last sep = Some c → c ∉ b → ∀ k l, sep ++ b = k ++ sep ++ l → k = [].
Proof.
  intros Hlast Hc k l Heq. destruct sep as [|x sep] using rev_ind; [done|]. clear IHsep.
  rewrite last_snoc in Hlast. injection Hlast as ->. destruct (decide (k = [])) as [|Hk]; [done|exfalso].
  rewrite (assoc_L (++) k) in Heq. symmetry in Heq.
  destruct (elem_of_app_inv_length (k ++ sep ++ [c]) l (sep ++ [c]) b Heq) as (m & Hm & -> & Hne).
  { rewrite !length_app. destruct k; [done|cbn; lia]. }
  destruct m as [|y m] using rev_ind; [done|]. clear IHm.
  rewrite !(assoc_L (++)) in Hm. apply app_inj_2 in Hm as [_ [= <-]]; [|done]. set_solver.
Qed.

(** A host with a port, as a target has. *)
Definition host_wf (h : rstring) : Prop :=
  47 ∉ h ∧ (∀ k l, h ≠ k ++ lit "-iscsi-" ++ l) ∧ ∃ c, last h = Some c ∧ is_ascii_digit c = true.

Lemma digit_not_elem c s : is_ascii_digit c = true → Forall (λ x, is_ascii_digit x = false) s → c ∉ s.
Proof. intros Hc Hs Hin. rewrite Forall_forall in Hs. rewrite (Hs c Hin) in Hc. done. Qed.

(** The device path of an iSCSI target parses back to the target, for any
    IQN, also one that contains the separators of the path, and any LUN. *)
Theorem iscsi_device_path_roundtrip t :
  host_wf (host t) → 47 ∉ iqn t → lun t ≤ u32_max →
  iscsi_target_of_path (to_device_path t) = Ok t.
Proof.
  intros (Hh & Hno & c & Hl & Hd) Hi Hlun. destruct (show_N_digits (lun t)) as [Hdig Hne].
  assert (47 ∉ show_N (lun t) ∧ 45 ∉ show_N (lun t)) as [Hs1 Hs2].
  { rewrite Forall_forall in Hdig. split; intros Hin; by apply Hdig in Hin. }
  set (name := lit "ip-" ++ host t ++ lit "-iscsi-" ++ iqn t ++ lit "-lun-" ++ show_N (lun t)).
  assert (file_name (to_device_path t) = Some name) as Hname.
  { change (to_device_path t) with (lit "/dev/disk/by-path" ++ 47 :: name).
    apply file_name_last; [|done..]. subst name.
    rewrite !not_elem_of_app. split_and!; try done; by apply (bool_decide_unpack _). }
  unfold iscsi_target_of_path. rewrite Hname. cbn [from_option id].
  assert (strip_prefix name (lit "ip-") =
    Some (host t ++ lit "-iscsi-" ++ iqn t ++ lit "-lun-" ++ show_N (lun t))) as ->
    by by apply strip_prefix_spec.
  cbn [ok_or mbind result_bind id]. rewrite split_once_first; [|done|].
  - cbn [ok_or mbind result_bind id]. rewrite rsplit_once_last; [|done|].
    + cbn [from_option id]. rewrite parse_show_u32 by done. by destruct t.
    + by apply (last_occurrence _ (lit "-lun-") 45).
  - apply first_occurrence; [done|]. intros c' Hc'. rewrite Hl in Hc'. injection Hc' as <-.
    apply digit_not_elem; [done|]. repeat constructor.
Qed.

(** ** RBD device lists *)

Record RbdRow := {
  row_id : rstring; row_pool : rstring; row_namespace : option rstring;
  row_image : rstring; row_snap : rstring; row_device : rstring }.

(** The columns of a row; an empty namespace leaves only blanks. *)
Definition row_words (r : RbdRow) : list rstring :=
  [row_id r; row_pool r] ++ option_list (row_namespace r) ++ [row_image r; row_snap r; row_device r].

(** What a line of the table holds: a mapping, or fewer columns than one has. *)
Inductive RbdEntry := Mapping (r : RbdRow) | Incomplete (ws : list rstring).

(** A line that shows an entry, with any padding of its columns. *)
Definition shows (l : rstring) (e : RbdEntry) : Prop :=
  match e with
  | Mapping r => laid_out (row_words r) l ∧ starts_with (row_device r) (lit "/dev/") = true
  | Incomplete ws => laid_out ws l ∧ (length ws < 5)%nat
  end.

(** The image and the device of an entry. *)
Definition entry_mapping (e : RbdEntry) : option (rstring * rstring) :=
  match e with
  | Mapping r => Some (row_pool r ++ lit "/" ++ row_image r, row_device r)
  | Incomplete _ => None
  end.

Lemma rbd_line_shows l e : shows l e → rbd_line l = entry_mapping e.
Proof.
  unfold rbd_line. destruct e as [r|ws]; cbn [shows entry_mapping].
  - intros [->%split_whitespace_laid_out Hd]. unfold row_words.
    destruct (row_namespace r); cbn [option_list app]; [done|cbn; by rewrite Hd].
  - intros [->%split_whitespace_laid_out Hn]. by destruct ws as [|? [|? [|? [|? [|? ?]]]]]; cbn in Hn; [..|lia].
Qed.

(** A line without a newline that does not end in a carriage return. *)
Definition line_wf (l : rstring) : Prop := 10 ∉ l ∧ last l ≠ Some 13.

Lemma lines_acc_line l acc s :
  10 ∉ l → lines_acc acc (l ++ s) = lines_acc (reverse l ++ acc) s.
Proof.
  revert acc. induction l as [|c l IH]; intros acc Hl; [done|]. cbn [app lines_acc].
  destruct (N.eqb_spec c 10) as [->|]; [set_solver|].
  rewrite IH by set_solver. rewrite reverse_cons. by rewrite <-(assoc_L (++)).
Qed.

Lemma drop_cr_id l : last l ≠ Some 13 → drop_cr (reverse l) = l.
Proof.
  intros Hl. destruct l as [|c l] using rev_ind; [done|]. clear IHl.
  rewrite last_snoc in Hl. rewrite reverse_snoc. unfold drop_cr.
  assert (c ≠ 13) as Hc by congruence.
  assert (reverse (c :: reverse l) = l ++ [c]) as Hr by by rewrite reverse_cons, reverse_involutive.
  destruct c as [|p]; [done|]. repeat (destruct p as [p|p|]; try done).
Qed.

Lemma lines_cons l s : line_wf l → lines (l ++ 10 :: s) = l :: lines s.
Proof.
  intros [Hl Hcr]. unfold lines. rewrite lines_acc_line by done. rewrite app_nil_r. cbn.
  by rewrite drop_cr_id.
Qed.

Lemma lines_last l : l ≠ [] → 10 ∉ l → lines l = [l].
Proof.
  intros Hne Hl. unfold lines. rewrite <-(app_nil_r l) at 1. rewrite lines_acc_line by done.
  rewrite app_nil_r. cbn. destruct (reverse l) as [|c r] eqn:Hr.
  - apply (f_equal reverse) in Hr. by rewrite reverse_involutive in Hr.
  - by rewrite <-Hr, reverse_involutive.
Qed.

(** Lines with their newlines. *)
Definition unlines (ls : list rstring) : rstring := concat ((λ l, l ++ [10]) <$> ls).

Lemma lines_unlines ls s : Forall line_wf ls → lines (unlines ls ++ s) = ls ++ lines s.
Proof.
  induction 1 as [|l ls Hl _ IH]; [done|]. unfold unlines in *. cbn [fmap list_fmap concat].
  rewrite <-!(assoc_L (++)). cbn [app]. rewrite lines_cons by done. by rewrite IH.
Qed.

Lemma rbd_entries ls es :
  Forall2 shows ls es → omap rbd_line ls = omap entry_mapping es.
Proof.
  induction 1 as [|l e ls es Hl _ IH]; [done|]. cbn. rewrite (rbd_line_shows l e Hl), IH. done.
Qed.

(** C40. The parser of [rbd device list] reads the table however its columns are
    padded. After the header line, a line that shows a mapping gives its pool and
    image and its device, whether or not the namespace column is filled and with
    any amount of whitespace before, between and after the columns; a line with
    fewer than five columns gives nothing; the order is kept, and the last line
    may lack its newline. The namespace is dropped: images of one name in
    different namespaces of a pool read alike. *)
Theorem rbd_lines_list_reads header ls es :
  line_wf header → Forall line_wf ls → Forall2 shows ls es →
  rbd_lines_list (unlines (header :: ls)) = omap entry_mapping es ∧
  ∀ l e, 10 ∉ l → l ≠ [] → shows l e →
    rbd_lines_list (unlines (header :: ls) ++ l) = omap entry_mapping (es ++ [e]).
Proof.
  intros Hh Hls Hes. assert (Forall line_wf (header :: ls)) as Hall by by constructor.
  unfold rbd_lines_list. split.
  - rewrite <-(app_nil_r (unlines _)), lines_unlines by done. cbn. rewrite app_nil_r.
    by apply rbd_entries.
  - intros l e Hl Hne Hs. rewrite lines_unlines, lines_last by done. cbn [app drop].
    apply rbd_entries. apply Forall2_app; [done|by repeat constructor].
Qed.

(** ** Balance of the storage transform *)

Section balance.
Context `{UrlLaws} `{Node W}.

(** Documented behaviour of the command: devices are absolute paths. *)
Definition devices_absolute : Prop :=
  ∀ (w w' : W) out, rbd_device_list w = (w', Some out) →
    Forall (λ m, is_absolute m.2 = true) (rbd_lines_list out).

(** A backend resolves to absolute paths and releases by resource. *)
Record driver_wf (b : StorageDriver W) : Prop := {
  resolves_absolute : ∀ u w w' p, driver_resolve b u w = (w', Ok p) → is_absolute p = true;
  releases_resource : ∀ u v w, same_resource u v → driver_release b u w = driver_release b v w }.

Lemma rbd_image_of_resource u v : same_resource u v → rbd_image_of u = rbd_image_of v.
Proof. intros (_ & Hh & _ & Hp & _). unfold rbd_image_of. by rewrite Hh, Hp. Qed.

Lemma iscsi_target_of_resource u v : same_resource u v → iscsi_target_of u = iscsi_target_of v.
Proof. intros (_ & Hh & Hport & _ & Hs & _). unfold iscsi_target_of. by rewrite Hh, Hport, Hs. Qed.

Lemma rbd_storage_wf : devices_absolute → driver_wf rbd_storage.
Proof.
  intros Hdev. split; cbn.
  - intros u w w' p. unfold rbd_resolve. destruct (rbd_image_of u) as [i|]; [|done].
    destruct (rbd_map i w) as [w1 [[]|]]; [|done].
    destruct (wait_for_path 100 _ w1) as [w2 []]; [by intros [= _ <-]|].
    unfold rbd_map_list. destruct (rbd_device_list w2) as [w3 [out|]] eqn:Hl; [|done].
    destruct (List.find _ _) as [m|] eqn:Hf; [|done]. intros [= _ <-].
    apply List.find_some in Hf as [Hin _]. apply Hdev in Hl. rewrite Forall_forall in Hl.
    apply Hl. by apply list_elem_of_In.
  - intros u v w Hs. unfold rbd_release. by rewrite (rbd_image_of_resource u v).
Qed.

Lemma iscsi_storage_wf : driver_wf iscsi_storage.
Proof.
  split; cbn.
  - intros u w w' p. unfold iscsi_attach. destruct (iscsi_login _ _ w) as [w1 []]; [|done].
    by intros [= _ <-].
  - intros u v w Hs. by rewrite (iscsi_target_of_resource u v).
Qed.

Lemma file_storage_wf : driver_wf file_storage.
Proof.
  split; cbn; [|done]. intros u w w' p. unfold file_target.
  destruct (url_to_file_path u) as [q|] eqn:Hq; [|done]. intros [= _ <-].
  by eapply url_file_path_absolute.
Qed.

Lemma default_backends_wf : devices_absolute → Forall driver_wf default_backends.
Proof.
  intros Hd. constructor; [apply file_storage_wf|]. constructor; [by apply rbd_storage_wf|].
  constructor; [apply iscsi_storage_wf|done].
Qed.

Lemma find_backend_Some (bs : list (StorageDriver W)) u b :
  find_backend bs u = Some b → b ∈ bs ∧ driver_scheme b = url_scheme u.
Proof.
  intros [Hin Hs]%List.find_some. apply bool_decide_eq_true in Hs.
  split; [by apply list_elem_of_In|done].
Qed.

(** What the transform resolves, in order. *)
Definition resolutions (bs : list (StorageDriver W)) (ds : list DiskConfig) :
    list (Url * StorageDriver W) :=
  omap (λ d, disk_path d ≫= parse_backend bs) ds.

(** A resolved disk carries what is needed to release it. *)
Lemma resolve_disk_release bs d w d' w' u b :
  Forall driver_wf bs → disk_path d ≫= parse_backend bs = Some (u, b) →
  resolve_disk bs d w = (d', w', Ok ()) →
  ∃ v, release_target bs d' = Some (v, b) ∧ same_resource v u ∧ b ∈ bs.
Proof.
  intros Hbs Hp. unfold resolve_disk. destruct (disk_path d) as [path|]; cbn in Hp; [|done].
  rewrite Hp. unfold parse_backend in Hp.
  destruct (url_parse path) as [u'|]; cbn in Hp; [|done].
  destruct (find_backend bs u') as [b'|] eqn:Hb; cbn in Hp; [|done]. injection Hp as -> ->.
  apply find_backend_Some in Hb as Hin. destruct Hin as [Hin _].
  destruct (driver_resolve b u w) as [w1 [resolved|]] eqn:Hr; [|done]. intros [= <- <-].
  rewrite Forall_forall in Hbs. apply (resolves_absolute _ (Hbs b Hin)) in Hr.
  destruct (url_with_id_parse u (default (lit "<unknown>") (disk_id d))) as (v & Hv & Hsame).
  exists v. split_and!; [|done|done]. 
  assert (parse_backend bs resolved = None) as Hnone
    by (unfold parse_backend; by rewrite (url_parse_absolute _ Hr)).
  assert (parse_backend bs (url_with_id u (default (lit "<unknown>") (disk_id d))) = Some (v, b)) as Hsome.
  { destruct Hsame as [Hscheme _]. unfold parse_backend, find_backend in *. rewrite Hv. cbn.
    by rewrite Hscheme, Hb. }
  unfold release_target. cbn. by rewrite Hnone, Hsome.
Qed.

Lemma resolve_disks_release bs ds w ds' w' :
  Forall driver_wf bs → Forall (λ d, is_Some (disk_path d ≫= parse_backend bs)) ds →
  resolve_disks bs ds w = (ds', w', Ok ()) →
  ∀ w2, foldl (release_disk bs) w2 ds' =
        foldl (λ w '(u, b), (driver_release b u w).1) w2 (resolutions bs ds).
Proof.
  intros Hbs Hds. revert w ds' w'. induction Hds as [|d ds [[u b] Hub] _ IH]; intros w ds' w'; cbn.
  { by intros [= <- _]. }
  destruct (resolve_disk bs d w) as [[d1 w1] [[]|]] eqn:Hd; [|done].
  destruct (resolve_disks bs ds w1) as [[ds1 w1'] r] eqn:Hr. intros [= <- <- ->] w2.
  destruct (resolve_disk_release bs d w d1 w1 u b Hbs Hub Hd) as (v & Hrel & Hsame & Hin).
  cbn. rewrite Hub. cbn. erewrite IH by done. f_equal. unfold release_disk. rewrite Hrel.
  rewrite Forall_forall in Hbs. by rewrite (releases_resource _ (Hbs b Hin) v u).
Qed.
End balance.

(** C27. Teardown releases exactly what was resolved. If the storage transform
    with the file, RBD and iSCSI backends succeeded on a configuration whose
    disks are all URI-backed, then tearing down the transformed configuration
    performs, in the order of the disks, the release of each resolved URI with
    the backend that resolved it, although the URIs were replaced by device
    paths. *)
Theorem storage_teardown_balanced `{UrlLaws} `{Node W} vmid (c c' : VmConfig) ds (w w' : W) :
  devices_absolute (W := W) → disks c = Some ds →
  Forall (λ d, is_Some (disk_path d ≫= parse_backend (W := W) default_backends)) ds →
  transform (storage_transform default_backends) vmid c w = (c', w', Ok ()) →
  ∀ w2, teardown (storage_transform default_backends) vmid c' w2 =
    (c', foldl (λ w '(u, b), (driver_release b u w).1) w2 (resolutions default_backends ds), Ok ()).
Proof.
  intros Hdev Hd Hall. cbn. rewrite Hd.
  destruct (resolve_disks default_backends ds w) as [[ds' w1] r] eqn:Hr. intros [= <- <- ->] w2.
  unfold release_config. cbn [disks set_disks].
  by rewrite (resolve_disks_release _ _ _ _ _ (default_backends_wf Hdev) Hall Hr).
Qed.
