(* ===== verification/StorageExamples.v ===== *)
(** * Concrete storage runs

    A small URL library and a node that satisfy the interfaces of [Storage],
    and runs of the storage theorems on them. *)

From S2P Require Import Prelude RustString RustFloat Manifest ChConfig Transform Storage.
From S2P Require Import StorageFacts.
Open Scope N_scope.

(** ** URLs of the form [scheme://host:port/path?query] *)

Definition base_ok (base : rstring) : bool :=
  negb (is_absolute base) && forallb (λ c, negb (c =? 63)) base &&
  match split_once base (lit "://") with Some _ => true | None => false end.

Record toy_url := { toy_base : rstring; toy_query : rstring; toy_ok : base_ok toy_base = true }.

Definition toy_parse (s : rstring) : option toy_url :=
  let '(base, query) := default (s, []) (split_once s [63]) in
  match decide (base_ok base = true) with
  | left ok => Some {| toy_base := base; toy_query := query; toy_ok := ok |}
  | right _ => None
  end.

Definition toy_split (u : toy_url) : rstring * rstring :=
  default ([], []) (split_once (toy_base u) (lit "://")).
Definition toy_rest (u : toy_url) : rstring * rstring :=
  default ((toy_split u).2, []) (split_once (toy_split u).2 [47]).
Definition toy_authority (u : toy_url) : rstring * rstring :=
  default ((toy_rest u).1, []) (split_once (toy_rest u).1 (lit ":")).

#[export] Instance toy_urls : UrlOps := {|
  Url := toy_url;
  url_parse := toy_parse;
  url_scheme := λ u, (toy_split u).1;
  url_host_str := λ u, match (toy_authority u).1 with [] => None | h => Some h end;
  url_port := λ u, parse_u32 (toy_authority u).2;
  url_path := λ u, 47 :: (toy_rest u).2;
  url_path_segments := λ u, Some (split_char 47 (toy_rest u).2);
  url_to_file_path := λ u, Some (47 :: (toy_rest u).2);
  url_with_id := λ u id, toy_base u ++ [63] ++ (toy_query u ++ lit "&id=" ++ id) |}.

Lemma toy_no_question u : 63 ∉ toy_base u.
Proof.
  pose proof (toy_ok u) as Hok. unfold base_ok in Hok. bool_to_prop.
  intros Hin. apply list_elem_of_In in Hin. rewrite forallb_forall in H1.
  apply H1 in Hin. done.
Qed.

Lemma split_question s b : 63 ∉ s → split_once (s ++ [63] ++ b) [63] = Some (s, b).
Proof.
  intros Hs. apply split_once_first; [done|]. apply first_occurrence.
  - intros k l ->. set_solver.
  - intros c Hc ->%list_elem_of_singleton. apply Hs. by apply last_Some_elem_of.
Qed.

#[export] Instance toy_laws : UrlLaws.
Proof.
  split.
  - intros u name.
    change (url_parse (url_with_id u name))
      with (toy_parse (toy_base u ++ [63] ++ (toy_query u ++ lit "&id=" ++ name))).
    unfold toy_parse. rewrite split_question by apply toy_no_question.
    cbn [from_option id]. destruct (decide (base_ok (toy_base u) = true)) as [ok|Hno].
    + eexists. split; [done|]. done.
    + by destruct (Hno (toy_ok u)).
  - intros p Hp. cbn. unfold toy_parse.
    destruct (split_once p [63]) as [[a b]|] eqn:Hs; cbn [from_option id].
    + assert (is_absolute a = true) as Ha.
      { destruct p as [|c p]; [done|]. cbn in Hp. apply N.eqb_eq in Hp as ->.
        cbn in Hs. destruct (split_once p [63]) as [[a' b']|]; [|done]. by injection Hs as <- _. }
      destruct (decide _) as [Hok|]; [|done].
      exfalso. unfold base_ok in Hok. by rewrite Ha in Hok.
    + destruct (decide _) as [Hok|]; [|done].
      exfalso. unfold base_ok in Hok. by rewrite Hp in Hok.
  - intros u p [= <-]. done.
Qed.

(** ** A node that records what it maps and logs into *)

Inductive NodeAction := Mapped (path : rstring) | Unmapped (path : rstring)
| LoggedIn (iqn host : rstring) | LoggedOut (iqn host : rstring).

Definition rbd_header : rstring := lit "id  pool  namespace  image  snap  device".

#[export] Instance toy_node : Node (list NodeAction) := {|
  rbd_device_list := λ w, (w, Some rbd_header);
  rbd_device_map := λ path w, (w ++ [Mapped path], true);
  rbd_device_unmap := λ path w, (w ++ [Unmapped path], true);
  iscsi_login := λ iqn host w, (w ++ [LoggedIn iqn host], true);
  iscsi_logout := λ iqn host w, (w ++ [LoggedOut iqn host], true);
  path_exists := λ _ w, (w, true) |}.

Lemma toy_devices : devices_absolute (W := list NodeAction).
Proof. intros w w' out [= <- <-]. vm_compute. constructor. Qed.

(** ** Witnesses *)

Definition ex_disk (id path : rstring) : DiskConfig :=
  {| disk_id := Some id; disk_path := Some path; disk_readonly := Some false;
     disk_image_type := Some Raw |}.
Definition ex_disks : list DiskConfig :=
  [ex_disk (lit "root") (lit "rbd://pool/img");
   ex_disk (lit "data") (lit "iscsi://10.0.0.1/iqn.2026-03.com.example:disk/1")].
Definition ex_storage_config : VmConfig := set_disks (Some ex_disks) default_vm_config.
Definition ex_transformed : VmConfig :=
  (transform (storage_transform (W := list NodeAction) default_backends) [] ex_storage_config []).1.1.

(** Both disks are mapped, then teardown unmaps and logs out of both. *)
Lemma storage_teardown_balanced_witness :
  (teardown (storage_transform (W := list NodeAction) default_backends) [] ex_transformed []).1.2 =
  [Unmapped (lit "pool/img"); LoggedOut (lit "iqn.2026-03.com.example:disk") (lit "10.0.0.1:3260")].
Proof.
  assert (Hall : Forall (λ d, is_Some (disk_path d ≫= parse_backend (W := list NodeAction) default_backends))
    ex_disks) by (apply (bool_decide_unpack _); vm_compute; exact I).
  rewrite (storage_teardown_balanced [] ex_storage_config ex_transformed ex_disks []
    [Mapped (lit "pool/img"); LoggedIn (lit "iqn.2026-03.com.example:disk") (lit "10.0.0.1:3260")]
    toy_devices eq_refl Hall eq_refl []).
  vm_compute. reflexivity.
Defined.

Lemma iscsi_device_path_roundtrip_witness :
  iscsi_target_of_path (to_device_path {| host := lit "10.0.0.1:3260";
    iqn := lit "iqn.2026-03.com.example:test-lun-disk"; lun := 3 |}) =
  Ok {| host := lit "10.0.0.1:3260"; iqn := lit "iqn.2026-03.com.example:test-lun-disk"; lun := 3 |}.
Proof.
  apply (iscsi_device_path_roundtrip {| host := lit "10.0.0.1:3260";
    iqn := lit "iqn.2026-03.com.example:test-lun-disk"; lun := 3 |}).
  - split_and!.
    + by apply (bool_decide_unpack _).
    + intros k l Heq. assert (45 ∉ lit "10.0.0.1:3260") as Hn by by apply (bool_decide_unpack _).
      apply Hn. cbn in Heq. rewrite Heq. apply elem_of_app. right. by apply elem_of_cons; left.
    + by eexists.
  - by apply (bool_decide_unpack _).
  - by vm_compute.
Defined.

(** The table of the repository's test, and the row it shows. *)
Definition test_header : rstring := lit "id  pool               namespace  image    snap  device".
Definition test_line : rstring := lit "0   kessoku-blockpool             testimg  -     /dev/rbd0".
Definition test_row : RbdRow := {|
  row_id := lit "0"; row_pool := lit "kessoku-blockpool"; row_namespace := None;
  row_image := lit "testimg"; row_snap := lit "-"; row_device := lit "/dev/rbd0" |}.

(** The next column of a line: its padding, and where it ends. *)
Ltac next_column pad word rest :=
  apply (lo_cons pad word 32 _ rest); [by repeat constructor|by split; [|repeat constructor]|reflexivity|].

Lemma test_line_shows : shows test_line (Mapping test_row).
Proof.
  split; [|reflexivity].
  next_column (@nil N) (lit "0") (lit "  kessoku-blockpool             testimg  -     /dev/rbd0").
  next_column (lit "  ") (lit "kessoku-blockpool") (lit "            testimg  -     /dev/rbd0").
  next_column (lit "            ") (lit "testimg") (lit " -     /dev/rbd0").
  next_column (lit " ") (lit "-") (lit "    /dev/rbd0").
  apply (lo_last (lit "    ") (lit "/dev/rbd0")); [by repeat constructor|by split; [|repeat constructor]].
Qed.

(** [test_rbd_lines_list]: the last line has no newline. *)
Lemma rbd_lines_list_reads_witness :
  rbd_lines_list (unlines [test_header] ++ test_line) =
  [(lit "kessoku-blockpool/testimg", lit "/dev/rbd0")].
Proof.
  assert (line_wf test_header) as Hh by (split; [by apply (bool_decide_unpack _)|done]).
  assert (10 ∉ test_line) as Hl by by apply (bool_decide_unpack _).
  destruct (rbd_lines_list_reads test_header [] [] Hh (Forall_nil_2 _) (List.Forall2_nil _)) as [_ H].
  exact (H test_line (Mapping test_row) Hl ltac:(done) test_line_shows).
Defined.
