(* ===== verification/StorageCommands.v ===== *)
(** * The commands of the storage drivers

    [odorobo/src/ch_driver/transform/storage/rbd.rs] and [iscsi.rs] run the
    [rbd] and [iscsiadm] programs. [Storage.v] keeps them as operations of the
    node; here they are the command lines the code builds, run by a shell that
    returns the standard output of a command that could be started and
    succeeded. *)

From S2P Require Import Prelude RustString RustFloat Manifest ChConfig Transform Storage StorageFacts.
Open Scope N_scope.

(** [Command::new(program).args(args).output()]: a program that cannot be
    started or exits with a failure gives [None]. *)
Class Shell (W : Type) := {
  run_program : rstring → list rstring → W → W * option rstring;
  path_present : rstring → W → W * bool }.

Definition CEPH_ID_ENV : rstring := lit "CEPH_ID".
Definition CEPH_KEYFILE_ENV : rstring := lit "CEPH_KEYFILE".
Definition CEPH_CLUSTER_ENV : rstring := lit "CEPH_CLUSTER".
Definition CEPH_CONFIG_ENV : rstring := lit "CEPH_CONFIG".

(** [var] is [std::env::var]. *)
Definition rbd_extra_args (var : rstring → option rstring) : list rstring :=
  let arg flag name := option_list ((λ v, lit flag ++ v) <$> var name) in
  arg "--conf="%string CEPH_CONFIG_ENV ++ arg "--id="%string CEPH_ID_ENV ++
  arg "--keyfile="%string CEPH_KEYFILE_ENV ++ arg "--cluster="%string CEPH_CLUSTER_ENV.

Definition rbd_args (var : rstring → option rstring) (args : list rstring) : list rstring :=
  rbd_extra_args var ++ args.
Definition rbd_list_args : list rstring := [lit "device"; lit "list"].
Definition rbd_map_args (path : rstring) : list rstring :=
  [lit "device"; lit "map"; lit "--options"; lit "noudev"; path].
Definition rbd_unmap_args (path : rstring) : list rstring :=
  [lit "device"; lit "unmap"; lit "--options"; lit "noudev"; path].
Definition iscsi_args (iqn host flag : rstring) : list rstring :=
  [lit "-m"; lit "node"; lit "-T"; iqn; lit "-p"; host; flag].

Definition succeeds {W} (r : W * option rstring) : W * bool :=
  (r.1, match r.2 with Some _ => true | None => false end).

(** The node of [Storage.v] on a shell. *)
Definition shell_node `{Shell W} (var : rstring → option rstring) : Node W := {|
  rbd_device_list := run_program (lit "rbd") (rbd_args var rbd_list_args);
  rbd_device_map path w := succeeds (run_program (lit "rbd") (rbd_args var (rbd_map_args path)) w);
  rbd_device_unmap path w := succeeds (run_program (lit "rbd") (rbd_args var (rbd_unmap_args path)) w);
  iscsi_login iqn host w := succeeds (run_program (lit "iscsiadm") (iscsi_args iqn host (lit "--login")) w);
  iscsi_logout iqn host w := succeeds (run_program (lit "iscsiadm") (iscsi_args iqn host (lit "--logout")) w);
  path_exists := path_present |}.

(** [StorageDriverTransformer::new] and [with_backend]. *)
Definition new_backends `{UrlOps} {W} : list (StorageDriver W) := [].
Definition with_backend `{UrlOps} {W} (bs : list (StorageDriver W)) (b : StorageDriver W) :
    list (StorageDriver W) := bs ++ [b].
(** [impl From<ISCSITarget> for PathBuf]. *)
Definition path_of_target (t : ISCSITarget) : rstring := to_device_path t.

(** ** A shell that records *)

Record Traced (W : Type) := { traced_state : W; trace : list (rstring * list rstring) }.
Arguments traced_state {W}.
Arguments trace {W}.

#[local] Instance traced_shell `{Shell W} : Shell (Traced W) := {|
  run_program p args w :=
    let '(s, r) := run_program p args (traced_state w) in
    ({| traced_state := s; trace := trace w ++ [(p, args)] |}, r);
  path_present path w :=
    let '(s, r) := path_present path (traced_state w) in
    ({| traced_state := s; trace := trace w |}, r) |}.

Section commands.
Context `{UrlOps} {W : Type} `{Shell W} (var : rstring → option rstring).
#[local] Instance recorded : Node (Traced W) := shell_node var.

Implicit Types w : Traced W.

(** The commands between two states. *)
Definition ran w w' (cmds : list (rstring * list rstring)) : Prop := trace w' = trace w ++ cmds.

Lemma ran_trans w w1 w2 cs ds : ran w w1 cs → ran w1 w2 ds → ran w w2 (cs ++ ds).
Proof. unfold ran. intros H1 H2. by rewrite H2, H1, (assoc_L (++)). Qed.

Definition rbd_cmd (args : list rstring) : rstring * list rstring := (lit "rbd", rbd_args var args).

Lemma rbd_map_list_ran w : ran w (rbd_map_list w).1 [rbd_cmd rbd_list_args].
Proof.
  unfold rbd_map_list. cbn [rbd_device_list recorded shell_node run_program traced_shell].
  destruct (run_program _ _ (traced_state w)) as [s [out|]]; done.
Qed.

Lemma rbd_map_ran i w :
  ∃ maps, ran w (rbd_map i w).1 (rbd_cmd rbd_list_args :: maps) ∧
    (maps = [] ∨ maps = [rbd_cmd (rbd_map_args (rbd_path i))]).
Proof.
  unfold rbd_map. pose proof (rbd_map_list_ran w) as Hl.
  destruct (rbd_map_list w) as [w1 [mappings|e]]; cbn [fst] in Hl; [|exists []; split; [done|by left]].
  destruct (existsb _ mappings); [exists []; split; [done|by left]|].
  exists [rbd_cmd (rbd_map_args (rbd_path i))]. split; [|by right].
  cbn [rbd_device_map recorded shell_node run_program traced_shell].
  destruct (run_program _ _ (traced_state w1)) as [s [out|]]; cbn; by apply (ran_trans _ _ _ _ _ Hl).
Qed.

Lemma wait_for_path_ran k path w : ran w (wait_for_path k path w).1 [].
Proof.
  revert w. induction k as [|k IH]; intros w; cbn [wait_for_path]; [unfold ran; by rewrite app_nil_r|].
  cbn [path_exists recorded shell_node path_present traced_shell].
  destruct (path_present path (traced_state w)) as [s []]; [unfold ran; by rewrite app_nil_r|].
  apply (IH {| traced_state := s; trace := trace w |}).
Qed.

(** What the RBD driver runs, whatever the node answers: with the credentials
    of the environment on every command line, resolving lists the mappings
    first, maps this image at most once and only after that, and lists again
    at most once; releasing runs the one command that unmaps the image. The
    drivers never touch another image. *)
Theorem rbd_driver_commands u i w :
  rbd_image_of u = Ok i →
  (∃ maps lists, ran w (driver_resolve rbd_storage u w).1 (rbd_cmd rbd_list_args :: maps ++ lists) ∧
     (maps = [] ∨ maps = [rbd_cmd (rbd_map_args (rbd_path i))]) ∧
     (lists = [] ∨ lists = [rbd_cmd rbd_list_args])) ∧
  ran w (driver_release rbd_storage u w).1 [rbd_cmd (rbd_unmap_args (rbd_path i))].
Proof.
  intros Hi. cbn [driver_resolve driver_release rbd_storage]. unfold rbd_resolve, rbd_release. rewrite Hi.
  split.
  - destruct (rbd_map_ran i w) as (maps & Hm & Hmaps). exists maps.
    destruct (rbd_map i w) as [w1 [[]|e]]; cbn [fst] in Hm.
    2: { exists []. rewrite app_nil_r. auto. }
    pose proof (wait_for_path_ran 100 (device_path i) w1) as Hw.
    destruct (wait_for_path 100 _ w1) as [w2 found]; cbn [fst] in Hw.
    pose proof (ran_trans _ _ _ _ _ Hm Hw) as H2. rewrite app_nil_r in H2.
    destruct found; [exists []; rewrite app_nil_r; auto|].
    exists [rbd_cmd rbd_list_args]. pose proof (rbd_map_list_ran w2) as Hl.
    destruct (rbd_map_list w2) as [w3 [mappings|e]]; cbn [fst] in Hl |- *;
      (split; [exact (ran_trans _ _ _ _ _ H2 Hl)|auto]).
  - unfold rbd_unmap. cbn [rbd_device_unmap recorded shell_node run_program traced_shell].
    by destruct (run_program _ _ (traced_state w)) as [s [out|]].
Qed.

(** Logging in and out of a target is one command each, for the same portal. *)
Theorem iscsi_driver_commands u w :
  let t := iscsi_target_of u in
  ran w (driver_resolve iscsi_storage u w).1 [(lit "iscsiadm", iscsi_args (iqn t) (host t) (lit "--login"))] ∧
  ran w (driver_release iscsi_storage u w).1 [(lit "iscsiadm", iscsi_args (iqn t) (host t) (lit "--logout"))].
Proof.
  cbv zeta. cbn [driver_resolve driver_release iscsi_storage]. unfold iscsi_attach, iscsi_detach.
  cbn [iscsi_login iscsi_logout recorded shell_node run_program traced_shell].
  split; destruct (run_program _ _ (traced_state w)) as [s [out|]]; done.
Qed.
End commands.

(** The chain's drivers are added one by one. *)
Example default_backends_built `{UrlOps} {W} `{Node W} :
  with_backend (with_backend (with_backend new_backends file_storage) rbd_storage) iscsi_storage
  = default_backends.
Proof. reflexivity. Qed.
