(* ===== verification/ApiProxy.v ===== *)
(** * The hypervisor API proxy

    [odorobo/src/ch_driver/api.rs]: a request for a VM's Cloud Hypervisor API
    is given the canonical path of that API, stripped of the headers that
    belong to the first connection, and sent over the VM's unix socket. URIs,
    JSON printing and the HTTP client are parameters. *)

From S2P Require Import Prelude RustString.
Open Scope N_scope.

Inductive ProxyError :=
| PathEmpty
| PathRootOnly
| BuildFailed
| SendFailed
| BodyFailed
| ResponseFailed
| Unsuccessful (status : N) (path body : rstring).

(** ** Paths *)

Definition normalize_api_path (path : rstring) : result ProxyError rstring :=
  let path := trim path in
  if is_empty path then Err PathEmpty
  else
    let path := trim_start_matches 47
      (default path
        (match strip_prefix path (lit "/api/v1") with
         | Some rest => Some rest
         | None => strip_prefix path (lit "api/v1")
         end)) in
    if is_empty path then Err PathRootOnly else Ok (lit "/" ++ path).

(** [query.filter(|query| !query.is_empty())]. *)
Definition query_filter (query : option rstring) : option rstring :=
  query ≫= λ q, if is_empty q then None else Some q.

Definition build_api_path (path : rstring) (query : option rstring) : result ProxyError rstring :=
  normalized_path ← normalize_api_path path;
  match query_filter query with
  | None => Ok (lit "/api/v1" ++ normalized_path)
  | Some query => Ok (lit "/api/v1" ++ normalized_path ++ lit "?" ++ query)
  end.

(** ** Requests *)

Record Request (U : Type) := {
  req_method : rstring;
  req_uri : U;
  req_headers : list (rstring * rstring);
  req_body : list N }.
Arguments Build_Request {U} _ _ _ _.
Arguments req_method {U} _.
Arguments req_uri {U} _.
Arguments req_headers {U} _.
Arguments req_body {U} _.

Record Response := {
  resp_status : N;
  resp_headers : list (rstring * rstring);
  resp_body : list N }.

(** Header names are kept in lower case by the HTTP library. *)
Definition HOST : rstring := lit "host".
Definition CONTENT_LENGTH : rstring := lit "content-length".
Definition CONTENT_TYPE : rstring := lit "content-type".

(** [StatusCode::is_success]. *)
Definition is_success (status : N) : bool := (200 <=? status) && (status <? 300).

(** The loop that copies the headers of the incoming request. *)
Fixpoint copy_headers (headers acc : list (rstring * rstring)) : list (rstring * rstring) :=
  match headers with
  | [] => acc
  | (name, value) :: headers =>
      if bool_decide (name = HOST) || bool_decide (name = CONTENT_LENGTH)
      then copy_headers headers acc
      else copy_headers headers (acc ++ [(name, value)])
  end.

(** What the proxy uses of the HTTP libraries: parsing a URI and its parts,
    the URI of a path behind a unix socket, whether the builders accept a
    request and a response, and sending a request, which yields the status,
    the headers and the outcome of reading the body. *)
Class HttpClient (U W : Type) := {
  uri_parse : rstring → option U;
  uri_path : U → rstring;
  uri_query : U → option rstring;
  unix_uri : rstring → rstring → U;
  build_request : rstring → U → bool;
  build_response : N → bool;
  client_request :
    Request U → W → W * option (N * list (rstring * rstring) * option (list N)) }.

Section proxy.
Context {U W : Type} {HC : HttpClient U W}.
Context {Value : Type} (value_to_string : Value → list N).

Definition call_request (socket_path : rstring) (request : Request U) (w : W) :
    W * result ProxyError Response :=
  match build_api_path (uri_path (req_uri request)) (uri_query (req_uri request)) with
  | Err e => (w, Err e)
  | Ok api_path =>
      let uri := unix_uri socket_path api_path in
      if negb (build_request (req_method request) uri) then (w, Err BuildFailed)
      else
        let wire := Build_Request (req_method request) uri
                      (copy_headers (req_headers request) []) (req_body request) in
        match client_request wire w with
        | (w, None) => (w, Err SendFailed)
        | (w, Some (_, _, None)) => (w, Err BodyFailed)
        | (w, Some (status, headers, Some body)) =>
            if negb (build_response status) then (w, Err ResponseFailed)
            else (w, Ok {| resp_status := status; resp_headers := headers; resp_body := body |})
        end
  end.

Definition call (socket_path method path : rstring) (body : option Value) (w : W) :
    W * result ProxyError () :=
  let request_body := default [] (value_to_string <$> body) in
  match uri_parse path with
  | None => (w, Err BuildFailed)
  | Some uri =>
      if negb (build_request method uri) then (w, Err BuildFailed) else
      let headers := match body with
                     | Some _ => [(CONTENT_TYPE, lit "application/json")]
                     | None => []
                     end in
      match call_request socket_path (Build_Request method uri headers request_body) w with
      | (w, Err e) => (w, Err e)
      | (w, Ok response) =>
          if negb (is_success (resp_status response))
          then (w, Err (Unsuccessful (resp_status response) path (resp_body response)))
          else (w, Ok ())
      end
  end.
End proxy.

(** ** Trimmed strings *)

(** The first character of [s], when there is one, does not satisfy [p]. *)
Definition head_not (p : N → bool) (s : rstring) : Prop := ∀ c, head s = Some c → p c = false.

Lemma trim_start_by_head p s : head_not p (trim_start_by p s).
Proof.
  induction s as [|c s IH]; cbn; [done|]. destruct (p c) eqn:E; [done|].
  intros c' [= <-]. done.
Qed.

Lemma trim_start_by_id p s : head_not p s → trim_start_by p s = s.
Proof. destruct s as [|c s]; [done|]. intros H. cbn. by rewrite (H c). Qed.

Lemma trim_start_by_app p k s :
  Forall (λ c, p c = true) k → trim_start_by p (k ++ s) = trim_start_by p s.
Proof. induction 1 as [|c k Hc _ IH]; cbn; [done|]. by rewrite Hc. Qed.

(** No whitespace at either end. *)
Definition trimmed (s : rstring) : Prop :=
  head_not is_whitespace s ∧ head_not is_whitespace (reverse s).

Lemma trim_id s : trimmed s → trim s = s.
Proof.
  intros [Hh Hl]. unfold trim, trim_start.
  rewrite (trim_start_by_id _ s), trim_start_by_id by done. apply reverse_involutive.
Qed.

Lemma head_not_prefix p a b : head_not p (a ++ b) → head_not p a.
Proof. intros H c Hc. apply H. by destruct a. Qed.

Lemma head_not_app p a b : a ≠ [] → head_not p a → head_not p (a ++ b).
Proof. intros Hne H c Hc. apply H. by destruct a. Qed.

Lemma trim_trimmed s : trimmed (trim s).
Proof.
  unfold trimmed, trim, trim_start. rewrite reverse_involutive.
  split; [|apply trim_start_by_head].
  pose proof (trim_start_by_head is_whitespace s) as Hh.
  set (u := trim_start_by is_whitespace s) in *.
  destruct (trim_start_by_suffix is_whitespace (reverse u)) as (k & Hk & _).
  apply (f_equal reverse) in Hk. rewrite reverse_involutive, reverse_app in Hk.
  rewrite Hk in Hh. by apply head_not_prefix in Hh.
Qed.

(** Whitespace around a string does not matter. *)
Lemma trim_around k s k' :
  Forall (λ c, is_whitespace c = true) k → Forall (λ c, is_whitespace c = true) k' →
  trimmed s → s ≠ [] → trim (k ++ s ++ k') = s.
Proof.
  intros Hk Hk' [Hh Hl] Hne. unfold trim, trim_start.
  rewrite trim_start_by_app by done.
  rewrite (trim_start_by_id _ (s ++ k')) by (by apply head_not_app).
  rewrite reverse_app, trim_start_by_app by (by apply Forall_reverse).
  rewrite trim_start_by_id by done. apply reverse_involutive.
Qed.

Lemma trimmed_suffix a s : trimmed (a ++ s) → s ≠ [] → head_not is_whitespace (reverse s).
Proof.
  intros [_ Hl] Hne. rewrite reverse_app in Hl. by apply head_not_prefix in Hl.
Qed.

Lemma trimmed_prepend a s :
  a ≠ [] → head_not is_whitespace a → s ≠ [] → head_not is_whitespace (reverse s) →
  trimmed (a ++ s).
Proof.
  intros Ha Hh Hs Hl. split; [by apply head_not_app|]. rewrite reverse_app.
  apply head_not_app; [|done]. intros E. apply (f_equal reverse) in E.
  by rewrite reverse_involutive in E.
Qed.

(** ** What the normalisation computes *)

(** The path below the API root: not empty, no leading slash, nothing blank at
    its end. *)
Definition resource (p : rstring) : Prop :=
  p ≠ [] ∧ head_not (N.eqb 47) p ∧ head_not is_whitespace (reverse p).

(** The prefixes of the API root that may stand before a resource; a path that
    has none of them is itself the resource. *)
Definition rooted (root rest : rstring) : Prop :=
  root = lit "/api/v1" ∨ root = lit "api/v1" ∨
  (root = [] ∧ (∀ x, rest ≠ lit "/api/v1" ++ x) ∧ (∀ x, rest ≠ lit "api/v1" ++ x)).

(** The resource a path addresses: what follows the root, if the path has one,
    and any slashes after it, up to whitespace around the path. *)
Definition addresses (path p : rstring) : Prop :=
  resource p ∧ ∃ root slashes k k',
    path = k ++ (root ++ slashes ++ p) ++ k' ∧
    Forall (λ c, is_whitespace c = true) k ∧ Forall (λ c, is_whitespace c = true) k' ∧
    trimmed (root ++ slashes ++ p) ∧ Forall (λ c, c = 47) slashes ∧ rooted root (slashes ++ p).

Lemma trim_split s :
  ∃ k k', s = k ++ trim s ++ k' ∧ Forall (λ c, is_whitespace c = true) k ∧
    Forall (λ c, is_whitespace c = true) k'.
Proof.
  unfold trim, trim_start. destruct (trim_start_by_suffix is_whitespace s) as (k & Hk & Hw).
  set (u := trim_start_by is_whitespace s) in *.
  destruct (trim_start_by_suffix is_whitespace (reverse u)) as (k' & Hk' & Hw').
  apply (f_equal reverse) in Hk'. rewrite reverse_involutive, reverse_app in Hk'.
  exists k, (reverse k'). split_and!; [by rewrite <-Hk'|done|by apply Forall_reverse].
Qed.

(** Stripping the root of a path. *)
Definition below_root (path : rstring) : rstring :=
  default path (match strip_prefix path (lit "/api/v1") with
                | Some rest => Some rest
                | None => strip_prefix path (lit "api/v1")
                end).

Lemma below_root_spec path rest :
  below_root path = rest ↔ ∃ root, path = root ++ rest ∧ rooted root rest.
Proof.
  unfold below_root. split.
  - intros <-. destruct (strip_prefix path (lit "/api/v1")) as [r|] eqn:E; cbn.
    { apply strip_prefix_spec in E. exists (lit "/api/v1"). split; [done|by left]. }
    destruct (strip_prefix path (lit "api/v1")) as [r|] eqn:E'; cbn.
    { apply strip_prefix_spec in E'. exists (lit "api/v1"). split; [done|by right; left]. }
    exists []. split; [done|]. do 2 right. split_and!; [done| |]; intros x Hx;
      apply strip_prefix_spec in Hx; congruence.
  - intros (root & -> & [-> | [-> | (-> & H1 & H2)]]).
    + by rewrite (proj2 (strip_prefix_spec _ _ rest) eq_refl).
    + by rewrite (proj2 (strip_prefix_spec _ (lit "api/v1") rest) eq_refl).
    + cbn [app]. destruct (strip_prefix rest (lit "/api/v1")) as [r|] eqn:E.
      { by apply strip_prefix_spec, H1 in E. }
      destruct (strip_prefix rest (lit "api/v1")) as [r|] eqn:E'; [|done].
      by apply strip_prefix_spec, H2 in E'.
Qed.

Lemma normalize_unfold path :
  normalize_api_path path =
  if is_empty (trim path) then Err PathEmpty
  else let p := trim_start_by (N.eqb 47) (below_root (trim path)) in
       if is_empty p then Err PathRootOnly else Ok (lit "/" ++ p).
Proof. done. Qed.

Lemma slashes_eqb s : Forall (λ c, c = 47) s ↔ Forall (λ c, N.eqb 47 c = true) s.
Proof. apply Forall_iff. intros c. rewrite N.eqb_eq. naive_solver. Qed.

(** A path is accepted exactly if it addresses a resource, and becomes that
    resource. *)
Lemma normalize_addresses path out :
  normalize_api_path path = Ok out ↔ ∃ p, addresses path p ∧ out = lit "/" ++ p.
Proof.
  rewrite normalize_unfold. cbv zeta. split.
  - destruct (is_empty (trim path)); [done|].
    destruct (proj1 (below_root_spec (trim path) _) eq_refl) as (root & Hroot & Hr).
    set (rest := below_root (trim path)) in *. clearbody rest.
    destruct (trim_start_by_suffix (N.eqb 47) rest) as (slashes & Hs & Hf).
    set (p := trim_start_by (N.eqb 47) rest) in *.
    destruct (is_empty p) eqn:Ep; [done|]. intros [= <-]. exists p. split; [|done].
    assert (p ≠ []) as Hne by (intros E; by rewrite E in Ep).
    pose proof (trim_trimmed path) as Ht. rewrite Hroot, Hs in Ht.
    split; [split_and!; [done|apply trim_start_by_head|]|].
    { rewrite (assoc_L (++)) in Ht. by apply trimmed_suffix in Ht. }
    destruct (trim_split path) as (k & k' & Hk & Hw & Hw').
    exists root, slashes, k, k'. rewrite <-Hs, <-Hroot in *.
    split_and!; [done..|by apply slashes_eqb|done].
  - intros (p & ((Hne & Hhd & Hl) & root & slashes & k & k' & -> & Hk & Hk' & Ht & Hs & Hr) & ->).
    assert (root ++ slashes ++ p ≠ []) as Hn by (by destruct root, slashes, p).
    rewrite (trim_around k) by done.
    replace (is_empty (root ++ slashes ++ p)) with false by (by destruct root, slashes, p).
    rewrite (proj2 (below_root_spec (root ++ slashes ++ p) (slashes ++ p))) by eauto.
    rewrite trim_start_by_app, trim_start_by_id by (done || by apply slashes_eqb). by destruct p.
Qed.

Lemma addresses_unique path p q : addresses path p → addresses path q → p = q.
Proof.
  intros Hp Hq.
  assert (normalize_api_path path = Ok (lit "/" ++ p)) as H1 by (apply normalize_addresses; eauto).
  assert (normalize_api_path path = Ok (lit "/" ++ q)) as H2 by (apply normalize_addresses; eauto).
  rewrite H1 in H2. by injection H2.
Qed.

Lemma copy_headers_filter headers acc :
  copy_headers headers acc =
  acc ++ filter (λ h, h.1 ≠ HOST ∧ h.1 ≠ CONTENT_LENGTH) headers.
Proof.
  revert acc. induction headers as [|[name value] headers IH]; intros acc; cbn [copy_headers].
  - by rewrite app_nil_r.
  - rewrite filter_cons. cbn [fst].
    destruct (bool_decide_reflect (name = HOST)), (bool_decide_reflect (name = CONTENT_LENGTH));
      cbn [orb]; rewrite IH; case_decide as Hd; try (by destruct Hd); try tauto.
    by rewrite <-(assoc_L (++)).
Qed.

Definition query_suffix (query : option rstring) : rstring :=
  match query with
  | Some (c :: q) => lit "?" ++ c :: q
  | _ => []
  end.

Lemma build_api_path_normalize path query :
  build_api_path path query =
  (p ← normalize_api_path path; Ok (lit "/api/v1" ++ p ++ query_suffix query)).
Proof.
  unfold build_api_path. destruct (normalize_api_path path) as [p|e]; [|done]. cbn.
  destruct query as [[|c q]|]; cbn; by rewrite ?app_nil_r.
Qed.

(** The path of a proxied request: [/api/v1/], the resource the incoming path
    addresses, and the query after a question mark when it is not empty. *)
Lemma build_api_path_addresses path query out :
  build_api_path path query = Ok out ↔
  ∃ p, addresses path p ∧ out = lit "/api/v1/" ++ p ++ query_suffix query.
Proof.
  rewrite build_api_path_normalize. split.
  - intros H. apply result_bind_ok in H as (n & Hn & [= <-]).
    apply normalize_addresses in Hn as (p & Hp & ->). by exists p.
  - intros (p & Hp & ->).
    assert (normalize_api_path path = Ok (lit "/" ++ p)) as -> by (apply normalize_addresses; eauto).
    done.
Qed.

(** Building the path of a built path changes nothing. *)
Theorem build_api_path_idempotent path out :
  build_api_path path None = Ok out → build_api_path out None = Ok out.
Proof.
  intros (p & [Hp _] & ->)%build_api_path_addresses. apply build_api_path_addresses. exists p.
  cbn [query_suffix]. rewrite app_nil_r. split; [|done]. split; [done|].
  destruct Hp as (Hne & Hhd & Hl). exists (lit "/api/v1"), (lit "/"), [], [].
  rewrite app_nil_r. split_and!; [done|constructor|constructor| |by repeat constructor|by left].
  rewrite (assoc_L (++)). by apply trimmed_prepend; [|intros ? [= <-]| |].
Qed.

(** ** What the proxy sends *)

(** C32. The proxy forwards a request to the resource it addresses. A path
    addresses at most one resource: what follows [/api/v1] or [api/v1] (or the
    whole path, if it starts with neither) and any slashes, without whitespace
    around. The proxy answers exactly if the path addresses a resource [p], the
    builders accept the request and the response, and one request was sent over
    the VM's socket and answered: with the method and body of the incoming one,
    to [/api/v1/p] with the incoming query, with the incoming headers in their
    order except [Host] and [Content-Length]; and the answer is the hypervisor's
    status, headers and body, whatever that status is. When the path addresses
    nothing, nothing is sent. *)
Theorem call_request_forwards {U W} {HC : HttpClient U W} socket (req : Request U) w :
  let path := uri_path (req_uri req) in
  let target p := unix_uri socket (lit "/api/v1/" ++ p ++ query_suffix (uri_query (req_uri req))) in
  (∀ p q, addresses path p → addresses path q → p = q) ∧
  (∀ w' resp, call_request socket req w = (w', Ok resp) ↔
   ∃ p, addresses path p ∧ build_request (req_method req) (target p) = true ∧
     build_response (resp_status resp) = true ∧
     client_request
       (Build_Request (req_method req) (target p)
          (filter (λ h, h.1 ≠ HOST ∧ h.1 ≠ CONTENT_LENGTH) (req_headers req)) (req_body req)) w =
     (w', Some (resp_status resp, resp_headers resp, Some (resp_body resp)))) ∧
  ((∀ p, ¬ addresses path p) → ∃ e, call_request socket req w = (w, Err e)).
Proof.
  intros path target. split; [apply addresses_unique|]. unfold call_request. fold path.
  destruct (build_api_path path _) as [out|e] eqn:Hb.
  2: { split; [|by eauto]. intros w' resp. split; [done|]. intros (p & Hp & _).
       assert (∃ out, build_api_path path (uri_query (req_uri req)) = Ok out) as [out Ho]
         by (eexists; apply build_api_path_addresses; eauto). congruence. }
  apply build_api_path_addresses in Hb as (p & Hp & ->). fold (target p).
  split; [|by intros H; destruct (H p)]. rewrite copy_headers_filter. cbn [app].
  intros w' resp. split.
  - destruct (build_request _ _) eqn:Hr; [|done]. cbn [negb].
    destruct (client_request _ w) as [w1 [[[status headers] [body|]]|]] eqn:Hc; try done.
    destruct (build_response status) eqn:Hs; [|done]. intros [= <- <-]. by exists p.
  - intros (q & Hq & Hr & Hs & Hc). rewrite (addresses_unique _ _ _ Hp Hq), Hr. cbn [negb].
    rewrite Hc, Hs. by destruct resp.
Qed.

(** A client whose state is the list of the requests it sent, and which
    answers 204. A URI is its path. *)
#[export] Instance recording_client : HttpClient rstring (list (Request rstring)) := {|
  uri_parse := Some;
  uri_path u := u;
  uri_query _ := None;
  unix_uri _ path := path;
  build_request _ _ := true;
  build_response _ := true;
  client_request r w := (w ++ [r], Some (204, [], Some [])) |}.

Definition pause_request : Request rstring :=
  Build_Request (lit "PUT") (lit "/vm.pause") [(HOST, lit "agent"); (lit "accept", lit "*/*")] [].

Definition pause_response : Response := {| resp_status := 204; resp_headers := []; resp_body := [] |}.
Definition pause_wire : Request rstring :=
  Build_Request (lit "PUT") (lit "/api/v1/vm.pause") [(lit "accept", lit "*/*")] [].

Lemma pause_addresses : addresses (lit "/vm.pause") (lit "vm.pause").
Proof.
  assert (normalize_api_path (lit "/vm.pause") = Ok (lit "/" ++ lit "vm.pause")) as H by reflexivity.
  apply normalize_addresses in H as (p & Hp & [= <-]). exact Hp.
Qed.

Example call_request_forwards_witness :
  call_request (lit "/run/ch.sock") pause_request [] = ([pause_wire], Ok pause_response) ∧
  (∀ p, addresses (lit "/vm.pause") p → p = lit "vm.pause").
Proof.
  destruct (call_request_forwards (lit "/run/ch.sock") pause_request []) as (Hu & Hf & _). split.
  - apply Hf. exists (lit "vm.pause"). split; [exact pause_addresses|]. vm_compute. split_and!; reflexivity.
  - intros p Hp. exact (Hu _ _ Hp pause_addresses).
Defined.

(** The API root itself and a blank path are refused. *)
Lemma build_api_path_errors path query e :
  build_api_path path query = Err e →
  (e = PathEmpty ∧ Forall (λ c, is_whitespace c = true) path) ∨
  (e = PathRootOnly ∧ ∃ root slashes, root ∈ [lit "/api/v1"; lit "api/v1"; []] ∧
     trim path = root ++ slashes ∧ Forall (λ c, c = 47) slashes).
Proof.
  unfold build_api_path. destruct (normalize_api_path path) as [n|e'] eqn:Hn; cbn.
  { by destruct query as [[|]|]. }
  intros [= ->]. revert Hn. unfold normalize_api_path.
  destruct (is_empty (trim path)) eqn:Ee.
  { intros [= <-]. left. by rewrite <-trim_empty. }
  set (rest := default _ _). unfold trim_start_matches.
  destruct (is_empty (trim_start_by (N.eqb 47) rest)) eqn:Er; [|done]. intros [= <-]. right.
  split; [done|]. apply is_empty_spec, trim_start_by_empty in Er.
  assert (Forall (λ c, c = 47) rest) as Hf.
  { eapply Forall_impl; [exact Er|]. intros c Hc. symmetry. by apply N.eqb_eq. }
  unfold rest in Hf.
  destruct (strip_prefix (trim path) (lit "/api/v1")) as [r|] eqn:E; cbn in Hf.
  { apply strip_prefix_spec in E. exists (lit "/api/v1"), r. split_and!; [set_solver|done|done]. }
  destruct (strip_prefix (trim path) (lit "api/v1")) as [r|] eqn:E'; cbn in Hf.
  { apply strip_prefix_spec in E'. exists (lit "api/v1"), r. split_and!; [set_solver|done|done]. }
  exists [], (trim path). split_and!; [set_solver|done|done].
Qed.

(** The prefix is removed without looking for the end of the segment: the
    resource [/api/v1beta] reads as [beta]. *)
Example prefix_without_boundary :
  build_api_path (lit "/api/v1beta") None = Ok (lit "/api/v1/beta").
Proof. reflexivity. Qed.
