(* ===== verification/VmInstance.v ===== *)
(** * VM instances

    [odorobo/src/ch_driver/instance.rs] and
    [odorobo/src/ch_driver/provisioning/hooks/]: one Cloud Hypervisor process,
    its configuration, and the hooks around boot and stop. The hypervisor's
    API, processes, the file system and the network actor are the class
    [Hypervisor] on the node state [W]; operations are computations that
    thread that state and may fail. *)

From S2P Require Import Prelude RustString RustFloat Manifest ChConfig Transform.
Open Scope N_scope.

(** ** Interfaces *)

Inductive VmState := Created | VmRunning | Shutdown | Paused.
Record VmInfo := { info_vm_config : VmConfig; info_state : VmState }.

Inductive VmError :=
| ApiError
| IoError
| TransformFailed (e : TransformError)
| InvalidVmid
| NetworkActorMissing
| TapFailed (tap : rstring)
| SocketUnavailable
| NoPort
| VmidEmpty | VmidTraversal | VmidSeparator | VmidDot
| NotConvertible (e : ConvertError)
| ConsoleAttachFailed.

(** A computation on the node. *)
Definition NodeM (W A : Type) : Type := W → W * result VmError A.

#[global] Instance nodem_ret {W} : MRet (NodeM W) := λ A a w, (w, Ok a).
#[global] Instance nodem_bind {W} : MBind (NodeM W) := λ A B f m w,
  match m w with
  | (w, Ok a) => f a w
  | (w, Err e) => (w, Err e)
  end.

(** [.ok()] and [is_ok()]: the error is turned into a value. *)
Definition attempt {W A} (m : NodeM W A) : NodeM W (result VmError A) := λ w,
  let '(w, r) := m w in (w, Ok r).
Definition throw {W A} (e : VmError) : NodeM W A := λ w, (w, Err e).

Class Hypervisor (W : Type) := {
  vmm_ping_get : rstring → NodeM W ();
  vm_info_get : rstring → NodeM W VmInfo;
  create_vm : rstring → VmConfig → NodeM W ();
  boot_vm : rstring → NodeM W ();
  shutdown_vm : rstring → NodeM W ();
  shutdown_vmm : rstring → NodeM W ();
  delete_vm : rstring → NodeM W ();
  send_migration_put : rstring → rstring → bool → NodeM W ();
  receive_migration_put : rstring → rstring → NodeM W ();
  pause_vm : rstring → NodeM W ();
  resume_vm : rstring → NodeM W ();
  pick_port : NodeM W N;
  spawn_process : rstring → NodeM W N;
  kill_and_wait : N → NodeM W ();
  fs_exists : rstring → NodeM W bool;
  create_dir_all : rstring → NodeM W ();
  remove_dir_all : rstring → NodeM W ();
  remove_file : rstring → NodeM W ();
  network_actor_lookup : NodeM W bool;
  attach_tap : N → rstring → NodeM W ();
  detach_tap : N → rstring → NodeM W () }.

(** ** Identifiers and paths *)

Fixpoint contains (s sub : rstring) : bool :=
  starts_with s sub || match s with [] => false | _ :: s => contains s sub end.

Definition validate_vmid (vmid : rstring) : result VmError () :=
  if is_empty vmid then Err VmidEmpty
  else if contains vmid (lit "..") then Err VmidTraversal
  else if contains vmid (lit "/") || contains vmid [92] then Err VmidSeparator
  else if starts_with vmid (lit ".") then Err VmidDot
  else Ok ().

Definition SOCKET_FILE_NAME : rstring := lit "ch.sock".
Definition CONFIG_FILE_NAME : rstring := lit "config.json".

(** ** Hooks *)

(** [Ulid::from_string] is an operation of the [ulid] library. *)
Section hooks.
Context {W : Type} `{Hypervisor W} (ulid_from_string : rstring → option N).

Definition managed_net (n : NetConfig) : bool :=
  match net_id n with Some id => starts_with id (lit "net://") | None => false end.

Definition tap_names (info : VmInfo) : list rstring :=
  match net (info_vm_config info) with
  | None => []
  | Some nets =>
      omap net_tap (filter (λ n, managed_net n = true) nets)
  end.

(** A [for] loop whose body may fail, with [?]. *)
Fixpoint for_each {A} (f : A → NodeM W ()) (xs : list A) : NodeM W () :=
  match xs with
  | [] => mret ()
  | x :: xs => f x ≫= λ _, for_each f xs
  end.

Definition with_taps (f : N → rstring → NodeM W ()) (vmid : rstring) (info : VmInfo) : NodeM W () :=
  match ulid_from_string vmid with
  | None => throw InvalidVmid
  | Some ulid =>
      match tap_names info with
      | [] => mret ()
      | taps =>
          found ← network_actor_lookup;
          if found : bool then for_each (f ulid) taps else throw NetworkActorMissing
      end
  end.

Record ProvisioningHook := {
  before_start : rstring → VmConfig → NodeM W ();
  after_start : rstring → VmInfo → Z → NodeM W ();
  before_stop : rstring → VmInfo → NodeM W ();
  after_stop : rstring → VmConfig → NodeM W ();
  before_boot : rstring → VmConfig → NodeM W ();
  after_boot : rstring → VmInfo → NodeM W () }.

(** The stages a hook does not override do nothing. *)
Definition network_hook : ProvisioningHook := {|
  before_start := λ _ _, mret ();
  after_start := λ _ _ _, mret ();
  before_stop := with_taps detach_tap;
  after_stop := λ _ _, mret ();
  before_boot := λ _ _, mret ();
  after_boot := with_taps attach_tap |}.

Definition HookManager : Type := list ProvisioningHook.
Definition add_hook (m : HookManager) (h : ProvisioningHook) : HookManager := m ++ [h].
Definition hooks_before_start (m : HookManager) (vmid : rstring) (c : VmConfig) : NodeM W () :=
  for_each (λ h, before_start h vmid c) m.
Definition hooks_after_start (m : HookManager) (vmid : rstring) (info : VmInfo) (pid : Z) : NodeM W () :=
  for_each (λ h, after_start h vmid info pid) m.
Definition hooks_before_stop (m : HookManager) (vmid : rstring) (info : VmInfo) : NodeM W () :=
  for_each (λ h, before_stop h vmid info) m.
Definition hooks_after_stop (m : HookManager) (vmid : rstring) (c : VmConfig) : NodeM W () :=
  for_each (λ h, after_stop h vmid c) m.
Definition hooks_before_boot (m : HookManager) (vmid : rstring) (c : VmConfig) : NodeM W () :=
  for_each (λ h, before_boot h vmid c) m.
Definition hooks_after_boot (m : HookManager) (vmid : rstring) (info : VmInfo) : NodeM W () :=
  for_each (λ h, after_boot h vmid info) m.

Definition default_hooks : HookManager := [network_hook].
End hooks.

(** ** Instances *)

Record VMInstance := {
  instance_id : rstring;
  ch_socket_path : rstring;
  child_process : option N;
  vm_config : option VmConfig }.

Definition set_child (c : option N) (i : VMInstance) : VMInstance := {|
  instance_id := instance_id i; ch_socket_path := ch_socket_path i;
  child_process := c; vm_config := vm_config i |}.
Definition set_vm_config (c : option VmConfig) (i : VMInstance) : VMInstance := {|
  instance_id := instance_id i; ch_socket_path := ch_socket_path i;
  child_process := child_process i; vm_config := c |}.

Section instance.
Context {W : Type} `{Hypervisor W} (ulid_from_string : rstring → option N)
  (env : option rstring) (transformer : ConfigTransform W).

Definition take_child_process (i : VMInstance) : VMInstance * option N :=
  (set_child None i, child_process i).

Definition stop_child_after_failed_start (i : VMInstance) : NodeM W VMInstance :=
  match child_process i with
  | Some child => attempt (kill_and_wait child) ≫= λ _, mret (set_child None i)
  | None => mret i
  end.

Definition boot (i : VMInstance) : NodeM W () :=
  info ← vm_info_get (ch_socket_path i);
  hooks_before_boot (default_hooks ulid_from_string) (instance_id i) (info_vm_config info) ≫= λ _,
  boot_vm (ch_socket_path i) ≫= λ _,
  info_postboot ← vm_info_get (ch_socket_path i);
  hooks_after_boot (default_hooks ulid_from_string) (instance_id i) info_postboot.

(** A failed step leaves the instance as it was at that point, so the
    instance is returned beside the outcome. *)
Definition create_config (i : VMInstance) (config : VmConfig) (boot_it : bool) (w : W) :
    W * VMInstance * result VmError () :=
  match transform transformer (instance_id i) config w with
  | (_, w, Err e) => (w, i, Err (TransformFailed e))
  | (transformed, w, Ok ()) =>
      let i := set_vm_config (Some transformed) i in
      match create_vm (ch_socket_path i) transformed w with
      | (w, Err e) => (w, i, Err e)
      | (w, Ok ()) =>
          if boot_it
          then match boot i w with
               | (w, Err e) => (w, i, Err e)
               | (w, Ok ()) => (w, i, Ok ())
               end
          else (w, i, Ok ())
      end
  end.

Definition prep_config (i : VMInstance) (config : VmConfig) (w : W) :
    W * VMInstance * result VmError () :=
  let i := set_vm_config (Some config) i in
  match transform transformer (instance_id i) config w with
  | (_, w, Err e) => (w, i, Err (TransformFailed e))
  | (_, w, Ok ()) =>
      match hooks_before_boot (default_hooks ulid_from_string) (instance_id i) config w with
      | (w, Err e) => (w, i, Err e)
      | (w, Ok ()) => (w, i, Ok ())
      end
  end.

Definition MAX_ATTEMPTS : nat := 31.

(** The polling loop of [spawn]. *)
Fixpoint await_socket (attempts : nat) (i : VMInstance) (config : option VmConfig) (boot_it : bool)
    (w : W) : W * result VmError VMInstance :=
  match attempts with
  | O =>
      let '(w, _) := stop_child_after_failed_start i w in (w, Err SocketUnavailable)
  | S attempts =>
      match vmm_ping_get (ch_socket_path i) w with
      | (w, Ok ()) =>
          match config with
          | None => (w, Ok i)
          | Some config =>
              match create_config i config boot_it w with
              | (w, i, Ok ()) => (w, Ok i)
              | (w, i, Err e) =>
                  let '(w, _) := stop_child_after_failed_start i w in (w, Err e)
              end
          end
      | (w, Err _) => await_socket attempts i config boot_it w
      end
  end.

Definition spawn (id : rstring) (config : option VmConfig) (boot_it : bool) : NodeM W VMInstance :=
  let dir := runtime_dir_for env id in
  let socket := path_join dir SOCKET_FILE_NAME in
  exists_ ← fs_exists dir;
  (if exists_ : bool then mret () else create_dir_all dir) ≫= λ _,
  child ← spawn_process socket;
  await_socket MAX_ATTEMPTS
    {| instance_id := id; ch_socket_path := socket; child_process := Some child; vm_config := None |}
    config boot_it.

Definition purge_instance_data (i : VMInstance) (w : W) : W * VMInstance * result VmError () :=
  let config := default default_vm_config (vm_config i) in
  let i := set_vm_config None i in
  match teardown transformer (instance_id i) config w with
  | (_, w, Err e) => (w, i, Err (TransformFailed e))
  | (_, w, Ok ()) =>
      let dir := runtime_dir_for env (instance_id i) in
      match (exists_ ← fs_exists dir; if exists_ : bool then remove_dir_all dir else mret ()) w with
      | (w, r) => (w, i, r)
      end
  end.

(** The steps of [destroy] before the runtime data is purged. *)
Definition stop_vm (i : VMInstance) : NodeM W () :=
  info ← attempt (vm_info_get (ch_socket_path i));
  match info with
  | Ok info =>
      hooks_before_stop (default_hooks ulid_from_string) (instance_id i) info ≫= λ _,
      match info_state info with
      | VmRunning | Paused => shutdown_vm (ch_socket_path i)
      | Created | Shutdown => mret ()
      end
  | Err _ => mret ()
  end.

Definition destroy (i : VMInstance) (w : W) : W * VMInstance * result VmError () :=
  match stop_vm i w with
  | (w, Err e) => (w, i, Err e)
  | (w, Ok ()) =>
      let '(w, _) := attempt (shutdown_vmm (ch_socket_path i)) w in
      let config := default default_vm_config (vm_config i) in
      let '(i, child) := take_child_process i in
      let '(w, _) := match child with
                     | Some child => attempt (kill_and_wait child) w
                     | None => (w, Ok (Ok ()))
                     end in
      match hooks_after_stop (default_hooks ulid_from_string) (instance_id i) config w with
      | (w, Err e) => (w, i, Err e)
      | (w, Ok ()) =>
          let '(w, i, _) := purge_instance_data i w in (w, i, Ok ())
      end
  end.

Definition send_migration (i : VMInstance) (dest : rstring) (local : bool) (w : W) :
    W * VMInstance * result VmError () :=
  match send_migration_put (ch_socket_path i) dest local w with
  | (w, Err e) => (w, i, Err e)
  | (w, Ok ()) => purge_instance_data i w
  end.

(** The receiver's address; the receiver itself is a task of its own. *)
Definition receive_migration (i : VMInstance) : NodeM W rstring :=
  port ← pick_port;
  mret (lit "tcp:0.0.0.0:" ++ show_N port).

(** The task [receive_migration] spawns: failures are logged. *)
Definition migration_receiver (i : VMInstance) (receiver_uri : rstring) : NodeM W () :=
  received ← attempt (receive_migration_put (ch_socket_path i) receiver_uri);
  match received with
  | Ok () => attempt (shutdown_vmm (ch_socket_path i)) ≫= λ _, mret ()
  | Err _ => mret ()
  end.

Definition pause (i : VMInstance) : NodeM W () := pause_vm (ch_socket_path i).
Definition resume (i : VMInstance) : NodeM W () := resume_vm (ch_socket_path i).

Definition delete_config (i : VMInstance) : NodeM W () :=
  delete_vm (ch_socket_path i) ≫= λ _,
  let path := path_join (runtime_dir_for env (instance_id i)) CONFIG_FILE_NAME in
  exists_ ← fs_exists path;
  if exists_ : bool then remove_file path else mret ().
End instance.
