(* ===== verification/InstanceOps.v ===== *)
(** * Further operations of a VM instance

    The rest of [odorobo/src/ch_driver/instance.rs] and
    [odorobo/src/ch_driver/devices.rs]: requests to the hypervisor's API that
    only forward, the console device, the configuration on disk, the listing of
    the runtime directory and the API proxy. *)

From S2P Require Import Prelude RustString RustFloat Manifest ChConfig Transform VmInstance ApiProxy.
Open Scope N_scope.

(** ** Errors of the hypervisor's API *)

(** The client's error: a response with its status and body, or anything else. *)
Inductive ChClientError := ClientApi (code : N) (body : rstring) | ClientOther (why : rstring).
Inductive ChApiError := ChApi (status : N) (errors : list rstring) | ChClient (why : rstring).

(** [From<ChClientError>]; [parse_list] reads a JSON list of strings. *)
Definition ch_api_error_from (parse_list : rstring → option (list rstring)) (error : ChClientError) :
    ChApiError :=
  match error with
  | ClientApi code body => ChApi code (default [body] (parse_list body))
  | ClientOther why => ChClient why
  end.

(** ** Operations *)

Class InstanceHost (W : Type) := {
  power_button_vm : rstring → NodeM W ();
  add_device_put : rstring → rstring → NodeM W rstring;
  remove_device_put : rstring → rstring → NodeM W ();
  add_net_put : rstring → NetConfig → NodeM W rstring;
  open_device : rstring → NodeM W N;
  read_config : rstring → NodeM W VmConfig;
  write_config : rstring → VmConfig → NodeM W ();
  read_dir : rstring → NodeM W (list (option (rstring * option bool))) }.

Section ops.
Context {W : Type} {HV : Hypervisor W} {IH : InstanceHost W} (env : option rstring).

(** [VMInstance::new]. *)
Definition new_instance (id socket : rstring) (child : option N) : VMInstance := {|
  instance_id := id; ch_socket_path := socket; child_process := child; vm_config := None |}.

Definition runtime_dir (i : VMInstance) : rstring := runtime_dir_for env (instance_id i).
Definition config_path (i : VMInstance) : rstring := path_join (runtime_dir i) CONFIG_FILE_NAME.

Definition instance_info (i : VMInstance) : NodeM W VmInfo := vm_info_get (ch_socket_path i).
Definition instance_shutdown (i : VMInstance) : NodeM W () := shutdown_vm (ch_socket_path i).
Definition acpi_power_button (i : VMInstance) : NodeM W () := power_button_vm (ch_socket_path i).
Definition ping (i : VMInstance) : NodeM W () := vmm_ping_get (ch_socket_path i).

Definition console_path (i : VMInstance) : NodeM W rstring :=
  info ← instance_info i;
  match serial (info_vm_config info) with
  | None => throw ConsoleAttachFailed
  | Some serial =>
      match console_file serial with
      | None => throw ConsoleAttachFailed
      | Some path => mret path
      end
  end.

Definition open_console (i : VMInstance) : NodeM W N :=
  pty_path ← console_path i; open_device pty_path.

Definition load_config (i : VMInstance) : NodeM W VmConfig := read_config (config_path i).
Definition save_config (i : VMInstance) (config : VmConfig) : NodeM W () :=
  write_config (config_path i) config.

(** An entry that cannot be read, or whose type cannot, is passed over, as is
    one that is not a directory. *)
Definition instance_of_entry (entry : option (rstring * option bool)) : option VMInstance :=
  match entry with
  | Some (id, Some true) =>
      Some (new_instance id (path_join (runtime_dir_for env id) SOCKET_FILE_NAME) None)
  | _ => None
  end.

Definition list_instances : NodeM W (list VMInstance) :=
  create_dir_all (runtime_root env) ≫= λ _,
  entries ← read_dir (runtime_root env);
  mret (omap instance_of_entry entries).

Definition get_instance (vmid : rstring) : NodeM W (option VMInstance) :=
  instances ← attempt list_instances;
  match instances with
  | Err _ => mret None
  | Ok instances => mret (find (λ i, bool_decide (instance_id i = vmid)) instances)
  end.

Definition add_device (i : VMInstance) (device : rstring) : NodeM W rstring :=
  add_device_put (ch_socket_path i) device.
Definition remove_device (i : VMInstance) (device : rstring) : NodeM W () :=
  remove_device_put (ch_socket_path i) device.
Definition add_net (i : VMInstance) (net : NetConfig) : NodeM W rstring :=
  add_net_put (ch_socket_path i) net.

Definition instance_call_request {U} {HC : HttpClient U W} (i : VMInstance) (request : Request U) :
    W → W * result ProxyError Response :=
  call_request (ch_socket_path i) request.

(** ** What they do *)

(** The console transform gives the serial console a socket and no file, so a
    VM whose configuration went through it has no console device to open. *)
Lemma console_path_after_transform i vmid c (w w1 : W) w' config :
  transform (console_transform env) vmid c w = (config, w', Ok ()) →
  ∀ st, vm_info_get (ch_socket_path i) w1 =
          (w1, Ok {| info_vm_config := config; info_state := st |}) →
  open_console i w1 = (w1, Err ConsoleAttachFailed).
Proof.
  intros [= <- <-] st Hinfo. unfold open_console, console_path, instance_info.
  unfold mbind, nodem_bind. by rewrite Hinfo.
Qed.

(** A found instance has the id that was asked for and that id's socket. *)
Lemma get_instance_spec vmid w w' i :
  get_instance vmid w = (w', Ok (Some i)) →
  instance_id i = vmid ∧
  ch_socket_path i = path_join (runtime_dir_for env vmid) SOCKET_FILE_NAME ∧
  child_process i = None ∧ vm_config i = None.
Proof.
  unfold get_instance, attempt, list_instances, mbind, nodem_bind.
  destruct (create_dir_all (runtime_root env) w) as [w1 [[]|e]]; [|done].
  destruct (read_dir (runtime_root env) w1) as [w2 [entries|e]]; [|done].
  intros [= <- Hf]. apply find_some in Hf as [Hin Hid].
  apply bool_decide_eq_true in Hid. apply list_elem_of_In, list_elem_of_omap in Hin.
  destruct Hin as ([[id [[]|]]|] & _ & Hi); try done. injection Hi as <-. cbn in *. by subst.
Qed.
End ops.
