(* ===== verification/Network.v ===== *)
(** * The network agent

    [odorobo/src/networking/actor_linux.rs]: the actor that prepares a node's
    bridge, its gateway address and its NAT rule, runs the DHCP server, and
    attaches the TAP devices of VMs to the bridge. The kernel, reached through
    netlink and nftables, and processes are the class [NetKernel] on the node
    state [W]; what the theorems rely on of them is the class [NetKernelLaws]
    of [NetworkFacts]. *)

From S2P Require Import Prelude RustString Manifest Messages Config.
Open Scope N_scope.

(** ** Kernel data *)

(** An error of the netlink library: the kernel's negative error code, or a
    failure of the connection. *)
Inductive NetlinkError := NlCode (code : Z) | NlOther.

Definition ENODEV : Z := 19.
Definition EEXIST : Z := 17.

(** The reply to a link query; only the index is read. *)
Record LinkMessage := { header_index : N }.

Inductive IpAddr := V4 (ip : N) | V6 (ip : N).
Inductive AddressAttribute :=
| AttrAddress (ip : IpAddr)
| AttrLocal (ip : IpAddr)
| AttrOther.
Record AddressMessage := { msg_prefix_len : N; msg_attributes : list AddressAttribute }.

(** The nftables objects and statements the program reads or builds. *)
Inductive NfFamily := NfIP | NfIP6 | NfINet | NfOtherFamily.
Inductive NftExpression := MetaOifname | ExprString (s : rstring) | OtherExpression.
Inductive NftOperator := OpEQ | OtherOperator.
Inductive NftStatement :=
| Match (lhs rhs : NftExpression) (op : NftOperator)
| Masquerade
| OtherStatement.

Record NftTable := { table_family : NfFamily; table_name : rstring; table_handle : option N }.
Record NftChain := {
  chain_family : NfFamily;
  chain_table : rstring;
  chain_name : rstring;
  chain_handle : option N;
  chain_nat : bool;
  chain_postrouting : bool;
  chain_prio : option Z;
  chain_accept : bool }.
Record NftRule := {
  rule_family : NfFamily;
  rule_table : rstring;
  rule_chain : rstring;
  rule_expr : list NftStatement;
  rule_handle : option N;
  rule_comment : option rstring }.
Inductive NfListObject :=
| NfTable (t : NftTable)
| NfChain (c : NftChain)
| NfRule (r : NftRule)
| NfOtherList.
Inductive NfObject := ListObject (o : NfListObject) | OtherObject.

#[global] Instance NfFamily_eq_dec : EqDecision NfFamily.
Proof. solve_decision. Defined.
#[global] Instance NftExpression_eq_dec : EqDecision NftExpression.
Proof. solve_decision. Defined.
#[global] Instance NftOperator_eq_dec : EqDecision NftOperator.
Proof. solve_decision. Defined.
#[global] Instance NftStatement_eq_dec : EqDecision NftStatement.
Proof. solve_decision. Defined.

Inductive NetError :=
| ConnectionFailed
| LinkNotFound (name : rstring)
| LinkQueryFailed (name : rstring)
| BridgeCreateFailed
| AddressQueryFailed
| AddressAddFailed
| NoUpstream
| RulesetQueryFailed
| RulesetApplyFailed
| LinkSetFailed
| DnsmasqFailed
| DhcpStopFailed.

(** A computation on the node. *)
Definition NetM (W A : Type) : Type := W → W * result NetError A.

#[global] Instance netm_ret {W} : MRet (NetM W) := λ A a w, (w, Ok a).
#[global] Instance netm_bind {W} : MBind (NetM W) := λ A B f m w,
  match m w with
  | (w, Ok a) => f a w
  | (w, Err e) => (w, Err e)
  end.
Definition net_throw {W A} (e : NetError) : NetM W A := λ w, (w, Err e).

(** Netlink requests, nftables calls and processes. A link query by name
    yields no message, a message or an error; an address dump yields messages
    and possibly ends with an error. *)
Class NetKernel (W : Type) := {
  new_connection : W → W * bool;
  link_get : rstring → W → W * option (result NetlinkError LinkMessage);
  link_add_bridge : rstring → W → W * result NetlinkError ();
  address_get : N → W → W * (list AddressMessage * option NetlinkError);
  address_add : N → N → N → W → W * result NetlinkError ();
  link_set_controller : N → N → W → W * result NetlinkError ();
  link_set_nocontroller : N → W → W * result NetlinkError ();
  link_set_up : N → W → W * result NetlinkError ();
  get_current_ruleset : W → W * option (list NfObject);
  apply_ruleset : list NfListObject → W → W * bool;
  spawn_dnsmasq : list rstring → W → W * option N;
  kill_dnsmasq : N → W → W * bool;
  spawn_dhcp_actor : DhcpConfig → rstring → W → W * ActorId;
  stop_dhcp_actor : ActorId → W → W * bool }.

(** [map_err] on a netlink request. *)
Definition netlink {W A} (request : W → W * result NetlinkError A) (e : NetError) : NetM W A := λ w,
  match request w with
  | (w, Ok a) => (w, Ok a)
  | (w, Err _) => (w, Err e)
  end.

(** ** Printing of IPv4 addresses *)

Definition show_ipv4 (ip : N) : rstring :=
  show_N (ip / 2 ^ 24 mod 256) ++ lit "." ++ show_N (ip / 2 ^ 16 mod 256) ++ lit "." ++
  show_N (ip / 2 ^ 8 mod 256) ++ lit "." ++ show_N (ip mod 256).

(** [Ipv4Net::netmask] and its [Display]. *)
Definition netmask (n : Ipv4Net) : N := 2 ^ 32 - 2 ^ (32 - net_prefix_len n).
Definition show_ipv4_net (n : Ipv4Net) : rstring :=
  show_ipv4 (net_addr n) ++ lit "/" ++ show_N (net_prefix_len n).

(** ** The DHCP actor *)

Record DhcpActor := {
  dhcp_actor_config : DhcpConfig;
  dhcp_bridge : rstring;
  dnsmasq_process : option N }.

Definition dhcp_range_arg (c : DhcpConfig) : rstring :=
  show_ipv4 (dhcp_range c).1 ++ lit "," ++ show_ipv4 (dhcp_range c).2 ++ lit "," ++
  show_ipv4 (netmask (dhcp_subnet c)) ++ lit "," ++ dhcp_lease_time c.

Definition dnsmasq_args (c : DhcpConfig) (bridge : rstring) : list rstring :=
  [lit "--interface"; bridge; lit "--bind-interfaces"; lit "--dhcp-range"; dhcp_range_arg c;
   lit "--no-daemon"].

Section network.
Context {W : Type} `{NetKernel W}.

Definition dhcp_on_start (c : DhcpConfig) (bridge : rstring) : NetM W DhcpActor := λ w,
  match spawn_dnsmasq (dnsmasq_args c bridge) w with
  | (w, None) => (w, Err DnsmasqFailed)
  | (w, Some child) =>
      (w, Ok {| dhcp_actor_config := c; dhcp_bridge := bridge; dnsmasq_process := Some child |})
  end.

(** The process is taken out of the actor before it is killed. *)
Definition dhcp_on_stop (d : DhcpActor) (w : W) : W * DhcpActor * result NetError () :=
  let d' := {| dhcp_actor_config := dhcp_actor_config d; dhcp_bridge := dhcp_bridge d;
               dnsmasq_process := None |} in
  match dnsmasq_process d with
  | None => (w, d', Ok ())
  | Some child =>
      match kill_dnsmasq child w with
      | (w, true) => (w, d', Ok ())
      | (w, false) => (w, d', Err DhcpStopFailed)
      end
  end.

(** ** Addresses *)

Definition attribute_is (address : N) (a : AddressAttribute) : bool :=
  match a with
  | AttrAddress (V4 ip) | AttrLocal (V4 ip) => ip =? address
  | _ => false
  end.

Definition already_present (address prefix_len : N) (m : AddressMessage) : bool :=
  (msg_prefix_len m =? prefix_len) && existsb (attribute_is address) (msg_attributes m).

(** The loop over the dump returns at the first message that has the address. *)
Definition ensure_address (link_index address prefix_len : N) : NetM W () := λ w,
  let '(w, (messages, failed)) := address_get link_index w in
  if existsb (already_present address prefix_len) messages then (w, Ok ())
  else match failed with
       | Some _ => (w, Err AddressQueryFailed)
       | None =>
           match address_add link_index address prefix_len w with
           | (w, Ok ()) => (w, Ok ())
           | (w, Err (NlCode code)) =>
               if (code =? - EEXIST)%Z then (w, Ok ()) else (w, Err AddressAddFailed)
           | (w, Err NlOther) => (w, Err AddressAddFailed)
           end
       end.

(** ** Links *)

Definition lookup_link_by_name (name : rstring) : NetM W LinkMessage := λ w,
  match link_get name w with
  | (w, None) => (w, Err (LinkNotFound name))
  | (w, Some (Ok link)) => (w, Ok link)
  | (w, Some (Err _)) => (w, Err (LinkQueryFailed name))
  end.

(** ** NAT rules *)

Definition nft_table_exists (objects : list NfObject) (table : rstring) : bool :=
  existsb (λ object,
    match object with
    | ListObject (NfTable existing) =>
        bool_decide (table_family existing = NfIP) && bool_decide (table_name existing = table)
    | _ => false
    end) objects.

Definition nft_chain_exists (objects : list NfObject) (table chain : rstring) : bool :=
  existsb (λ object,
    match object with
    | ListObject (NfChain existing) =>
        bool_decide (chain_family existing = NfIP) && bool_decide (chain_table existing = table) &&
        bool_decide (chain_name existing = chain)
    | _ => false
    end) objects.

(** The statement list [oifname == upstream_iface masquerade]. *)
Definition masquerades (upstream_iface : rstring) (expr : list NftStatement) : bool :=
  match expr with
  | [Match lhs rhs op; Masquerade] =>
      bool_decide (op = OpEQ) && bool_decide (lhs = MetaOifname) &&
      match rhs with ExprString iface => bool_decide (iface = upstream_iface) | _ => false end
  | _ => false
  end.

Definition nft_postrouting_masquerade_exists (objects : list NfObject)
    (table chain upstream_iface : rstring) : bool :=
  existsb (λ object,
    match object with
    | ListObject (NfRule existing) =>
        bool_decide (rule_family existing = NfIP) && bool_decide (rule_table existing = table) &&
        bool_decide (rule_chain existing = chain) && masquerades upstream_iface (rule_expr existing)
    | _ => false
    end) objects.

Definition TABLE_NAME : rstring := lit "odorobo".
Definition CHAIN_NAME : rstring := lit "guest_nat".

Definition nat_table : NftTable :=
  {| table_family := NfIP; table_name := TABLE_NAME; table_handle := None |}.
Definition nat_chain : NftChain := {|
  chain_family := NfIP; chain_table := TABLE_NAME; chain_name := CHAIN_NAME; chain_handle := None;
  chain_nat := true; chain_postrouting := true; chain_prio := Some 100%Z; chain_accept := true |}.
Definition nat_rule (upstream_iface : rstring) : NftRule := {|
  rule_family := NfIP; rule_table := TABLE_NAME; rule_chain := CHAIN_NAME;
  rule_expr := [Match MetaOifname (ExprString upstream_iface) OpEQ; Masquerade];
  rule_handle := None; rule_comment := Some (lit "odorobo host-only NAT") |}.

(** The batch: what is missing, the container before its content. *)
Definition nat_batch (table_exists chain_exists : bool) (upstream_iface : rstring) :
    list NfListObject :=
  (if table_exists then [] else [NfTable nat_table]) ++
  (if chain_exists then [] else [NfChain nat_chain]) ++
  [NfRule (nat_rule upstream_iface)].

Definition ensure_nat_rules (upstream_iface : rstring) : NetM W () := λ w,
  match get_current_ruleset w with
  | (w, None) => (w, Err RulesetQueryFailed)
  | (w, Some objects) =>
      let table_exists := nft_table_exists objects TABLE_NAME in
      let chain_exists := nft_chain_exists objects TABLE_NAME CHAIN_NAME in
      let rule_exists :=
        nft_postrouting_masquerade_exists objects TABLE_NAME CHAIN_NAME upstream_iface in
      if rule_exists then (w, Ok ())
      else
        match apply_ruleset (nat_batch table_exists chain_exists upstream_iface) w with
        | (w, true) => (w, Ok ())
        | (w, false) => (w, Err RulesetApplyFailed)
        end
  end.
End network.

(** ** The actor *)

Record NetworkConfigCommon := {
  common_bridge : rstring;
  common_subnet : rstring;
  common_upstream_iface : option rstring }.

Record NetworkAgentActor := {
  agent_config : NetworkConfig;
  agent_common : NetworkConfigCommon;
  dhcp_actor : option ActorId }.

Definition resolve_common (mode : NetworkMode) : NetworkConfigCommon :=
  match mode with
  | HostonlyNat bridge subnet _ upstream_iface =>
      {| common_bridge := bridge; common_subnet := show_ipv4_net subnet;
         common_upstream_iface := Some upstream_iface |}
  | Bridged bridge subnet _ =>
      {| common_bridge := bridge; common_subnet := show_ipv4_net subnet;
         common_upstream_iface := None |}
  end.

Section agent.
Context {W : Type} `{NetKernel W}.

Definition create_bridge (bridge : rstring) : NetM W LinkMessage :=
  netlink (link_add_bridge bridge) BridgeCreateFailed ≫= λ _, lookup_link_by_name bridge.

(** The bridge, created if the lookup finds none. *)
Definition ensure_bridge (bridge : rstring) : NetM W LinkMessage := λ w,
  match link_get bridge w with
  | (w, Some (Ok link)) => (w, Ok link)
  | (w, Some (Err (NlCode code))) =>
      if (code =? - ENODEV)%Z then create_bridge bridge w else (w, Err (LinkQueryFailed bridge))
  | (w, Some (Err NlOther)) => (w, Err (LinkQueryFailed bridge))
  | (w, None) => create_bridge bridge w
  end.

Definition ensure_mode (common : NetworkConfigCommon) (bridge : LinkMessage) (mode : NetworkMode) :
    NetM W () :=
  match mode with
  | HostonlyNat _ subnet gateway _ =>
      ensure_address (header_index bridge) gateway (net_prefix_len subnet) ≫= λ _,
      match common_upstream_iface common with
      | None => net_throw NoUpstream
      | Some upstream_iface => ensure_nat_rules upstream_iface
      end
  | Bridged _ subnet gateway =>
      ensure_address (header_index bridge) gateway (net_prefix_len subnet)
  end.

(** The DHCP actor is spawned before the addresses are set up; its own start,
    [dhcp_on_start], runs in its task. *)
Definition start_dhcp (config : option DhcpConfig) (bridge : rstring) : NetM W (option ActorId) := λ w,
  match config with
  | None => (w, Ok None)
  | Some dhcp_config => let '(w, dhcp) := spawn_dhcp_actor dhcp_config bridge w in (w, Ok (Some dhcp))
  end.

Definition connect : NetM W () := λ w,
  match new_connection w with
  | (w, true) => (w, Ok ())
  | (w, false) => (w, Err ConnectionFailed)
  end.

Definition network_on_start (args : NetworkConfig) : NetM W NetworkAgentActor :=
  connect ≫= λ _,
  let common := resolve_common (network_mode args) in
  bridge ← ensure_bridge (common_bridge common);
  dhcp ← start_dhcp (dhcp_config args) (common_bridge common);
  ensure_mode common bridge (network_mode args) ≫= λ _,
  mret {| agent_config := args; agent_common := common; dhcp_actor := dhcp |}.

Definition network_on_stop (a : NetworkAgentActor) (w : W) :
    W * NetworkAgentActor * result NetError () :=
  let a' := {| agent_config := agent_config a; agent_common := agent_common a; dhcp_actor := None |} in
  match dhcp_actor a with
  | None => (w, a', Ok ())
  | Some dhcp =>
      match stop_dhcp_actor dhcp w with
      | (w, true) => (w, a', Ok ())
      | (w, false) => (w, a', Err DhcpStopFailed)
      end
  end.

Definition handle_attach_tap (a : NetworkAgentActor) (msg : AttachTap) : NetM W () :=
  bridge ← lookup_link_by_name (common_bridge (agent_common a));
  tap ← lookup_link_by_name (attach_tap_name msg);
  netlink (link_set_controller (header_index tap) (header_index bridge)) LinkSetFailed ≫= λ _,
  netlink (link_set_up (header_index tap)) LinkSetFailed.

Definition handle_detach_tap (a : NetworkAgentActor) (msg : DetachTap) : NetM W () :=
  tap ← lookup_link_by_name (detach_tap_name msg);
  netlink (link_set_nocontroller (header_index tap)) LinkSetFailed.
End agent.
