(* ===== verification/NetworkFacts.v ===== *)
(** * What the network agent establishes

    The documented behaviour of the kernel the agent relies on, the state its
    start establishes, and the TAP devices of VMs seen through the networking
    hook. *)

From S2P Require Import Prelude RustString Manifest Messages Config ChConfig Transform VmInstance Network.
Open Scope N_scope.

(** ** The observable kernel state *)

Record LinkState := { ls_name : rstring; ls_controller : option N; ls_up : bool }.

Definition with_controller (c : option N) (l : LinkState) : LinkState :=
  {| ls_name := ls_name l; ls_controller := c; ls_up := ls_up l |}.
Definition with_up (l : LinkState) : LinkState :=
  {| ls_name := ls_name l; ls_controller := ls_controller l; ls_up := true |}.

(** Links by index, the IPv4 addresses listed for them (index, address, prefix
    length) and the listed nftables objects. *)
Class NetObserve (W : Type) := {
  k_links : W → gmap N LinkState;
  k_addresses : W → gset (N * N * N);
  k_ruleset : W → list NfObject }.

Definition table_key (o : NfObject) : option (NfFamily * rstring) :=
  match o with ListObject (NfTable t) => Some (table_family t, table_name t) | _ => None end.
Definition chain_key (o : NfObject) : option (NfFamily * rstring * rstring) :=
  match o with
  | ListObject (NfChain c) => Some (chain_family c, chain_table c, chain_name c)
  | _ => None
  end.
Definition rule_key (o : NfObject) : option (NfFamily * rstring * rstring * list NftStatement) :=
  match o with
  | ListObject (NfRule r) => Some (rule_family r, rule_table r, rule_chain r, rule_expr r)
  | _ => None
  end.

Section observe.
Context {W : Type} `{NetObserve W}.

Definition same_links (w w' : W) : Prop := k_links w' = k_links w.
Definition same_addresses (w w' : W) : Prop := k_addresses w' = k_addresses w.
Definition same_ruleset (w w' : W) : Prop := k_ruleset w' = k_ruleset w.
Definition same_kernel (w w' : W) : Prop :=
  same_links w w' ∧ same_addresses w w' ∧ same_ruleset w w'.

#[global] Instance same_kernel_preorder : PreOrder same_kernel.
Proof.
  unfold same_kernel, same_links, same_addresses, same_ruleset.
  split; [by intros w|]. intros w1 w2 w3 (?&?&?) (?&?&?). split_and!; congruence.
Qed.

Definition link_named (w : W) (i : N) (name : rstring) : Prop :=
  ∃ l, k_links w !! i = Some l ∧ ls_name l = name.
Definition rules (w : W) := omap rule_key (k_ruleset w).
End observe.

(** Reading requests leave the configuration alone and report it; writing
    requests that succeed have their documented effect; a request to add an
    address that fails with [EEXIST] found the address assigned. *)
Class NetKernelLaws (W : Type) `{NetKernel W, NetObserve W} := {
  link_names_unique (w : W) i j name : link_named w i name → link_named w j name → i = j;
  rules_in_chains (w : W) f t c e : (f, t, c, e) ∈ rules w →
    (f, t) ∈ omap table_key (k_ruleset w) ∧ (f, t, c) ∈ omap chain_key (k_ruleset w);
  new_connection_reads (w : W) : same_kernel w (new_connection w).1;
  link_get_reads name (w : W) : same_kernel w (link_get name w).1;
  link_get_sound name (w : W) m : (link_get name w).2 = Some (Ok m) → link_named w (header_index m) name;
  link_get_finds name (w : W) i : link_named w i name →
    (link_get name w).2 = Some (Ok {| header_index := i |});
  address_get_reads i (w : W) : same_kernel w (address_get i w).1;
  address_get_lists i (w : W) m a : m ∈ (address_get i w).2.1 →
    (AttrAddress (V4 a) ∈ msg_attributes m ∨ AttrLocal (V4 a) ∈ msg_attributes m) →
    (i, a, msg_prefix_len m) ∈ k_addresses w;
  address_get_complete i (w : W) a p : (address_get i w).2.2 = None → (i, a, p) ∈ k_addresses w →
    ∃ m, m ∈ (address_get i w).2.1 ∧ msg_prefix_len m = p ∧
      (AttrAddress (V4 a) ∈ msg_attributes m ∨ AttrLocal (V4 a) ∈ msg_attributes m);
  get_ruleset_reads (w : W) : same_kernel w (get_current_ruleset w).1;
  get_ruleset_sound (w : W) objects : (get_current_ruleset w).2 = Some objects → objects = k_ruleset w;
  spawn_dhcp_keeps c b (w : W) : same_kernel w (spawn_dhcp_actor c b w).1;
  link_add_bridge_ok name (w w' : W) : link_add_bridge name w = (w', Ok ()) →
    ∃ i, k_links w !! i = None ∧
      k_links w' = <[i := {| ls_name := name; ls_controller := None; ls_up := true |}]> (k_links w) ∧
      same_addresses w w' ∧ same_ruleset w w';
  address_add_ok i a p (w w' : W) : address_add i a p w = (w', Ok ()) →
    same_links w w' ∧ same_ruleset w w' ∧ k_addresses w' = {[(i, a, p)]} ∪ k_addresses w;
  address_add_exists i a p (w w' : W) : address_add i a p w = (w', Err (NlCode (- EEXIST))) →
    same_kernel w w' ∧ (i, a, p) ∈ k_addresses w;
  link_set_controller_ok i c (w w' : W) : link_set_controller i c w = (w', Ok ()) →
    k_links w' = alter (with_controller (Some c)) i (k_links w);
  link_set_nocontroller_ok i (w w' : W) : link_set_nocontroller i w = (w', Ok ()) →
    k_links w' = alter (with_controller None) i (k_links w);
  link_set_up_ok i (w w' : W) : link_set_up i w = (w', Ok ()) →
    k_links w' = alter with_up i (k_links w);
  apply_ruleset_ok batch (w w' : W) : apply_ruleset batch w = (w', true) →
    same_links w w' ∧ same_addresses w w' ∧
    rules w' ≡ₚ rules w ++ omap rule_key (ListObject <$> batch) }.

Definition nat_key (upstream_iface : rstring) : NfFamily * rstring * rstring * list NftStatement :=
  (NfIP, TABLE_NAME, CHAIN_NAME, [Match MetaOifname (ExprString upstream_iface) OpEQ; Masquerade]).

Lemma masquerades_spec iface e :
  masquerades iface e = true ↔ e = [Match MetaOifname (ExprString iface) OpEQ; Masquerade].
Proof.
  split; [|intros ->; cbn; by rewrite !bool_decide_true].
  destruct e as [|[l r op| |] [|[]  []]]; cbn; try done.
  destruct r as [|s|]; try by rewrite andb_false_r.
  intros H. bool_to_prop. by subst.
Qed.

Lemma existsb_elem_of {A} (f : A → bool) l : existsb f l = true ↔ ∃ x, x ∈ l ∧ f x = true.
Proof. rewrite existsb_exists. by setoid_rewrite list_elem_of_In. Qed.

(** The program's test for the rule decides whether it is listed. *)
Lemma masquerade_exists_spec objects iface :
  nft_postrouting_masquerade_exists objects TABLE_NAME CHAIN_NAME iface = true ↔
  nat_key iface ∈ omap rule_key objects.
Proof.
  unfold nft_postrouting_masquerade_exists. rewrite existsb_elem_of, list_elem_of_omap.
  apply exist_proper. intros o. apply and_iff_compat_l.
  destruct o as [[t|c|r|]|]; cbn; try naive_solver.
  unfold nat_key. rewrite !andb_true_iff, masquerades_spec, !bool_decide_eq_true.
  destruct r as [f t c e h cm]; cbn. naive_solver.
Qed.

Section facts.
Context {W : Type} {HK : NetKernel W} {HO : NetObserve W} {HL : NetKernelLaws W}.

(** ** NAT *)

Lemma ensure_nat_rules_present iface (w : W) :
  nat_key iface ∈ rules w → same_kernel w (ensure_nat_rules iface w).1.
Proof.
  intros Hin. unfold ensure_nat_rules. pose proof (get_ruleset_reads w) as Hr.
  pose proof (get_ruleset_sound w) as Hs.
  destruct (get_current_ruleset w) as [w1 [objects|]]; [|done]. cbn in *.
  rewrite (Hs objects eq_refl). by rewrite (proj2 (masquerade_exists_spec _ _) Hin).
Qed.

Lemma ensure_nat_rules_ok iface (w w' : W) :
  ensure_nat_rules iface w = (w', Ok ()) →
  same_links w w' ∧ same_addresses w w' ∧
  rules w' ≡ₚ rules w ++ (if decide (nat_key iface ∈ rules w) then [] else [nat_key iface]).
Proof.
  unfold ensure_nat_rules. intros He. pose proof (get_ruleset_reads w) as Hr.
  pose proof (get_ruleset_sound w) as Hs.
  destruct (get_current_ruleset w) as [w1 [objects|]]; [|done]. cbn in Hr, Hs.
  destruct Hr as (Hl & Ha & Hru). specialize (Hs objects eq_refl).
  assert (rules w1 = rules w) as Hrules by (unfold rules; by rewrite Hru).
  destruct (nft_postrouting_masquerade_exists _ _ _ _) eqn:Hx in He.
  - injection He as <-. apply masquerade_exists_spec in Hx. rewrite Hs in Hx.
    rewrite decide_True by done. rewrite app_nil_r. by rewrite Hrules.
  - destruct (apply_ruleset _ w1) as [w2 [|]] eqn:Hap in He; [|done]. injection He as <-.
    apply apply_ruleset_ok in Hap as (Hl2 & Ha2 & Hr2).
    rewrite decide_False.
    2: { intros Hin%masquerade_exists_spec. congruence. }
    unfold same_links, same_addresses in *. split_and!; [congruence|congruence|].
    rewrite Hr2, Hrules. f_equiv. unfold nat_batch.
    by destruct (nft_table_exists _ _), (nft_chain_exists _ _ _).
Qed.

(** ** Addresses *)

Lemma already_present_spec a p m :
  already_present a p m = true ↔ msg_prefix_len m = p ∧
    (AttrAddress (V4 a) ∈ msg_attributes m ∨ AttrLocal (V4 a) ∈ msg_attributes m).
Proof.
  unfold already_present. rewrite andb_true_iff, N.eqb_eq, existsb_elem_of.
  apply and_iff_compat_l. split.
  - intros ([[ip|ip]|[ip|ip]|] & Hin & Heq); try done; apply N.eqb_eq in Heq as ->; auto.
  - intros [Hin|Hin]; eexists; (split; [exact Hin|]); apply N.eqb_refl.
Qed.

Lemma ensure_address_present i a p (w : W) :
  (i, a, p) ∈ k_addresses w → same_kernel w (ensure_address i a p w).1.
Proof.
  intros Hin. unfold ensure_address. pose proof (address_get_reads i w) as Hr.
  pose proof (address_get_complete i w a p) as Hc.
  destruct (address_get i w) as [w1 [ms failed]]. cbn in *.
  destruct (existsb _ ms) eqn:Hx; [done|]. destruct failed as [e|]; [done|].
  destruct (Hc eq_refl Hin) as (m & Hm & Hp). apply not_true_iff_false in Hx.
  destruct Hx. apply existsb_elem_of. exists m. by rewrite already_present_spec.
Qed.

Lemma ensure_address_ok i a p (w w' : W) :
  ensure_address i a p w = (w', Ok ()) →
  same_links w w' ∧ same_ruleset w w' ∧ k_addresses w' = {[(i, a, p)]} ∪ k_addresses w.
Proof.
  unfold ensure_address. intros He. pose proof (address_get_reads i w) as (Hl & Ha & Hr).
  pose proof (address_get_lists i w) as Hlist. unfold same_links, same_addresses, same_ruleset in *.
  destruct (address_get i w) as [w1 [ms failed]]. cbn in *. destruct (existsb _ ms) eqn:Hx in He.
  - injection He as <-. split_and!; [done..|]. rewrite Ha.
    apply existsb_elem_of in Hx as (m & Hm & [<- Hattr]%already_present_spec).
    specialize (Hlist m a Hm Hattr). set_solver.
  - destruct failed; [done|]. destruct (address_add i a p w1) as [w2 [[]|[code|]]] eqn:Hadd; [| |done].
    + injection He as <-. apply address_add_ok in Hadd as (Hl2 & Hr2 & Ha2).
      unfold same_links, same_ruleset in *. split_and!; congruence.
    + destruct (Z.eqb_spec code (- EEXIST)) as [->|]; [|done]. injection He as <-.
      apply address_add_exists in Hadd as ((Hl2 & Ha2 & Hr2) & Hin).
      unfold same_links, same_addresses, same_ruleset in *.
      split_and!; [congruence|congruence|]. rewrite Ha2, Ha in *. set_solver.
Qed.

(** ** The bridge *)

Lemma lookup_link_ok name (w w' : W) m :
  lookup_link_by_name name w = (w', Ok m) → same_kernel w w' ∧ link_named w (header_index m) name.
Proof.
  unfold lookup_link_by_name. intros He. pose proof (link_get_reads name w) as Hr.
  pose proof (link_get_sound name w) as Hs.
  destruct (link_get name w) as [w1 [[m1|]|]]; simplify_eq/=. auto.
Qed.

Lemma ensure_bridge_present name (w : W) i :
  link_named w i name → ∃ w', ensure_bridge name w = (w', Ok {| header_index := i |}) ∧ same_kernel w w'.
Proof.
  intros Hn. unfold ensure_bridge. pose proof (link_get_reads name w) as Hr.
  apply link_get_finds in Hn. destruct (link_get name w) as [w1 r]. cbn in *. subst r. eauto.
Qed.

Lemma create_bridge_ok name (w w' : W) m :
  create_bridge name w = (w', Ok m) →
  link_named w' (header_index m) name ∧ same_addresses w w' ∧ same_ruleset w w' ∧
  ∀ j, j ≠ header_index m → k_links w' !! j = k_links w !! j.
Proof.
  unfold create_bridge, netlink, mbind, netm_bind. intros He.
  destruct (link_add_bridge name w) as [w1 [[]|]] eqn:Ha; [|done].
  apply link_add_bridge_ok in Ha as (i & Hi & Hl1 & Had1 & Hr1).
  apply lookup_link_ok in He as ((Hl & Had & Hr) & Hn).
  assert (header_index m = i) as Hmi.
  { apply (link_names_unique w1 _ _ name); [done|]. unfold link_named. rewrite Hl1, lookup_insert_eq. eauto. }
  unfold same_links, same_addresses, same_ruleset, link_named in *. rewrite Hl.
  split_and!; [done|congruence|congruence|]. intros j Hj. rewrite Hl1, lookup_insert_ne by congruence. done.
Qed.

Lemma ensure_bridge_ok name (w w' : W) m :
  ensure_bridge name w = (w', Ok m) →
  link_named w' (header_index m) name ∧ same_addresses w w' ∧ same_ruleset w w' ∧
  ∀ j, j ≠ header_index m → k_links w' !! j = k_links w !! j.
Proof.
  unfold ensure_bridge. intros He. pose proof (link_get_reads name w) as (Hl & Ha & Hr).
  pose proof (link_get_sound name w) as Hs.
  assert (∀ w1, k_links w1 = k_links w → k_addresses w1 = k_addresses w → k_ruleset w1 = k_ruleset w →
    create_bridge name w1 = (w', Ok m) →
    link_named w' (header_index m) name ∧ same_addresses w w' ∧ same_ruleset w w' ∧
    ∀ j, j ≠ header_index m → k_links w' !! j = k_links w !! j) as Hcreate.
  { intros w1 Hl1 Ha1 Hr1 (? & ? & ? & Hj)%create_bridge_ok.
    unfold same_addresses, same_ruleset in *. rewrite Hl1 in Hj. split_and!; congruence || done. }
  destruct (link_get name w) as [w1 [[m1|[code|]]|]]; cbn in *; [|destruct (_ =? _)%Z| |]; eauto; try done.
  simplify_eq. unfold link_named in *. rewrite Hl. eauto.
Qed.

(** ** The start of the agent *)

(** The parts of a mode that the start establishes. *)
Definition mode_bridge (mode : NetworkMode) : rstring := common_bridge (resolve_common mode).
Definition mode_address (i : N) (mode : NetworkMode) : N * N * N :=
  match mode with HostonlyNat _ s g _ | Bridged _ s g => (i, g, net_prefix_len s) end.
Definition mode_rules (mode : NetworkMode) :=
  match mode with HostonlyNat _ _ _ iface => [nat_key iface] | Bridged _ _ _ => [] end.

Lemma ensure_mode_ok mode m (w w' : W) :
  ensure_mode (resolve_common mode) m mode w = (w', Ok ()) →
  same_links w w' ∧ k_addresses w' = {[mode_address (header_index m) mode]} ∪ k_addresses w ∧
  rules w' ≡ₚ rules w ++ filter (λ k, k ∉ rules w) (mode_rules mode).
Proof.
  destruct mode as [b s g iface|b s g]; cbn; unfold mbind, netm_bind.
  - destruct (ensure_address _ _ _ w) as [w1 [[]|]] eqn:Ha; [|done].
    apply ensure_address_ok in Ha as (Hl1 & Hr1 & Ha1).
    intros (Hl2 & Ha2 & Hr2)%ensure_nat_rules_ok.
    assert (rules w1 = rules w) as Hrules by (unfold rules; by rewrite Hr1).
    unfold same_links, same_addresses in *. rewrite Hrules in Hr2.
    split_and!; [congruence|congruence|]. rewrite Hr2. f_equiv.
    unfold filter, list_filter. by destruct (decide (nat_key iface ∈ rules w)), (decide (nat_key iface ∉ rules w)).
  - intros (Hl1 & Hr1 & Ha1)%ensure_address_ok. split_and!; [done|done|].
    unfold rules. by rewrite Hr1, app_nil_r.
Qed.

Lemma ensure_mode_present mode m (w : W) :
  mode_address (header_index m) mode ∈ k_addresses w → (∀ k, k ∈ mode_rules mode → k ∈ rules w) →
  same_kernel w (ensure_mode (resolve_common mode) m mode w).1.
Proof.
  destruct mode as [b s g iface|b s g]; cbn; unfold mbind, netm_bind; intros Ha Hr.
  - pose proof (ensure_address_present _ _ _ w Ha) as H1.
    destruct (ensure_address _ _ _ w) as [w1 [[]|]]; [|done]. etrans; [exact H1|].
    apply ensure_nat_rules_present. destruct H1 as (_ & _ & H1). unfold rules, same_ruleset in *. cbn in H1.
    rewrite H1. apply Hr. set_solver.
  - by apply ensure_address_present.
Qed.

Lemma connect_keeps (w : W) : same_kernel w (connect w).1.
Proof.
  unfold connect. pose proof (new_connection_reads w). by destruct (new_connection w) as [w1 []].
Qed.

Lemma start_dhcp_keeps c b (w : W) : same_kernel w (start_dhcp c b w).1 ∧ is_ok (start_dhcp c b w).2 = true.
Proof.
  unfold start_dhcp. destruct c as [c|]; [|done]. pose proof (spawn_dhcp_keeps c b w).
  by destruct (spawn_dhcp_actor c b w).
Qed.

(** A start in a state that has everything changes nothing. *)
Lemma network_on_start_present args (w : W) i :
  link_named w i (mode_bridge (network_mode args)) →
  mode_address i (network_mode args) ∈ k_addresses w →
  (∀ k, k ∈ mode_rules (network_mode args) → k ∈ rules w) →
  same_kernel w (network_on_start args w).1.
Proof.
  intros Hn Ha Hr. unfold network_on_start. unfold mbind, netm_bind.
  pose proof (connect_keeps w) as H1. destruct (connect w) as [w1 [[]|]]; [|done]. cbn in H1.
  destruct H1 as (Hl1 & Ha1 & Hr1).
  destruct (ensure_bridge_present (mode_bridge (network_mode args)) w1 i) as (w2 & Heq & H2).
  { unfold link_named, same_links in *. by rewrite Hl1. }
  unfold mode_bridge in Heq. rewrite Heq.
  destruct (start_dhcp_keeps (dhcp_config args) (common_bridge (resolve_common (network_mode args))) w2)
    as [H3 Hok].
  destruct (start_dhcp _ _ w2) as [w3 [dhcp|]]; [|done]. cbn in H3.
  assert (same_kernel w w3) as Hw3 by (etrans; [split_and!; eassumption|]; etrans; eassumption).
  pose proof (ensure_mode_present (network_mode args) {| header_index := i |} w3) as H4.
  destruct (ensure_mode _ _ _ w3) as [w4 [[]|]]; cbn in *; etrans; try exact Hw3; apply H4;
    destruct Hw3 as (_ & Ha3 & Hr3); unfold same_addresses, same_ruleset, rules in *; congruence || by rewrite Hr3.
Qed.
End facts.

(** C20. The start of the network agent establishes its network and is
    idempotent. After a successful start the bridge exists and carries the
    gateway address with the prefix length of the subnet, and in NAT mode the
    masquerade rule for the upstream interface is listed; nothing else of the
    links, addresses and rules was changed, and a rule that existed was not
    added again. A later start with the same configuration changes no link,
    address or rule, whether it succeeds or fails. *)
Theorem network_start_idempotent {W} `{NetKernelLaws W} args (w w1 : W) actor :
  network_on_start args w = (w1, Ok actor) →
  (∃ i, link_named w1 i (mode_bridge (network_mode args)) ∧
     (∀ j, j ≠ i → k_links w1 !! j = k_links w !! j) ∧
     k_addresses w1 = {[mode_address i (network_mode args)]} ∪ k_addresses w) ∧
  rules w1 ≡ₚ rules w ++ filter (λ k, k ∉ rules w) (mode_rules (network_mode args)) ∧
  same_kernel w1 (network_on_start args w1).1.
Proof.
  intros Hs. unfold network_on_start in Hs. unfold mbind at 1, netm_bind at 1 in Hs.
  pose proof (connect_keeps w) as (Hl1 & Ha1 & Hr1). destruct (connect w) as [w2 [[]|]]; [|done].
  unfold mbind, netm_bind in Hs. destruct (ensure_bridge _ w2) as [w3 [m|]] eqn:Hb; [|done].
  apply ensure_bridge_ok in Hb as (Hn & Ha2 & Hr2 & Hl2).
  destruct (start_dhcp_keeps (dhcp_config args) (common_bridge (resolve_common (network_mode args))) w3)
    as [(Hl3 & Ha3 & Hr3) _].
  destruct (start_dhcp _ _ w3) as [w4 [dhcp|]]; [|done].
  destruct (ensure_mode _ _ _ w4) as [w5 [[]|]] eqn:Hm; [|done].
  apply ensure_mode_ok in Hm as (Hl4 & Ha4 & Hr4). injection Hs as <- _. cbn in *.
  unfold same_links, same_addresses, same_ruleset in *.
  assert (rules w4 = rules w) as Hrules by (unfold rules; congruence).
  assert (link_named w5 (header_index m) (mode_bridge (network_mode args))) as Hn5
    by (unfold link_named in *; by rewrite Hl4, Hl3).
  rewrite Hrules in Hr4. split_and!; [|done|].
  - exists (header_index m). split_and!; [done| |congruence].
    intros j Hj. rewrite Hl4, Hl3, Hl2 by done. congruence.
  - apply (network_on_start_present args w5 (header_index m)); [done|set_solver|].
    intros k Hk. rewrite Hr4, elem_of_app, list_elem_of_filter.
    destruct (decide (k ∈ rules w)); auto.
Qed.

(** ** TAP devices *)

(** The node with the agent [a] as its network actor: the hook's messages are
    handled by the agent. *)
Definition ask_network {W} (m : NetM W ()) (tap : rstring) : NodeM W () := λ w,
  match m w with
  | (w, Ok ()) => (w, Ok ())
  | (w, Err _) => (w, Err (TapFailed tap))
  end.

Definition with_network {W} `{NetKernel W} (a : NetworkAgentActor) (base : Hypervisor W) : Hypervisor W := {|
  vmm_ping_get := vmm_ping_get; vm_info_get := vm_info_get; create_vm := create_vm; boot_vm := boot_vm;
  shutdown_vm := shutdown_vm; shutdown_vmm := shutdown_vmm; delete_vm := delete_vm;
  send_migration_put := send_migration_put; receive_migration_put := receive_migration_put;
  pause_vm := pause_vm; resume_vm := resume_vm; pick_port := pick_port; spawn_process := spawn_process;
  kill_and_wait := kill_and_wait; fs_exists := fs_exists; create_dir_all := create_dir_all;
  remove_dir_all := remove_dir_all; remove_file := remove_file;
  network_actor_lookup := mret true;
  attach_tap := λ vmid tap,
    ask_network (handle_attach_tap a {| attach_vmid := vmid; attach_tap_name := tap |}) tap;
  detach_tap := λ vmid tap,
    ask_network (handle_detach_tap a {| detach_vmid := vmid; detach_tap_name := tap |}) tap |}.

(** The link [i] is named [name] and is an active port of the link [bridge]. *)
Definition attached `{NetObserve W} (w : W) (name bridge : rstring) : Prop :=
  ∃ i b l, k_links w !! i = Some l ∧ ls_name l = name ∧ ls_controller l = Some b ∧ ls_up l = true ∧
    link_named w b bridge.
Definition detached `{NetObserve W} (w : W) (name : rstring) : Prop :=
  ∃ i l, k_links w !! i = Some l ∧ ls_name l = name ∧ ls_controller l = None.

(** Only links with a name in [names] differ, and all keep their names. *)
Definition only_links `{NetObserve W} (names : list rstring) (w w' : W) : Prop :=
  ∀ i, ls_name <$> k_links w' !! i = ls_name <$> k_links w !! i ∧
    (∀ l, k_links w !! i = Some l → ls_name l ∉ names → k_links w' !! i = Some l).

Section taps.
Context {W : Type} {HK : NetKernel W} {HO : NetObserve W} {HL : NetKernelLaws W}.
Context (a : NetworkAgentActor) (base : Hypervisor W).

Lemma only_links_refl names (w : W) : only_links names w w.
Proof. by intros i. Qed.

Lemma only_links_trans n1 n2 (w1 w2 w3 : W) :
  only_links n1 w1 w2 → only_links n2 w2 w3 → only_links (n1 ++ n2) w1 w3.
Proof.
  intros H12 H23 i. destruct (H12 i) as [Hn1 Hk1], (H23 i) as [Hn2 Hk2]. split; [congruence|].
  intros l Hl Hn. apply Hk2; [apply Hk1|]; set_solver.
Qed.

Lemma only_links_named names (w w' : W) i name :
  only_links names w w' → link_named w' i name ↔ link_named w i name.
Proof.
  intros Ho. unfold link_named. destruct (Ho i) as [Hn _].
  destruct (k_links w' !! i), (k_links w !! i); cbn in Hn; naive_solver.
Qed.

Lemma only_links_alter (f : LinkState → LinkState) (w w' : W) i name :
  link_named w i name → (∀ l, ls_name (f l) = ls_name l) →
  k_links w' = alter f i (k_links w) → only_links [name] w w'.
Proof.
  intros (l & Hl & Hn) Hf Heq j. rewrite Heq. destruct (decide (j = i)) as [->|Hj].
  - rewrite lookup_alter_eq, Hl. cbn. rewrite Hf. split; [done|]. intros l' [= <-]. set_solver.
  - rewrite lookup_alter_ne by done. done.
Qed.

Lemma handle_attach_tap_ok vmid tap (w w' : W) :
  handle_attach_tap a {| attach_vmid := vmid; attach_tap_name := tap |} w = (w', Ok ()) →
  only_links [tap] w w' ∧ attached w' tap (common_bridge (agent_common a)).
Proof.
  unfold handle_attach_tap, mbind, netm_bind, netlink. cbn [attach_tap_name]. intros He.
  destruct (lookup_link_by_name (common_bridge (agent_common a)) w) as [w1 [b|]] eqn:Hb; [|done].
  destruct (lookup_link_by_name tap w1) as [w2 [t|]] eqn:Ht; [|done].
  apply lookup_link_ok in Hb as ((Hl1 & _ & _) & Hnb), Ht as ((Hl2 & _ & _) & Hnt).
  unfold same_links in *. rewrite Hl1 in Hl2.
  destruct (link_set_controller _ _ w2) as [w3 [[]|]] eqn:Hc; [|done].
  apply link_set_controller_ok in Hc. destruct (link_set_up _ w3) as [w4 [[]|]] eqn:Hu; [|done].
  apply link_set_up_ok in Hu. injection He as <-.
  assert (k_links w4 = alter (with_up ∘ with_controller (Some (header_index b))) (header_index t) (k_links w))
    as Hw4 by by rewrite Hu, Hc, Hl2, alter_alter_eq.
  assert (only_links [tap] w w4) as Ho.
  { refine (only_links_alter _ _ _ _ _ _ _ Hw4); [|done]. unfold link_named in *. by rewrite Hl1 in Hnt. }
  split; [done|]. destruct Hnt as (l & Hl & Hname). rewrite Hl1 in Hl.
  exists (header_index t), (header_index b), (with_up (with_controller (Some (header_index b)) l)).
  rewrite Hw4, lookup_alter_eq, Hl. split_and!; [done..|]. by apply (only_links_named _ _ _ _ _ Ho).
Qed.

Lemma handle_detach_tap_ok vmid tap (w w' : W) :
  handle_detach_tap a {| detach_vmid := vmid; detach_tap_name := tap |} w = (w', Ok ()) → only_links [tap] w w' ∧ detached w' tap.
Proof.
  unfold handle_detach_tap, mbind, netm_bind, netlink. cbn [detach_tap_name]. intros He.
  destruct (lookup_link_by_name tap w) as [w1 [t|]] eqn:Ht; [|done].
  apply lookup_link_ok in Ht as ((Hl1 & _ & _) & Hnt). unfold same_links in *.
  destruct (link_set_nocontroller _ w1) as [w2 [[]|]] eqn:Hc; [|done].
  apply link_set_nocontroller_ok in Hc. injection He as <-. rewrite Hl1 in Hc.
  split; [by refine (only_links_alter _ _ _ _ _ Hnt _ Hc)|].
  destruct Hnt as (l & Hl & Hname).
  exists (header_index t), (with_controller None l). by rewrite Hc, lookup_alter_eq, Hl.
Qed.

(** A loop over taps whose body establishes a property of the tap that later
    iterations for other taps keep. *)
Lemma for_each_taps (f : rstring → NodeM W ()) (Q : W → rstring → Prop) :
  (∀ tap w w', f tap w = (w', Ok ()) → only_links [tap] w w' ∧ Q w' tap) →
  (∀ tap names w w', only_links names w w' → tap ∉ names → Q w tap → Q w' tap) →
  ∀ taps w w', for_each f taps w = (w', Ok ()) →
  only_links taps w w' ∧ ∀ tap, tap ∈ taps → Q w' tap.
Proof.
  intros Hf Hkeep. induction taps as [|tap taps IH]; intros w w' He.
  { injection He as <-. split; [apply only_links_refl|set_solver]. }
  cbn in He. unfold mbind, nodem_bind in He. destruct (f tap w) as [w1 [[]|]] eqn:H1; [|done].
  apply Hf in H1 as [Ho Hq]. apply IH in He as [Ho2 Hall].
  split; [exact (only_links_trans [tap] taps w w1 w' Ho Ho2)|].
  intros t [->|Ht]%elem_of_cons; [|by apply Hall].
  destruct (decide (tap ∈ taps)); [by apply Hall|]. by eapply Hkeep.
Qed.

Lemma attached_keep bridge tap names (w w' : W) :
  only_links names w w' → tap ∉ names → attached w tap bridge → attached w' tap bridge.
Proof.
  intros Ho Hn (i & b & l & Hl & Hname & Hc & Hu & Hb). exists i, b, l.
  destruct (Ho i) as [_ Hk]. rewrite (Hk l Hl) by by rewrite Hname.
  split_and!; [done..|]. by apply (only_links_named _ _ _ _ _ Ho).
Qed.

Lemma detached_keep tap names (w w' : W) :
  only_links names w w' → tap ∉ names → detached w tap → detached w' tap.
Proof.
  intros Ho Hn (i & l & Hl & Hname & Hc). exists i, l. destruct (Ho i) as [_ Hk].
  by rewrite (Hk l Hl) by by rewrite Hname.
Qed.

(** The hooks' only stage with taps, for either direction. *)
Lemma with_taps_ok (f : N → rstring → NodeM W ()) (Q : W → rstring → Prop) u vmid info (w w' : W) :
  (∀ n tap w w', f n tap w = (w', Ok ()) → only_links [tap] w w' ∧ Q w' tap) →
  (∀ tap names w w', only_links names w w' → tap ∉ names → Q w tap → Q w' tap) →
  with_taps (H := with_network a base) u f vmid info w = (w', Ok ()) →
  only_links (tap_names info) w w' ∧ ∀ tap, tap ∈ tap_names info → Q w' tap.
Proof.
  intros Hf Hkeep. unfold with_taps. destruct (u vmid) as [n|]; [|done].
  destruct (tap_names info) as [|t ts] eqn:Htaps.
  { intros [= <-]. split; [apply only_links_refl|set_solver]. }
  intros He. exact (for_each_taps (f n) Q (Hf n) Hkeep (t :: ts) w w' He).
Qed.

Lemma ask_network_ok (m : NetM W ()) tap (w w' : W) :
  ask_network m tap w = (w', Ok ()) → m w = (w', Ok ()).
Proof. unfold ask_network. destruct (m w) as [w1 [[]|]]; [|done]. by intros [= ->]. Qed.

(** The manager runs the networking hook only. *)
Lemma run_single_hook (m : NodeM W ()) (w : W) :
  (m ≫= λ _, mret ()) w = m w.
Proof. unfold mbind, nodem_bind. by destruct (m w) as [w1 [[]|]]. Qed.
End taps.

(** C21. Booting a VM plugs it in, stopping it unplugs it. With the network agent
    answering the networking hook, a successful after-boot stage leaves every
    TAP device of the VM an active port of the agent's bridge, and a successful
    before-stop stage leaves every one of them without a controller; both leave
    the links that are not TAP devices of the VM as they were. *)
Theorem hooks_plug_taps {W} `{NetKernelLaws W} a (base : Hypervisor W) u vmid info (w w' : W) :
  (hooks_after_boot (default_hooks (H := with_network a base) u) vmid info w = (w', Ok ()) →
   only_links (tap_names info) w w' ∧
   ∀ tap, tap ∈ tap_names info → attached w' tap (common_bridge (agent_common a))) ∧
  (hooks_before_stop (default_hooks (H := with_network a base) u) vmid info w = (w', Ok ()) →
   only_links (tap_names info) w w' ∧ ∀ tap, tap ∈ tap_names info → detached w' tap).
Proof.
  unfold hooks_after_boot, hooks_before_stop, default_hooks. cbn [for_each after_boot before_stop network_hook].
  rewrite !run_single_hook. split; intros He.
  - refine (with_taps_ok a base _ (λ w t, attached w t _) u vmid info w w' _ _ He).
    + intros n tap w1 w2 Ha%ask_network_ok. by apply (handle_attach_tap_ok a n).
    + intros tap names w1 w2. apply attached_keep.
  - refine (with_taps_ok a base _ detached u vmid info w w' _ _ He).
    + intros n tap w1 w2 Ha%ask_network_ok. by apply (handle_detach_tap_ok a n).
    + intros tap names w1 w2. apply detached_keep.
Qed.
