(* ===== verification/NetworkExamples.v ===== *)
(** * A small kernel

    A kernel with at most one bridge, one gateway address, one NAT rule and one
    TAP device, which satisfies the laws of [NetworkFacts], and the witnesses
    of the theorems on the network agent. *)

From S2P Require Import Prelude RustString Config ChConfig Transform VmInstance Network NetworkFacts.
Open Scope N_scope.

Record MiniKernel := {
  mk_bridge : bool;
  mk_bridge_up : bool;
  mk_address : bool;
  mk_rule : bool;
  mk_tap_controller : option N;
  mk_tap_up : bool }.

Definition mini_bridge : rstring := lit "vmbr0".
Definition mini_tap : rstring := lit "vmtap-vm7-vnet".
Definition mini_iface : rstring := lit "eth0".
Definition mini_batch : list NfListObject := nat_batch false false mini_iface.

#[local] Instance mini_observe : NetObserve MiniKernel := {|
  k_links := λ w,
    (if mk_bridge w
     then {[1 := {| ls_name := mini_bridge; ls_controller := None; ls_up := mk_bridge_up w |}]}
     else ∅) ∪
    {[2 := {| ls_name := mini_tap; ls_controller := mk_tap_controller w; ls_up := mk_tap_up w |}]};
  k_addresses := λ w, if mk_address w then {[(1, default_gateway, 24)]} else ∅;
  k_ruleset := λ w, if mk_rule w then ListObject <$> mini_batch else [] |}.

Definition with_mini_bridge (w : MiniKernel) : MiniKernel := {|
  mk_bridge := true; mk_bridge_up := true; mk_address := mk_address w; mk_rule := mk_rule w;
  mk_tap_controller := mk_tap_controller w; mk_tap_up := mk_tap_up w |}.
Definition with_mini_address (w : MiniKernel) : MiniKernel := {|
  mk_bridge := mk_bridge w; mk_bridge_up := mk_bridge_up w; mk_address := true; mk_rule := mk_rule w;
  mk_tap_controller := mk_tap_controller w; mk_tap_up := mk_tap_up w |}.
Definition with_mini_rule (w : MiniKernel) : MiniKernel := {|
  mk_bridge := mk_bridge w; mk_bridge_up := mk_bridge_up w; mk_address := mk_address w; mk_rule := true;
  mk_tap_controller := mk_tap_controller w; mk_tap_up := mk_tap_up w |}.
Definition with_mini_tap (c : option N) (up : bool) (w : MiniKernel) : MiniKernel := {|
  mk_bridge := mk_bridge w; mk_bridge_up := mk_bridge_up w; mk_address := mk_address w;
  mk_rule := mk_rule w; mk_tap_controller := c; mk_tap_up := up |}.

Definition mini_failed : NetlinkError := NlCode (-1).

#[local] Instance mini_kernel : NetKernel MiniKernel := {|
  new_connection := λ w, (w, true);
  link_get := λ name w, (w,
    if bool_decide (name = mini_tap) then Some (Ok {| header_index := 2 |})
    else if bool_decide (name = mini_bridge) && mk_bridge w then Some (Ok {| header_index := 1 |})
    else Some (Err (NlCode (- ENODEV))));
  link_add_bridge := λ name w,
    if bool_decide (name = mini_bridge) && negb (mk_bridge w) then (with_mini_bridge w, Ok ())
    else (w, Err mini_failed);
  address_get := λ i w, (w,
    (if mk_address w && (i =? 1)
     then [{| msg_prefix_len := 24; msg_attributes := [AttrOther; AttrLocal (V4 default_gateway)] |}]
     else [], None));
  address_add := λ i a p w,
    if bool_decide ((i, a, p) = (1, default_gateway, 24))
    then if mk_address w then (w, Err (NlCode (- EEXIST))) else (with_mini_address w, Ok ())
    else (w, Err mini_failed);
  link_set_controller := λ i c w,
    if i =? 2 then (with_mini_tap (Some c) (mk_tap_up w) w, Ok ()) else (w, Err mini_failed);
  link_set_nocontroller := λ i w,
    if i =? 2 then (with_mini_tap None (mk_tap_up w) w, Ok ()) else (w, Err mini_failed);
  link_set_up := λ i w,
    if i =? 2 then (with_mini_tap (mk_tap_controller w) true w, Ok ()) else (w, Err mini_failed);
  get_current_ruleset := λ w, (w, Some (k_ruleset w));
  apply_ruleset := λ batch w,
    if negb (mk_rule w) && match batch with
         | [NfTable _; NfChain _; NfRule r] => bool_decide (rule_key (ListObject (NfRule r)) = Some (nat_key mini_iface))
         | _ => false
         end then (with_mini_rule w, true) else (w, false);
  spawn_dnsmasq := λ _ w, (w, Some 50);
  kill_dnsmasq := λ _ w, (w, true);
  spawn_dhcp_actor := λ _ _ w, (w, 60);
  stop_dhcp_actor := λ _ w, (w, true) |}.

Lemma mini_links w i l :
  k_links w !! i = Some l ↔
  (i = 1 ∧ mk_bridge w = true ∧
     l = {| ls_name := mini_bridge; ls_controller := None; ls_up := mk_bridge_up w |}) ∨
  (i = 2 ∧ l = {| ls_name := mini_tap; ls_controller := mk_tap_controller w; ls_up := mk_tap_up w |}).
Proof.
  unfold k_links, mini_observe. destruct (mk_bridge w).
  - rewrite lookup_union_Some by (apply map_disjoint_singleton_l_2; by rewrite lookup_singleton_ne).
    rewrite !lookup_singleton_Some. naive_solver.
  - rewrite (left_id_L ∅ (∪)), lookup_singleton_Some. naive_solver.
Qed.

Lemma mini_named w i name :
  link_named w i name ↔ (i = 1 ∧ mk_bridge w = true ∧ name = mini_bridge) ∨ (i = 2 ∧ name = mini_tap).
Proof. unfold link_named. setoid_rewrite mini_links. naive_solver. Qed.

(** The tap is the only link a setter changes. *)
Lemma mini_alter_tap (f : LinkState → LinkState) c up w :
  f {| ls_name := mini_tap; ls_controller := mk_tap_controller w; ls_up := mk_tap_up w |} =
    {| ls_name := mini_tap; ls_controller := c; ls_up := up |} →
  k_links (with_mini_tap c up w) = alter f 2 (k_links w).
Proof.
  intros Hf. apply map_eq. intros i. apply option_eq. intros l. rewrite mini_links.
  destruct (decide (i = 2)) as [->|Hi].
  - rewrite lookup_alter_eq.
    assert (k_links w !! 2 = Some {| ls_name := mini_tap; ls_controller := mk_tap_controller w;
      ls_up := mk_tap_up w |}) as -> by (apply mini_links; auto).
    cbn. rewrite Hf. naive_solver.
  - rewrite lookup_alter_ne by done. rewrite mini_links. naive_solver.
Qed.

#[local] Instance mini_laws : NetKernelLaws MiniKernel.
Proof.
  split.
  - intros w i j name. rewrite !mini_named. intros [(-> & _ & ->)|(-> & ->)] [(-> & _ & Hn)|(-> & Hn)];
      try done; vm_compute in Hn; done.
  - intros w f t c e. unfold rules, k_ruleset, mini_observe. destruct (mk_rule w); [|set_solver].
    intros Hin. vm_compute in Hin. apply list_elem_of_singleton in Hin as [= -> -> -> ->].
    split; vm_compute; set_solver.
  - done.
  - done.
  - intros name w m. cbn. destruct (bool_decide_reflect (name = mini_tap)) as [->|].
    + intros [= <-]. apply mini_named. auto.
    + destruct (bool_decide_reflect (name = mini_bridge)) as [->|], (mk_bridge w) eqn:Hb; try done.
      intros [= <-]. apply mini_named. auto.
  - intros name w i. rewrite mini_named. intros [(-> & Hb & ->)|(-> & ->)]; cbn; [|done].
    by rewrite Hb.
  - done.
  - intros i w m a. cbn. destruct (mk_address w), (N.eqb_spec i 1) as [->|]; cbn; try set_solver.
    intros ->%list_elem_of_singleton. cbn. intros [Hin|Hin]; [set_solver|].
    assert (a = default_gateway) as -> by set_solver. set_solver.
  - intros i w a p _. cbn. destruct (mk_address w); [|set_solver].
    intros [= -> -> ->]%elem_of_singleton. cbn. eexists. split; [by apply elem_of_cons; left|].
    split; [done|]. right. set_solver.
  - done.
  - intros w objects [= <-]. done.
  - done.
  - intros name w w'. cbn [link_add_bridge mini_kernel]. destruct (bool_decide_reflect (name = mini_bridge)) as [->|], (mk_bridge w) eqn:Hb;
      try done. intros [= <-]. exists 1. split; [|split_and!; [|done|done]].
    + apply eq_None_not_Some. intros [l [(_ & Hb' & _)|(? & _)]%mini_links]; [congruence|done].
    + apply map_eq. intros i. apply option_eq. intros l.
      destruct (decide (i = 1)) as [->|]; rewrite ?lookup_insert_eq, ?lookup_insert_ne by done;
        rewrite ?mini_links; cbn; naive_solver.
  - intros i a p w w'. cbn. destruct (bool_decide_reflect ((i, a, p) = (1, default_gateway, 24))) as [Heq|]; [|done].
    destruct (mk_address w) eqn:Ha; [done|]. intros [= <-]. rewrite Heq.
    split_and!; [done..|]. cbn. rewrite ?Ha. by rewrite (right_id_L ∅ (∪)).
  - intros i a p w w'. cbn. destruct (bool_decide_reflect ((i, a, p) = (1, default_gateway, 24))) as [Heq|];
      [|done]. destruct (mk_address w) eqn:Ha; [|done]. intros [= <-]. rewrite Heq. split; [done|]. cbn. rewrite ?Ha. set_solver.
  - intros i c w w'. cbn. destruct (N.eqb_spec i 2) as [->|]; [|done]. intros [= <-]. by apply mini_alter_tap.
  - intros i w w'. cbn. destruct (N.eqb_spec i 2) as [->|]; [|done]. intros [= <-]. by apply mini_alter_tap.
  - intros i w w'. cbn. destruct (N.eqb_spec i 2) as [->|]; [|done]. intros [= <-]. by apply mini_alter_tap.
  - intros batch w w'. cbn. destruct (mk_rule w) eqn:Hr; [done|]. cbn.
    destruct batch as [|[t| | |] [|[|c| |] [|[| |r|] []]]]; try done.
    destruct (bool_decide_reflect (Some (rule_family r, rule_table r, rule_chain r, rule_expr r) =
      Some (nat_key mini_iface))) as [Heq|]; [|done].
    intros [= <-]. split_and!; [done..|]. unfold rules, k_ruleset, mini_observe. rewrite ?Hr. cbn.
    by injection Heq as -> -> -> ->.
Qed.

(** ** Witnesses *)

Definition mini_config : NetworkConfig :=
  {| dhcp_config := None; network_mode := default_network_mode mini_iface |}.
Definition mini_empty : MiniKernel := {|
  mk_bridge := false; mk_bridge_up := false; mk_address := false; mk_rule := false;
  mk_tap_controller := None; mk_tap_up := false |}.
Definition mini_started : MiniKernel := (network_on_start mini_config mini_empty).1.
Definition mini_actor : NetworkAgentActor :=
  {| agent_config := mini_config; agent_common := resolve_common (network_mode mini_config);
     dhcp_actor := None |}.

Example mini_start_state : mini_started = {|
  mk_bridge := true; mk_bridge_up := true; mk_address := true; mk_rule := true;
  mk_tap_controller := None; mk_tap_up := false |}.
Proof. vm_compute. reflexivity. Qed.

Lemma network_start_idempotent_witness :
  network_on_start mini_config mini_empty = (mini_started, Ok mini_actor) ∧
  same_kernel mini_started (network_on_start mini_config mini_started).1.
Proof.
  assert (Hs : network_on_start mini_config mini_empty = (mini_started, Ok mini_actor)) by
    (vm_compute; reflexivity).
  split; [exact Hs|].
  exact (proj2 (proj2 (network_start_idempotent mini_config mini_empty mini_started mini_actor Hs))).
Defined.

(** A bridge that exists but is down stays down. *)
Example bridge_left_down :
  let w := {| mk_bridge := true; mk_bridge_up := false; mk_address := false; mk_rule := false;
              mk_tap_controller := None; mk_tap_up := false |} in
  mk_bridge_up (network_on_start mini_config w).1 = false ∧
  is_ok (network_on_start mini_config w).2 = true.
Proof. vm_compute. done. Qed.

(** A node whose hypervisor accepts every request. *)
Definition idle_node {W} : Hypervisor W := {|
  vmm_ping_get := λ _ w, (w, Ok ());
  vm_info_get := λ _ w, (w, Ok {| info_vm_config := default_vm_config; info_state := VmRunning |});
  create_vm := λ _ _ w, (w, Ok ());
  boot_vm := λ _ w, (w, Ok ());
  shutdown_vm := λ _ w, (w, Ok ());
  shutdown_vmm := λ _ w, (w, Ok ());
  delete_vm := λ _ w, (w, Ok ());
  send_migration_put := λ _ _ _ w, (w, Ok ());
  receive_migration_put := λ _ _ w, (w, Ok ());
  pause_vm := λ _ w, (w, Ok ());
  resume_vm := λ _ w, (w, Ok ());
  pick_port := λ w, (w, Ok 49152);
  spawn_process := λ _ w, (w, Ok 42);
  kill_and_wait := λ _ w, (w, Ok ());
  fs_exists := λ _ w, (w, Ok false);
  create_dir_all := λ _ w, (w, Ok ());
  remove_dir_all := λ _ w, (w, Ok ());
  remove_file := λ _ w, (w, Ok ());
  network_actor_lookup := λ w, (w, Ok true);
  attach_tap := λ _ _ w, (w, Ok ());
  detach_tap := λ _ _ w, (w, Ok ()) |}.

Definition mini_info : VmInfo := {|
  info_vm_config := set_net (Some [{| net_id := Some (lit "net://devnet"); net_tap := Some mini_tap;
                                      net_mac := None |}]) default_vm_config;
  info_state := VmRunning |}.
Definition mini_ulid (s : rstring) : option N := Some 7.
Definition mini_plugged : MiniKernel :=
  (hooks_after_boot (default_hooks (H := with_network mini_actor idle_node) mini_ulid)
     (lit "vm7") mini_info mini_started).1.

(** The tap of the VM is plugged into the bridge, then unplugged. *)
Lemma hooks_plug_taps_witness :
  attached mini_plugged mini_tap mini_bridge ∧
  detached (hooks_before_stop (default_hooks (H := with_network mini_actor idle_node) mini_ulid)
    (lit "vm7") mini_info mini_plugged).1 mini_tap.
Proof.
  destruct (hooks_plug_taps mini_actor idle_node mini_ulid (lit "vm7") mini_info mini_started mini_plugged)
    as [Hboot _].
  destruct (hooks_plug_taps mini_actor idle_node mini_ulid (lit "vm7") mini_info mini_plugged
    (hooks_before_stop (default_hooks (H := with_network mini_actor idle_node) mini_ulid)
       (lit "vm7") mini_info mini_plugged).1) as [_ Hstop].
  split.
  - refine (proj2 (Hboot _) mini_tap _); [vm_compute; reflexivity|]. vm_compute. by left.
  - refine (proj2 (Hstop _) mini_tap _); [vm_compute; reflexivity|]. vm_compute. by left.
Defined.
