(* ===== verification/VmActor.v ===== *)
(** * The VM actor

    [VMActor] of [odorobo/src/ch_driver/actor.rs]: start and stop, the serial
    console, VM information, and the receiving side of a migration. The tasks
    a handler spawns are returned as effects. *)

From S2P Require Import Prelude RustString RustFloat Manifest Messages Console ChConfig.
From S2P Require Import Transform VmInstance.
Open Scope N_scope.

Record MigrationState := {
  migration_listening_address : rstring;
  migration_config : VmConfig;
  migration_task : option rstring }.

Record VMActor := {
  actor_vmid : Ulid;
  vm_instance : VMInstance;
  migration_state : option MigrationState;
  vm_console : Console;
  vm_manifest : option VmManifest }.

(** Tasks spawned by a handler, and requests to the actor runtime. *)
Inductive VmEffect :=
| WatchChild (child : N)
| AttachConsoleUntilReady (socket : rstring)
| TellPrepMigration (vmid : Ulid) (config : VmManifest)
| ReceiveMigration (address : rstring)
| NotifyMigrationFinished (address : rstring)
| StopGracefully.

Definition set_instance (i : VMInstance) (a : VMActor) : VMActor := {|
  actor_vmid := actor_vmid a; vm_instance := i; migration_state := migration_state a;
  vm_console := vm_console a; vm_manifest := vm_manifest a |}.
Definition set_migration (m : option MigrationState) (a : VMActor) : VMActor := {|
  actor_vmid := actor_vmid a; vm_instance := vm_instance a; migration_state := m;
  vm_console := vm_console a; vm_manifest := vm_manifest a |}.
Definition set_vm_console (c : Console) (a : VMActor) : VMActor := {|
  actor_vmid := actor_vmid a; vm_instance := vm_instance a; migration_state := migration_state a;
  vm_console := c; vm_manifest := vm_manifest a |}.

Section actor.
(** [Ulid::to_string] and [Ulid::from_string] of the [ulid] library. *)
Context {W : Type} `{Hypervisor W} (ulid_to_string : Ulid → rstring)
  (ulid_from_string : rstring → option Ulid) (env : option rstring) (transformer : ConfigTransform W).

Definition lift_convert {A} (r : result ConvertError A) : result VmError A :=
  match r with Ok a => Ok a | Err e => Err (NotConvertible e) end.

(** [vm_config.as_ref().map(to_vm_config).transpose()]. *)
Definition convert_config (config : option VmManifest) : result VmError (option VmConfig) :=
  match config with
  | None => Ok None
  | Some m => lift_convert (Some <$> to_vm_config m)
  end.

(** [connected] is the outcome of connecting to the console socket. *)
Definition vm_on_start (connected : bool) (vmid : Ulid) (config : option VmManifest) (w : W) :
    W * result VmError (VMActor * list VmEffect) :=
  let boot_it := match config with Some m => boot_start (Manifest.boot (desired m)) | None => false end in
  match convert_config config with
  | Err e => (w, Err e)
  | Ok vm_config_for_ch =>
      match spawn ulid_from_string env transformer (ulid_to_string vmid) vm_config_for_ch boot_it w with
      | (w, Err e) => (w, Err e)
      | (w, Ok instance) =>
          let '(console, attached) :=
            match config with
            | Some _ => attach_socket default_console connected
            | None => (default_console, Ok false)
            end in
          match attached with
          | Err _ => (w, Err ConsoleAttachFailed)
          | Ok _ =>
              let '(instance, child) := take_child_process instance in
              (w, Ok ({| actor_vmid := vmid; vm_instance := instance; migration_state := None;
                         vm_console := console; vm_manifest := config |},
                      WatchChild <$> option_list child))
          end
      end
  end.

Definition vm_on_stop (a : VMActor) (w : W) : W * VMActor * result VmError () :=
  let '(w, i, r) := destroy ulid_from_string env transformer (vm_instance a) w in
  (w, set_instance i a, r).

Definition vm_console_history (a : VMActor) : list N := history (inner (vm_console a)).

Definition vm_send_console_input (a : VMActor) (written : result nat ()) (input : list N) :
    VMActor * (N * option ConsoleError) :=
  match write_input (vm_console a) written input with
  | (c, Ok ()) => (set_vm_console c a, (vec_len input, None))
  | (c, Err e) => (set_vm_console c a, (0, Some e))
  end.

Definition vm_get_info (a : VMActor) : GetVMInfoReply :=
  {| info_vmid := actor_vmid a; info_config := vm_manifest a |}.

Definition vm_heartbeat (a : VMActor) : Ulid := actor_vmid a.

(** [render] is [Display] of the error. *)
Definition vm_migrate_receive (render : VmError → rstring) (a : VMActor) (config : VmManifest) (w : W) :
    W * VMActor * MigrateVMReceiveReply * list VmEffect :=
  match migration_state a with
  | Some st =>
      (w, a, {| listening_address := migration_listening_address st; migrate_error := None |}, [])
  | None =>
      match lift_convert (to_vm_config config) with
      | Err e => (w, a, {| listening_address := []; migrate_error := Some (render e) |}, [])
      | Ok ch_config =>
          match receive_migration (W := W) (vm_instance a) w with
          | (w, Err e) => (w, a, {| listening_address := []; migrate_error := Some (render e) |}, [])
          | (w, Ok address) =>
              (* The task is stored and taken out again in the same handler. *)
              let a := set_migration (Some {| migration_listening_address := address;
                                              migration_config := ch_config;
                                              migration_task := None |}) a in
              (w, a, {| listening_address := address; migrate_error := None |},
               [ReceiveMigration address;
                AttachConsoleUntilReady (console_socket_path env (instance_id (vm_instance a)));
                TellPrepMigration (actor_vmid a) config;
                NotifyMigrationFinished address])
          end
      end
  end.

Definition vm_migration_finished (a : VMActor) : VMActor := set_migration None a.

(** Failures are logged. *)
Definition vm_prep_migration (a : VMActor) (config : VmManifest) (w : W) : W * VMActor :=
  match to_vm_config config with
  | Err _ => (w, a)
  | Ok ch_config =>
      let '(w, i, _) := prep_config ulid_from_string transformer (vm_instance a) ch_config w in (w, set_instance i a)
  end.

Definition vm_shutdown : list VmEffect := [StopGracefully].
Definition vm_delete : list VmEffect := [StopGracefully].
End actor.

(** ** Properties of instances *)

Lemma contains_spec s sub : contains s sub = true ↔ ∃ k l, s = k ++ sub ++ l.
Proof.
  induction s as [|c s IH]; cbn; rewrite orb_true_iff, starts_with_spec.
  - split.
    + intros [[l Hl]|?]; [|done]. by exists [], l.
    + intros (k & l & Heq). destruct k; [|done]. left. by exists l.
  - rewrite IH. split.
    + intros [[l Hl]|(k & l & ->)]; [by exists [], l|by exists (c :: k), l].
    + intros ([|x k] & l & Heq); [left; by exists l|right]. cbn in Heq. injection Heq as -> ->. by exists k, l.
Qed.

Lemma contains_char s c : contains s [c] = true ↔ c ∈ s.
Proof.
  rewrite contains_spec. split; [intros (k & l & ->); set_solver|].
  intros (k & l & ->)%list_elem_of_split. by exists k, l.
Qed.

Lemma last_app_cons {A} (l k : list A) x : last (l ++ x :: k) = last (x :: k).
Proof. rewrite last_app. by destruct (last (x :: k)) eqn:E; [|apply last_None in E]. Qed.

Lemma runtime_root_last env : last (runtime_root env) = Some 115.
Proof.
  unfold runtime_root, path_join. change (is_absolute VMS_DIR_NAME) with false. cbv iota.
  destruct (last (configured_runtime_root env)) as [c|] eqn:Hl; [|done].
  destruct (c =? 47); [exact (last_app_cons _ _ _)|]. rewrite last_app_cons. done.
Qed.

(** A validated VM id names a direct child of the runtime root: the
    runtime directory is the root, a slash and the id, and its last component is
    the id itself, so no id can escape the directory or name another VM's. *)
Theorem validate_vmid_confines env id :
  validate_vmid id = Ok () →
  runtime_dir_for env id = runtime_root env ++ 47 :: id ∧ file_name (runtime_dir_for env id) = Some id.
Proof.
  unfold validate_vmid. destruct (is_empty id) eqn:He; [done|].
  destruct (contains id (lit "..")) eqn:Hd; [done|].
  destruct (contains id (lit "/") || contains id [92]) eqn:Hs; [done|].
  destruct (starts_with id (lit ".")) eqn:Hdot; [done|]. intros _.
  apply orb_false_iff in Hs as [Hs _]. apply not_true_iff_false in Hs.
  change (lit "/") with [47] in Hs. rewrite contains_char in Hs.
  assert (runtime_dir_for env id = runtime_root env ++ 47 :: id) as Hdir.
  { unfold runtime_dir_for, path_join.
    assert (is_absolute id = false) as ->.
    { destruct id as [|c id]; [done|]. cbn. apply N.eqb_neq. set_solver. }
    by rewrite runtime_root_last. }
  split; [done|]. rewrite Hdir. apply file_name_last; [done| | |].
  - by intros ->.
  - intros ->. done.
  - intros ->. done.
Qed.

Section instance_facts.
Context {W : Type} `{Hypervisor W} (ulid_from_string : rstring → option N)
  (env : option rstring) (transformer : ConfigTransform W).

Lemma create_config_child i config b w :
  child_process (create_config ulid_from_string transformer i config b w).1.2 = child_process i.
Proof.
  unfold create_config. destruct (transform transformer _ _ w) as [[c w1] [[]|]]; [|done].
  destruct (create_vm _ _ w1) as [w2 [[]|]]; [|done]. destruct b; [|done].
  by destruct (boot _ _ w2) as [w3 [[]|]].
Qed.

(** A start that fails ends by killing the hypervisor process; one that
    succeeds holds it. *)
Lemma await_socket_child attempts i config b w child :
  child_process i = Some child →
  match await_socket ulid_from_string transformer attempts i config b w with
  | (_, Ok i') => child_process i' = Some child
  | (w', Err _) => ∃ w1, w' = (kill_and_wait child w1).1
  end.
Proof.
  intros Hc. revert w. induction attempts as [|attempts IH]; intros w; cbn [await_socket].
  - unfold stop_child_after_failed_start. rewrite Hc. cbn. unfold mbind, nodem_bind, attempt.
    destruct (kill_and_wait child w) eqn:Hk. cbn. exists w. by rewrite Hk.
  - destruct (vmm_ping_get _ w) as [w1 [[]|]]; [|apply IH]. destruct config as [config|]; [|done].
    pose proof (create_config_child i config b w1) as Hcc.
    destruct (create_config _ _ i config b w1) as [[w2 i2] [[]|e]]; cbn in Hcc; [congruence|].
    unfold stop_child_after_failed_start. rewrite Hcc, Hc. cbn. unfold mbind, nodem_bind, attempt.
    destruct (kill_and_wait child w2) eqn:Hk. cbn. exists w2. by rewrite Hk.
Qed.

(** No hook runs code after a stop. *)
Lemma default_after_stop id c (w : W) :
  hooks_after_stop (default_hooks ulid_from_string) id c w = (w, Ok ()).
Proof. done. Qed.

(** [destroy] once the VM is stopped. *)
Lemma destroy_cleanup i w :
  destroy ulid_from_string env transformer i w =
  match stop_vm ulid_from_string i w with
  | (w1, Err e) => (w1, i, Err e)
  | (w1, Ok _) =>
      let w2 := (shutdown_vmm (ch_socket_path i) w1).1 in
      let w3 := match child_process i with Some child => (kill_and_wait child w2).1 | None => w2 end in
      let '(w4, i4, _) := purge_instance_data env transformer (set_child None i) w3 in (w4, i4, Ok ())
  end.
Proof.
  unfold destroy. destruct (stop_vm ulid_from_string i w) as [w1 [[]|e]]; [|done].
  unfold attempt. destruct (shutdown_vmm _ w1) as [w2 r2]. cbn [take_child_process fst snd].
  by destruct (child_process i) as [child|]; [destruct (kill_and_wait child w2) as [w3 r3]|];
    rewrite default_after_stop.
Qed.

Lemma purge_forgets i w :
  (purge_instance_data env transformer i w).1.2 = set_vm_config None i.
Proof.
  unfold purge_instance_data. cbn. destruct (teardown transformer _ _ w) as [[c w1] [[]|]]; [|done].
  unfold mbind, nodem_bind. destruct (fs_exists _ w1) as [w2 [e|]]; [|done].
  destruct e; [by destruct (remove_dir_all _ w2)|done].
Qed.
End instance_facts.

(** C36. A failed start leaves no hypervisor process behind: once the process
    was spawned, a start that fails (the socket never answers within 31
    attempts, or creating or booting the VM fails) ends with killing and
    reaping that process, and a start that succeeds owns it. *)
Theorem spawn_owns_or_kills {W} `{Hypervisor W} ulid_from_string env (transformer : ConfigTransform W)
    id config b w w1 w2 child :
  (fs_exists (runtime_dir_for env id) ≫= λ e : bool,
     if e then mret () else create_dir_all (runtime_dir_for env id)) w = (w1, Ok ()) →
  spawn_process (path_join (runtime_dir_for env id) SOCKET_FILE_NAME) w1 = (w2, Ok child) →
  match spawn ulid_from_string env transformer id config b w with
  | (_, Ok i) => child_process i = Some child
  | (w', Err _) => ∃ w3, w' = (kill_and_wait child w3).1
  end.
Proof.
  intros Hdir Hsp. unfold spawn. unfold mbind, nodem_bind in *.
  destruct (fs_exists _ w) as [w0 [e|]]; [|done]. rewrite Hdir, Hsp.
  by apply (await_socket_child ulid_from_string transformer).
Qed.

(** ** What destroying an instance asks of the node

    A node that records the calls it answers, with the answers. *)

Inductive Call :=
| CInfo (socket : rstring) (r : result VmError VmInfo)
| CLookup (r : result VmError bool)
| CDetach (ulid : N) (tap : rstring) (r : result VmError ())
| CShutdownVm (socket : rstring) (r : result VmError ())
| CShutdownVmm (socket : rstring) (r : result VmError ())
| CKill (child : N) (r : result VmError ())
| CTeardown (id : rstring) (config : VmConfig) (r : result TransformError ())
| CExists (path : rstring) (r : result VmError bool)
| CRemoveDir (path : rstring) (r : result VmError ())
| COther.

Record Recorded (W : Type) := { rec_state : W; rec_calls : list Call }.
Arguments rec_state {W}.
Arguments rec_calls {W}.
Arguments Build_Recorded {W}.

Definition record {W A} (call : result VmError A → Call) (m : NodeM W A) : NodeM (Recorded W) A := λ w,
  let '(s, r) := m (rec_state w) in (Build_Recorded s (rec_calls w ++ [call r]), r).
Definition other {W A} : NodeM W A → NodeM (Recorded W) A := record (λ _, COther).

#[export] Instance recorded_node {W} `{Hypervisor W} : Hypervisor (Recorded W) := {|
  vmm_ping_get socket := other (vmm_ping_get socket);
  vm_info_get socket := record (CInfo socket) (vm_info_get socket);
  create_vm socket config := other (create_vm socket config);
  boot_vm socket := other (boot_vm socket);
  shutdown_vm socket := record (CShutdownVm socket) (shutdown_vm socket);
  shutdown_vmm socket := record (CShutdownVmm socket) (shutdown_vmm socket);
  delete_vm socket := other (delete_vm socket);
  send_migration_put socket dest local := other (send_migration_put socket dest local);
  receive_migration_put socket uri := other (receive_migration_put socket uri);
  pause_vm socket := other (pause_vm socket);
  resume_vm socket := other (resume_vm socket);
  pick_port := other pick_port;
  spawn_process socket := other (spawn_process socket);
  kill_and_wait child := record (CKill child) (kill_and_wait child);
  fs_exists path := record (CExists path) (fs_exists path);
  create_dir_all path := other (create_dir_all path);
  remove_dir_all path := record (CRemoveDir path) (remove_dir_all path);
  remove_file path := other (remove_file path);
  network_actor_lookup := record CLookup network_actor_lookup;
  attach_tap ulid tap := other (attach_tap ulid tap);
  detach_tap ulid tap := record (CDetach ulid tap) (detach_tap ulid tap) |}.

Definition recorded_transform {W} (t : ConfigTransform W) : ConfigTransform (Recorded W) := {|
  transform id c w :=
    let '(c', s, r) := transform t id c (rec_state w) in
    (c', Build_Recorded s (rec_calls w ++ [COther]), r);
  teardown id c w :=
    let '(c', s, r) := teardown t id c (rec_state w) in
    (c', Build_Recorded s (rec_calls w ++ [CTeardown id c r]), r) |}.

(** The error a call was answered with. *)
Definition call_error (c : Call) : option VmError :=
  match c with
  | CInfo _ (Err e) | CLookup (Err e) | CDetach _ _ (Err e) | CShutdownVm _ (Err e)
  | CShutdownVmm _ (Err e) | CKill _ (Err e) | CExists _ (Err e) | CRemoveDir _ (Err e) => Some e
  | CTeardown _ _ (Err e) => Some (TransformFailed e)
  | _ => None
  end.
Definition detached (cs : list Call) : list rstring :=
  omap (λ c, match c with CDetach _ tap (Ok _) => Some tap | _ => None end) cs.
Definition shuts_down (c : Call) : bool := match c with CShutdownVm _ _ => true | _ => false end.

(** The calls that may be made while the VM is stopped. *)
Definition stopping_call (socket : rstring) (c : Call) : Prop :=
  match c with
  | CInfo s _ | CShutdownVm s _ => s = socket
  | CLookup _ | CDetach _ _ _ => True
  | _ => False
  end.

(** Calls of which the last failed. *)
Definition fails_with (cs : list Call) (e : VmError) : Prop :=
  ∃ done c, cs = done ++ [c] ∧ Forall (λ c, call_error c = None) done ∧ call_error c = Some e.

(** The calls of a stop that failed: the state was given, TAP devices were
    detached in order up to the failure. *)
Definition stop_failed (socket : rstring) (ulid : option N) (cs : list Call) (e : VmError) : Prop :=
  ∃ info rest, cs = CInfo socket (Ok info) :: rest ∧ detached rest `prefix_of` tap_names info ∧
    ((e = InvalidVmid ∧ ulid = None ∧ rest = []) ∨
     (e = NetworkActorMissing ∧ rest = [CLookup (Ok false)]) ∨ fails_with rest e).

(** The calls that stop a VM: its state is asked for, then, if it was given, the
    managed TAP devices are detached in order, and a running or paused VM is
    shut down. All but the first succeed. *)
Definition stopped (socket : rstring) (cs : list Call) : Prop :=
  ∃ r rest, cs = CInfo socket r :: rest ∧ Forall (λ c, call_error c = None) rest ∧
    match r with
    | Err _ => rest = []
    | Ok info => detached rest = tap_names info ∧
        filter (λ c, shuts_down c = true) rest =
          match info_state info with
          | VmRunning | Paused => [CShutdownVm socket (Ok ())]
          | Created | Shutdown => []
          end
    end.

(** The calls that clean up. The VMM is shut down, the child process killed and
    the transforms are torn down, each whatever the others answered; the
    runtime directory is removed if the teardown succeeded and it exists. *)
Definition cleaned (i : VMInstance) (dir : rstring) (cs : list Call) : Prop :=
  ∃ r1 r2 r3 tail,
    cs = [CShutdownVmm (ch_socket_path i) r1] ++
         ((λ child, CKill child r2) <$> option_list (child_process i)) ++
         [CTeardown (instance_id i) (default default_vm_config (vm_config i)) r3] ++ tail ∧
    match r3 with
    | Err _ => tail = []
    | Ok () => ∃ r, (tail = [CExists dir r] ∧ r ≠ Ok true) ∨
                    (r = Ok true ∧ ∃ r', tail = [CExists dir r; CRemoveDir dir r'])
    end.

Section destroy.
Context {W : Type} `{Hypervisor W} (ulid_from_string : rstring → option N)
  (env : option rstring) (t : ConfigTransform W).
Implicit Types w : Recorded W.

(** What is recorded is what the node itself does. *)
Definition erases {A} (m : NodeM W A) (m' : NodeM (Recorded W) A) : Prop :=
  ∀ w, m (rec_state w) = (rec_state (m' w).1, (m' w).2).

Lemma erases_record {A} call (m : NodeM W A) : erases m (record call m).
Proof. intros w. unfold record. by destruct (m (rec_state w)). Qed.
Lemma erases_ret {A} (a : A) : erases (mret a) (mret a).
Proof. done. Qed.
Lemma erases_throw {A} e : erases (throw (A := A) e) (throw e).
Proof. done. Qed.
Lemma erases_attempt {A} (m : NodeM W A) m' : erases m m' → erases (attempt m) (attempt m').
Proof. intros Hm w. unfold attempt. rewrite (Hm w). by destruct (m' w). Qed.
Lemma erases_bind {A B} (m : NodeM W A) m' (f : A → NodeM W B) f' :
  erases m m' → (∀ a, erases (f a) (f' a)) → erases (m ≫= f) (m' ≫= f').
Proof.
  intros Hm Hf w. unfold mbind, nodem_bind. rewrite (Hm w). destruct (m' w) as [w1 [a|e]]; [|done].
  apply Hf.
Qed.
Lemma erases_for_each {A} (f : A → NodeM W ()) f' xs :
  (∀ x, erases (f x) (f' x)) → erases (for_each f xs) (for_each f' xs).
Proof. intros Hf. induction xs; [apply erases_ret|]. cbn. by apply erases_bind. Qed.

Lemma with_taps_erases f f' id info :
  (∀ ulid tap, erases (f ulid tap) (f' ulid tap)) →
  erases (with_taps ulid_from_string f id info) (with_taps ulid_from_string f' id info).
Proof.
  intros Hf. unfold with_taps. destruct (ulid_from_string id); [|apply erases_throw].
  destruct (tap_names info) as [|tap taps]; [apply erases_ret|].
  apply erases_bind; [apply erases_record|]. intros []; [|apply erases_throw]. by apply erases_for_each.
Qed.

Lemma stop_vm_erases i : erases (stop_vm ulid_from_string i) (stop_vm ulid_from_string i).
Proof.
  unfold stop_vm. apply erases_bind; [apply erases_attempt, erases_record|]. intros [info|e]; [|done].
  apply erases_bind; [|intros _; by destruct (info_state info); try apply erases_record].
  cbn. apply erases_bind; [|done]. apply with_taps_erases. intros. apply erases_record.
Qed.

Lemma purge_erases i w :
  let '(w', i', r) := purge_instance_data env (recorded_transform t) i w in
  purge_instance_data env t i (rec_state w) = (rec_state w', i', r).
Proof.
  unfold purge_instance_data. cbn [teardown recorded_transform instance_id set_vm_config].
  destruct (teardown t _ _ (rec_state w)) as [[c s] [[]|e]]; [|done].
  match goal with |- context [(?m ≫= ?f) (Build_Recorded s ?cs)] =>
    pose proof (erases_bind (fs_exists (runtime_dir_for env (instance_id i))) m
      (λ e : bool, if e then remove_dir_all (runtime_dir_for env (instance_id i)) else mret ()) f
      (erases_record _ _) (λ e, ltac:(destruct e; [apply erases_record|done])) (Build_Recorded s cs)) as He;
    destruct ((m ≫= f) (Build_Recorded s cs)) as [w' r]
  end.
  cbn in He. by rewrite He.
Qed.

Lemma destroy_erases i w :
  let '(w', i', r) := destroy ulid_from_string env (recorded_transform t) i w in
  destroy ulid_from_string env t i (rec_state w) = (rec_state w', i', r).
Proof.
  rewrite !destroy_cleanup, (stop_vm_erases i w).
  destruct (stop_vm ulid_from_string i w) as [w1 [[]|e]]; cbn [fst snd]; [|done]. cbv zeta.
  assert (rec_state (shutdown_vmm (ch_socket_path i) w1).1 =
    (shutdown_vmm (ch_socket_path i) (rec_state w1)).1) as H2.
  { cbn [shutdown_vmm recorded_node]. by rewrite (erases_record (CShutdownVmm (ch_socket_path i)) _ w1). }
  rewrite <-H2. set (w2 := (shutdown_vmm _ w1).1). clearbody w2.
  assert (rec_state match child_process i with Some child => (kill_and_wait child w2).1 | None => w2 end =
    match child_process i with
    | Some child => (kill_and_wait child (rec_state w2)).1 | None => rec_state w2 end) as H3.
  { destruct (child_process i) as [child|]; [|done]. cbn [kill_and_wait recorded_node].
    by rewrite (erases_record (CKill child) _ w2). }
  rewrite <-H3. set (w3 := match child_process i with Some child => _ | None => w2 end). clearbody w3.
  pose proof (purge_erases (set_child None i) w3) as Hp.
  destruct (purge_instance_data env (recorded_transform t) _ _) as [[w' i'] r]. by rewrite Hp.
Qed.

(** The calls of a computation. *)
Definition calls_of {A} (m : NodeM (Recorded W) A) w (cs : list Call) : Prop :=
  rec_calls (m w).1 = rec_calls w ++ cs.

Lemma fails_with_cons c cs e : call_error c = None → fails_with cs e → fails_with (c :: cs) e.
Proof.
  intros Hc (d & x & -> & Hd & Hx). exists (c :: d), x. split_and!; [done|by constructor|done].
Qed.

(** A call that neither shuts the VM down nor leaves the stop. *)
Definition quiet_call (socket : rstring) (c : Call) : Prop :=
  stopping_call socket c ∧ shuts_down c = false.

Lemma detach_calls socket ulid taps w :
  ∃ cs, calls_of (for_each (detach_tap ulid) taps) w cs ∧ Forall (quiet_call socket) cs ∧
    match (for_each (detach_tap ulid) taps w).2 with
    | Ok _ => detached cs = taps ∧ Forall (λ c, call_error c = None) cs
    | Err e => detached cs `prefix_of` taps ∧ fails_with cs e
    end.
Proof.
  unfold calls_of. revert w. induction taps as [|tap taps IH]; intros w; cbn [for_each].
  { exists []. cbn. rewrite app_nil_r. split_and!; [done|constructor|done|constructor]. }
  unfold mbind, nodem_bind. change (detach_tap ulid tap w) with (record (CDetach ulid tap) (detach_tap ulid tap) w).
  unfold record. destruct (detach_tap ulid tap (rec_state w)) as [s [[]|e]]; cbn [fst snd rec_calls].
  - destruct (IH (Build_Recorded s (rec_calls w ++ [CDetach ulid tap (Ok ())]))) as (cs & Hc & Hs & Hr).
    exists (CDetach ulid tap (Ok ()) :: cs). cbn [rec_calls] in Hc. rewrite Hc, <-(assoc_L (++)).
    split; [done|]. split; [by constructor|].
    destruct (for_each _ taps _) as [w' [[]|e]]; cbn [snd] in *.
    + destruct Hr as [<- Hr]. split; [done|by constructor].
    + destruct Hr as [Hp Hf]. split; [by apply prefix_cons|by apply fails_with_cons].
  - exists [CDetach ulid tap (Err e)]. split_and!; [done|by repeat constructor|apply prefix_nil|].
    exists [], (CDetach ulid tap (Err e)). split_and!; [done|constructor|done].
Qed.

Lemma before_stop_calls socket id info w :
  let m := hooks_before_stop (default_hooks ulid_from_string) id info in
  ∃ cs, calls_of m w cs ∧ Forall (quiet_call socket) cs ∧
    match (m w).2 with
    | Ok _ => detached cs = tap_names info ∧ Forall (λ c, call_error c = None) cs
    | Err e => stop_failed socket (ulid_from_string id) (CInfo socket (Ok info) :: cs) e
    end.
Proof.
  cbv zeta. unfold calls_of. cbn [hooks_before_stop default_hooks for_each network_hook before_stop].
  unfold mbind at 1 2, nodem_bind at 1 2. unfold with_taps.
  assert (∀ cs e, detached cs `prefix_of` tap_names info →
    ((e = InvalidVmid ∧ ulid_from_string id = None ∧ cs = []) ∨
     (e = NetworkActorMissing ∧ cs = [CLookup (Ok false)]) ∨ fails_with cs e) →
    stop_failed socket (ulid_from_string id) (CInfo socket (Ok info) :: cs) e) as Hfail.
  { intros cs e Hp Hr. by exists info, cs. }
  destruct (ulid_from_string id) as [ulid|].
  2: { exists []. rewrite app_nil_r. cbn. split; [done|]. split; [constructor|].
       apply Hfail; [apply prefix_nil|by left]. }
  destruct (tap_names info) as [|tap taps].
  { exists []. rewrite app_nil_r. cbn. split; [done|]. split; [constructor|]. by split; [|constructor]. }
  unfold mbind, nodem_bind. change (network_actor_lookup w) with (record CLookup network_actor_lookup w).
  unfold record. destruct (network_actor_lookup (rec_state w)) as [s [[]|e]].
  - destruct (detach_calls socket ulid (tap :: taps) (Build_Recorded s (rec_calls w ++ [CLookup (Ok true)])))
      as (cs & Hc & Hs & Hr). unfold calls_of in Hc. cbn [rec_calls] in Hc.
    exists (CLookup (Ok true) :: cs). destruct (for_each (detach_tap ulid) (tap :: taps) _) as [w' [[]|e]];
      cbn [fst snd mret nodem_ret] in *; rewrite Hc, <-(assoc_L (++)); (split; [done|]); (split; [by constructor|]).
    + destruct Hr as [Hr He]. split; [done|by constructor].
    + destruct Hr as [Hp Hf]. apply Hfail; [done|]. do 2 right. by apply fails_with_cons.
  - exists [CLookup (Ok false)]. split_and!; [done|by repeat constructor|].
    apply Hfail; [apply prefix_nil|by right; left].
  - exists [CLookup (Err e)]. split_and!; [done|by repeat constructor|].
    apply Hfail; [apply prefix_nil|]. do 2 right. exists [], (CLookup (Err e)).
    split_and!; [done|constructor|done].
Qed.

(** The call that shuts down a VM in this state. *)
Definition shutdown_call (socket : rstring) (state : VmState) : list Call :=
  match state with
  | VmRunning | Paused => [CShutdownVm socket (Ok ())]
  | Created | Shutdown => []
  end.

Lemma stopped_intro socket info cs :
  detached cs = tap_names info → Forall (λ c, call_error c = None) cs →
  Forall (quiet_call socket) cs →
  stopped socket (CInfo socket (Ok info) :: cs ++ shutdown_call socket (info_state info)).
Proof.
  intros Hd Hok Hs. exists (Ok info), (cs ++ shutdown_call socket (info_state info)).
  assert (filter (λ c, shuts_down c = true) cs = []) as Hn.
  { apply filter_none. eapply Forall_impl; [exact Hs|]. by intros c [_ ->]. }
  split; [done|]. rewrite filter_app, Hn, Forall_app. unfold detached in *. rewrite omap_app, Hd.
  destruct (info_state info); cbn; rewrite app_nil_r; split_and!; try done; by repeat constructor.
Qed.

(** Shutting the VM down, if it is running or paused. *)
Lemma shutdown_calls socket state w :
  let m := match state with VmRunning | Paused => shutdown_vm socket | Created | Shutdown => mret () end in
  ∃ cs, calls_of m w cs ∧
    match (m w).2 with
    | Ok _ => cs = shutdown_call socket state
    | Err e => cs = [CShutdownVm socket (Err e)]
    end.
Proof.
  assert (∃ cs, calls_of (shutdown_vm socket) w cs ∧
    match (shutdown_vm socket w).2 with
    | Ok _ => cs = [CShutdownVm socket (Ok ())]
    | Err e => cs = [CShutdownVm socket (Err e)]
    end) as Hrun.
  { unfold calls_of. change (shutdown_vm socket w) with (record (CShutdownVm socket) (shutdown_vm socket) w).
    unfold record. destruct (shutdown_vm socket (rec_state w)) as [s [[]|e]]; cbn [fst snd rec_calls];
      eexists; (split; [done|]); done. }
  destruct state; [exists []|exact Hrun|exists []|exact Hrun]; unfold calls_of; cbn; by rewrite app_nil_r.
Qed.

Lemma quiet_stopping socket cs : Forall (quiet_call socket) cs → Forall (stopping_call socket) cs.
Proof. intros Hq. eapply Forall_impl; [exact Hq|]. by intros c []. Qed.

Lemma stop_vm_calls i w :
  ∃ cs, calls_of (stop_vm ulid_from_string i) w cs ∧ Forall (stopping_call (ch_socket_path i)) cs ∧
    match (stop_vm ulid_from_string i w).2 with
    | Ok _ => stopped (ch_socket_path i) cs
    | Err e => stop_failed (ch_socket_path i) (ulid_from_string (instance_id i)) cs e
    end.
Proof.
  unfold calls_of. destruct (stop_vm ulid_from_string i w) as [w' r] eqn:Hx. cbn [fst snd].
  revert Hx. set (socket := ch_socket_path i). unfold stop_vm, attempt, mbind, nodem_bind. fold socket.
  change (vm_info_get socket w) with (record (CInfo socket) (vm_info_get socket) w). unfold record.
  destruct (vm_info_get _ (rec_state w)) as [s [info|e]].
  2: { intros [= <- <-]. exists [CInfo socket (Err e)]. split_and!; [done|by repeat constructor|].
       exists (Err e), []. split_and!; [done|constructor|done]. }
  set (w1 := Build_Recorded s _).
  destruct (before_stop_calls socket (instance_id i) info w1) as (cs & Hc & Hs & Hr).
  unfold calls_of in Hc. pose proof (quiet_stopping _ _ Hs) as Hq.
  destruct (hooks_before_stop _ (instance_id i) info w1) as [w2 [[]|e]]; cbn [fst snd] in Hc, Hr |- *.
  2: { intros [= <- <-]. exists (CInfo socket (Ok info) :: cs). rewrite Hc. unfold w1. cbn [rec_calls].
       rewrite <-(assoc_L (++)). split_and!; [done|by constructor|done]. }
  destruct (shutdown_calls socket (info_state info) w2) as (cs' & Hc' & Hr'). unfold calls_of in Hc'.
  intros Hx. rewrite Hx in Hc', Hr'. cbn [fst snd] in Hc', Hr'.
  destruct Hr as [Hd Hok]. exists (CInfo socket (Ok info) :: cs ++ cs').
  rewrite Hc', Hc. unfold w1. cbn [rec_calls]. rewrite <-!(assoc_L (++)). split; [done|].
  destruct r as [[]|e]; subst cs'; (split; [constructor; [done|]; apply Forall_app; split; [done|]|]).
  - by destruct (info_state info); repeat constructor.
  - by apply stopped_intro.
  - by repeat constructor.
  - exists info, (cs ++ [CShutdownVm socket (Err e)]). split; [done|]. split.
    + unfold detached in *. rewrite omap_app, Hd. cbn. by rewrite app_nil_r.
    + do 2 right. by eexists _, _.
Qed.

Lemma purge_calls i w :
  let dir := runtime_dir_for env (instance_id i) in
  ∃ r tail, rec_calls (purge_instance_data env (recorded_transform t) i w).1.1 =
      rec_calls w ++ CTeardown (instance_id i) (default default_vm_config (vm_config i)) r :: tail ∧
    match r with
    | Err _ => tail = []
    | Ok () => ∃ r, (tail = [CExists dir r] ∧ r ≠ Ok true) ∨
                    (r = Ok true ∧ ∃ r', tail = [CExists dir r; CRemoveDir dir r'])
    end.
Proof.
  cbv zeta. unfold purge_instance_data. cbn [teardown recorded_transform instance_id set_vm_config].
  destruct (teardown t _ _ (rec_state w)) as [[c s] [[]|e]]; [|by eexists (Err e), []].
  set (dir := runtime_dir_for env (instance_id i)). set (w1 := Build_Recorded s _).
  unfold mbind, nodem_bind. change (fs_exists dir w1) with (record (CExists dir) (fs_exists dir) w1).
  unfold record. destruct (fs_exists dir (rec_state w1)) as [s2 [[]|e]].
  - set (w2 := Build_Recorded s2 _).
    change (remove_dir_all dir w2) with (record (CRemoveDir dir) (remove_dir_all dir) w2). unfold record.
    destruct (remove_dir_all dir (rec_state w2)) as [s3 r3]. unfold w2, w1. cbn [fst rec_calls].
    rewrite <-!(assoc_L (++)). eexists (Ok ()), _. split; [done|]. eexists. right. eauto.
  - unfold w1. cbn. rewrite <-(assoc_L (++)). eexists (Ok ()), _. split; [done|]. eexists. by left.
  - unfold w1. cbn. rewrite <-(assoc_L (++)). eexists (Ok ()), _. split; [done|]. eexists. by left.
Qed.

Lemma destroy_calls i w :
  let '(w', i', r) := destroy ulid_from_string env (recorded_transform t) i w in
  ∃ stop rest, rec_calls w' = rec_calls w ++ stop ++ rest ∧
    Forall (stopping_call (ch_socket_path i)) stop ∧
    match r with
    | Ok () => stopped (ch_socket_path i) stop ∧
        cleaned i (runtime_dir_for env (instance_id i)) rest ∧ i' = set_vm_config None (set_child None i)
    | Err e => rest = [] ∧ i' = i ∧
        stop_failed (ch_socket_path i) (ulid_from_string (instance_id i)) stop e
    end.
Proof.
  rewrite destroy_cleanup. destruct (stop_vm_calls i w) as (stop & Hs & Hq & Hr). unfold calls_of in Hs.
  destruct (stop_vm ulid_from_string i w) as [w1 [[]|e]]; cbn [fst snd] in Hs, Hr.
  2: { exists stop, []. by rewrite app_nil_r. }
  cbv zeta. destruct (shutdown_vmm (ch_socket_path i) w1) as [w2 r2] eqn:E2. cbn [fst].
  assert (∃ r, rec_calls w2 = rec_calls w1 ++ [CShutdownVmm (ch_socket_path i) r]) as [r1 H2].
  { revert E2. cbn [shutdown_vmm recorded_node]. unfold record.
    destruct (shutdown_vmm _ (rec_state w1)) as [s r]. intros [= <- <-]. by exists r. }
  set (w3 := match child_process i with Some child => (kill_and_wait child w2).1 | None => w2 end).
  assert (∃ r, rec_calls w3 = rec_calls w2 ++ ((λ child, CKill child r) <$> option_list (child_process i)))
    as [r3 H3].
  { unfold w3. destruct (child_process i) as [child|]; cbn [kill_and_wait recorded_node]; unfold record.
    - destruct (kill_and_wait child (rec_state w2)) as [s r]. by exists r.
    - exists (Ok ()). cbn. by rewrite app_nil_r. }
  destruct (purge_calls (set_child None i) w3) as (r4 & tail & Hp & Ht).
  pose proof (purge_forgets env (recorded_transform t) (set_child None i) w3) as Hf.
  destruct (purge_instance_data env (recorded_transform t) _ w3) as [[w4 i4] r5]. cbn [fst snd] in Hp, Hf.
  eexists stop, _. rewrite Hp, H3, H2, Hs, <-!(assoc_L (++)). split; [done|]. split; [done|]. split; [done|]. split; [|done].
  by exists r1, r3, r4, tail.
Qed.
End destroy.

(** C37. What destroying an instance asks of the node, and in which order,
    whatever the node answers. It is recorded by a node that otherwise behaves as
    the given one. First the VM is stopped: its state is asked for and, unless
    that fails, its managed TAP devices are detached in order and a running or
    paused VM is shut down; no other call is made for that. If one of these calls
    fails (or there is no network actor, or the identifier is not a ULID), its
    error is returned, no further call is made and the instance is left as it
    was. Otherwise the VMM is shut down,
    the child process is killed if there is one, and the transforms are torn down
    on the instance's configuration, each exactly once and whatever the calls
    before it answered; only if the teardown succeeds is the runtime directory
    looked up and, if it exists, removed. All these failures are swallowed: the
    outcome is success, the child and the configuration are forgotten, and a
    process, mappings or files may have to be cleaned up by hand. *)
Theorem destroy_outcome {W} `{Hypervisor W} ulid_from_string env (t : ConfigTransform W) i (w : Recorded W) :
  let '(w', i', r) := destroy ulid_from_string env (recorded_transform t) i w in
  destroy ulid_from_string env t i (rec_state w) = (rec_state w', i', r) ∧
  ∃ stop rest, rec_calls w' = rec_calls w ++ stop ++ rest ∧
    Forall (stopping_call (ch_socket_path i)) stop ∧
    match r with
    | Ok () => stopped (ch_socket_path i) stop ∧
        cleaned i (runtime_dir_for env (instance_id i)) rest ∧ i' = set_vm_config None (set_child None i)
    | Err e => rest = [] ∧ i' = i ∧
        stop_failed (ch_socket_path i) (ulid_from_string (instance_id i)) stop e
    end.
Proof.
  pose proof (destroy_erases ulid_from_string env t i w) as He.
  pose proof (destroy_calls ulid_from_string env t i w) as Hc.
  by destruct (destroy _ _ _ _ _) as [[w' i'] r].
Qed.

(** ** TAP devices of a converted manifest *)

Lemma managed_rewrite vmid nets nets' :
  Forall2 (λ n n', net_id n' = net_id n ∧ net_mac n' = net_mac n ∧
      match net_id n ≫= λ id, strip_prefix id NETWORK_URI_PREFIX with
      | Some network_id => validate_network_id network_id = true ∧
          net_tap n' = Some (deterministic_tap_name vmid network_id)
      | None => net_tap n' = net_tap n
      end) (network_to_net <$> nets) nets' →
  omap net_tap (filter (λ n, managed_net n = true) nets') =
  (λ n, deterministic_tap_name vmid (network_id n)) <$> nets.
Proof.
  revert nets'. induction nets as [|n nets IH]; intros nets'; cbn [fmap list_fmap].
  - by intros ->%Forall2_nil_inv_l.
  - intros (n' & ns' & (Hid & _ & Ht) & Hrest & ->)%Forall2_cons_inv_l.
    assert (strip_prefix (lit "net://" ++ network_id n) NETWORK_URI_PREFIX = Some (network_id n)) as Hp
      by by apply strip_prefix_spec.
    cbn [net_id network_to_net mbind option_bind] in Ht, Hid. rewrite Hp in Ht. destruct Ht as [_ Ht].
    rewrite filter_cons, decide_True.
    + cbn. rewrite Ht. f_equal. by apply IH.
    + unfold managed_net. rewrite Hid. unfold starts_with.
      change (lit "net://") with NETWORK_URI_PREFIX at 2. by rewrite Hp.
Qed.

(** The TAP devices attached after boot and detached before stop are those
    of the manifest: for a configuration converted from a manifest and rewritten
    by the network transform, the networking hook handles exactly one device
    per network of the manifest, in order, with the generated names. *)
Theorem tap_names_of_manifest {W} vmid m c c' state (w w' : W) :
  to_vm_config m = Ok c → transform network_transform vmid c w = (c', w', Ok ()) →
  tap_names {| info_vm_config := c'; info_state := state |} =
  (λ n, deterministic_tap_name vmid (network_id n)) <$> networks (desired m).
Proof.
  intros Hm Ht. apply to_vm_config_ok_net in Hm.
  apply network_transform_ok in Ht as (_ & _ & Hn). unfold tap_names. cbn.
  rewrite Hm in Hn. unfold non_empty in *. destruct (networks (desired m)) as [|n ns] eqn:Hns.
  - cbn in Hn. by destruct (net c').
  - cbn [fmap list_fmap] in Hn. destruct (net c') as [nets'|]; [|done].
    by apply (managed_rewrite vmid (n :: ns)).
Qed.
