(* ===== verification/VmExamples.v ===== *)
(** * Instances on a small node

    A node whose state is the list of running hypervisor processes, on which
    starts succeed or fail, and the witnesses of the theorems on instances. *)

From S2P Require Import Prelude RustString RustFloat Manifest Messages Console ChConfig.
From S2P Require Import Transform VmInstance VmActor.
Open Scope N_scope.

(** [answers]: whether the hypervisor's API socket answers. *)
Definition toy_node (answers : bool) : Hypervisor (list N) := {|
  vmm_ping_get := λ _ w, (w, if answers then Ok () else Err ApiError);
  vm_info_get := λ _ w, (w, Ok {| info_vm_config := default_vm_config; info_state := VmRunning |});
  create_vm := λ _ _ w, (w, Ok ());
  boot_vm := λ _ w, (w, Ok ());
  shutdown_vm := λ _ w, (w, Ok ());
  shutdown_vmm := λ _ w, ([], Ok ());
  delete_vm := λ _ w, (w, Ok ());
  send_migration_put := λ _ _ _ w, (w, Ok ());
  receive_migration_put := λ _ _ w, (w, Ok ());
  pause_vm := λ _ w, (w, Ok ());
  resume_vm := λ _ w, (w, Ok ());
  pick_port := λ w, (w, Ok 49152);
  spawn_process := λ _ w, (42 :: w, Ok 42);
  kill_and_wait := λ pid w, (filter (λ p, p ≠ pid) w, Ok ());
  fs_exists := λ _ w, (w, Ok false);
  create_dir_all := λ _ w, (w, Ok ());
  remove_dir_all := λ _ w, (w, Ok ());
  remove_file := λ _ w, (w, Ok ());
  network_actor_lookup := λ w, (w, Ok true);
  attach_tap := λ _ _ w, (w, Ok ());
  detach_tap := λ _ _ w, (w, Ok ()) |}.

Definition toy_id : rstring := lit "vm7".
Definition toy_ulid (s : rstring) : option N := if decide (s = toy_id) then Some 7 else None.

Definition toy_spawn (answers : bool) (w : list N) : list N * result VmError VMInstance :=
  spawn (H := toy_node answers) toy_ulid None network_transform toy_id (Some default_vm_config) true w.

(** A start on a node whose socket never answers leaves the other processes only. *)
Example toy_spawn_fails : toy_spawn false [5] = ([5], Err SocketUnavailable).
Proof. vm_compute. reflexivity. Qed.

Lemma spawn_owns_or_kills_witness :
  ∃ i, toy_spawn true [5] = ([42; 5], Ok i) ∧ child_process i = Some 42.
Proof.
  pose proof (spawn_owns_or_kills (H := toy_node true) toy_ulid None network_transform toy_id
    (Some default_vm_config) true [5] [5] [42; 5] 42 eq_refl eq_refl) as Hs.
  eexists. split; [vm_compute; reflexivity|]. exact Hs.
Defined.

Lemma validate_vmid_confines_witness :
  runtime_dir_for None toy_id = lit "/run/odorobo/vms/vm7".
Proof. rewrite (proj1 (validate_vmid_confines None toy_id eq_refl)). vm_compute. reflexivity. Defined.

(** Ids that would leave the runtime directory are refused. *)
Example validate_vmid_refuses :
  validate_vmid <$> [[]; lit "../x"; lit "a/b"; lit ".x"]
  = [Err VmidEmpty; Err VmidTraversal; Err VmidSeparator; Err VmidDot].
Proof. vm_compute. reflexivity. Qed.

Definition toy_manifest : VmManifest :=
  let m := minimal_manifest 7 2 1024 in
  let d := desired m in {|
  api_version := api_version m; manifest_id := manifest_id m; observed := observed m;
  desired := {|
    metadata := metadata d; compute := compute d; storage := storage d;
    networks := [{| network_id := lit "devnet"; network_mac_address := None |}];
    placement := placement d; Manifest.boot := Manifest.boot d; cloud_init := cloud_init d;
    vsock := vsock d |} |}.

Definition toy_converted : VmConfig :=
  match to_vm_config toy_manifest with Ok c => c | Err _ => default_vm_config end.

Lemma tap_names_of_manifest_witness :
  tap_names {| info_vm_config := (transform network_transform toy_id toy_converted ()).1.1;
               info_state := VmRunning |} = [lit "vmtap-vm7-vnet"].
Proof.
  rewrite (tap_names_of_manifest toy_id toy_manifest toy_converted
    (transform network_transform toy_id toy_converted ()).1.1 VmRunning () ()
    ltac:(vm_compute; reflexivity) ltac:(vm_compute; reflexivity)).
  vm_compute. reflexivity.
Defined.

(** Once the state of a migrated VM has arrived, the receiver shuts its own VMM
    down, the process that now runs the VM. *)
Example migration_receiver_stops_vmm :
  let i := {| instance_id := toy_id; ch_socket_path := lit "ch.sock"; child_process := None;
              vm_config := None |} in
  migration_receiver (H := toy_node true) i (lit "tcp:0.0.0.0:49152") [42] = ([], Ok ()).
Proof. vm_compute. reflexivity. Qed.
