(* ===== verification/ComputeNode.v ===== *)
(** * A compute node: the agent and its VM actors

    The composition of [agent_actor.rs] with [ch_driver/actor.rs] on one node.
    The agent spawns a linked VM actor per VM and keeps it in its registry; the
    actors start and stop concurrently with the agent's messages, and the
    death of an actor reaches the agent as a notice in its mailbox, where other
    messages may come first. A step is the handling of one message, start,
    stop or notice by one actor; the host is the state [W] of [Hypervisor].

    A request to receive a migration is one step: the agent awaits the new
    actor's answer, so none of its messages is handled in between. If the node
    already runs the VM, the new actor replaces the old one in the registry and
    nobody asks the old one to stop: it is displaced. An actor
    that is killed while it starts leaves the host in an unknown state. *)

From S2P Require Import Prelude RustString RustFloat Manifest Messages Config Agent Console.
From S2P Require Import ChConfig Transform VmInstance VmActor.
Open Scope N_scope.

(** ** State *)

Inductive StopRequest := StopGraceful | StopKill.

(** [la_actor] is [None] while [on_start] runs on the arguments. *)
Record LinkedActor := {
  la_vmid : Ulid;
  la_config : option VmManifest;
  la_actor : option VMActor;
  la_stop : option StopRequest }.

Record ComputeNode (W : Type) := {
  node_agent : AgentActor;
  node_actors : gmap ActorId LinkedActor;
  node_notices : list ActorId;
  node_world : W }.
Arguments node_agent {W}.
Arguments node_actors {W}.
Arguments node_notices {W}.
Arguments node_world {W}.
Arguments Build_ComputeNode {W}.

Definition starting (vmid : Ulid) (config : option VmManifest) : LinkedActor :=
  {| la_vmid := vmid; la_config := config; la_actor := None; la_stop := None |}.
(** A kill is not taken back by a later request to stop gracefully. *)
Definition request_stop (r : StopRequest) (a : LinkedActor) : LinkedActor :=
  {| la_vmid := la_vmid a; la_config := la_config a; la_actor := la_actor a;
     la_stop := match la_stop a with Some StopKill => Some StopKill | _ => Some r end |}.
Definition set_actor (v : VMActor) (a : LinkedActor) : LinkedActor :=
  {| la_vmid := la_vmid a; la_config := la_config a; la_actor := Some v; la_stop := la_stop a |}.

(** What an effect of the agent does to the actors. A message to stop is
    handled by stopping. *)
Definition run_effect (actors : gmap ActorId LinkedActor) (e : AgentEffect) : gmap ActorId LinkedActor :=
  match e with
  | SpawnVm actor vmid config => <[actor := starting vmid config]> actors
  | TellDelete actor _ | TellShutdown actor _ => alter (request_stop StopGraceful) actor actors
  | KillVm actor => alter (request_stop StopKill) actor actors
  | RegisterVm _ _ | ForwardVmInfo _ _ => actors
  end.

(** A message of the VM actor itself. *)
Inductive VmMsg :=
| VmInput (written : result nat ()) (input : list N)
| VmOutput (chunk : list N)
| VmMigrateReceive (config : VmManifest)
| VmMigrationFinished
| VmPrepMigration (config : VmManifest).

Section node.
Context {W : Type} `{Hypervisor W} (ulid_to_string : Ulid → rstring)
  (ulid_from_string : rstring → option Ulid) (env : option rstring) (transformer : ConfigTransform W)
  (to_bytes : ActorId → list N) (render : VmError → rstring).

Implicit Types n : ComputeNode W.

(** ** Steps *)

Definition with_agent n (a : AgentActor) (effects : list AgentEffect) : ComputeNode W :=
  Build_ComputeNode a (foldl run_effect (node_actors n) effects) (node_notices n) (node_world n).

Definition node_create n (msg : CreateVM) (actor : ActorId) : ComputeNode W :=
  let '(a, _, effects) := agent_create_vm to_bytes (node_agent n) msg actor in
  with_agent n a effects.
Definition node_migrate n (msg : MigrateVMReceive) (actor : ActorId)
    (asked : result rstring MigrateVMReceiveReply) : ComputeNode W :=
  let '(a, _, effects) := agent_migrate_vm_receive (node_agent n) msg actor asked in
  with_agent n a effects.
Definition node_delete n (vmid : Ulid) (told : bool) : ComputeNode W :=
  let '(a, effects) := agent_delete_vm (node_agent n) vmid told in
  with_agent n a effects.
Definition node_shutdown n (vmid : Ulid) (found : option ActorId) : ComputeNode W :=
  let '(_, effects) := agent_shutdown_vm vmid found in
  with_agent n (node_agent n) effects.

(** The first notice of the mailbox. *)
Definition node_notice `{IterOrder} n : ComputeNode W :=
  match node_notices n with
  | [] => n
  | id :: rest =>
      Build_ComputeNode (agent_on_link_died (node_agent n) id) (node_actors n) rest (node_world n)
  end.

Definition actor_gone n (id : ActorId) (w : W) : ComputeNode W :=
  Build_ComputeNode (node_agent n) (delete id (node_actors n)) (node_notices n ++ [id]) w.

(** [on_start] of an actor: a failed start ends the actor. *)
Definition node_start n (id : ActorId) (la : LinkedActor) (connected : bool) : ComputeNode W :=
  match vm_on_start ulid_to_string ulid_from_string env transformer connected (la_vmid la)
          (la_config la) (node_world n) with
  | (w, Ok (a, _)) =>
      Build_ComputeNode (node_agent n) (<[id := set_actor a la]> (node_actors n)) (node_notices n) w
  | (w, Err _) => actor_gone n id w
  end.

(** [on_stop], whose outcome is logged by the runtime. *)
Definition node_stop n (id : ActorId) (a : VMActor) : ComputeNode W :=
  actor_gone n id (vm_on_stop ulid_from_string env transformer a (node_world n)).1.1.

Definition vm_handle (a : VMActor) (m : VmMsg) (w : W) : W * VMActor :=
  match m with
  | VmInput written input => (w, (vm_send_console_input a written input).1)
  | VmOutput chunk => (w, set_vm_console (console_push (vm_console a) chunk) a)
  | VmMigrateReceive config => (vm_migrate_receive env render a config w).1.1
  | VmMigrationFinished => (w, vm_migration_finished a)
  | VmPrepMigration config => vm_prep_migration ulid_from_string transformer a config w
  end.
Definition node_vm_message n (id : ActorId) (la : LinkedActor) (a : VMActor) (m : VmMsg) : ComputeNode W :=
  let '(w, a) := vm_handle a m (node_world n) in
  Build_ComputeNode (node_agent n) (<[id := set_actor a la]> (node_actors n)) (node_notices n) w.

(** The watcher of the hypervisor process asks its actor to stop. *)
Definition node_child_exit n (id : ActorId) (success : bool) : ComputeNode W :=
  Build_ComputeNode (node_agent n)
    (alter (request_stop (if success then StopGraceful else StopKill)) id (node_actors n))
    (node_notices n) (node_world n).

(** An identity no actor has had; [ds] are the displaced actors. *)
Definition fresh_id n (ds : list ActorId) (actor : ActorId) : Prop :=
  node_actors n !! actor = None ∧ actor ∉ node_notices n ∧ actor ∉ ds ∧
  ∀ vmid c, vms (node_agent n) !! vmid = Some c → cache_actor_ref c ≠ actor.

(** The actor a migration replaces in the registry. *)
Definition replaced n (vmid : Ulid) : list ActorId :=
  match vms (node_agent n) !! vmid with Some c => [cache_actor_ref c] | None => [] end.

(** [ds] are the actors displaced so far. *)
Inductive node_step n (ds : list ActorId) : ComputeNode W → list ActorId → Prop :=
| step_create msg actor : fresh_id n ds actor → node_step n ds (node_create n msg actor) ds
| step_migrate msg actor asked :
    fresh_id n ds actor →
    node_step n ds (node_migrate n msg actor asked) (replaced n (migrate_vmid msg) ++ ds)
| step_delete vmid told : node_step n ds (node_delete n vmid told) ds
| step_shutdown vmid found : node_step n ds (node_shutdown n vmid found) ds
| step_notice (o : IterOrder) : node_step n ds (node_notice n) ds
| step_start id la connected :
    node_actors n !! id = Some la → la_actor la = None →
    node_step n ds (node_start n id la connected) ds
| step_abort id la w :
    node_actors n !! id = Some la → la_actor la = None → la_stop la = Some StopKill →
    node_step n ds (actor_gone n id w) ds
| step_stop id la a :
    node_actors n !! id = Some la → la_actor la = Some a → is_Some (la_stop la) →
    node_step n ds (node_stop n id a) ds
| step_vm_message id la a m :
    node_actors n !! id = Some la → la_actor la = Some a →
    node_step n ds (node_vm_message n id la a m) ds
| step_child_exit id la a success :
    node_actors n !! id = Some la → la_actor la = Some a →
    node_step n ds (node_child_exit n id success) ds.

Definition node_boot (config : Config) (cpus memory : N) (w : W) : ComputeNode W :=
  Build_ComputeNode (agent_on_start config cpus memory) ∅ [] w.

Inductive node_reachable (n0 : ComputeNode W) : ComputeNode W → list ActorId → Prop :=
| node_reach_init : node_reachable n0 n0 []
| node_reach_step n ds n' ds' :
    node_reachable n0 n ds → node_step n ds n' ds' → node_reachable n0 n' ds'.

(** The agent's mailbox read to its end. *)
Definition drain_notices `{IterOrder} n : ComputeNode W :=
  Nat.iter (length (node_notices n)) node_notice n.

(** ** Invariant *)

Record node_inv n (ds : list ActorId) : Prop := {
  (** A VM of the registry has its actor, or the actor's death is announced. *)
  ni_backed vmid c : vms (node_agent n) !! vmid = Some c →
    cache_actor_ref c ∈ node_notices n ∨
    ∃ la, node_actors n !! cache_actor_ref c = Some la ∧ la_vmid la = vmid ∧
      (la_config la = Some (cache_config c) ∨ la_config la = None);
  (** An actor is asked to stop or displaced, or it is its VM's actor in the
      registry. *)
  ni_owned id la : node_actors n !! id = Some la →
    is_Some (la_stop la) ∨ id ∈ ds ∨
    ∃ c, vms (node_agent n) !! la_vmid la = Some c ∧ cache_actor_ref c = id;
  ni_unique vmid vmid' c c' : vms (node_agent n) !! vmid = Some c →
    vms (node_agent n) !! vmid' = Some c' → cache_actor_ref c = cache_actor_ref c' → vmid = vmid';
  ni_displaced vmid c : vms (node_agent n) !! vmid = Some c → cache_actor_ref c ∉ ds;
  ni_dead id : id ∈ node_notices n → node_actors n !! id = None;
  ni_actor id la a : node_actors n !! id = Some la → la_actor la = Some a →
    actor_vmid a = la_vmid la ∧ vm_manifest a = la_config la }.

Lemma node_boot_inv config cpus memory w : node_inv (node_boot config cpus memory w) [].
Proof. split; cbn; try by intros ??. Qed.

(** *** The agent's registry *)

Lemma insert_vm_vms st vmid c : vms (insert_vm st vmid c) = <[vmid := c]> (vms st).
Proof. unfold insert_vm. by destruct (vms st !! vmid). Qed.

(** A VM with its new actor, in place of the one it had. *)
Lemma node_inv_spawn n ds a vmid c config :
  node_inv n ds → fresh_id n ds (cache_actor_ref c) →
  vms a = <[vmid := c]> (vms (node_agent n)) → config = Some (cache_config c) ∨ config = None →
  node_inv (Build_ComputeNode a (<[cache_actor_ref c := starting vmid config]> (node_actors n))
              (node_notices n) (node_world n)) (replaced n vmid ++ ds).
Proof.
  intros [Hb Ho Hu Hx Hd Ha] (Hfa & Hfn & Hfd & Hfr) Hvms Hc. split; cbn.
  - rewrite Hvms. intros vmid' c'. rewrite lookup_insert_Some. intros [[<- <-]|[Hne Hl]].
    + right. exists (starting vmid config). by rewrite lookup_insert_eq.
    + destruct (Hb _ _ Hl) as [?|(la & Hla & ?)]; [by left|right]. exists la.
      rewrite lookup_insert_ne; [done|]. intros Heq. by eapply Hfr.
  - rewrite Hvms. intros id la. rewrite lookup_insert_Some. intros [[<- <-]|[Hne Hl]].
    + do 2 right. exists c. by rewrite lookup_insert_eq.
    + destruct (Ho _ _ Hl) as [?|[?|(c' & Hc' & Hid)]]; [by left|set_solver|right].
      destruct (decide (vmid = la_vmid la)) as [->|Hv].
      * left. unfold replaced. rewrite Hc', Hid. set_solver.
      * right. exists c'. by rewrite lookup_insert_ne.
  - rewrite Hvms. intros v v' c1 c2. rewrite !lookup_insert_Some.
    intros [[<- <-]|[? H1]] [[<- <-]|[? H2]] Heq; [done| | |by eapply Hu];
      exfalso; by eapply Hfr.
  - rewrite Hvms. intros v c1. rewrite lookup_insert_Some, not_elem_of_app. unfold replaced.
    intros [[<- <-]|[Hne H1]]; (split; [|by eauto]); destruct (vms (node_agent n) !! vmid) as [c2|] eqn:H2;
      rewrite ?not_elem_of_cons; try apply not_elem_of_nil; (split; [|apply not_elem_of_nil]).
    + intros Heq. by apply (Hfr _ _ H2).
    + intros Heq. apply Hne. by apply (Hu _ _ _ _ H2 H1).
  - intros id Hid. rewrite lookup_insert_ne; [by apply Hd|]. by intros <-.
  - intros id la v. rewrite lookup_insert_Some. intros [[<- <-]|[_ Hl]]; [done|by eapply Ha].
Qed.

(** Requests to stop keep the invariant. *)
Lemma node_inv_request n ds r id :
  node_inv n ds →
  node_inv (Build_ComputeNode (node_agent n) (alter (request_stop r) id (node_actors n))
              (node_notices n) (node_world n)) ds.
Proof.
  intros [Hb Ho Hu Hx Hd Ha]. split; cbn; [| |done|done| |].
  - intros vmid c Hc. destruct (Hb _ _ Hc) as [?|(la & Hla & Hv)]; [by left|right].
    destruct (decide (id = cache_actor_ref c)) as [->|].
    + exists (request_stop r la). by rewrite lookup_alter_eq, Hla.
    + exists la. by rewrite lookup_alter_ne.
  - intros id' la. rewrite lookup_alter_Some. intros [(-> & la0 & H0 & ->)|[_ Hl]]; [|by apply Ho].
    left. cbn. by destruct (la_stop la0) as [[]|].
  - intros id' Hid. rewrite lookup_alter_None. by apply Hd.
  - intros id' la v. rewrite lookup_alter_Some. intros [(-> & la0 & H0 & ->)|[_ Hl]].
    + exact (Ha _ _ v H0).
    + by eapply Ha.
Qed.

(** A VM leaves the registry while its actor is asked to stop. *)
Lemma node_inv_forget n ds a vmid c r :
  node_inv n ds → vms (node_agent n) !! vmid = Some c → vms a = delete vmid (vms (node_agent n)) →
  node_inv (Build_ComputeNode a (alter (request_stop r) (cache_actor_ref c) (node_actors n))
              (node_notices n) (node_world n)) ds.
Proof.
  intros Hinv Hc Hvms.
  destruct (node_inv_request n ds r (cache_actor_ref c) Hinv) as [Hb Ho Hu Hx Hd Ha].
  split; cbn in *; [| | | |done|done].
  - rewrite Hvms. intros vmid' c' [_ Hl]%lookup_delete_Some. by apply Hb.
  - intros id la Hla. destruct (Ho _ _ Hla) as [?|[?|(c' & Hc' & Hid)]]; [by left|by right; left|].
    destruct (decide (la_vmid la = vmid)) as [Heq|Hne].
    + left. rewrite Heq in Hc'. assert (c' = c) as -> by congruence. subst id.
      apply lookup_alter_Some in Hla as [(_ & la0 & _ & ->)|[Hne _]]; [|done].
      cbn. by destruct (la_stop la0) as [[]|].
    + do 2 right. exists c'. by rewrite Hvms, lookup_delete_ne.
  - rewrite Hvms. intros v v' c1 c2 [_ H1]%lookup_delete_Some [_ H2]%lookup_delete_Some. by apply Hu.
  - rewrite Hvms. intros v c1 [_ H1]%lookup_delete_Some. by eapply Hx.
Qed.

(** An actor ends, and its death is announced. *)
Lemma node_inv_gone n ds id w : node_inv n ds → node_inv (actor_gone n id w) ds.
Proof.
  intros [Hb Ho Hu Hx Hd Ha]. split; cbn; [| |done|done| |].
  - intros vmid c Hc. destruct (decide (cache_actor_ref c = id)) as [->|Hne]; [set_solver|].
    destruct (Hb _ _ Hc) as [?|(la & Hla & ?)]; [set_solver|right]. exists la.
    by rewrite lookup_delete_ne.
  - intros id' la [_ Hl]%lookup_delete_Some. by apply Ho.
  - intros id' [Hid| ->%list_elem_of_singleton]%elem_of_app; [|apply lookup_delete_eq].
    apply lookup_delete_None. right. by apply Hd.
  - intros id' la v [_ Hl]%lookup_delete_Some. by eapply Ha.
Qed.

(** An actor changes its own state. *)
Lemma node_inv_update n ds id la a w :
  node_inv n ds → node_actors n !! id = Some la → actor_vmid a = la_vmid la → vm_manifest a = la_config la →
  node_inv (Build_ComputeNode (node_agent n) (<[id := set_actor a la]> (node_actors n)) (node_notices n) w) ds.
Proof.
  intros [Hb Ho Hu Hx Hd Ha] Hla Hv Hm. split; cbn; [| |done|done| |].
  - intros vmid c Hc. destruct (Hb _ _ Hc) as [?|(la' & Hla' & Hr)]; [by left|right].
    destruct (decide (id = cache_actor_ref c)) as [->|].
    + exists (set_actor a la). rewrite lookup_insert_eq. assert (la' = la) as -> by congruence. done.
    + exists la'. by rewrite lookup_insert_ne.
  - intros id' la'. rewrite lookup_insert_Some. intros [[<- <-]|[_ Hl]]; [by apply (Ho id la)|by apply Ho].
  - intros id' Hid. rewrite lookup_insert_ne; [by apply Hd|]. intros <-. apply Hd in Hid. congruence.
  - intros id' la' v. rewrite lookup_insert_Some. intros [[<- <-]|[_ Hl]]; [|by eapply Ha].
    by intros [= <-].
Qed.

Lemma node_inv_notice `{IterOrder} n ds : node_inv n ds → node_inv (node_notice n) ds.
Proof.
  intros Hinv. unfold node_notice. destruct (node_notices n) as [|id rest] eqn:Hn; [done|].
  destruct Hinv as [Hb Ho Hu Hx Hd Ha]. rewrite Hn in Hb, Hd. split; cbn.
  - rewrite agent_on_link_died_vms. intros vmid c [Hc Hne]%map_lookup_filter_Some.
    destruct (Hb _ _ Hc) as [[?|?]%elem_of_cons|?]; auto. done.
  - rewrite agent_on_link_died_vms. intros id' la Hla.
    destruct (Ho _ _ Hla) as [?|[?|(c & Hc & Hid)]]; [by left|by right; left|do 2 right]. exists c.
    rewrite map_lookup_filter_Some. split_and!; [done| |done]. cbn. intros Heq.
    rewrite <-Hid, Heq, Hd in Hla by set_solver. done.
  - rewrite agent_on_link_died_vms.
    intros v v' c1 c2 [H1 _]%map_lookup_filter_Some [H2 _]%map_lookup_filter_Some. by apply Hu.
  - rewrite agent_on_link_died_vms. intros v c1 [H1 _]%map_lookup_filter_Some. by eapply Hx.
  - intros id' Hid. apply Hd. set_solver.
  - done.
Qed.

(** *** Steps *)

Lemma vm_on_start_identity connected vmid config w w' a effects :
  vm_on_start ulid_to_string ulid_from_string env transformer connected vmid config w
    = (w', Ok (a, effects)) → actor_vmid a = vmid ∧ vm_manifest a = config.
Proof.
  unfold vm_on_start. destruct (convert_config config); [|done].
  destruct (spawn _ _ _ _ _ _ _) as [w1 [i|]]; [|done].
  destruct config; [destruct (attach_socket _ _) as [con [b|]]; [|done]|];
    destruct (take_child_process i); by intros [= _ <- _].
Qed.

Lemma vm_handle_identity a m w :
  actor_vmid (vm_handle a m w).2 = actor_vmid a ∧ vm_manifest (vm_handle a m w).2 = vm_manifest a.
Proof.
  destruct m as [written input|chunk|config| |config]; cbn [vm_handle fst snd]; try done.
  - unfold vm_send_console_input. by destruct (write_input _ _ _) as [con [[]|]].
  - unfold vm_migrate_receive. destruct (migration_state a); [done|].
    destruct (lift_convert _); [|done]. by destruct (receive_migration _ _) as [w1 [|]].
  - unfold vm_prep_migration. destruct (to_vm_config config); [|done].
    by destruct (prep_config _ _ _ _ w) as [[w1 i] r].
Qed.

Lemma node_inv_migrate n ds msg actor asked :
  node_inv n ds → fresh_id n ds actor →
  node_inv (node_migrate n msg actor asked) (replaced n (migrate_vmid msg) ++ ds).
Proof.
  intros Hinv Hf. unfold node_migrate, agent_migrate_vm_receive, with_agent.
  set (c := cache_entry actor (migrate_config msg)).
  pose proof (node_inv_spawn n ds (insert_vm (node_agent n) (migrate_vmid msg) c) (migrate_vmid msg) c None
    Hinv Hf (insert_vm_vms _ _ _) (or_intror eq_refl)) as Hs.
  destruct (migrate_error _) as [e|]; cbn [foldl app run_effect]; [|exact Hs].
  assert (vms (insert_vm (node_agent n) (migrate_vmid msg) c) !! migrate_vmid msg = Some c) as Hl
    by by rewrite insert_vm_vms, lookup_insert_eq.
  rewrite Hl. cbn [cache_actor_ref cache_entry c]. rewrite N.eqb_refl.
  apply (node_inv_forget _ _ _ _ _ StopKill Hs Hl). apply remove_vm_vms.
Qed.

Lemma node_inv_create n ds msg actor :
  node_inv n ds → fresh_id n ds actor → node_inv (node_create n msg actor) ds.
Proof.
  intros Hinv Hf. unfold node_create, agent_create_vm.
  destruct (vms (node_agent n) !! _) as [c|] eqn:Hc; [by destruct n|].
  pose proof (node_inv_spawn n ds _ (create_vmid msg) (cache_entry actor (Messages.create_config msg))
    _ Hinv Hf (insert_vm_vms _ _ _) (or_introl eq_refl)) as Hs.
  unfold replaced in Hs. rewrite Hc in Hs. exact Hs.
Qed.

Lemma node_inv_delete n ds vmid told : node_inv n ds → node_inv (node_delete n vmid told) ds.
Proof.
  intros Hinv. unfold node_delete, agent_delete_vm. destruct (remove_vm (node_agent n) vmid) as [a r] eqn:Hr.
  pose proof (remove_vm_vms (node_agent n) vmid) as Hv. rewrite Hr in Hv. unfold remove_vm in Hr.
  destruct (vms (node_agent n) !! vmid) as [c|] eqn:Hc; simplify_eq; [|by destruct n].
  pose proof (node_inv_forget n ds _ vmid c StopGraceful Hinv Hc Hv) as Hg.
  unfold with_agent. destruct told; cbn [foldl run_effect]; [exact Hg|]. exact (node_inv_request _ _ _ _ Hg).
Qed.

Lemma node_step_inv n ds n' ds' : node_step n ds n' ds' → node_inv n ds → node_inv n' ds'.
Proof.
  intros Hs Hinv. destruct Hs as [msg actor Hf|msg actor asked Hf|vmid told|vmid found|o
    |id la connected Hla Hn|id la w Hla Hn Hk|id la a Hla Ha Hk|id la a m Hla Ha|id la a success Hla Ha].
  - by apply node_inv_create.
  - by apply node_inv_migrate.
  - by apply node_inv_delete.
  - unfold node_shutdown, agent_shutdown_vm. destruct found; [by apply node_inv_request|by destruct n].
  - by apply node_inv_notice.
  - unfold node_start. destruct (vm_on_start _ _ _ _ _ _ _ _) as [w [[a effects]|e]] eqn:Hst.
    + apply vm_on_start_identity in Hst as [Hv Hm]. by apply node_inv_update.
    + by apply node_inv_gone.
  - by apply node_inv_gone.
  - by apply node_inv_gone.
  - unfold node_vm_message. pose proof (vm_handle_identity a m (node_world n)) as [Hv Hm].
    destruct (vm_handle a m (node_world n)) as [w a']. destruct (ni_actor _ _ Hinv _ _ _ Hla Ha).
    apply node_inv_update; [done|done|..]; cbn in *; congruence.
  - by apply node_inv_request.
Qed.

Lemma node_reachable_inv n0 n ds : node_inv n0 [] → node_reachable n0 n ds → node_inv n ds.
Proof. intros H0 Hr. induction Hr as [|n ds n' ds' _ IH Hs]; [done|]. by eapply node_step_inv. Qed.

(** *** Draining the mailbox *)

Lemma drain_notices_spec `{IterOrder} n :
  node_actors (drain_notices n) = node_actors n ∧ node_notices (drain_notices n) = [] ∧
  (∀ ds, node_inv n ds → node_inv (drain_notices n) ds).
Proof.
  unfold drain_notices. remember (length (node_notices n)) as k eqn:Hk. revert n Hk.
  induction k as [|k IH]; intros n Hk; [by destruct n as [? ? [|] ?]|].
  rewrite Nat.iter_succ_r. destruct (node_notices n) as [|id rest] eqn:Hn; [done|].
  assert (node_notices (node_notice n) = rest) as Hr by (unfold node_notice; by rewrite Hn).
  destruct (IH (node_notice n)) as (Ha & Hd & Hi); [rewrite Hr; cbn in Hk; lia|].
  split_and!; [|done|intros; by apply Hi, node_inv_notice].
  rewrite Ha. unfold node_notice. by rewrite Hn.
Qed.

(** C3. The agent's registry and the VM actors of its node agree, however
    starts, stops, deaths and the agent's messages interleave, up to the actors
    that a migration displaced. A request to receive a migration of a VM the
    node already runs replaces that VM's actor in the registry and leaves it
    running; those replaced actors are collected in [ds], and nothing else is.
    In every reachable state an actor that was neither asked to stop nor
    displaced is the one its VM has in the registry, so no VM has two such
    actors and none runs unknown to the agent; a displaced actor is in the
    registry for no VM; once the announced deaths are handled, every VM of the
    registry has an actor on the node, which was started for that VM with the
    registered configuration (or to receive its migration); and when nothing is
    announced or stopping, the registry lists exactly the VMs with an actor that
    was not displaced. *)
Theorem node_registry_sound `{IterOrder} config cpus memory w n ds :
  node_reachable (node_boot config cpus memory w) n ds →
  (∀ id la, node_actors n !! id = Some la → la_stop la = None → id ∉ ds →
     ∃ c, vms (node_agent n) !! la_vmid la = Some c ∧ cache_actor_ref c = id) ∧
  (∀ id id' la la', node_actors n !! id = Some la → node_actors n !! id' = Some la' →
     la_stop la = None → la_stop la' = None → id ∉ ds → id' ∉ ds →
     la_vmid la = la_vmid la' → id = id') ∧
  (∀ vmid c, vms (node_agent n) !! vmid = Some c → cache_actor_ref c ∉ ds) ∧
  (∀ vmid c, vms (node_agent (drain_notices n)) !! vmid = Some c →
     ∃ la, node_actors n !! cache_actor_ref c = Some la ∧ la_vmid la = vmid ∧
       ∀ a, la_actor la = Some a →
         actor_vmid a = vmid ∧ (vm_manifest a = Some (cache_config c) ∨ vm_manifest a = None)) ∧
  (node_notices n = [] → (∀ id la, node_actors n !! id = Some la → la_stop la = None) →
     ∀ vmid, is_Some (vms (node_agent n) !! vmid) ↔
       ∃ id la, node_actors n !! id = Some la ∧ id ∉ ds ∧ la_vmid la = vmid).
Proof.
  intros Hr. apply (node_reachable_inv _ _ _ (node_boot_inv _ _ _ _)) in Hr as Hinv.
  destruct (drain_notices_spec n) as (Hda & Hdn & Hdi). specialize (Hdi ds Hinv).
  assert (∀ id la, node_actors n !! id = Some la → la_stop la = None → id ∉ ds →
    ∃ c, vms (node_agent n) !! la_vmid la = Some c ∧ cache_actor_ref c = id) as Hown.
  { intros id la Hla Hs Hds. destruct (ni_owned _ _ Hinv _ _ Hla) as [[? ?]|[?|?]]; [congruence|done|done]. }
  pose proof (ni_displaced _ _ Hinv) as Hdis. split_and!; [done| |done|..].
  - intros id id' la la' Hla Hla' Hs Hs' Hd Hd' Heq.
    destruct (Hown _ _ Hla Hs Hd) as (c & Hc & <-), (Hown _ _ Hla' Hs' Hd') as (c' & Hc' & <-). congruence.
  - intros vmid c Hc. destruct (ni_backed _ _ Hdi _ _ Hc) as [Hin|(la & Hla & Hv & Hcfg)].
    { rewrite Hdn in Hin. by apply elem_of_nil in Hin. }
    rewrite Hda in Hla. exists la. split_and!; [done..|]. intros a Ha.
    destruct (ni_actor _ _ Hinv _ _ _ Hla Ha) as [-> ->]. done.
  - intros Hn Hstop vmid. split.
    + intros [c Hc]. destruct (ni_backed _ _ Hinv _ _ Hc) as [Hin|(la & Hla & Hv & _)]; [|by eauto 6].
      rewrite Hn in Hin. by apply elem_of_nil in Hin.
    + intros (id & la & Hla & Hd & <-). destruct (Hown _ _ Hla (Hstop _ _ Hla) Hd) as (c & Hc & _). by exists c.
Qed.
End node.
