(* ===== verification/NodeExamples.v ===== *)
(** * Runs of a compute node

    A host whose hypervisor processes are reached through their sockets, and
    runs of the agent with its VM actors on it. *)

From S2P Require Import Prelude RustString RustFloat Manifest Messages Config Agent Console.
From S2P Require Import ChConfig Transform VmInstance VmActor ComputeNode.
Open Scope N_scope.

(** The next process id, and the running processes with their sockets, the
    newest first. A socket reaches the newest process that listens on it. *)
Fixpoint stop_newest (socket : rstring) (ps : list (rstring * N)) : list (rstring * N) :=
  match ps with
  | [] => []
  | p :: ps => if bool_decide (p.1 = socket) then ps else p :: stop_newest socket ps
  end.
Definition Host : Type := N * list (rstring * N).

#[export] Instance host_node : Hypervisor Host := {|
  vmm_ping_get := λ socket w,
    (w, if existsb (λ p, bool_decide (p.1 = socket)) w.2 then Ok () else Err ApiError);
  vm_info_get := λ socket w,
    (w, if existsb (λ p, bool_decide (p.1 = socket)) w.2
        then Ok {| info_vm_config := default_vm_config; info_state := VmRunning |} else Err ApiError);
  create_vm := λ _ _ w, (w, Ok ());
  boot_vm := λ _ w, (w, Ok ());
  shutdown_vm := λ _ w, (w, Ok ());
  shutdown_vmm := λ socket w, ((w.1, stop_newest socket w.2), Ok ());
  delete_vm := λ _ w, (w, Ok ());
  send_migration_put := λ _ _ _ w, (w, Ok ());
  receive_migration_put := λ _ _ w, (w, Ok ());
  pause_vm := λ _ w, (w, Ok ());
  resume_vm := λ _ w, (w, Ok ());
  pick_port := λ w, (w, Ok 49152);
  spawn_process := λ socket w, ((w.1 + 1, (socket, w.1) :: w.2), Ok w.1);
  kill_and_wait := λ pid w, ((w.1, List.filter (λ p, negb (p.2 =? pid)) w.2), Ok ());
  fs_exists := λ _ w, (w, Ok false);
  create_dir_all := λ _ w, (w, Ok ());
  remove_dir_all := λ _ w, (w, Ok ());
  remove_file := λ _ w, (w, Ok ());
  network_actor_lookup := λ w, (w, Ok true);
  attach_tap := λ _ _ w, (w, Ok ());
  detach_tap := λ _ _ w, (w, Ok ()) |}.

Definition show_id (u : Ulid) : rstring := lit "vm" ++ show_N u.
Definition read_id (s : rstring) : option Ulid := strip_prefix s (lit "vm") ≫= parse_u32.
Definition no_bytes (a : ActorId) : list N := [].
Definition no_error_text (e : VmError) : rstring := [].

Notation host_step := (node_step show_id read_id None network_transform no_bytes no_error_text).
Notation host_reachable := (node_reachable show_id read_id None network_transform no_bytes no_error_text).

Definition host0 : ComputeNode Host := node_boot example_config 8 (2 ^ 33) (100, []).
Definition msg7 : CreateVM := example_create 7 1 1024.

(** The actor with an identity starts, and stops. *)
Definition start_of (n : ComputeNode Host) (id : ActorId) : ComputeNode Host :=
  match node_actors n !! id with
  | Some la => node_start show_id read_id None network_transform n id la true
  | None => n
  end.
Definition stop_of (n : ComputeNode Host) (id : ActorId) : ComputeNode Host :=
  match node_actors n !! id ≫= la_actor with
  | Some a => node_stop read_id None network_transform n id a
  | None => n
  end.

Lemma start_of_reachable n0 n ds id :
  match node_actors n !! id ≫= la_actor with None => true | Some _ => false end = true →
  host_reachable n0 n ds → host_reachable n0 (start_of n id) ds.
Proof.
  unfold start_of. destruct (node_actors n !! id) as [la|] eqn:Hla; [|done]. cbn.
  intros Ha Hr. eapply node_reach_step; [exact Hr|].
  eapply step_start; [exact Hla|]. by destruct (la_actor la).
Qed.
Lemma stop_of_reachable n0 n ds id :
  match node_actors n !! id ≫= la_stop with None => false | Some _ => true end = true →
  host_reachable n0 n ds → host_reachable n0 (stop_of n id) ds.
Proof.
  unfold stop_of. destruct (node_actors n !! id) as [la|] eqn:Hla; [|done]. cbn.
  destruct (la_actor la) as [a|] eqn:Ha; [|done]. intros Hs Hr.
  eapply node_reach_step; [exact Hr|]. eapply step_stop; [exact Hla|exact Ha|].
  by destruct (la_stop la).
Qed.

(** VM 7 is created, deleted and created again before its first actor stopped. *)
Definition created : ComputeNode Host := start_of (node_create no_bytes host0 msg7 1) 1.
Definition recreated : ComputeNode Host :=
  start_of (node_create no_bytes (node_delete created 7 true) msg7 2) 2.
Definition overtaken : ComputeNode Host := stop_of recreated 1.

Lemma fresh_id_dec (n : ComputeNode Host) ds actor :
  bool_decide (node_actors n !! actor = None ∧ actor ∉ node_notices n ∧ actor ∉ ds ∧
    map_Forall (λ _ c, cache_actor_ref c ≠ actor) (vms (node_agent n))) = true → fresh_id n ds actor.
Proof. intros (? & ? & ? & Hm)%bool_decide_eq_true. split_and!; [done..|]. intros ???. by eapply Hm. Qed.

Lemma created_reachable : host_reachable host0 created [].
Proof.
  apply start_of_reachable; [by vm_compute|]. eapply node_reach_step; [apply node_reach_init|].
  apply step_create, fresh_id_dec. vm_compute. reflexivity.
Qed.

Lemma overtaken_reachable : host_reachable host0 overtaken [].
Proof.
  apply stop_of_reachable; [by vm_compute|]. apply start_of_reachable; [by vm_compute|].
  eapply node_reach_step; [eapply node_reach_step; [exact created_reachable|apply step_delete]|].
  apply step_create, fresh_id_dec. vm_compute. reflexivity.
Qed.

(** A request to receive VM 7 on the node that runs it. *)
Definition displaced : ComputeNode Host :=
  node_migrate created {| migrate_vmid := 7; migrate_config := minimal_manifest 7 1 1024 |} 2
    (Ok {| listening_address := lit "tcp:0.0.0.0:49152"; migrate_error := None |}).

Lemma displaced_reachable : host_reachable host0 displaced [1].
Proof.
  eapply node_reach_step; [exact created_reachable|].
  apply (step_migrate _ _ _ _ _ _ created []
    {| migrate_vmid := 7; migrate_config := minimal_manifest 7 1 1024 |} 2).
  apply fresh_id_dec. vm_compute. reflexivity.
Qed.

(** The registry after the first create, and after the migration that displaces
    its actor: the registry lists VM 7 because of the second actor. *)
Example node_registry_sound_witness :
  (∃ la, node_actors created !! 1 = Some la ∧
    ∃ c, vms (node_agent created) !! 7 = Some c ∧ cache_actor_ref c = 1) ∧
  (∀ vmid, is_Some (vms (node_agent displaced) !! vmid) ↔
    ∃ id la, node_actors displaced !! id = Some la ∧ id ∉ [1] ∧ la_vmid la = vmid).
Proof.
  split.
  - destruct (node_registry_sound show_id read_id None network_transform no_bytes no_error_text
      (H0 := canonical_order) example_config 8 (2 ^ 33) (100, []) created [] created_reachable)
      as (Hown & _).
    assert (∃ la, node_actors created !! 1 = Some la ∧ la_stop la = None ∧ la_vmid la = 7)
      as (la & Hla & Hs & Hv) by (eexists; split; [vm_compute; reflexivity|done]).
    exists la. split; [exact Hla|]. rewrite <-Hv. exact (Hown 1 la Hla Hs (not_elem_of_nil _)).
  - destruct (node_registry_sound show_id read_id None network_transform no_bytes no_error_text
      (H0 := canonical_order) example_config 8 (2 ^ 33) (100, []) displaced [1] displaced_reachable)
      as (_ & _ & _ & _ & Hq).
    apply Hq; [vm_compute; reflexivity|].
    assert (bool_decide (map_Forall (λ _ la, ¬ is_Some (la_stop la)) (node_actors displaced)) = true)
      as Hns by (vm_compute; reflexivity).
    intros id la' Hla'. apply bool_decide_eq_true in Hns. specialize (Hns _ _ Hla').
    by apply eq_None_not_Some.
Defined.

(** A VM that is deleted and created again before its first actor has stopped
    loses its hypervisor: the actors of a VM share the socket of its identity,
    and the first one's [on_stop] shuts down the VMM it reaches there, which is
    the second one's, while the process of the deleted VM stays. The agent keeps
    the VM, and its actor is not asked to stop. *)
Example recreate_loses_vm :
  (node_world recreated).2 = [(lit "/run/odorobo/vms/vm7/ch.sock", 101);
                              (lit "/run/odorobo/vms/vm7/ch.sock", 100)] ∧
  (node_world overtaken).2 = [(lit "/run/odorobo/vms/vm7/ch.sock", 100)] ∧
  (∃ la, node_actors overtaken !! 2 = Some la ∧ la_stop la = None ∧ is_Some (la_actor la)) ∧
  (cache_actor_ref <$> vms (node_agent overtaken) !! 7) = Some 2.
Proof.
  split_and!; [vm_compute; reflexivity..| |vm_compute; reflexivity].
  eexists. split_and!; [vm_compute; reflexivity|reflexivity|by eexists].
Qed.

(** Its first actor keeps running outside the registry: nobody asks it to stop,
    and no later delete reaches it. *)
Example migration_orphans_actor :
  (∃ la, node_actors displaced !! 1 = Some la ∧ la_vmid la = 7 ∧ la_stop la = None) ∧
  (cache_actor_ref <$> vms (node_agent displaced) !! 7) = Some 2 ∧
  la_stop <$> node_actors (node_delete displaced 7 true) !! 1 = Some None.
Proof.
  split_and!; [|vm_compute; reflexivity..].
  eexists. split_and!; [vm_compute; reflexivity|reflexivity|reflexivity].
Qed.

(** ** Destroying an instance *)

(** A transform whose teardown fails, as when an image cannot be unmapped. *)
Definition stuck_teardown : ConfigTransform Host := {|
  transform := λ _ c w, (c, w, Ok ());
  teardown := λ _ c w, (c, w, Err StorageFailed) |}.
Definition vm7_socket : rstring := lit "/run/odorobo/vms/vm7/ch.sock".
Definition vm7_instance : VMInstance := {|
  instance_id := lit "vm7"; ch_socket_path := vm7_socket; child_process := Some 100; vm_config := None |}.
Definition vm7_host : Recorded Host := Build_Recorded (101, [(vm7_socket, 100)]) [].
Definition vm7_info : VmInfo := {| info_vm_config := default_vm_config; info_state := VmRunning |}.

(** The VM is stopped and its process killed, but the storage stays mapped and
    the runtime directory stays, and nothing of that is reported. *)
Example destroy_outcome_witness :
  let '(w', i', r) := destroy read_id None (recorded_transform stuck_teardown) vm7_instance vm7_host in
  r = Ok () ∧ child_process i' = None ∧
  rec_calls w' = [CInfo vm7_socket (Ok vm7_info); CShutdownVm vm7_socket (Ok ());
    CShutdownVmm vm7_socket (Ok ()); CKill 100 (Ok ());
    CTeardown (lit "vm7") default_vm_config (Err StorageFailed)].
Proof.
  pose proof (destroy_outcome read_id None stuck_teardown vm7_instance vm7_host) as H.
  assert ((destroy read_id None (recorded_transform stuck_teardown) vm7_instance vm7_host).2 = Ok ())
    as Hr by (vm_compute; reflexivity).
  assert (rec_calls (destroy read_id None (recorded_transform stuck_teardown) vm7_instance vm7_host).1.1 =
    [CInfo vm7_socket (Ok vm7_info); CShutdownVm vm7_socket (Ok ()); CShutdownVmm vm7_socket (Ok ());
     CKill 100 (Ok ()); CTeardown (lit "vm7") default_vm_config (Err StorageFailed)])
    as Hc by (vm_compute; reflexivity).
  destruct (destroy read_id None (recorded_transform stuck_teardown) vm7_instance vm7_host) as [[w' i'] r].
  cbn in Hr, Hc. subst r. destruct H as (_ & stop & rest & _ & _ & _ & _ & ->).
  split; [reflexivity|]. split; [reflexivity|exact Hc].
Defined.
