(* ===== verification/Process.v ===== *)
(** * The node's process

    [odorobo/src/main.rs], [odorobo/src/utils/lockfile.rs] and the swarm task of
    [odorobo/src/utils/mod.rs]: the lock file, the loop of the main thread, the
    actors that are started, and processes that compete for the lock as a
    state machine. The file system, signals and the runtime are arguments. *)

From S2P Require Import Prelude RustString Config.
Open Scope N_scope.

(** ** The lock file *)

(** The file at [/var/lock/odorobo.lock]: its bytes, when it exists. *)
Definition LOCKFILE : rstring := lit "/var/lock/odorobo.lock".
Definition LockFs : Type := option (list N).

Inductive LockError := CannotCreate | CannotWrite | CannotFlush.

(** [Lockfile(Some _)] holds the file, [Lockfile(None)] was told to skip it. *)
Inductive Lockfile := Held | Skipped.

(** How the file system answers: a creation that fails for another reason than
    an existing file, a write that fails after some bytes, a failing flush. *)
Record LockIo := {
  io_create : bool;
  io_write_fails : option nat;
  io_flush : bool }.
Definition io_fine : LockIo := {| io_create := true; io_write_fails := None; io_flush := true |}.

Section lockfile.
(** [u32::to_ne_bytes] of the node's architecture. *)
Context (to_ne_bytes : N → list N).

(** [File::create_new]: one system call, which fails when the file exists. *)
Definition create_new (io : LockIo) (fs : LockFs) : LockFs * bool :=
  match fs with
  | Some _ => (fs, false)
  | None => if io_create io then (Some [], true) else (fs, false)
  end.

(** Writing and flushing the process id into the file that was created. *)
Definition write_pid (io : LockIo) (pid : N) : LockFs * result LockError () :=
  match io_write_fails io with
  | Some k => (Some (take k (to_ne_bytes pid)), Err CannotWrite)
  | None =>
      (Some (to_ne_bytes pid), if io_flush io then Ok () else Err CannotFlush)
  end.

Definition init_lockfile (cfg : Config) (io : LockIo) (pid : N) (fs : LockFs) :
    LockFs * result LockError Lockfile :=
  if default false (no_lockfile cfg) then (fs, Ok Skipped)
  else
    match create_new io fs with
    | (fs, false) => (fs, Err CannotCreate)
    | (_, true) =>
        match write_pid io pid with
        | (fs, Err e) => (fs, Err e)
        | (fs, Ok ()) => (fs, Ok Held)
        end
    end.

(** [Drop for Lockfile]; [removed] is whether [remove_file] succeeds, whose
    failure is only logged. *)
Definition drop_lockfile (lock : Lockfile) (removed : bool) (fs : LockFs) : LockFs :=
  match lock with
  | Skipped => fs
  | Held => if removed then None else fs
  end.

(** ** The main thread *)

Inductive MainError :=
| InitFailed
| SignalsFailed
| LockFailed (e : LockError)
| RuntimeFailed
| JoinFailed
| InnerFailed
| Terminated.

(** What one turn of the loop sees: the outcome of the spawned task once it has
    finished ([None] inside for a task that panicked), and the signal flag. *)
Record Turn := {
  turn_finished : option (option (result () ()));
  turn_term : bool }.

Definition join (outcome : option (result () ())) : result MainError () :=
  match outcome with
  | None => Err JoinFailed
  | Some (Err ()) => Err InnerFailed
  | Some (Ok ()) => Ok ()
  end.

(** The loop of [mainloop], from turn [i]. *)
Fixpoint mainloop_from (fuel : nat) (turns : nat → Turn) (i : nat) : option (result MainError ()) :=
  match fuel with
  | O => None
  | S fuel =>
      match turn_finished (turns i) with
      | Some outcome => Some (join outcome)
      | None => if turn_term (turns i) then Some (Err Terminated) else mainloop_from fuel turns (S i)
      end
  end.

Definition mainloop (runtime : bool) (fuel : nat) (turns : nat → Turn) : option (result MainError ()) :=
  if negb runtime then Some (Err RuntimeFailed) else mainloop_from fuel turns 0.

(** [main]: [None] as the result means that the fuel ran out in the loop.
    [installed] is the outcome of setting up reports and logging ([init]); error
    reporting ([init_sentry]) cannot fail. *)
Definition main (cfg : Config) (installed signals runtime : bool) (io : LockIo) (removed : bool) (pid : N)
    (turns : nat → Turn) (fuel : nat) (fs : LockFs) : LockFs * option (result MainError ()) :=
  if negb installed then (fs, Some (Err InitFailed))
  else if negb signals then (fs, Some (Err SignalsFailed))
  else
    match init_lockfile cfg io pid fs with
    | (fs, Err e) => (fs, Some (Err (LockFailed e)))
    | (fs, Ok lock) =>
        match mainloop runtime fuel turns with
        | None => (fs, None)
        | Some r => (drop_lockfile lock removed fs, Some r)
        end
    end.
End lockfile.

(** ** Logging, error reporting and the swarm *)

(** [init_sentry]: reporting is on exactly when a DSN is configured; [guard] is
    what [sentry::init] returns for it. *)
Definition init_sentry {G} (guard : rstring → G) (dsn : option rstring) : option G := guard <$> dsn.

(** The log filter: what is parsed, leniently, over the default level, and the
    directives added to it. *)
Record EnvFilter := {
  default_directive : rstring;
  parsed_directives : rstring;
  added_directives : list rstring }.

Definition CARGO_PKG_NAME : rstring := lit "odorobo".

(** [env] is the variable [ODOROBO_LOG]. *)
Definition env_filter (debug_assertions : bool) (env debug_target : option rstring) : EnvFilter := {|
  default_directive := lit "info";
  parsed_directives := default [] env;
  added_directives :=
    if debug_assertions then
      option_list ((λ target, target ++ lit "=trace") <$> debug_target) ++
      [((λ c, if c =? 45 then 95 else c) <$> CARGO_PKG_NAME) ++ lit "=debug"]
    else [] |}.

(** [init]: [installed] is the outcome of [stable_eyre::install]. *)
Definition init (installed debug_assertions : bool) (env debug_target : option rstring) :
    result MainError EnvFilter :=
  if installed then Ok (env_filter debug_assertions env debug_target) else Err InitFailed.

(** Joining the swarm: what is done before the first failure. *)
Inductive SwarmError := TcpFailed | BehaviourFailed | ListenFailed.
Inductive SwarmSetup := InitGlobal | ListenOn (addr : rstring) | SpawnSwarmTask.
Definition connect_to_swarm {Peer} (tcp behaviour listen : bool) (local_peer_id : Peer) :
    list SwarmSetup * result SwarmError Peer :=
  let addr := lit "/ip4/0.0.0.0/tcp/0" in
  if negb tcp then ([], Err TcpFailed)
  else if negb behaviour then ([], Err BehaviourFailed)
  else if negb listen then ([InitGlobal; ListenOn addr], Err ListenFailed)
  else ([InitGlobal; ListenOn addr; SpawnSwarmTask], Ok local_peer_id).

(** ** The actors of a node *)

Definition AGENT : rstring := lit "agent".
Definition VM : rstring := lit "vm".
Definition SCHEDULER : rstring := lit "scheduler".
Definition HTTP_API_SERVER : rstring := lit "http_api_server".
Definition NETWORK : rstring := lit "network_actor".
(** [ulid] is the text of the VM's identifier. *)
Definition vm_actor_id (ulid : rstring) : rstring := lit "vm:" ++ ulid.

Inductive NodeStep :=
| ConnectToSwarm
| SpawnActor (name : rstring)
| RegisterActor (name : rstring)
| WaitForShutdown (name : rstring).

(** The steps in order, up to a registration that fails ([Some (Err ())]) or a
    swarm that cannot be joined, which panics ([None]). *)
Fixpoint run_steps (swarm : bool) (registered : rstring → bool) (steps : list NodeStep) :
    list NodeStep * option (result () ()) :=
  match steps with
  | [] => ([], Some (Ok ()))
  | s :: steps =>
      let rest := let '(done, r) := run_steps swarm registered steps in (s :: done, r) in
      match s with
      | ConnectToSwarm => if swarm then rest else ([s], None)
      | RegisterActor name => if registered name then rest else ([s], Some (Err ()))
      | SpawnActor _ | WaitForShutdown _ => rest
      end
  end.

Definition inner_main (config : Config) (swarm : bool) (registered : rstring → bool) :
    list NodeStep * option (result () ()) :=
  run_steps swarm registered
    ([ConnectToSwarm; SpawnActor AGENT; RegisterActor AGENT]
     ++ (if get_manager_enabled config then
           [SpawnActor SCHEDULER; SpawnActor HTTP_API_SERVER;
            RegisterActor SCHEDULER; RegisterActor HTTP_API_SERVER;
            WaitForShutdown SCHEDULER; WaitForShutdown HTTP_API_SERVER]
         else [])
     ++ [WaitForShutdown AGENT]).

(** A node that is not a manager runs the agent only. *)
Lemma inner_main_agent_only config swarm registered name :
  get_manager_enabled config = false →
  SpawnActor name ∈ (inner_main config swarm registered).1 → name = AGENT.
Proof.
  unfold inner_main. intros ->. cbn. destruct swarm; cbn; [|set_solver].
  destruct (registered AGENT); cbn; set_solver.
Qed.

(** ** The swarm task *)

Inductive SwarmEvent (Peer Addr : Type) :=
| MdnsDiscovered (l : list (Peer * Addr))
| MdnsExpired (l : list (Peer * Addr))
| RegistryEvent | MessagingEvent | NewListenAddr (a : Addr)
| ConnectionEstablished (p : Peer) | ConnectionClosed (p : Peer) | OtherEvent.
Arguments MdnsDiscovered {Peer Addr} _.
Arguments MdnsExpired {Peer Addr} _.
Arguments RegistryEvent {Peer Addr}.
Arguments MessagingEvent {Peer Addr}.
Arguments NewListenAddr {Peer Addr} _.
Arguments ConnectionEstablished {Peer Addr} _.
Arguments ConnectionClosed {Peer Addr} _.
Arguments OtherEvent {Peer Addr}.

Inductive SwarmAction (Peer Addr : Type) := AddPeerAddress (p : Peer) (a : Addr) | Disconnect (p : Peer).
Arguments AddPeerAddress {Peer Addr} _ _.
Arguments Disconnect {Peer Addr} _.

(** One turn of the loop; the other events are logged or ignored. *)
Definition swarm_handle {Peer Addr} (e : SwarmEvent Peer Addr) : list (SwarmAction Peer Addr) :=
  match e with
  | MdnsDiscovered l => (λ pa, AddPeerAddress pa.1 pa.2) <$> l
  | MdnsExpired l => (λ pa, Disconnect pa.1) <$> l
  | RegistryEvent | MessagingEvent | NewListenAddr _
  | ConnectionEstablished _ | ConnectionClosed _ | OtherEvent => []
  end.

(** ** The loop ends *)

(** The loop stops at the first turn that sees the task finished or a signal. *)
Definition turn_stops (t : Turn) : bool :=
  match turn_finished t with Some _ => true | None => turn_term t end.
Definition turn_result (t : Turn) : result MainError () :=
  match turn_finished t with Some outcome => join outcome | None => Err Terminated end.

Lemma mainloop_stops turns n k fuel :
  (∀ i, (k ≤ i < k + n)%nat → turn_stops (turns i) = false) →
  turn_stops (turns (k + n)%nat) = true → (n < fuel)%nat →
  mainloop_from fuel turns k = Some (turn_result (turns (k + n)%nat)).
Proof.
  revert k fuel. induction n as [|n IH]; intros k fuel Hno Hyes Hf.
  - destruct fuel as [|fuel]; [lia|]. rewrite Nat.add_0_r in *. cbn.
    unfold turn_stops, turn_result in *. destruct (turn_finished (turns k)); [done|]. by rewrite Hyes.
  - destruct fuel as [|fuel]; [lia|]. cbn.
    assert (turn_stops (turns k) = false) as Hk by (apply Hno; lia). unfold turn_stops in Hk.
    destruct (turn_finished (turns k)); [done|]. rewrite Hk.
    rewrite IH; [by rewrite Nat.add_succ_r|..|lia].
    + intros i Hi. apply Hno. lia.
    + by rewrite Nat.add_succ_r in Hyes.
Qed.

(** A turn that stops has a first one. *)
Lemma first_stop turns n :
  turn_stops (turns n) = true →
  ∃ m, (m ≤ n)%nat ∧ turn_stops (turns m) = true ∧ ∀ i, (i < m)%nat → turn_stops (turns i) = false.
Proof.
  induction n as [n IH] using lt_wf_ind. intros Hn.
  destruct (decide (Exists (λ i, turn_stops (turns i) = true) (seq 0 n))) as [He|Hnone].
  - apply Exists_exists in He as (i & Hi%elem_of_seq & Hs).
    destruct (IH i) as (m & Hm & Hs' & Hf); [lia|done|]. exists m. split; [lia|done].
  - exists n. split; [lia|]. split; [done|]. intros i Hi.
    apply not_true_iff_false. intros Hs. apply Hnone, Exists_exists.
    exists i. rewrite elem_of_seq. split; [lia|done].
Qed.

(** The setup before the main loop succeeds: reports and signal handlers are
    installed and the lock is skipped, or created, written and flushed. *)
Definition skips_lock (cfg : Config) : bool := default false (no_lockfile cfg).
Definition setup_ok (cfg : Config) (installed signals : bool) (io : LockIo) (fs : LockFs) : Prop :=
  installed = true ∧ signals = true ∧
  (skips_lock cfg = true ∨
   fs = None ∧ io_create io = true ∧ io_write_fails io = None ∧ io_flush io = true).

(** What a failed setup returns, and the file it leaves. *)
Definition setup_failure (to_ne_bytes : N → list N) (installed signals : bool) (io : LockIo) (pid : N)
    (fs fs' : LockFs) (e : MainError) : Prop :=
  (installed = false ∧ e = InitFailed ∧ fs' = fs) ∨
  (installed = true ∧ signals = false ∧ e = SignalsFailed ∧ fs' = fs) ∨
  ((is_Some fs ∨ io_create io = false) ∧ e = LockFailed CannotCreate ∧ fs' = fs) ∨
  (∃ k, fs = None ∧ io_write_fails io = Some k ∧ e = LockFailed CannotWrite ∧
     fs' = Some (take k (to_ne_bytes pid))) ∨
  (fs = None ∧ io_flush io = false ∧ e = LockFailed CannotFlush ∧ fs' = Some (to_ne_bytes pid)).

Lemma init_lockfile_cases to_ne_bytes cfg io pid fs :
  match init_lockfile to_ne_bytes cfg io pid fs with
  | (fs', Ok Skipped) => skips_lock cfg = true ∧ fs' = fs
  | (fs', Ok Held) => skips_lock cfg = false ∧ setup_ok cfg true true io fs ∧
      fs' = Some (to_ne_bytes pid)
  | (fs', Err e) => ¬ setup_ok cfg true true io fs ∧
      setup_failure to_ne_bytes true true io pid fs fs' (LockFailed e)
  end.
Proof.
  unfold init_lockfile, create_new, write_pid, setup_ok, setup_failure, skips_lock.
  destruct (default false (no_lockfile cfg)); [done|].
  destruct fs; [|destruct (io_create io) eqn:?; [destruct (io_write_fails io) eqn:?
    |]; [|destruct (io_flush io) eqn:?|]]; cbn; naive_solver.
Qed.

(** C33. The node's process ends, with the result of its first stopping turn and
    a known lock file. Once the spawned task has finished or a termination
    signal has arrived at some turn of the main loop, [main] returns, whatever
    the fuel beyond that turn, the outcome of every system call of the setup, the
    file found at the start and the outcome of its removal. If the setup
    succeeds, the result is that of the first stopping turn (the task's outcome
    before the signal; an error if the runtime cannot be built), and the file is
    gone if the process created it and the removal succeeds, holds the process
    id if the removal fails, and is untouched if the lock is skipped. If the
    setup fails, the result is its error and the file is as it was, except that
    a failed write or flush leaves the file behind. A process never touches a
    file that existed before it. A second termination signal, which ends the
    process without returning from [main], is a step of the system below. *)
Theorem main_terminates to_ne_bytes cfg installed signals runtime io removed pid turns n fuel fs :
  turn_stops (turns n) = true → (n < fuel)%nat →
  ∃ m fs' r, (m ≤ n)%nat ∧ turn_stops (turns m) = true ∧
    (∀ i, (i < m)%nat → turn_stops (turns i) = false) ∧
    main to_ne_bytes cfg installed signals runtime io removed pid turns fuel fs = (fs', Some r) ∧
    (setup_ok cfg installed signals io fs →
      r = (if runtime then turn_result (turns m) else Err RuntimeFailed) ∧
      fs' = if skips_lock cfg then fs else if removed then None else Some (to_ne_bytes pid)) ∧
    (¬ setup_ok cfg installed signals io fs → ∃ e, r = Err e ∧
      setup_failure to_ne_bytes installed signals io pid fs fs' e) ∧
    (is_Some fs → fs' = fs).
Proof.
  intros Hn Hf. destruct (first_stop turns n Hn) as (m & Hm & Hs & Hno).
  assert (mainloop runtime fuel turns =
    Some (if runtime then turn_result (turns m) else Err RuntimeFailed)) as Hloop.
  { destruct runtime; [|done]. apply (mainloop_stops turns m 0); [|done|lia].
    intros i Hi. apply Hno. lia. }
  exists m. unfold main. destruct installed; cbn [negb].
  2: { exists fs, (Err InitFailed). unfold setup_ok, setup_failure. naive_solver. }
  destruct signals; cbn [negb].
  2: { exists fs, (Err SignalsFailed). unfold setup_ok, setup_failure. naive_solver. }
  pose proof (init_lockfile_cases to_ne_bytes cfg io pid fs) as Hl.
  destruct (init_lockfile to_ne_bytes cfg io pid fs) as [fs' [[|]|e]]; try rewrite Hloop.
  - destruct Hl as (Hsk & Hok & ->). eexists _, _. rewrite Hsk. split_and!; try done.
    destruct Hok as (_ & _ & [?|(-> & _)]); [congruence|]. by intros [].
  - destruct Hl as [Hsk ->]. eexists _, _. rewrite Hsk. split_and!; try done.
    intros Hno'. destruct Hno'. split_and!; [done..|by left].
  - destruct Hl as [Hno' Hfail]. eexists _, _. split_and!; try done; [by eauto|].
    intros [b Hb]. unfold setup_failure in Hfail. naive_solver.
Qed.

Definition idle_turn : Turn := {| turn_finished := None; turn_term := false |}.
Definition signal_turn : Turn := {| turn_finished := None; turn_term := true |}.
Definition plain_config : Config := {|
  manager_enabled := None; hostname := None; datacenter := None; region := None;
  sentry_dsn := None; reserved_vcpus := None; config_labels := ∅; config_annotations := ∅;
  network := {| dhcp_config := None; network_mode := default_network_mode (lit "eth0") |};
  no_lockfile := None |}.

(** A node that gets SIGTERM at its third turn; the removal of the file
    succeeds or fails. *)
Definition sigterm_turns (i : nat) : Turn := if (i <? 2)%nat then idle_turn else signal_turn.

Example main_terminates_witness :
  (∃ m, (m ≤ 2)%nat ∧ main (λ pid, [pid]) plain_config true true true io_fine true 42 sigterm_turns 5 None
     = (None, Some (turn_result (sigterm_turns m)))) ∧
  (∃ m, (m ≤ 2)%nat ∧ main (λ pid, [pid]) plain_config true true true io_fine false 42 sigterm_turns 5 None
     = (Some [42], Some (turn_result (sigterm_turns m)))).
Proof.
  split.
  - destruct (main_terminates (λ pid, [pid]) plain_config true true true io_fine true 42
      sigterm_turns 2 5 None eq_refl) as (m & fs' & r & Hm & _ & _ & Hr & Hok & _); [lia|].
    exists m. split; [exact Hm|]. rewrite Hr.
    destruct Hok as [-> ->]; [split_and!; [done..|by right]|]. reflexivity.
  - destruct (main_terminates (λ pid, [pid]) plain_config true true true io_fine false 42
      sigterm_turns 2 5 None eq_refl) as (m & fs' & r & Hm & _ & _ & Hr & Hok & _); [lia|].
    exists m. split; [exact Hm|]. rewrite Hr.
    destruct Hok as [-> ->]; [split_and!; [done..|by right]|]. reflexivity.
Defined.

(** A write that fails leaves a file that nobody removes. *)
Example failed_write_leaks :
  main (λ pid, [pid]) plain_config true true true
    {| io_create := true; io_write_fails := Some 0%nat; io_flush := true |} true 42
    (λ _, signal_turn) 5 None = (Some [], Some (Err (LockFailed CannotWrite))).
Proof. reflexivity. Qed.

(** ** Several processes *)

(** What [register_termsigs] installs for a termination signal, in order: exit
    at once when the flag is already set ([None]), then set the flag. *)
Definition on_termsig (term : bool) : option bool := if term then None else Some true.

(** Where a process is: before the lock, between creating the file and having
    written it, serving (with the guard or without). *)
Inductive Phase := Starting (skip : bool) | Writing | Serving (lock : Lockfile).
Record Proc := { proc_phase : Phase; proc_term : bool }.
Record System := { sys_lock : LockFs; sys_procs : gmap N Proc }.

Definition set_phase (p : N) (ph : Phase) (term : bool) (procs : gmap N Proc) : gmap N Proc :=
  <[p := {| proc_phase := ph; proc_term := term |}]> procs.

Section system.
Context (to_ne_bytes : N → list N).

(** The system calls of the processes, interleaved. A second termination
    signal ends a process at once, as does one that cannot be handled. *)
Inductive step (sys : System) : System → Prop :=
| step_start p cfg :
    sys_procs sys !! p = None →
    step sys {| sys_lock := sys_lock sys;
                sys_procs := set_phase p (Starting (default false (no_lockfile cfg))) false
                               (sys_procs sys) |}
| step_skip p term :
    sys_procs sys !! p = Some {| proc_phase := Starting true; proc_term := term |} →
    step sys {| sys_lock := sys_lock sys;
                sys_procs := set_phase p (Serving Skipped) term (sys_procs sys) |}
| step_create p term io fs :
    sys_procs sys !! p = Some {| proc_phase := Starting false; proc_term := term |} →
    create_new io (sys_lock sys) = (fs, true) →
    step sys {| sys_lock := fs; sys_procs := set_phase p Writing term (sys_procs sys) |}
| step_create_fails p term io fs :
    sys_procs sys !! p = Some {| proc_phase := Starting false; proc_term := term |} →
    create_new io (sys_lock sys) = (fs, false) →
    step sys {| sys_lock := fs; sys_procs := delete p (sys_procs sys) |}
| step_write p term io fs :
    sys_procs sys !! p = Some {| proc_phase := Writing; proc_term := term |} →
    write_pid to_ne_bytes io p = (fs, Ok ()) →
    step sys {| sys_lock := fs; sys_procs := set_phase p (Serving Held) term (sys_procs sys) |}
| step_write_fails p term io fs e :
    sys_procs sys !! p = Some {| proc_phase := Writing; proc_term := term |} →
    write_pid to_ne_bytes io p = (fs, Err e) →
    step sys {| sys_lock := fs; sys_procs := delete p (sys_procs sys) |}
| step_signal p ph term term' :
    sys_procs sys !! p = Some {| proc_phase := ph; proc_term := term |} →
    on_termsig term = Some term' →
    step sys {| sys_lock := sys_lock sys; sys_procs := set_phase p ph term' (sys_procs sys) |}
| step_second_signal p ph term :
    sys_procs sys !! p = Some {| proc_phase := ph; proc_term := term |} →
    on_termsig term = None →
    step sys {| sys_lock := sys_lock sys; sys_procs := delete p (sys_procs sys) |}
| step_leave p lock term removed :
    sys_procs sys !! p = Some {| proc_phase := Serving lock; proc_term := term |} →
    step sys {| sys_lock := drop_lockfile lock removed (sys_lock sys);
                sys_procs := delete p (sys_procs sys) |}
| step_killed p proc :
    sys_procs sys !! p = Some proc →
    step sys {| sys_lock := sys_lock sys; sys_procs := delete p (sys_procs sys) |}.

Inductive reachable_from (sys : System) : System → Prop :=
| reach_here : reachable_from sys sys
| reach_step sys' sys'' : reachable_from sys sys' → step sys' sys'' → reachable_from sys sys''.

Definition boot : System := {| sys_lock := None; sys_procs := ∅ |}.

(** A process between its creation of the file and its removal. *)
Definition owns (sys : System) (p : N) : Prop :=
  ∃ term, sys_procs sys !! p = Some {| proc_phase := Writing; proc_term := term |} ∨
          sys_procs sys !! p = Some {| proc_phase := Serving Held; proc_term := term |}.

(** The owners do not change but at [p]. *)
Lemma owns_set sys p ph term fs q :
  owns {| sys_lock := fs; sys_procs := set_phase p ph term (sys_procs sys) |} q ↔
  (q = p ∧ (ph = Writing ∨ ph = Serving Held)) ∨ (q ≠ p ∧ owns sys q).
Proof.
  unfold owns, set_phase. cbn [sys_procs]. destruct (decide (q = p)) as [->|Hne].
  - rewrite lookup_insert_eq. naive_solver.
  - rewrite lookup_insert_ne by done. naive_solver.
Qed.
Lemma owns_delete sys p fs q :
  owns {| sys_lock := fs; sys_procs := delete p (sys_procs sys) |} q ↔ q ≠ p ∧ owns sys q.
Proof.
  unfold owns. cbn [sys_procs]. destruct (decide (q = p)) as [->|Hne].
  - rewrite lookup_delete_eq. naive_solver.
  - rewrite lookup_delete_ne by done. naive_solver.
Qed.

Record lock_inv (sys : System) : Prop := {
  inv_one p q : owns sys p → owns sys q → p = q;
  inv_file p : owns sys p → is_Some (sys_lock sys);
  inv_pid p term :
    sys_procs sys !! p = Some {| proc_phase := Serving Held; proc_term := term |} →
    sys_lock sys = Some (to_ne_bytes p) }.

Lemma create_new_ok io fs fs' : create_new io fs = (fs', true) → fs = None ∧ fs' = Some [].
Proof. unfold create_new. destruct fs; [done|]. destruct (io_create io); naive_solver. Qed.
Lemma create_new_fails io fs fs' : create_new io fs = (fs', false) → fs' = fs.
Proof. unfold create_new. destruct fs; [naive_solver|]. destruct (io_create io); naive_solver. Qed.
Lemma write_pid_file io p fs r : write_pid to_ne_bytes io p = (fs, r) → is_Some fs.
Proof. unfold write_pid. destruct (io_write_fails io); intros [= <- <-]; eauto. Qed.
Lemma write_pid_ok io p fs : write_pid to_ne_bytes io p = (fs, Ok ()) → fs = Some (to_ne_bytes p).
Proof. unfold write_pid. destruct (io_write_fails io); [done|]. by intros [= <-]. Qed.

(** A step that leaves the file alone and makes no new owner. *)
Lemma lock_inv_neutral sys procs :
  (∀ q ph term, procs !! q = Some {| proc_phase := ph; proc_term := term |} →
     ph = Writing ∨ ph = Serving Held →
     ∃ term', sys_procs sys !! q = Some {| proc_phase := ph; proc_term := term' |}) →
  lock_inv sys → lock_inv {| sys_lock := sys_lock sys; sys_procs := procs |}.
Proof.
  intros Hsub [Hone Hfile Hpid].
  assert (∀ q, owns {| sys_lock := sys_lock sys; sys_procs := procs |} q → owns sys q) as Howns.
  { intros q [term [Hq|Hq]]; apply Hsub in Hq as [term' Hq]; [|tauto| |tauto]; exists term'; tauto. }
  split; [eauto|eauto|]. cbn. intros p term Hp.
  apply Hsub in Hp as [term' Hp]; [|tauto]. eauto.
Qed.

(** A state without owners, and one whose only owner wrote the file. *)
Lemma lock_inv_none sys : (∀ p, ¬ owns sys p) → lock_inv sys.
Proof.
  intros Hno. split; [by intros p q []%Hno|by intros p []%Hno|].
  intros p term Hp. destruct (Hno p). exists term. by right.
Qed.
Lemma lock_inv_sole sys p ph term fs :
  (∀ q, owns sys q → q = p) → is_Some fs →
  (ph = Serving Held → fs = Some (to_ne_bytes p)) →
  lock_inv {| sys_lock := fs; sys_procs := set_phase p ph term (sys_procs sys) |}.
Proof.
  intros Hsole Hfs Hpid.
  assert (∀ q, owns {| sys_lock := fs; sys_procs := set_phase p ph term (sys_procs sys) |} q → q = p)
    as Howns by (intros q [[-> _]|[_ Hq]]%owns_set; auto).
  split; [|by cbn|].
  - intros q q' ->%Howns ->%Howns. done.
  - cbn. intros q term' Hq. assert (q = p) as -> by (apply Howns; exists term'; by right).
    unfold set_phase in Hq. rewrite lookup_insert_eq in Hq. injection Hq as -> ->. auto.
Qed.

Lemma lock_inv_step sys sys' : lock_inv sys → step sys sys' → lock_inv sys'.
Proof.
  intros Hinv Hstep.
  destruct Hstep as [p cfg Hp|p term Hp|p term io fs Hp Hio|p term io fs Hp Hio|p term io fs Hp Hio
    |p term io fs e Hp Hio|p ph term term' Hp Hs|p ph term Hp Hs|p lock term removed Hp|p proc Hp].
  - apply lock_inv_neutral; [|done]. unfold set_phase.
    intros q ph term [[<- [= <- <-]]|[_ Hq]]%lookup_insert_Some [?|?]; by eauto.
  - apply lock_inv_neutral; [|done]. unfold set_phase.
    intros q ph term' [[<- [= <- <-]]|[_ Hq]]%lookup_insert_Some [?|?]; by eauto.
  - apply create_new_ok in Hio as [Hno ->]. apply lock_inv_sole; [|by eexists|done].
    intros q Hq. apply (inv_file _ Hinv) in Hq. rewrite Hno in Hq. by destruct Hq.
  - apply create_new_fails in Hio as ->. apply lock_inv_neutral; [|done].
    intros q ph term' [_ Hq]%lookup_delete_Some _. eauto.
  - apply lock_inv_sole; [|by eapply write_pid_file|intros _; by eapply write_pid_ok].
    intros q Hq. apply (inv_one _ Hinv); [done|]. exists term. by left.
  - apply lock_inv_none. intros q [Hne Hq]%owns_delete. apply Hne.
    apply (inv_one _ Hinv); [done|]. exists term. by left.
  - apply lock_inv_neutral; [|done]. unfold set_phase.
    intros q ph' term1 [[<- [= <- <-]]|[_ Hq]]%lookup_insert_Some _; by eauto.
  - apply lock_inv_neutral; [|done]. intros q ph' term1 [_ Hq]%lookup_delete_Some _. eauto.
  - destruct lock; cbn [drop_lockfile]; [destruct removed|].
    + apply lock_inv_none. intros q [Hne Hq]%owns_delete. apply Hne.
      apply (inv_one _ Hinv); [done|]. exists term. by right.
    + apply lock_inv_neutral; [|done]. intros q ph term' [_ Hq]%lookup_delete_Some _. eauto.
    + apply lock_inv_neutral; [|done]. intros q ph term' [_ Hq]%lookup_delete_Some _. eauto.
  - apply lock_inv_neutral; [|done]. intros q ph term' [_ Hq]%lookup_delete_Some _. eauto.
Qed.

(** C19. Only one instance serves. Whatever processes start, stop, fail to
    write or are killed, in any interleaving of their system calls: at most
    one of them is between creating the lock file and removing it, the file
    exists as long as there is one, and it holds the process id of the one
    that serves with the lock. *)
Theorem lock_exclusive sys :
  reachable_from boot sys →
  (∀ p q, owns sys p → owns sys q → p = q) ∧
  (∀ p, owns sys p → is_Some (sys_lock sys)) ∧
  (∀ p term, sys_procs sys !! p = Some {| proc_phase := Serving Held; proc_term := term |} →
     sys_lock sys = Some (to_ne_bytes p)).
Proof.
  intros Hr. assert (lock_inv sys) as []; [|done].
  induction Hr as [|sys sys' Hr IH Hstep]; [|by eapply lock_inv_step].
  apply lock_inv_none. intros p [term [Hp|Hp]]; cbn in Hp; by rewrite lookup_empty in Hp.
Qed.

(** A file without an owner is never removed: every process that wants the
    lock fails from then on. *)
Lemma stale_lock_blocks sys sys' :
  is_Some (sys_lock sys) → (∀ p, ¬ owns sys p) → reachable_from sys sys' →
  sys_lock sys' = sys_lock sys ∧ ∀ p, ¬ owns sys' p.
Proof.
  intros Hl Hno Hr. induction Hr as [|sys1 sys2 Hr [IHl IH] Hstep]; [done|].
  rewrite <-IHl in Hl |- *.
  destruct Hstep as [p cfg Hp|p term Hp|p term io fs Hp Hio|p term io fs Hp Hio|p term io fs Hp Hio
    |p term io fs e Hp Hio|p ph term term' Hp Hs|p ph term Hp Hs|p lock term removed Hp|p proc Hp];
    cbn [sys_lock].
  - split; [done|]. intros q [[_ [?|?]]|[_ Hq]]%owns_set; [done..|by apply IH in Hq].
  - split; [done|]. intros q [[_ [?|?]]|[_ Hq]]%owns_set; [done..|by apply IH in Hq].
  - apply create_new_ok in Hio as [Hnone _]. rewrite Hnone in Hl. by destruct Hl.
  - apply create_new_fails in Hio as ->. split; [done|]. by intros q [_ []%IH]%owns_delete.
  - destruct (IH p). exists term. by left.
  - destruct (IH p). exists term. by left.
  - split; [done|]. intros q [[-> Hph]|[_ Hq]]%owns_set; [|by apply IH in Hq].
    destruct (IH p). exists term. destruct Hph as [-> | ->]; tauto.
  - split; [done|]. by intros q [_ []%IH]%owns_delete.
  - destruct lock; [destruct (IH p); exists term; by right|].
    split; [done|]. by intros q [_ []%IH]%owns_delete.
  - split; [done|]. by intros q [_ []%IH]%owns_delete.
Qed.
End system.

(** A process that started, created the file and wrote its id. *)
Definition one_serving : System := {|
  sys_lock := Some [1];
  sys_procs := set_phase 1 (Serving Held) false
    (set_phase 1 Writing false (set_phase 1 (Starting false) false ∅)) |}.

Lemma one_serving_reachable : reachable_from (λ pid, [pid]) boot one_serving.
Proof.
  set (started := {| sys_lock := None; sys_procs := set_phase 1 (Starting false) false ∅ |}).
  set (created := {| sys_lock := Some []; sys_procs := set_phase 1 Writing false (sys_procs started) |}).
  apply (reach_step _ _ created); [apply (reach_step _ _ started);
    [apply (reach_step _ _ boot); [apply reach_here|]|]|].
  - apply (step_start _ boot 1 plain_config). reflexivity.
  - apply (step_create _ started 1 false io_fine); reflexivity.
  - apply (step_write _ created 1 false io_fine); reflexivity.
Qed.

Example lock_exclusive_witness :
  owns one_serving 1 ∧ ∀ q, owns one_serving q → q = 1.
Proof.
  assert (owns one_serving 1) as H1 by (exists false; right; reflexivity).
  split; [exact H1|]. intros q Hq.
  exact (proj1 (lock_exclusive (λ pid, [pid]) one_serving one_serving_reachable) q 1 Hq H1).
Defined.
