(* ===== verification/HttpApi.v ===== *)
(** * The HTTP API

    [odorobo/src/http_api/], [odorobo/src/actors/http_actor.rs], the request
    and response types of [odorobo/src/types.rs] and the error type of
    [odorobo/src/utils/mod.rs]: the route table, the HTTP actor that forwards
    each request to the scheduler, the handlers and their status codes. The
    body of a request or response that is JSON text is kept as its value. The
    router, the actor runtime and the text of their errors are parameters. *)

From S2P Require Import Prelude RustString RustFloat SortedVec Manifest Json ManifestJson.
From S2P Require Import Messages Cache Scheduling SchedHandlers.
Open Scope N_scope.

(** ** Errors *)

(** An [eyre] report: its message and those of its causes, outermost first. *)
Definition Report : Type := rstring * list rstring.
Definition report_msg (m : rstring) : Report := (m, []).
Definition wrap_err {A} (m : rstring) (r : result Report A) : result Report A :=
  match r with
  | Ok a => Ok a
  | Err (top, causes) => Err (m, top :: causes)
  end.
(** [Display] of a report prints its outermost message. *)
Definition report_display (r : Report) : rstring := r.1.

(** [kameo]'s error of a request: the handler's own, or one of the runtime. *)
Inductive SendError (E : Type) := HandlerError (e : E) | Runtime (why : rstring).
Arguments HandlerError {E} _.
Arguments Runtime {E} _.

Inductive OdoroboError := NotFound (m : rstring) | ReportError (r : Report).

(** [From<SendError<M, Report>>]. *)
Definition from_send_error (value : SendError Report) : OdoroboError :=
  ReportError
    match value with
    | HandlerError r => r
    | Runtime why => report_msg (lit "could not unwrap kameo error: " ++ why)
    end.

(** ** Responses *)

Inductive Body := BEmpty | BJson (j : Json) | BText (s : rstring) | BBytes (b : list N).

Record HttpResponse := { status : N; body : Body }.
Record HttpRequest := { method : rstring; path : rstring; payload : Body }.

Definition GET := lit "GET".
Definition POST := lit "POST".
Definition PUT := lit "PUT".
Definition PATCH := lit "PATCH".
Definition DELETE := lit "DELETE".

Definition message_json (m : rstring) : Json := obj_of [(lit "message", Some (JStr m))].

(** The [ApiError] derive on [OdoroboError]. *)
Definition error_response (e : OdoroboError) : HttpResponse :=
  match e with
  | NotFound m => {| status := 404; body := BJson (message_json m) |}
  | ReportError r => {| status := 500; body := BJson (message_json (report_display r)) |}
  end.

Definition respond {A} (ok_body : A → Body) (r : result OdoroboError A) : HttpResponse :=
  match r with
  | Ok a => {| status := 200; body := ok_body a |}
  | Err e => error_response e
  end.

(** ** Request and response types *)

Section types.
Context `{UlidText}.

Record CreateVMRequest := { request_vm : VmManifest }.
(** [deny_unknown_fields] is not set. *)
Definition CreateVMRequest_codec : Codec CreateVMRequest := Build_Codec
  (λ r, obj_of [(lit "vm", Some (enc VmManifest_codec (request_vm r)))])
  (λ j, vs ← struct_fields false [lit "vm"] j;
    match vs with
    | [vm] => vm ← required VmManifest_codec vm; Some {| request_vm := vm |}
    | _ => None
    end).

(** [VmId] is transparent. *)
Record VMListResponse := { list_vms_ids : list Ulid }.
Definition VMListResponse_json (r : VMListResponse) : Json :=
  obj_of [(lit "vms", Some (enc (vec_codec ulid_codec) (list_vms_ids r)))].

Definition CreateVMReply_json (r : CreateVMReply) : Json := obj_of
  [(lit "config", Some (enc (option_codec VmManifest_codec) (reply_config r)));
   (lit "actor_id", Some (enc (option_codec (vec_codec u8_codec)) (reply_actor_id r)))].
Definition GetVMInfoReply_json (r : GetVMInfoReply) : Json := obj_of
  [(lit "vmid", Some (enc ulid_codec (info_vmid r)));
   (lit "config", Some (enc (option_codec VmManifest_codec) (info_config r)))].

(** The values the endpoints that are not implemented yet answer with. *)
Record NodeStatus := { cpu_usage_bits : N }.
Record Node := {
  node_hostname : rstring;
  total_vcpus : N;
  total_memory : N;
  node_status : NodeStatus }.
Definition default_node : Node := {|
  node_hostname := []; total_vcpus := 0; total_memory := 0;
  node_status := {| cpu_usage_bits := 0 |} |}.
Definition Node_json (n : Node) : Json := obj_of
  [(lit "hostname", Some (JStr (node_hostname n)));
   (lit "total_vcpus", Some (enc u32_codec (total_vcpus n)));
   (lit "total_memory", Some (enc u64_codec (total_memory n)));
   (lit "status", Some (obj_of [(lit "cpu_usage", Some (JFloat (cpu_usage_bits (node_status n))))]))].

Record Volume := {
  volume_id : Ulid;
  volume_name : rstring;
  volume_size : N;
  volume_uri : rstring }.
Definition default_volume : Volume := {|
  volume_id := 0; volume_name := []; volume_size := 0; volume_uri := lit "file:///tmp" |}.

(** [StorageUri] is read by the [url] library, which also normalises it. *)
Definition Volume_codec (url_parse : rstring → option rstring) : Codec Volume := Build_Codec
  (λ v, obj_of
    [(lit "id", Some (enc ulid_codec (volume_id v)));
     (lit "name", Some (enc string_codec (volume_name v)));
     (lit "size", Some (enc u64_codec (volume_size v)));
     (lit "uri", Some (enc string_codec (volume_uri v)))])
  (λ j, vs ← struct_fields false [lit "id"; lit "name"; lit "size"; lit "uri"] j;
    match vs with
    | [id; name; size; uri] =>
        id ← required ulid_codec id;
        name ← required string_codec name;
        size ← required u64_codec size;
        uri ← required string_codec uri;
        uri ← url_parse uri;
        Some {| volume_id := id; volume_name := name; volume_size := size; volume_uri := uri |}
    | _ => None
    end).

Inductive VolumeStatus :=
| Available | Attached (vm : rstring) | Provisioning | VolumeError (message : rstring).
Record VolumeInfo := { info_data : Volume; info_status : VolumeStatus }.
Definition default_volume_info : VolumeInfo :=
  {| info_data := default_volume; info_status := Provisioning |}.
Definition VolumeStatus_json (s : VolumeStatus) : Json :=
  match s with
  | Available => JStr (lit "Available")
  | Attached vm => JObj [(lit "Attached", JStr vm)]
  | Provisioning => JStr (lit "Provisioning")
  | VolumeError m => JObj [(lit "Error", JStr m)]
  end.
Definition VolumeInfo_json (i : VolumeInfo) : Json := obj_of
  [(lit "data", Some (enc (Volume_codec Some) (info_data i)));
   (lit "status", Some (VolumeStatus_json (info_status i)))].
End types.

(** ** Routes *)

Inductive Endpoint :=
| Health | SwaggerUi | OpenApiJson
| Drain | NodeInfo
| ListVms | CreateVm | VmInfo | UpdateVm | DeleteVm | ShutdownVm | ConsoleHistory
| CreateVolume | GetVolume | DeleteVolume | ResizeVolume.

#[global] Instance Endpoint_eq_dec : EqDecision Endpoint.
Proof. solve_decision. Defined.

Definition Route : Type := rstring * rstring * Endpoint.

Definition vms_router : list Route :=
  [(lit "/", GET, ListVms); (lit "/", POST, CreateVm); (lit "/{vmid}", GET, VmInfo);
   (lit "/{vmid}", PATCH, UpdateVm); (lit "/{vmid}", DELETE, DeleteVm);
   (lit "/{vmid}/shutdown", PUT, ShutdownVm); (lit "/{vmid}/console/history", GET, ConsoleHistory)].
Definition nodes_router : list Route :=
  [(lit "/drain", PUT, Drain); (lit "/{nodeid}", GET, NodeInfo)].
Definition volumes_router : list Route :=
  [(lit "/", PUT, CreateVolume); (lit "/{volid}", GET, GetVolume);
   (lit "/{volid}", DELETE, DeleteVolume); (lit "/{volid}", PATCH, ResizeVolume)].

(** [Router::nest]: the root of the nested router is the prefix itself. *)
Definition nest (prefix : rstring) (routes : list Route) : list Route :=
  (λ '(pattern, m, e),
    ((if bool_decide (pattern = lit "/") then prefix else prefix ++ pattern), m, e)) <$> routes.

Definition router : list Route :=
  [(lit "/health", GET, Health); (lit "/swagger", GET, SwaggerUi);
   (lit "/openapi.json", GET, OpenApiJson)]
  ++ nest (lit "/nodes") nodes_router
  ++ nest (lit "/vms") vms_router
  ++ nest (lit "/volumes") volumes_router.

(** A pattern is matched segment by segment; [{name}] captures a segment that
    is not empty. *)
Definition is_capture (segment : rstring) : bool := starts_with segment (lit "{").
Fixpoint match_segments (pattern path : list rstring) : option (list rstring) :=
  match pattern, path with
  | [], [] => Some []
  | p :: pattern, s :: path =>
      if is_capture p then
        if is_empty s then None else cons s <$> match_segments pattern path
      else if bool_decide (p = s) then match_segments pattern path else None
  | _, _ => None
  end.
Definition match_route (pattern path : rstring) : option (list rstring) :=
  match_segments (split_char 47 pattern) (split_char 47 path).

Inductive Dispatch := Handle (e : Endpoint) (captures : list rstring) | NoMethod | NoRoute.

(** What the handlers use of [axum]: choosing a route, the statuses of the
    requests its extractors refuse, and the generated documents. *)
Class Axum := {
  dispatch : list Route → rstring → rstring → Dispatch;
  path_rejection : N;
  json_rejection : Body → N;
  swagger_page : rstring;
  openapi_json : Json;
  url_parse : rstring → option rstring }.

(** A path of letters, digits and slashes, which needs no decoding. *)
Definition plain_path (path : rstring) : Prop :=
  Forall (λ c, is_ascii_alphanumeric c = true ∨ c = 47) path.

(** The documented behaviour of the router: a plain path goes to the handler
    of the route that matches it, when only one pattern does; the extractors
    refuse a request with a client error. *)
Class AxumLaws `{Axum} : Prop := {
  dispatch_route routes m path pattern e captures :
    plain_path path →
    (pattern, m, e) ∈ routes → match_route pattern path = Some captures →
    (∀ pattern' m' e', (pattern', m', e') ∈ routes → is_Some (match_route pattern' path) →
       pattern' = pattern ∧ (m' = m → e' = e)) →
    dispatch routes m path = Handle e captures;
  path_rejection_range : 400 ≤ path_rejection < 500;
  json_rejection_range b : 400 ≤ json_rejection b < 500 }.

(** ** The HTTP actor and the handlers *)

(** How a request to an actor ends: it is handled and answered, it is not
    delivered, or it is handled and the answer is lost. *)
Inductive Delivery := Answered | Refused (why : rstring) | Lost (why : rstring).

(** What the scheduler and the HTTP actor meet outside while one request is
    handled. *)
Record Outside := {
  o_http : Delivery;
  o_scheduler : Delivery;
  o_now : Instant;
  o_asked : ActorId → result SchedulerError CreateVMReply;
  o_actor_exists : bool;
  o_lookup : Ulid → result SchedulerError (option ActorId);
  o_told : result SchedulerError ();
  o_history : ActorId → result SchedulerError (list N);
  o_info : ActorId → result SchedulerError GetVMInfoReply }.

Definition Handled (A : Type) : Type := SchedulerActor * A * list SchedEffect.

Section server.
Context {UT : UlidText} {AX : Axum} {order : IterOrder}.
Context (to_bytes : ActorId → list N) (from_bytes : list N → option ActorId).
(** [Display] of [kameo]'s error. *)
Context (send_error_text : SendError SchedulerError → rstring).

Definition ask {E A} (d : Delivery) (handler : SchedulerActor → Handled (result E A))
    (s : SchedulerActor) : Handled (result (SendError E) A) :=
  match d with
  | Refused why => (s, Err (Runtime why), [])
  | Lost why => let '(s, _, effects) := handler s in (s, Err (Runtime why), effects)
  | Answered =>
      let '(s, r, effects) := handler s in
      (s, match r with Ok a => Ok a | Err e => Err (HandlerError e) end, effects)
  end.

(** The scheduler's handlers, as it is asked for each message. *)
Definition pure {A} (r : SchedulerActor → A) (s : SchedulerActor) : Handled A := (s, r s, []).

Inductive HttpMsg : Type → Type :=
| MCreateVM (msg : CreateVM) : HttpMsg CreateVMReply
| MDeleteVM (vmid : Ulid) : HttpMsg ()
| MShutdownVM (vmid : Ulid) : HttpMsg ()
| MGetConsoleHistory (vmid : Ulid) : HttpMsg (list N)
| MGetVMInfo (vmid : option Ulid) : HttpMsg GetVMInfoReply
| MListVMs : HttpMsg (list Ulid).

Definition scheduler_answer (o : Outside) {A} (msg : HttpMsg A) :
    SchedulerActor → Handled (result SchedulerError A) :=
  match msg with
  | MCreateVM msg => scheduler_create_vm to_bytes from_bytes (o_now o) (o_asked o) (o_actor_exists o) msg
  | MDeleteVM vmid => scheduler_delete_vm (o_lookup o vmid) (o_told o) vmid
  | MShutdownVM vmid => scheduler_shutdown_vm (o_lookup o vmid) (o_told o) vmid
  | MGetConsoleHistory vmid => pure (λ _, get_console_history (o_lookup o) (o_history o) vmid)
  | MGetVMInfo vmid => pure (λ _, scheduler_get_vm_info (o_lookup o) (o_info o) vmid)
  | MListVMs => pure (λ s, Ok (scheduler_list_vms s))
  end.

(** The context each handler of the HTTP actor adds to a failure. *)
Definition failure_text {A} (msg : HttpMsg A) : rstring :=
  match msg with
  | MCreateVM _ => lit "failed to create VM via scheduler"
  | MDeleteVM _ => lit "failed to delete VM via scheduler"
  | MShutdownVM _ => lit "failed to shut down VM via scheduler"
  | MGetConsoleHistory _ => lit "failed to retrieve VM console history via scheduler"
  | MGetVMInfo _ => lit "failed to get VM info via scheduler"
  | MListVMs => lit "failed to list VMs via scheduler"
  end.

Definition http_actor_handle (o : Outside) {A} (msg : HttpMsg A) (s : SchedulerActor) :
    Handled (result Report A) :=
  let '(s, r, effects) := ask (o_scheduler o) (scheduler_answer o msg) s in
  (s, wrap_err (failure_text msg)
        match r with Ok a => Ok a | Err e => Err (report_msg (send_error_text e)) end, effects).

(** [state.ask(msg).await?] of a handler. *)
Definition ask_http (o : Outside) {A} (msg : HttpMsg A) (s : SchedulerActor) :
    Handled (result OdoroboError A) :=
  let '(s, r, effects) := ask (o_http o) (http_actor_handle o msg) s in
  (s, match r with Ok a => Ok a | Err e => Err (from_send_error e) end, effects).

Definition answer (o : Outside) {A} (msg : HttpMsg A) (ok_body : A → Body) (s : SchedulerActor) :
    Handled HttpResponse :=
  let '(s, r, effects) := ask_http o msg s in (s, respond ok_body r, effects).

Definition list_vms (o : Outside) : SchedulerActor → Handled HttpResponse :=
  answer o MListVMs (λ vms, BJson (VMListResponse_json {| list_vms_ids := vms |})).

Definition vm_info (o : Outside) (vmid : Ulid) (s : SchedulerActor) : Handled HttpResponse :=
  let '(s, r, effects) := ask_http o (MGetVMInfo (Some vmid)) s in
  (s, respond (λ reply, BJson (GetVMInfoReply_json reply))
        (reply ← r;
         match info_config reply with
         | None => Err (NotFound (lit "VM " ++ ulid_to_string vmid ++ lit " not found"))
         | Some _ => Ok reply
         end), effects).

Definition create_vm (o : Outside) (request : CreateVMRequest) :
    SchedulerActor → Handled HttpResponse :=
  answer o (MCreateVM {| create_vmid := manifest_id (request_vm request);
                         create_config := request_vm request |})
    (λ reply, BJson (CreateVMReply_json reply)).

Definition delete_vm (o : Outside) (vmid : Ulid) : SchedulerActor → Handled HttpResponse :=
  answer o (MDeleteVM vmid) (λ _, BJson JNull).
Definition shutdown_vm (o : Outside) (vmid : Ulid) : SchedulerActor → Handled HttpResponse :=
  answer o (MShutdownVM vmid) (λ _, BJson JNull).
Definition console_history (o : Outside) (vmid : Ulid) : SchedulerActor → Handled HttpResponse :=
  answer o (MGetConsoleHistory vmid) BBytes.

Definition update_vm : HttpResponse :=
  {| status := 501; body := BJson (message_json (lit "VM configuration updates are not supported")) |}.

(** The endpoints that are stubs. *)
Definition drain : HttpResponse := {| status := 200; body := BJson (JStr (lit "Draining...")) |}.
Definition node_info : HttpResponse := {| status := 200; body := BJson (Node_json default_node) |}.
Definition volume_info : HttpResponse :=
  {| status := 200; body := BJson (VolumeInfo_json default_volume_info) |}.
Definition create_volume (request : Volume) : HttpResponse :=
  {| status := 200; body := BJson (VolumeInfo_json default_volume_info) |}.
Definition delete_volume (volid : Ulid) : HttpResponse := {| status := 200; body := BJson JNull |}.
Definition resize_volume (volid : Ulid) (request : Volume) : HttpResponse :=
  {| status := 200; body := BJson (VolumeInfo_json default_volume_info) |}.
Definition health : HttpResponse := {| status := 200; body := BText (lit "OK") |}.

(** ** Extractors and the server *)

Definition fixed (r : HttpResponse) (s : SchedulerActor) : Handled HttpResponse := (s, r, []).
Definition refuse (code : N) : SchedulerActor → Handled HttpResponse :=
  fixed {| status := code; body := BEmpty |}.

(** [Path(VmId(vmid))]. *)
Definition with_id (captures : list rstring) (f : Ulid → SchedulerActor → Handled HttpResponse) :
    SchedulerActor → Handled HttpResponse :=
  match captures with
  | [c] => match ulid_from_string c with Some id => f id | None => refuse path_rejection end
  | _ => refuse path_rejection
  end.

(** [Json(request)]. *)
Definition with_json {A} (c : Codec A) (b : Body) (f : A → SchedulerActor → Handled HttpResponse) :
    SchedulerActor → Handled HttpResponse :=
  match b with
  | BJson j => match dec c j with Some a => f a | None => refuse (json_rejection b) end
  | _ => refuse (json_rejection b)
  end.

Definition handle_endpoint (o : Outside) (e : Endpoint) (captures : list rstring) (b : Body) :
    SchedulerActor → Handled HttpResponse :=
  match e with
  | Health => fixed health
  | SwaggerUi => fixed {| status := 200; body := BText swagger_page |}
  | OpenApiJson => fixed {| status := 200; body := BJson openapi_json |}
  | Drain => fixed drain
  | NodeInfo => fixed node_info
  | ListVms => list_vms o
  | CreateVm => with_json CreateVMRequest_codec b (create_vm o)
  | VmInfo => with_id captures (vm_info o)
  | UpdateVm => with_id captures (λ _, fixed update_vm)
  | DeleteVm => with_id captures (delete_vm o)
  | ShutdownVm => with_id captures (shutdown_vm o)
  | ConsoleHistory => with_id captures (console_history o)
  | CreateVolume => with_json (Volume_codec url_parse) b (λ request, fixed (create_volume request))
  | GetVolume => with_id captures (λ _, fixed volume_info)
  | DeleteVolume => with_id captures (λ id, fixed (delete_volume id))
  | ResizeVolume =>
      with_id captures (λ id,
        with_json (Volume_codec url_parse) b (λ request, fixed (resize_volume id request)))
  end.

Definition serve (o : Outside) (req : HttpRequest) : SchedulerActor → Handled HttpResponse :=
  match dispatch router (method req) (path req) with
  | Handle e captures => handle_endpoint o e captures (payload req)
  | NoMethod => refuse 405
  | NoRoute => refuse 404
  end.
End server.
