(* ===== verification/HttpFacts.v ===== *)
(** * What the HTTP API guarantees

    Each VM endpoint's path reaches its handler, the handler's answer is the
    scheduler's, and failures have the status and the message of the error
    type. *)

From S2P Require Import Prelude RustString RustFloat SortedVec Manifest Json ManifestJson.
From S2P Require Import Messages Cache Scheduling SchedHandlers HttpApi.
Open Scope N_scope.

(** ** Routing *)

Section routing.
Context {UT : UlidText} {UL : UlidTextLaws} {AX : Axum} {AL : AxumLaws}.

Lemma dispatch_segments m path segments pattern e captures :
  plain_path path → split_char 47 path = segments →
  (pattern, m, e) ∈ router →
  match_segments (split_char 47 pattern) segments = Some captures →
  Forall (λ r : Route, ∀ c, match_segments (split_char 47 r.1.1) segments = Some c →
    r.1.1 = pattern ∧ (r.1.2 = m → r.2 = e)) router →
  dispatch router m path = Handle e captures.
Proof.
  intros Hp Hs Hin Hm HF. eapply dispatch_route; [done|exact Hin|by unfold match_route; rewrite Hs|].
  intros pattern' m' e' Hin' [c Hc]. unfold match_route in Hc. rewrite Hs in Hc.
  rewrite Forall_forall in HF. by apply (HF _ Hin' c).
Qed.

Lemma plain_no_slash s : Forall (λ c, is_ascii_alphanumeric c = true) s → 47 ∉ s.
Proof. rewrite Forall_forall. intros H Hin. by apply H in Hin. Qed.

Lemma plain_lit s : Forall (λ c, is_ascii_alphanumeric c = true) s → plain_path s.
Proof. intros H. eapply Forall_impl; [exact H|]. auto. Qed.

Lemma ulid_text_not_empty u : ∃ c s, ulid_to_string u = c :: s.
Proof. pose proof (ulid_text_length u). destruct (ulid_to_string u); naive_solver. Qed.

(** A closed route table, checked row by row. *)
Ltac route_rows :=
  repeat apply Forall_cons_2; try apply Forall_nil_2; vm_compute; intros ? ?;
  first [ discriminate | split; [reflexivity|]; intros; first [reflexivity | discriminate] ].

Definition vms_path : rstring := lit "/vms".
Definition vm_path (u : Ulid) : rstring := vms_path ++ lit "/" ++ ulid_to_string u.

Lemma split_vm_path u rest :
  split_char 47 (vm_path u ++ 47 :: rest) =
  [] :: lit "vms" :: ulid_to_string u :: split_char 47 rest.
Proof.
  unfold vm_path, vms_path. rewrite split_char_app.
  change (lit "/vms" ++ lit "/" ++ ulid_to_string u)
    with (lit "/vms" ++ 47 :: ulid_to_string u).
  rewrite split_char_app, (split_char_none _ (ulid_to_string u)); [done|].
  apply plain_no_slash, ulid_text_plain.
Qed.

Lemma split_vm_path_only u : split_char 47 (vm_path u) = [[]; lit "vms"; ulid_to_string u].
Proof.
  unfold vm_path, vms_path.
  change (lit "/vms" ++ lit "/" ++ ulid_to_string u)
    with (lit "/vms" ++ 47 :: ulid_to_string u).
  rewrite split_char_app, (split_char_none _ (ulid_to_string u)); [done|].
  apply plain_no_slash, ulid_text_plain.
Qed.

Lemma plain_app a b : plain_path a → plain_path b → plain_path (a ++ b).
Proof. intros. by apply Forall_app. Qed.
Lemma plain_vm_path u : plain_path (vm_path u).
Proof.
  apply plain_app; [apply (bool_decide_unpack _); vm_compute; exact I|].
  apply plain_app; [apply (bool_decide_unpack _); vm_compute; exact I|].
  apply plain_lit, ulid_text_plain.
Qed.

Lemma plain_vms_path : plain_path vms_path.
Proof. apply (bool_decide_unpack _). vm_compute. exact I. Qed.
Lemma plain_shutdown_path u : plain_path (vm_path u ++ lit "/shutdown").
Proof.
  apply plain_app; [apply plain_vm_path|apply (bool_decide_unpack _); vm_compute; exact I].
Qed.

Lemma route_vms m e :
  (m, e) ∈ [(GET, ListVms); (POST, CreateVm)] → dispatch router m vms_path = Handle e [].
Proof.
  intros Hin. pose proof plain_vms_path.
  repeat (apply elem_of_cons in Hin as [[= -> ->]|Hin]); [..|by apply elem_of_nil in Hin];
    (eapply (dispatch_segments _ _ _ (lit "/vms")); [done|vm_compute; reflexivity| | |]);
    try (apply (bool_decide_unpack _); vm_compute; exact I); try reflexivity; route_rows.
Qed.

Lemma route_vm u m e :
  (m, e) ∈ [(GET, VmInfo); (PATCH, UpdateVm); (DELETE, DeleteVm)] →
  dispatch router m (vm_path u) = Handle e [ulid_to_string u].
Proof.
  intros Hin. pose proof (plain_vm_path u). pose proof (split_vm_path_only u) as Hs.
  destruct (ulid_text_not_empty u) as (c & x & Hx). rewrite Hx in Hs |- *.
  repeat (apply elem_of_cons in Hin as [[= -> ->]|Hin]); [..|by apply elem_of_nil in Hin];
    (eapply (dispatch_segments _ _ _ (lit "/vms/{vmid}")); [done|exact Hs| | |]);
    try (apply (bool_decide_unpack _); vm_compute; exact I); try reflexivity; route_rows.
Qed.

Lemma route_shutdown u :
  dispatch router PUT (vm_path u ++ lit "/shutdown") = Handle ShutdownVm [ulid_to_string u].
Proof.
  pose proof (plain_shutdown_path u).
  pose proof (split_vm_path u (lit "shutdown")) as Hs.
  destruct (ulid_text_not_empty u) as (c & x & Hx). rewrite Hx in Hs |- *.
  eapply (dispatch_segments _ _ _ (lit "/vms/{vmid}/shutdown")); [done|exact Hs| | |];
    try (apply (bool_decide_unpack _); vm_compute; exact I); try reflexivity; route_rows.
Qed.

Lemma route_history u :
  dispatch router GET (vm_path u ++ lit "/console/history") =
  Handle ConsoleHistory [ulid_to_string u].
Proof.
  assert (plain_path (vm_path u ++ lit "/console/history")).
  { apply plain_app; [apply plain_vm_path|apply (bool_decide_unpack _); vm_compute; exact I]. }
  pose proof (split_vm_path u (lit "console/history")) as Hs.
  destruct (ulid_text_not_empty u) as (c & x & Hx). rewrite Hx in Hs |- *.
  eapply (dispatch_segments _ _ _ (lit "/vms/{vmid}/console/history")); [done|exact Hs| | |];
    try (apply (bool_decide_unpack _); vm_compute; exact I); try reflexivity; route_rows.
Qed.

(** The hypervisor passthrough and the WebSocket console the documentation
    describes are not in the table. *)
Lemma documented_routes_missing u :
  Forall (λ r : Route,
    match_route r.1.1 (vm_path u ++ lit "/ch/vm.info") = None ∧
    match_route r.1.1 (vm_path u ++ lit "/console") = None) router.
Proof.
  pose proof (split_vm_path u (lit "ch/vm.info")) as H2.
  pose proof (split_vm_path u (lit "console")) as H3. unfold match_route.
  change (lit "/ch/vm.info") with (47 :: lit "ch/vm.info").
  change (lit "/console") with (47 :: lit "console"). rewrite H2, H3. clear.
  generalize (ulid_to_string u). intros x.
  repeat apply Forall_cons_2; try apply Forall_nil_2; destruct x; vm_compute;
    split; reflexivity.
Qed.
End routing.

(** ** The API of a VM is the scheduler's *)

Section server.
Context {UT : UlidText} {UL : UlidTextLaws} {AX : Axum} {AL : AxumLaws} {order : IterOrder}.
Context (to_bytes : ActorId → list N) (from_bytes : list N → option ActorId).
Context (send_error_text : SendError SchedulerError → rstring).

#[local] Notation serve := (serve to_bytes from_bytes send_error_text).
#[local] Notation scheduler_answer := (scheduler_answer to_bytes from_bytes).

(** The request a client makes for a message of the scheduler. *)
Definition request_of {A} (msg : HttpMsg A) : HttpRequest :=
  match msg with
  | MListVMs => {| method := GET; path := vms_path; payload := BEmpty |}
  | MCreateVM msg =>
      {| method := POST; path := vms_path;
         payload := BJson (enc CreateVMRequest_codec {| request_vm := create_config msg |}) |}
  | MGetVMInfo vmid => {| method := GET; path := vm_path (default 0 vmid); payload := BEmpty |}
  | MDeleteVM vmid => {| method := DELETE; path := vm_path vmid; payload := BEmpty |}
  | MShutdownVM vmid =>
      {| method := PUT; path := vm_path vmid ++ lit "/shutdown"; payload := BEmpty |}
  | MGetConsoleHistory vmid =>
      {| method := GET; path := vm_path vmid ++ lit "/console/history"; payload := BEmpty |}
  end.

(** The messages the API can carry: identifiers of 128 bits, a manifest that
    validates and belongs to the VM it is for. *)
Definition msg_ok {A} (msg : HttpMsg A) : Prop :=
  match msg with
  | MListVMs => True
  | MCreateVM msg =>
      create_vmid msg = manifest_id (create_config msg) ∧
      manifest_typed (create_config msg) ∧ validate (create_config msg) = Ok ()
  | MGetVMInfo vmid => ∃ u, vmid = Some u ∧ ulid_ok u
  | MDeleteVM vmid | MShutdownVM vmid | MGetConsoleHistory vmid => ulid_ok vmid
  end.

(** The answer to a message as the client sees it. *)
Definition success_of {A} (msg : HttpMsg A) : A → HttpResponse :=
  match msg in HttpMsg A return A → HttpResponse with
  | MListVMs => λ vms, {| status := 200; body := BJson (VMListResponse_json {| list_vms_ids := vms |}) |}
  | MCreateVM _ => λ reply, {| status := 200; body := BJson (CreateVMReply_json reply) |}
  | MGetVMInfo vmid => λ reply,
      match info_config reply with
      | None =>
          {| status := 404;
             body := BJson (message_json
               (lit "VM " ++ ulid_to_string (default 0 vmid) ++ lit " not found")) |}
      | Some _ => {| status := 200; body := BJson (GetVMInfoReply_json reply) |}
      end
  | MDeleteVM _ => λ _, {| status := 200; body := BJson JNull |}
  | MShutdownVM _ => λ _, {| status := 200; body := BJson JNull |}
  | MGetConsoleHistory _ => λ history, {| status := 200; body := BBytes history |}
  end.
Definition failure (m : rstring) : HttpResponse := {| status := 500; body := BJson (message_json m) |}.

Lemma CreateVMRequest_roundtrip m :
  manifest_typed m → validate m = Ok () →
  dec CreateVMRequest_codec (enc CreateVMRequest_codec {| request_vm := m |}) =
  Some {| request_vm := m |}.
Proof.
  intros Ht Hv. struct_ok CreateVMRequest_codec. unfold required. cbn [mbind option_bind request_vm].
  unfold VmManifest_codec. cbn [enc dec]. by rewrite manifest_to_from_json, Hv.
Qed.

(** A request that reached its handler. *)
Definition handled_as {A} (o : Outside) (msg : HttpMsg A) (s : SchedulerActor) : Handled HttpResponse :=
  let '(s, r, effects) := ask_http to_bytes from_bytes send_error_text o msg s in
  (s, match r with Ok a => success_of msg a | Err e => error_response e end, effects).

Lemma serve_request {A} (o : Outside) (msg : HttpMsg A) s :
  msg_ok msg → serve o (request_of msg) s = handled_as o msg s.
Proof.
  unfold serve, handled_as. destruct msg as [msg|vmid|vmid|vmid|vmid|]; cbn [request_of method path payload].
  - intros (Hid & Ht & Hv). rewrite (route_vms POST CreateVm) by set_solver.
    unfold handle_endpoint, with_json. rewrite CreateVMRequest_roundtrip by done.
    unfold create_vm, answer. cbn [request_vm]. rewrite <-Hid. by destruct msg.
  - intros Hu. rewrite (route_vm vmid DELETE DeleteVm) by set_solver.
    cbn [handle_endpoint with_id]. by rewrite ulid_text_roundtrip.
  - intros Hu. rewrite route_shutdown. cbn [handle_endpoint with_id]. by rewrite ulid_text_roundtrip.
  - intros Hu. rewrite route_history. cbn [handle_endpoint with_id]. by rewrite ulid_text_roundtrip.
  - intros (u & -> & Hu). cbn [default]. rewrite (route_vm u GET VmInfo) by set_solver.
    cbn [handle_endpoint with_id]. rewrite ulid_text_roundtrip by done. unfold vm_info.
    destruct (ask_http _ _ _ _ _ _) as [[s' [reply|e]] effects]; [|done].
    cbn [mbind result_bind success_of]. by destruct (info_config reply).
  - intros _. by rewrite (route_vms GET ListVms) by set_solver.
Qed.

Lemma serve_scheduler {A} (o : Outside) (msg : HttpMsg A) s :
  msg_ok msg → o_http o = Answered → o_scheduler o = Answered →
  serve o (request_of msg) s =
  let '(s', reply, effects) := scheduler_answer o msg s in
  (s', match reply with Ok a => success_of msg a | Err _ => failure (failure_text msg) end, effects).
Proof.
  intros Hm Hh Hs. rewrite serve_request by done.
  unfold handled_as, ask_http, http_actor_handle, ask. rewrite Hh, Hs.
  destruct (scheduler_answer o msg s) as [[s' [a|e]] effects]; done.
Qed.

(** C14. The HTTP API of a VM is the scheduler's. When the actors answer, a
    request built for a message of the scheduler (list, create, show, delete,
    shut down, console history) does to the scheduler exactly what its handler
    of that message does, with the same requests to the runtime, and the
    client reads the handler's reply: status 200 with the reply, 404 when the
    VM shown has no configuration, and 500 with the fixed text of the
    operation when the handler failed, whatever the reason was. *)
Theorem http_api_is_scheduler {A} (o : Outside) (msg : HttpMsg A) s :
  msg_ok msg → o_http o = Answered → o_scheduler o = Answered →
  serve o (request_of msg) s =
  let '(s', reply, effects) := scheduler_answer o msg s in
  (s', match reply with Ok a => success_of msg a | Err _ => failure (failure_text msg) end, effects).
Proof. apply serve_scheduler. Qed.

(** C22. A success seen by the client is a success of the scheduler. Whatever
    happens to the two requests behind an API call (answered, refused, the
    answer lost), the client reads a status of 2xx only when both were
    answered and the scheduler's handler succeeded; otherwise it reads 404 or
    500; and when a request was refused on the way, the scheduler's state is
    untouched and nothing was asked of the runtime. *)
Theorem http_success_is_real {A} (o : Outside) (msg : HttpMsg A) s s' r effects :
  msg_ok msg → serve o (request_of msg) s = (s', r, effects) →
  ((200 ≤ status r < 300 ∧ o_http o = Answered ∧ o_scheduler o = Answered ∧
    ∃ a, scheduler_answer o msg s = (s', Ok a, effects)) ∨
   status r = 404 ∨ status r = 500) ∧
  ((∃ why, o_http o = Refused why ∨ (o_http o = Answered ∧ o_scheduler o = Refused why)) →
   s' = s ∧ effects = [] ∧ status r = 500).
Proof.
  intros Hm. rewrite serve_request by done.
  unfold handled_as, ask_http, http_actor_handle, ask.
  destruct (o_http o) eqn:Hh, (o_scheduler o) eqn:Hs;
    try (destruct (scheduler_answer o msg s) as [[s1 [a|e]] eff] eqn:Ha);
    cbn; intros [= <- <- <-]; (split; [|naive_solver]); try (by right; right).
  destruct msg; cbn [success_of status]; try (left; split; [lia|]; eauto).
  destruct (info_config a); [left; split; [cbn; lia|]; eauto|by right; left].
Qed.
End server.
