(* ===== verification/Cli.v ===== *)
(** * The command line client

    [odoroboctl/src/cli.rs]: the subcommands, the manifest [create] builds and
    validates, and the requests of [run_command]. The HTTP client is a class;
    [Connected] says that its requests reach the server of [HttpApi.v]. *)

From S2P Require Import Prelude RustString RustFloat SortedVec Manifest Json ManifestJson.
From S2P Require Import Messages Cache Scheduling SchedHandlers HttpApi HttpFacts.
Open Scope N_scope.

Inductive Command :=
| Create (image name : rstring) (vcpus memory : N)
| ListCommand
| DeleteCommand (vmid : rstring)
| ShutdownCommand (vmid : rstring).

Record Cli := { manager_addr : rstring; command : Command }.

(** The values the argument parser fills in. *)
Definition default_manager_addr : rstring := lit "http://localhost:3000".
Definition create_defaults (image : rstring) : Command :=
  Create image (lit "test_vm") 4 (4 * 2 ^ 30).

(** ** The manifest of [create] *)

Definition default_boot : Boot :=
  {| boot_start := false; boot_firmware := None; boot_kernel := None; boot_cmdline := None |}.

Definition create_manifest (id : Ulid) (image name : rstring) (vcpus memory : N) : VmManifest := {|
  api_version := MANIFEST_VERSION;
  manifest_id := id;
  desired := {|
    metadata := {| metadata_name := name; metadata_labels := ∅; metadata_annotations := ∅ |};
    compute := {| compute_vcpus := vcpus; compute_max_vcpus := None;
                  compute_memory_bytes := memory |};
    storage := [{| storage_id := lit "root"; storage_uri := Some image;
                   storage_volume_id := None; storage_read_only := false |}];
    networks := [];
    placement := default_placement;
    boot := {| boot_start := true; boot_firmware := boot_firmware default_boot;
               boot_kernel := boot_kernel default_boot; boot_cmdline := boot_cmdline default_boot |};
    cloud_init := None;
    vsock := None |};
  observed := None |}.

(** ** Responses *)

(** [APIError]; the timestamp is read by the [chrono] library. *)
Record APIError := {
  api_code : N;
  api_message : rstring;
  api_errors : option (list rstring);
  api_success : bool;
  api_timestamp : rstring }.

Definition api_error_from_json (parse_timestamp : rstring → option rstring) (j : Json) :
    option APIError :=
  vs ← struct_fields false
    [lit "code"; lit "message"; lit "errors"; lit "success"; lit "timestamp"] j;
  match vs with
  | [code; message; errors; success; timestamp] =>
      code ← required (uint_codec 65535) code;
      message ← required string_codec message;
      errors ← optional (vec_codec string_codec) errors;
      success ← required bool_codec success;
      timestamp ← required string_codec timestamp;
      timestamp ← parse_timestamp timestamp;
      Some {| api_code := code; api_message := message; api_errors := errors;
              api_success := success; api_timestamp := timestamp |}
  | _ => None
  end.

(** The client's own [VMListResponse], whose identifiers are strings. *)
Definition vm_list_from_json (j : Json) : option (list rstring) :=
  vs ← struct_fields false [lit "vms"] j;
  match vs with
  | [vms] => required (vec_codec string_codec) vms
  | _ => None
  end.

(** What the client prints: to standard output, then to standard error. *)
Inductive Line :=
| OutUrl (url : rstring)
| OutBody (b : Body)
| OutMessage (m : rstring)
| OutVm (vmid : rstring)
| ErrApi (code : N) (e : APIError)
| ErrBody (code : N) (b : Body).

Inductive CliError := InvalidManifest (e : ManifestError) | RequestFailed | ReadFailed.

(** What the client uses of its libraries: sending a request, the address a
    response came from, whether a body can be read as text, its JSON value,
    and reading a timestamp. *)
Class HttpSend (W : Type) := {
  client_send : rstring → rstring → Body → W → W * option HttpResponse;
  response_url : rstring → rstring;
  body_readable : Body → bool;
  body_json : Body → option Json;
  parse_timestamp : rstring → option rstring }.

Section run.
Context {UT : UlidText} {W : Type} {HS : HttpSend W}.

Definition is_success (r : HttpResponse) : bool := (200 <=? status r) && (status r <? 300).

Definition print_api_error (r : HttpResponse) : list Line * result CliError () :=
  if negb (body_readable (body r)) then ([], Err ReadFailed)
  else
    match body_json (body r) ≫= api_error_from_json parse_timestamp with
    | Some e => ([ErrApi (status r) e], Ok ())
    | None => ([ErrBody (status r) (body r)], Ok ())
    end.

Definition print_message_response (r : HttpResponse) (success_message : rstring) :
    list Line * result CliError () :=
  if is_success r then
    if negb (body_readable (body r)) then ([], Err ReadFailed)
    else ([OutBody (body r); OutMessage success_message], Ok ())
  else print_api_error r.

Definition print_vm_list (r : HttpResponse) : list Line * result CliError () :=
  if is_success r then
    match body_json (body r) ≫= vm_list_from_json with
    | Some vms => (OutVm <$> vms, Ok ())
    | None => ([], Err ReadFailed)
    end
  else print_api_error r.

(** A request, and what is printed of its response. *)
Definition request (m url : rstring) (b : Body) (show : HttpResponse → list Line * result CliError ())
    (w : W) : W * list Line * result CliError () :=
  match client_send m url b w with
  | (w, None) => (w, [], Err RequestFailed)
  | (w, Some r) => let '(lines, res) := show r in (w, lines, res)
  end.

(** [id] is the identifier [Ulid::generate] yields. *)
Definition run_command (cli : Cli) (id : Ulid) (w : W) : W * list Line * result CliError () :=
  let base_url := manager_addr cli in
  match command cli with
  | Create image name vcpus memory =>
      let vm := create_manifest id image name vcpus memory in
      match validate vm with
      | Err e => (w, [], Err (InvalidManifest e))
      | Ok () =>
          let url := base_url ++ lit "/vms" in
          request POST url (BJson (enc CreateVMRequest_codec {| request_vm := vm |}))
            (λ r, let '(lines, res) :=
                    print_message_response r (lit "VM create request sent successfully") in
                  (OutUrl (response_url url) :: lines, res)) w
      end
  | ListCommand => request GET (base_url ++ lit "/vms") BEmpty print_vm_list w
  | DeleteCommand vmid =>
      request DELETE (base_url ++ lit "/vms/" ++ vmid) BEmpty
        (λ r, print_message_response r (lit "VM delete request sent successfully")) w
  | ShutdownCommand vmid =>
      request PUT (base_url ++ lit "/vms/" ++ vmid ++ lit "/shutdown") BEmpty
        (λ r, print_message_response r (lit "VM shutdown request sent successfully")) w
  end.
End run.

(** ** What [create] sends *)

Lemma create_manifest_valid id image name vcpus memory :
  validate (create_manifest id image name vcpus memory) = Ok () ↔
  blank name = false ∧ 0 < vcpus ∧ 0 < memory ∧ blank image = false.
Proof.
  unfold validate, desired_validate. cbn -[blank validate_compute validate_storage].
  destruct (blank name); [naive_solver|].
  unfold validate_compute. cbn -[blank validate_storage].
  destruct (N.eqb_spec vcpus 0); cbn -[blank validate_storage]; [split; [done|lia]|].
  destruct (N.eqb_spec memory 0); cbn -[blank]; [split; [done|lia]|].
  change (blank (lit "root")) with false. cbn -[blank].
  destruct (blank image); cbn; [naive_solver|]. split; [|done]. intros _. split_and!; lia || done.
Qed.

(** [create] checks its arguments before it sends anything. The manifest
    it builds validates exactly when the name and the image are not blank and
    there are vCPUs and memory; otherwise the command ends with the
    validation's error, without a request and without output. *)
Theorem cli_create_validates {UT : UlidText} {W} {HS : HttpSend W} addr image name vcpus memory id w :
  (validate (create_manifest id image name vcpus memory) = Ok () ↔
   blank name = false ∧ 0 < vcpus ∧ 0 < memory ∧ blank image = false) ∧
  (¬ (blank name = false ∧ 0 < vcpus ∧ 0 < memory ∧ blank image = false) →
   ∃ e, run_command {| manager_addr := addr; command := Create image name vcpus memory |} id w =
        (w, [], Err (InvalidManifest e))).
Proof.
  split; [apply create_manifest_valid|]. rewrite <-create_manifest_valid with (id := id).
  cbn [run_command command manager_addr].
  destruct (validate _) as [[]|e]; [by intros []|]. by exists e.
Qed.

(** ** The client and the server *)

Section connected.
Context {UT : UlidText} {UL : UlidTextLaws} {AX : Axum} {AL : AxumLaws} {order : IterOrder}.
Context (to_bytes : ActorId → list N) (from_bytes : list N → option ActorId).
Context (send_error_text : SendError SchedulerError → rstring).

(** The world of the client: the scheduler and what was asked of the runtime. *)
Definition World : Type := SchedulerActor * list SchedEffect.

(** A request to a plain path below the manager's address reaches the server
    and is answered; text and JSON bodies arrive as they were sent. *)
Class Connected {HS : HttpSend World} (o : Outside) (addr : rstring) : Prop := {
  connected_send m path b s log :
    plain_path path →
    client_send m (addr ++ path) b (s, log) =
    let '(s', r, effects) :=
      serve to_bytes from_bytes send_error_text o {| method := m; path := path; payload := b |} s in
    ((s', log ++ effects), Some r);
  connected_readable j : body_readable (BJson j) = true;
  connected_json j : body_json (BJson j) = Some j }.

Context {HS : HttpSend World} (o : Outside) (addr : rstring) {HC : Connected o addr}.

(** The message of the scheduler a command stands for. *)
Inductive command_msg (id : Ulid) : Command → ∀ {A}, HttpMsg A → Prop :=
| cm_create image name vcpus memory :
    command_msg id (Create image name vcpus memory)
      (MCreateVM {| create_vmid := id;
                    create_config := create_manifest id image name vcpus memory |})
| cm_list : command_msg id ListCommand MListVMs
| cm_delete u : command_msg id (DeleteCommand (ulid_to_string u)) (MDeleteVM u)
| cm_shutdown u : command_msg id (ShutdownCommand (ulid_to_string u)) (MShutdownVM u).

(** What is printed for the scheduler's reply. *)
Definition url_line {A} (msg : HttpMsg A) : list Line :=
  match msg with MCreateVM _ => [OutUrl (response_url (addr ++ lit "/vms"))] | _ => [] end.
Definition printed {A} (msg : HttpMsg A) : A → list Line :=
  match msg in HttpMsg A return A → list Line with
  | MCreateVM _ => λ reply,
      [OutBody (BJson (CreateVMReply_json reply));
       OutMessage (lit "VM create request sent successfully")]
  | MListVMs => λ ids, OutVm <$> (ulid_to_string <$> ids)
  | MDeleteVM _ => λ _,
      [OutBody (BJson JNull); OutMessage (lit "VM delete request sent successfully")]
  | MShutdownVM _ => λ _,
      [OutBody (BJson JNull); OutMessage (lit "VM shutdown request sent successfully")]
  | MGetConsoleHistory _ => λ _, []
  | MGetVMInfo _ => λ _, []
  end.

(** The body of a server error lacks the fields [APIError] requires, so the
    client prints it as it came. *)
Lemma server_error_is_raw m code :
  print_api_error {| status := code; body := BJson (message_json m) |} =
  ([ErrBody code (BJson (message_json m))], Ok ()).
Proof.
  unfold print_api_error. cbn [body status]. rewrite connected_readable, connected_json. done.
Qed.

Lemma vm_list_roundtrip ids :
  vm_list_from_json (VMListResponse_json {| list_vms_ids := ids |}) = Some (ulid_to_string <$> ids).
Proof.
  unfold vm_list_from_json, VMListResponse_json.
  change [lit "vms"] with [(lit "vms", Some (enc (vec_codec ulid_codec)
    (list_vms_ids {| list_vms_ids := ids |})))].*1.
  rewrite struct_fields_obj by apply NoDup_singleton.
  cbn [mbind option_bind fmap list_fmap snd required dec vec_codec enc list_vms_ids].
  apply mapM_Some, Forall2_fmap_l, Forall2_fmap_r, Forall_Forall2_diag, Forall_true. done.
Qed.

(** The message a [create], [delete] or [shutdown] prints. *)
Lemma message_shown m r :
  status r = 200 ∧ (∃ j, body r = BJson j) ∨ (∃ text, r = failure text) →
  print_message_response r m =
  (if is_success r then [OutBody (body r); OutMessage m] else [ErrBody (status r) (body r)], Ok ()).
Proof.
  intros [[Hr [j Hb]]|[text ->]].
  - unfold print_message_response, is_success. rewrite Hr, Hb. cbn. by rewrite connected_readable.
  - apply server_error_is_raw.
Qed.

Lemma run_command_answer id c {A} (msg : HttpMsg A) s log :
  command_msg id c msg → msg_ok msg → o_http o = Answered → o_scheduler o = Answered →
  run_command {| manager_addr := addr; command := c |} id (s, log) =
  let '(s', reply, effects) := scheduler_answer to_bytes from_bytes o msg s in
  ((s', log ++ effects),
   url_line msg ++ match reply with
     | Ok a => printed msg a
     | Err _ => [ErrBody 500 (BJson (message_json (failure_text msg)))]
     end, Ok ()).
Proof.
  intros Hc Hm Hh Hs.
  pose proof (serve_scheduler to_bytes from_bytes send_error_text o msg s Hm Hh Hs) as Hserve.
  destruct (scheduler_answer to_bytes from_bytes o msg s) as [[s' reply] effects].
  destruct Hc as [image name vcpus memory| |u|u]; cbn [run_command command manager_addr].
  - destruct Hm as (_ & _ & Hv). cbn [create_config] in Hv. rewrite Hv. unfold request.
    rewrite connected_send by apply plain_vms_path.
    change (lit "/vms") with vms_path. cbn [request_of create_config] in Hserve. rewrite Hserve.
    destruct reply as [a|e]; rewrite message_shown by eauto; done.
  - unfold request. rewrite connected_send by apply plain_vms_path.
    change (lit "/vms") with vms_path. cbn [request_of] in Hserve. rewrite Hserve.
    destruct reply as [a|e]; cbn [success_of failure].
    + unfold print_vm_list, is_success. cbn -[vm_list_from_json VMListResponse_json].
      rewrite connected_json. cbn -[vm_list_from_json VMListResponse_json].
      by rewrite vm_list_roundtrip.
    + change (print_vm_list _) with (print_api_error (failure (failure_text MListVMs))).
      unfold failure. by rewrite server_error_is_raw.
  - unfold request. change (lit "/vms/" ++ ulid_to_string u) with (vm_path u).
    rewrite connected_send by apply plain_vm_path. cbn [request_of] in Hserve. rewrite Hserve.
    destruct reply as [a|e]; rewrite message_shown by eauto; done.
  - unfold request.
    change (lit "/vms/" ++ ulid_to_string u ++ lit "/shutdown")
      with ((lit "/vms/" ++ ulid_to_string u) ++ lit "/shutdown").
    change (lit "/vms/" ++ ulid_to_string u) with (vm_path u).
    rewrite connected_send by apply plain_shutdown_path.
    cbn [request_of] in Hserve. rewrite Hserve.
    destruct reply as [a|e]; rewrite message_shown by eauto; done.
Qed.

(** C13. A command of the client is the scheduler's operation. With a client
    that is connected to the server and actors that answer, [create] with
    valid arguments, [list], and [delete] and [shutdown] of a ULID do to the
    scheduler exactly what its handler of that message does, with the same
    requests to the runtime; the command ends without an error, and it prints
    the handler's reply when that succeeded and the server's error otherwise. *)
Theorem cli_reaches_scheduler id c {A} (msg : HttpMsg A) s log :
  command_msg id c msg → msg_ok msg → o_http o = Answered → o_scheduler o = Answered →
  run_command {| manager_addr := addr; command := c |} id (s, log) =
  let '(s', reply, effects) := scheduler_answer to_bytes from_bytes o msg s in
  ((s', log ++ effects),
   url_line msg ++ match reply with
     | Ok a => printed msg a
     | Err _ => [ErrBody 500 (BJson (message_json (failure_text msg)))]
     end, Ok ()).
Proof. apply run_command_answer. Qed.
End connected.
