(* ===== verification/HttpExamples.v ===== *)
(** * The API and the client at work

    A router with the documented behaviour of [AxumLaws], a client connected
    to the server in the sense of [Connected], and the theorems of
    [HttpFacts.v] and [Cli.v] applied to concrete requests. *)

From S2P Require Import Prelude RustString RustFloat SortedVec Manifest Json ManifestJson.
From S2P Require Import ManifestExamples Messages Cache Scheduling SchedHandlers.
From S2P Require Import HttpApi HttpFacts Cli.
Open Scope N_scope.

(** ** A router *)

Definition matching (routes : list Route) (path : rstring) : list (Route * list rstring) :=
  omap (λ r : Route, pair r <$> match_route r.1.1 path) routes.

#[export] Instance table_axum : Axum := {|
  dispatch routes m path :=
    match matching routes path with
    | [] => NoRoute
    | rs => match find (λ r, bool_decide (r.1.1.2 = m)) rs with
            | Some (r, captures) => Handle r.2 captures
            | None => NoMethod
            end
    end;
  path_rejection := 400;
  json_rejection _ := 422;
  swagger_page := [];
  openapi_json := JNull;
  url_parse := Some |}.

Lemma elem_of_matching routes path r captures :
  (r, captures) ∈ matching routes path ↔ r ∈ routes ∧ match_route r.1.1 path = Some captures.
Proof.
  unfold matching. rewrite list_elem_of_omap. split.
  - intros (r' & Hin & (c & Hc & [= <- <-])%fmap_Some). done.
  - intros [Hin Hc]. exists r. rewrite Hc. done.
Qed.

#[export] Instance table_axum_laws : AxumLaws.
Proof.
  split; [|cbn; lia|cbn; lia].
  intros routes m path pattern e captures _ Hin Hm Hu. cbn [dispatch table_axum].
  assert (((pattern, m, e), captures) ∈ matching routes path) as Hin' by by apply elem_of_matching.
  destruct (matching routes path) as [|r0 rs] eqn:Er; [by apply elem_of_nil in Hin'|].
  rewrite <-Er in Hin' |- *.
  destruct (find _ _) as [[[[pattern' m'] e'] c]|] eqn:Ef.
  - apply find_some in Ef as [Hf Heq]. apply list_elem_of_In, elem_of_matching in Hf as [Hr Hc].
    apply bool_decide_eq_true in Heq. cbn [fst snd] in Heq, Hc. subst m'.
    destruct (Hu pattern' m e' Hr) as [-> He]; [eauto|]. rewrite He by done. rewrite Hm in Hc.
    injection Hc as <-. by destruct (matching routes path).
  - apply list_elem_of_In in Hin'. eapply find_none in Ef; [|exact Hin']. cbn in Ef.
    by rewrite bool_decide_eq_true_2 in Ef.
Qed.

(** ** A server and its client *)

(** One VM actor, 7, is registered; every agent and actor answers. *)
Definition quiet : Outside := {|
  o_http := Answered; o_scheduler := Answered; o_now := 0;
  o_asked := λ _, Ok {| reply_config := None; reply_actor_id := None |};
  o_actor_exists := false;
  o_lookup := λ _, Ok (Some 7);
  o_told := Ok ();
  o_history := λ _, Ok (lit "login:");
  o_info := λ _, Err RemoteFailed |}.

Definition no_text : SendError SchedulerError → rstring := λ _, [].
Definition id_bytes : ActorId → list N := λ a, [a].
Definition bytes_id : list N → option ActorId := head.
#[local] Existing Instance canonical_order.

Definition addr : rstring := default_manager_addr.

#[export] Instance loopback : HttpSend World := {|
  client_send m url b w :=
    match strip_prefix url addr with
    | Some path =>
        let '(s', r, effects) :=
          serve id_bytes bytes_id no_text quiet {| method := m; path := path; payload := b |} w.1 in
        ((s', w.2 ++ effects), Some r)
    | None => (w, None)
    end;
  response_url url := url;
  body_readable _ := true;
  body_json b := match b with BJson j => Some j | _ => None end;
  parse_timestamp := Some |}.

#[export] Instance loopback_connected : Connected id_bytes bytes_id no_text quiet addr.
Proof.
  split; [|done|done]. intros m path b s log _. cbn [client_send loopback].
  by rewrite (proj2 (strip_prefix_spec (addr ++ path) addr path) eq_refl).
Qed.

(** A scheduler that wants VM 5 to exist. *)
Definition wanting : SchedulerActor :=
  set_vm_manifests <[5 := minimal_manifest 5 1 1024]> (scheduler_on_start 0).

(** Shutting VM 5 down over HTTP. *)
Example http_api_is_scheduler_witness :
  serve id_bytes bytes_id no_text quiet (request_of (MShutdownVM 5)) wanting =
  let '(s', reply, effects) := scheduler_answer id_bytes bytes_id quiet (MShutdownVM 5) wanting in
  (s', match reply with
       | Ok a => success_of (MShutdownVM 5) a
       | Err _ => failure (failure_text (MShutdownVM 5))
       end, effects).
Proof.
  apply (http_api_is_scheduler id_bytes bytes_id no_text quiet (MShutdownVM 5) wanting);
    [vm_compute; reflexivity|reflexivity|reflexivity].
Defined.

(** Deleting VM 5 with a scheduler that does not take the request. *)
Definition refusing : Outside := {|
  o_http := Answered; o_scheduler := Refused (lit "actor stopped"); o_now := 0;
  o_asked := o_asked quiet; o_actor_exists := false; o_lookup := o_lookup quiet;
  o_told := Ok (); o_history := o_history quiet; o_info := o_info quiet |}.

Definition refused_delete : Handled HttpResponse :=
  serve id_bytes bytes_id no_text refusing (request_of (MDeleteVM 5)) wanting.

Example http_success_is_real_witness :
  status refused_delete.1.2 = 500 ∧ refused_delete.1.1 = wanting ∧ refused_delete.2 = [].
Proof.
  destruct (http_success_is_real id_bytes bytes_id no_text refusing (MDeleteVM 5) wanting
    refused_delete.1.1 refused_delete.1.2 refused_delete.2) as [_ H].
  - vm_compute. reflexivity.
  - unfold refused_delete. by destruct (serve _ _ _ _ _ _) as [[? ?] ?].
  - destruct H as (H1 & H2 & H3); [exists (lit "actor stopped"); right; split; reflexivity|].
    split; [exact H3|]. split; [exact H1|exact H2].
Defined.

(** [odoroboctl create] with a blank name. *)
Example cli_create_validates_witness :
  ∃ e, run_command {| manager_addr := addr; command := Create (lit "file:///disk.img") (lit " ") 4 1024 |}
         1 (wanting, []) = ((wanting, []), [], Err (InvalidManifest e)).
Proof.
  apply (cli_create_validates addr (lit "file:///disk.img") (lit " ") 4 1024 1 (wanting, [])).
  intros [H _]. vm_compute in H. discriminate.
Defined.

(** [odoroboctl delete] of VM 5, by its text. *)
Example cli_reaches_scheduler_witness :
  run_command {| manager_addr := addr; command := DeleteCommand (ulid_to_string 5) |} 1 (wanting, []) =
  let '(s', reply, effects) := scheduler_answer id_bytes bytes_id quiet (MDeleteVM 5) wanting in
  ((s', [] ++ effects),
   url_line addr (MDeleteVM 5) ++ match reply with
     | Ok a => printed (MDeleteVM 5) a
     | Err _ => [ErrBody 500 (BJson (message_json (failure_text (MDeleteVM 5))))]
     end, Ok ()).
Proof.
  apply (cli_reaches_scheduler id_bytes bytes_id no_text quiet addr 1
           (DeleteCommand (ulid_to_string 5)) (MDeleteVM 5) wanting []);
    [constructor|vm_compute; reflexivity|reflexivity|reflexivity].
Defined.

(** What that run prints, and that VM 5 is no longer wanted. *)
Example delete_run :
  let '((s, _), lines, res) :=
    run_command {| manager_addr := addr; command := DeleteCommand (ulid_to_string 5) |} 1 (wanting, []) in
  vm_manifests s !! 5 = None ∧ res = Ok () ∧
  lines = [OutBody (BJson JNull); OutMessage (lit "VM delete request sent successfully")].
Proof. vm_compute. auto. Qed.
