(* ===== verification/EndToEnd.v ===== *)
(** * From the command line to an agent

    The whole path of a create, composed: the client of [odoroboctl] builds and
    sends the manifest ([Cli.v]), the HTTP API and its actor pass it on
    ([HttpApi.v]), the scheduler chooses an agent and asks it
    ([SchedHandlers.v]), and the agents of the cluster execute what reaches
    them ([Cluster.v]). *)

From S2P Require Import Prelude RustString RustFloat SortedVec Manifest Json ManifestJson.
From S2P Require Import Messages Config Agent Cache Scheduling SchedHandlers SchedInv SchedThms.
From S2P Require Import Cluster HttpApi HttpFacts Cli.
Open Scope N_scope.

Section end_to_end.
Context {UT : UlidText} {UL : UlidTextLaws} {AX : Axum} {AL : AxumLaws} {order : IterOrder}.
Context (to_bytes : ActorId → list N) (from_bytes : list N → option ActorId).
Context (send_error_text : SendError SchedulerError → rstring).
Context {HS : HttpSend World} (addr : rstring).
(** What becomes of the scheduler's request to an agent, and the VM actors the
    agents spawn. *)
Context (fate : ActorId → Fate) (fresh : Ulid → ActorId).

(** The cluster after the scheduler's requests were delivered. *)
Definition delivered (c : Cluster) (w : World) (log : list SchedEffect) : Cluster :=
  {| sched := w.1; nodes := foldl (deliver_request to_bytes fate fresh) (nodes c)
                              (drop (length log) w.2) |}.

(** The agents that answer the scheduler are those of the cluster. *)
Definition outside_of (now : Instant) (exists_ : bool) (c : Cluster) (msg : CreateVM) (o : Outside) : Prop :=
  o_http o = Answered ∧ o_scheduler o = Answered ∧ o_now o = now ∧ o_actor_exists o = exists_ ∧
  o_asked o = ask_agent to_bytes fate fresh (nodes c) msg.

(** The agent that was asked, if scheduling found one. *)
Definition asked_agent (effects : list SchedEffect) : option ActorId :=
  match effects with [AskCreate a _] => Some a | _ => None end.

(** The cluster after a create that was answered with an error: the agents are
    as before, except that an asked agent that executed the request holds the VM,
    and then its answer was lost; the scheduler keeps the manifest and the pending
    placement if an agent was asked and the VM's actor was found afterwards, and
    nothing otherwise. *)
Definition failed_state (now : Instant) (actor_exists : bool) (msg : CreateVM)
    (asked : option ActorId) (c c' : Cluster) : Prop :=
  match asked ≫= (λ a, (a,.) <$> nodes c !! a) with
  | Some (a, ag) =>
      if executed (fate a)
      then acknowledged (fate a) = false ∧ ∃ ag', nodes c' = <[a := ag']> (nodes c) ∧
        vms ag' = <[create_vmid msg := cache_entry (fresh (create_vmid msg)) (create_config msg)]> (vms ag)
      else nodes c' = nodes c
  | None => nodes c' = nodes c
  end ∧
  match asked with
  | Some a => if actor_exists
      then vm_manifests (sched c') = <[create_vmid msg := create_config msg]> (vm_manifests (sched c)) ∧
           vm_placements (sched c') = <[create_vmid msg := [pending_placement a now]]> (vm_placements (sched c))
      else vm_manifests (sched c') = vm_manifests (sched c) ∧
           vm_placements (sched c') = vm_placements (sched c)
  | None => vm_manifests (sched c') = vm_manifests (sched c) ∧
            vm_placements (sched c') = vm_placements (sched c)
  end.

Lemma cluster_create_failed now ex msg c :
  cluster_inv c → vm_manifests (sched c) !! create_vmid msg = None →
  map_Forall (λ _ ag, vms ag !! create_vmid msg = None) (nodes c) →
  let '(s', reply, effects) := scheduler_create_vm to_bytes from_bytes now
    (ask_agent to_bytes fate fresh (nodes c) msg) ex msg (sched c) in
  ∀ e, reply = Err e →
    failed_state now ex msg (asked_agent effects) c
      {| sched := s'; nodes := foldl (deliver_request to_bytes fate fresh) (nodes c) effects |}.
Proof.
  intros Hinv Hm Hfree. pose proof (inv_unplaced _ _ (ci_sched _ Hinv) Hm) as Hn.
  set (ask := ask_agent _ _ _ _ _).
  pose proof (scheduler_create_vm_cases to_bytes from_bytes now ask ex msg (sched c)) as Hcs.
  destruct (scheduler_create_vm _ _ _ _ _ _ _) as [[s' reply] effects]. rewrite Hm in Hcs.
  intros e ->. destruct (schedule_agent_state (sched c) msg) as (p & Hs1 & _).
  destruct (schedule_agent (sched c) msg) as [s1 [a|e']]; cbn [fst] in Hs1; subst s1.
  2: { by destruct Hcs as (-> & _ & ->). }
  destruct Hcs as (-> & Hask & ->). cbn [asked_agent]. rewrite <-Hask. split.
  - cbn. unfold deliver_create. unfold ask, ask_agent in Hask.
    destruct (nodes c !! a) as [ag|] eqn:Ha; [|done]. cbn.
    destruct (executed (fate a)) eqn:He; [|done]. cbn in Hask.
    destruct (acknowledged (fate a)) eqn:Hk; [done|]. split; [done|].
    exists (node_create to_bytes fresh ag msg). split; [done|].
    apply node_create_vms, (Hfree a ag Ha).
  - destruct ex; cbn; unfold push_placement; rewrite Hn; [done|].
    by rewrite !delete_insert_id.
Qed.

(** The client's command as the scheduler's create in the cluster. *)
Lemma run_create_cluster o now ex image name vcpus memory id c log :
  let msg := {| create_vmid := id; create_config := create_manifest id image name vcpus memory |} in
  outside_of now ex c msg o → Connected to_bytes from_bytes send_error_text o addr →
  msg_ok (MCreateVM msg) →
  let '(w', lines, r) := run_command {| manager_addr := addr; command := Create image name vcpus memory |}
                           id (sched c, log) in
  let '(s', reply, effects) := scheduler_create_vm to_bytes from_bytes now
    (ask_agent to_bytes fate fresh (nodes c) msg) ex msg (sched c) in
  r = Ok () ∧ drop (length log) w'.2 = effects ∧
  delivered c w' log =
    {| sched := s'; nodes := foldl (deliver_request to_bytes fate fresh) (nodes c) effects |} ∧
  lines = OutUrl (response_url (addr ++ lit "/vms")) ::
    match reply with
    | Ok a => printed (MCreateVM msg) a
    | Err _ => [ErrBody 500 (BJson (message_json (lit "failed to create VM via scheduler")))]
    end.
Proof.
  intros msg (Hh & Hsch & Hnow & Hex & Hask) HC Hok.
  rewrite (run_command_answer to_bytes from_bytes send_error_text o addr id
    (Create image name vcpus memory) (MCreateVM msg) (sched c) log (cm_create _ _ _ _ _) Hok Hh Hsch).
  cbn [scheduler_answer]. rewrite Hnow, Hex, Hask.
  destruct (scheduler_create_vm _ _ _ _ _ _ _) as [[s' reply] effects].
  unfold delivered. cbn [fst snd]. by rewrite drop_app_length.
Qed.

(** C2. What [odoroboctl create] reports is what happened, whatever becomes of
    the request on its way to an agent. For a new VM (unknown to the scheduler
    and held by no agent) with valid arguments, and a server that answers, the
    command ends without an error and prints one of two things. If it prints
    that the request succeeded, then exactly one agent of the cluster holds the
    VM, with the manifest the command line describes, and the scheduler has the
    VM pending on that agent. If it prints the server's error, then no agent was
    changed, except that the agent that was asked holds the VM if it executed the
    request, whose answer was then lost. The scheduler then keeps the
    manifest and the pending placement if an agent was asked and the lookup found
    the VM's actor, and neither of them otherwise, even if the agent holds the
    VM. *)
Theorem create_end_to_end o now actor_exists image name vcpus memory id c log :
  let manifest := create_manifest id image name vcpus memory in
  let msg := {| create_vmid := id; create_config := manifest |} in
  cluster_inv c → vm_manifests (sched c) !! id = None →
  map_Forall (λ _ ag, vms ag !! id = None) (nodes c) →
  outside_of now actor_exists c msg o → Connected to_bytes from_bytes send_error_text o addr →
  msg_ok (MCreateVM msg) →
  let '(w', lines, r) := run_command {| manager_addr := addr; command := Create image name vcpus memory |}
                           id (sched c, log) in
  let c' := delivered c w' log in
  r = Ok () ∧
  ((last lines = Some (OutMessage (lit "VM create request sent successfully")) ∧
    ∃ a ag, nodes c' !! a = Some ag ∧
      (∀ b bg, nodes c' !! b = Some bg → vms bg !! id =
        if decide (b = a) then Some (cache_entry (fresh id) manifest) else None) ∧
      vm_manifests (sched c') !! id = Some manifest ∧
      vm_placements (sched c') !! id = Some [pending_placement a now]) ∨
   (last lines = Some (ErrBody 500 (BJson (message_json (lit "failed to create VM via scheduler")))) ∧
    failed_state now actor_exists msg (asked_agent (drop (length log) w'.2)) c c')).
Proof.
  intros manifest msg Hinv Hm Hfree Ho HC Hok.
  pose proof (run_create_cluster o now actor_exists image name vcpus memory id c log Ho HC Hok) as Hrun.
  destruct (run_command _ _ _) as [[w' lines] r].
  pose proof (cluster_create_failed now actor_exists msg c Hinv Hm Hfree) as Hfail.
  pose proof (create_ok_reserved to_bytes from_bytes fate fresh now actor_exists msg c) as Hres.
  fold manifest msg in Hrun. unfold cluster_create in Hrun, Hres.
  destruct (scheduler_create_vm _ _ _ _ _ _ _) as [[s' reply] effects].
  destruct Hrun as (-> & Hw & Hc & ->). rewrite Hw, Hc. split; [done|].
  destruct reply as [x|e]; [left|right]; (split; [done|]); [|by apply (Hfail e)].
  destruct (Hres _ x Hinv Hm eq_refl) as (b & ag & Hb & _ & -> & Hns & _ & Hmm & Hp & _).
  pose proof (Hfree b ag Hb) as Hv. cbn in Hv.
  destruct (node_create_vms to_bytes fresh ag msg Hv) as (Hvms & _).
  exists b, (node_create to_bytes fresh ag msg). rewrite Hns, Hmm.
  split_and!; [apply lookup_insert_eq| |apply lookup_insert_eq|done]. intros d dg.
  destruct (decide (d = b)) as [->|Hne].
  - rewrite lookup_insert_eq. intros [= <-]. rewrite Hvms. apply lookup_insert_eq.
  - rewrite lookup_insert_ne by done. apply Hfree.
Qed.
End end_to_end.
