(* ===== verification/EndToEndExamples.v ===== *)
(** * A create from the command line, run

    The client connected to the server of a cluster with one node that has
    joined, and the theorem of [EndToEnd.v] applied to a create of VM 7. *)

From S2P Require Import Prelude RustString RustFloat SortedVec Manifest Json ManifestJson.
From S2P Require Import ManifestExamples Messages Config Agent Cache Scheduling SchedHandlers.
From S2P Require Import Witnesses Cluster ClusterExamples HttpApi HttpFacts Cli HttpExamples EndToEnd.
Open Scope N_scope.

#[local] Existing Instance canonical_order.

Definition e2e_image : rstring := lit "file:///var/lib/odorobo/disk.img".
Definition e2e_manifest : VmManifest := create_manifest 7 e2e_image (lit "web") 4 1024.
Definition e2e_msg : CreateVM := {| create_vmid := 7; create_config := e2e_manifest |}.
Definition e2e_cli : Cli :=
  {| manager_addr := addr; command := Create e2e_image (lit "web") 4 1024 |}.

(** The server answers, and the agents of the cluster get their requests with
    the given fate. *)
Definition e2e_outside (fate : ActorId → Fate) : Outside := {|
  o_http := Answered; o_scheduler := Answered; o_now := 2;
  o_asked := ask_agent ex_to_bytes fate spawned (nodes cl2) e2e_msg;
  o_actor_exists := false; o_lookup := o_lookup quiet; o_told := o_told quiet;
  o_history := o_history quiet; o_info := o_info quiet |}.

Definition e2e_client (fate : ActorId → Fate) : HttpSend World := {|
  client_send m url b w :=
    match strip_prefix url addr with
    | Some path =>
        let '(s', r, effects) := serve ex_to_bytes ex_from_bytes no_text (e2e_outside fate)
          {| method := m; path := path; payload := b |} w.1 in
        ((s', w.2 ++ effects), Some r)
    | None => (w, None)
    end;
  response_url url := url;
  body_readable _ := true;
  body_json b := match b with BJson j => Some j | _ => None end;
  parse_timestamp := Some |}.

Lemma e2e_connected fate :
  Connected (HS := e2e_client fate) ex_to_bytes ex_from_bytes no_text (e2e_outside fate) addr.
Proof.
  split; [|done|done]. intros m path b s log _. cbn [client_send e2e_client].
  by rewrite (proj2 (strip_prefix_spec (addr ++ path) addr path) eq_refl).
Qed.

Lemma e2e_msg_ok : msg_ok (MCreateVM e2e_msg).
Proof.
  split; [reflexivity|]. split; [|vm_compute; reflexivity].
  split; [by vm_compute|]. split; [by vm_compute|]. split_and!.
  - split_and!; [by vm_compute|done|by vm_compute].
  - apply Forall_singleton. done.
  - apply Forall_nil_2.
  - done.
Qed.

Lemma cl2_free : map_Forall (λ _ ag, vms ag !! 7 = None) (nodes cl2).
Proof. apply (bool_decide_eq_true_1 _). vm_compute. reflexivity. Qed.

(** What the run prints, and where the VM is. *)
Example e2e_run :
  let '(w, lines, r) := run_command (HS := e2e_client answered) e2e_cli 7 (sched cl2, []) in
  let c := delivered ex_to_bytes answered spawned cl2 w [] in
  last lines = Some (OutMessage (lit "VM create request sent successfully")) ∧
  (λ ag, dom (vms ag)) <$> nodes c = {[10 := {[7]}]}.
Proof. vm_compute. split; reflexivity. Qed.

Lemma create_end_to_end_witness :
  let '(w, lines, r) := run_command (HS := e2e_client answered) e2e_cli 7 (sched cl2, []) in
  r = Ok () ∧
  ∃ a ag, nodes (delivered ex_to_bytes answered spawned cl2 w []) !! a = Some ag ∧
    vms ag !! 7 = Some (cache_entry 107 e2e_manifest).
Proof.
  pose proof e2e_run as Hrun.
  pose proof (create_end_to_end (HS := e2e_client answered) ex_to_bytes ex_from_bytes no_text addr
    answered spawned (e2e_outside answered) 2 false e2e_image (lit "web") 4 1024 7 cl2 []
    cl2_inv eq_refl cl2_free
    (conj eq_refl (conj eq_refl (conj eq_refl (conj eq_refl eq_refl)))) (e2e_connected answered) e2e_msg_ok) as H.
  lazymatch type of H with
  | context [@run_command ?u ?w ?h ?a ?b ?c] =>
      change (@run_command u w h a b c) with (run_command (HS := e2e_client answered) e2e_cli 7 (sched cl2, [])) in H
  end.
  destruct (run_command (HS := e2e_client answered) e2e_cli 7 (sched cl2, [])) as [[w lines] r].
  destruct H as [Hr [(_ & a & ag & Ha & Hall & _)|(Hl & _)]].
  - split; [exact Hr|]. exists a, ag. split; [exact Ha|]. rewrite (Hall a ag Ha).
    by rewrite decide_True.
  - destruct Hrun as [Hrun _]. rewrite Hrun in Hl. discriminate.
Defined.

(** The answer of the agent is lost and the VM's actor is not found: an error is
    printed, the agent holds the VM, and the scheduler has forgotten it. *)
Example e2e_lost_answer :
  let '(w, lines, r) := run_command (HS := e2e_client unanswered) e2e_cli 7 (sched cl2, []) in
  let c := delivered ex_to_bytes unanswered spawned cl2 w [] in
  last lines = Some (ErrBody 500 (BJson (message_json (lit "failed to create VM via scheduler")))) ∧
  (λ ag, dom (vms ag)) <$> nodes c = {[10 := {[7]}]} ∧ vm_manifests (sched c) = ∅.
Proof. vm_compute. split_and!; reflexivity. Qed.
