(* ===== verification/Types.v ===== *)
(** * The public data types

    The serde types of [odorobo/src/types.rs] beside those the HTTP API answers
    with (in [HttpApi]): VM data and its update request, the described VM, and
    the affinity rules as the public API spells them. They differ from the
    manifest in two ways: enum variants keep their Rust names, and unknown
    fields are ignored. *)

From S2P Require Import Prelude RustString RustFloat SortedVec Manifest Json ManifestJson.
From S2P Require Import Messages Cache Scheduling SchedHandlers HttpApi ManifestExamples.
Open Scope N_scope.

(** ** Sizes *)

(** [bytesize_as_u64]: a [ByteSize] is its number of bytes. *)
Definition bytesize_as_u64 : Codec N := u64_codec.
(** [opt_bytesize_as_u64]. *)
Definition opt_bytesize_as_u64 : Codec (option N) := option_codec u64_codec.

(** An [Option] field without attributes: [null] when absent, and a missing key
    is read as absent. *)
Definition opt_field {A} (c : Codec A) (v : option Json) : option (option A) :=
  defaulted (option_codec c) None v.

Section codecs.
Context `{UlidText} (url_parse : rstring → option rstring).

(** ** VM data *)

Record VMData := {
  data_id : Ulid;
  data_name : rstring;
  data_vcpus : N;
  data_max_vcpus : option N;
  data_memory : N;
  data_image : rstring;
  data_volumes : list Volume;
  data_networks : list rstring }.

Definition VMData_codec : Codec VMData := Build_Codec
  (λ d, obj_of
    [(lit "id", Some (enc ulid_codec (data_id d)));
     (lit "name", Some (enc string_codec (data_name d)));
     (lit "vcpus", Some (enc u32_codec (data_vcpus d)));
     (lit "max_vcpus", Some (enc (option_codec u32_codec) (data_max_vcpus d)));
     (lit "memory", Some (enc bytesize_as_u64 (data_memory d)));
     (lit "image", Some (enc string_codec (data_image d)));
     (lit "volumes", Some (enc (vec_codec (Volume_codec url_parse)) (data_volumes d)));
     (lit "networks", Some (enc (vec_codec string_codec) (data_networks d)))])
  (λ j, vs ← struct_fields false [lit "id"; lit "name"; lit "vcpus"; lit "max_vcpus"; lit "memory";
                                  lit "image"; lit "volumes"; lit "networks"] j;
    match vs with
    | [id; name; vcpus; max_vcpus; memory; image; volumes; networks] =>
        id ← required ulid_codec id;
        name ← required string_codec name;
        vcpus ← required u32_codec vcpus;
        max_vcpus ← opt_field u32_codec max_vcpus;
        memory ← required bytesize_as_u64 memory;
        image ← required string_codec image;
        volumes ← defaulted (vec_codec (Volume_codec url_parse)) [] volumes;
        networks ← defaulted (vec_codec string_codec) [] networks;
        Some {| data_id := id; data_name := name; data_vcpus := vcpus; data_max_vcpus := max_vcpus;
                data_memory := memory; data_image := image; data_volumes := volumes;
                data_networks := networks |}
    | _ => None
    end).

Record UpdateVMRequest := {
  update_name : option rstring;
  update_vcpus : option N;
  update_max_vcpus : option N;
  update_memory : option N;
  update_volumes : list Volume }.

(** A field with [#[serde(with = ...)]] is not given the special treatment of
    [Option]: [memory] must be present, if only as [null]. *)
Definition UpdateVMRequest_codec : Codec UpdateVMRequest := Build_Codec
  (λ u, obj_of
    [(lit "name", Some (enc (option_codec string_codec) (update_name u)));
     (lit "vcpus", Some (enc (option_codec u32_codec) (update_vcpus u)));
     (lit "max_vcpus", Some (enc (option_codec u32_codec) (update_max_vcpus u)));
     (lit "memory", Some (enc opt_bytesize_as_u64 (update_memory u)));
     (lit "volumes", Some (enc (vec_codec (Volume_codec url_parse)) (update_volumes u)))])
  (λ j, vs ← struct_fields false [lit "name"; lit "vcpus"; lit "max_vcpus"; lit "memory"; lit "volumes"] j;
    match vs with
    | [name; vcpus; max_vcpus; memory; volumes] =>
        name ← opt_field string_codec name;
        vcpus ← opt_field u32_codec vcpus;
        max_vcpus ← opt_field u32_codec max_vcpus;
        memory ← required opt_bytesize_as_u64 memory;
        volumes ← defaulted (vec_codec (Volume_codec url_parse)) [] volumes;
        Some {| update_name := name; update_vcpus := vcpus; update_max_vcpus := max_vcpus;
                update_memory := memory; update_volumes := volumes |}
    | _ => None
    end).

(** ** Affinity *)

Inductive AffinityStrictness := Required | Preferred (weight : Z).
Inductive AffinityType := VirtualMachineAffinity | AgentAffinity.
#[global] Instance AffinityType_eq_dec : EqDecision AffinityType.
Proof. solve_decision. Defined.
Inductive MetadataTable := Label | Annotation.
#[global] Instance MetadataTable_eq_dec : EqDecision MetadataTable.
Proof. solve_decision. Defined.
Inductive Operator := In | NotIn | Lt | Gt.
#[global] Instance Operator_eq_dec : EqDecision Operator.
Proof. solve_decision. Defined.

Record AffinityRequirement := {
  key : rstring;
  table : MetadataTable;
  operator : Operator;
  values : list rstring }.

Record AffinityRule := {
  strictness : AffinityStrictness;
  affinity_type : AffinityType;
  inverse : bool;
  requirements : list AffinityRequirement }.

Definition AffinityStrictness_codec : Codec AffinityStrictness := Build_Codec
  (λ s, match s with
        | Required => JStr (lit "Required")
        | Preferred weight =>
            JObj [(lit "Preferred", obj_of [(lit "weight", Some (enc i64_codec weight))])]
        end)
  (λ j, '(k, v) ← tag j;
    if bool_decide (k = lit "Required") then
      if unit_payload v then Some Required else None
    else if bool_decide (k = lit "Preferred") then
      payload ← v;
      vs ← struct_fields false [lit "weight"] payload;
      match vs with
      | [weight] => weight ← required i64_codec weight; Some (Preferred weight)
      | _ => None
      end
    else None).

Definition AffinityType_codec : Codec AffinityType :=
  enum_codec [(lit "VirtualMachine", VirtualMachineAffinity); (lit "Agent", AgentAffinity)] [].
Definition MetadataTable_codec : Codec MetadataTable :=
  enum_codec [(lit "Label", Label); (lit "Annotation", Annotation)] [].
Definition Operator_codec : Codec Operator :=
  enum_codec [(lit "In", In); (lit "NotIn", NotIn); (lit "Lt", Lt); (lit "Gt", Gt)] [].

Definition AffinityRequirement_codec : Codec AffinityRequirement := Build_Codec
  (λ r, obj_of
    [(lit "key", Some (enc string_codec (key r)));
     (lit "table", Some (enc MetadataTable_codec (table r)));
     (lit "operator", Some (enc Operator_codec (operator r)));
     (lit "values", Some (enc (vec_codec string_codec) (values r)))])
  (λ j, vs ← struct_fields false [lit "key"; lit "table"; lit "operator"; lit "values"] j;
    match vs with
    | [key; table; operator; values] =>
        key ← required string_codec key;
        table ← required MetadataTable_codec table;
        operator ← required Operator_codec operator;
        values ← required (vec_codec string_codec) values;
        Some {| key := key; table := table; operator := operator; values := values |}
    | _ => None
    end).

Definition AffinityRule_codec : Codec AffinityRule := Build_Codec
  (λ r, obj_of
    [(lit "strictness", Some (enc AffinityStrictness_codec (strictness r)));
     (lit "affinity_type", Some (enc AffinityType_codec (affinity_type r)));
     (lit "inverse", Some (enc bool_codec (inverse r)));
     (lit "requirements", Some (enc (vec_codec AffinityRequirement_codec) (requirements r)))])
  (λ j, vs ← struct_fields false
          [lit "strictness"; lit "affinity_type"; lit "inverse"; lit "requirements"] j;
    match vs with
    | [strictness; affinity_type; inverse; requirements] =>
        strictness ← required AffinityStrictness_codec strictness;
        affinity_type ← required AffinityType_codec affinity_type;
        inverse ← defaulted bool_codec false inverse;
        requirements ← required (vec_codec AffinityRequirement_codec) requirements;
        Some {| strictness := strictness; affinity_type := affinity_type; inverse := inverse;
                requirements := requirements |}
    | _ => None
    end).

(** ** The described VM *)

Inductive VMStatus := Running | Stopped | Provisioning | Error (message : rstring).

(** [Error] carries its message under its name; the others are names. *)
Definition VMStatus_codec : Codec VMStatus := Build_Codec
  (λ s, match s with
        | Running => JStr (lit "Running")
        | Stopped => JStr (lit "Stopped")
        | Provisioning => JStr (lit "Provisioning")
        | Error message => JObj [(lit "Error", enc string_codec message)]
        end)
  (λ j, '(k, v) ← tag j;
    if bool_decide (k = lit "Running") then if unit_payload v then Some Running else None
    else if bool_decide (k = lit "Stopped") then if unit_payload v then Some Stopped else None
    else if bool_decide (k = lit "Provisioning") then
      if unit_payload v then Some Provisioning else None
    else if bool_decide (k = lit "Error") then Error <$> (v ≫= dec string_codec)
    else None).

Definition ObjectMetadata_codec : Codec ObjectMetadata := Build_Codec
  (λ m, obj_of
    [(lit "labels", Some (enc (map_codec string_codec) (object_labels m)));
     (lit "annotations", Some (enc (map_codec string_codec) (object_annotations m)))])
  (λ j, vs ← struct_fields false [lit "labels"; lit "annotations"] j;
    match vs with
    | [labels; annotations] =>
        labels ← required (map_codec string_codec) labels;
        annotations ← required (map_codec string_codec) annotations;
        Some {| object_labels := labels; object_annotations := annotations |}
    | _ => None
    end).

Record VirtualMachine := {
  vm_data : VMData;
  vm_node : option rstring;
  vm_status : VMStatus;
  vm_metadata : option ObjectMetadata;
  vm_affinity : option (list AffinityRule) }.

Definition VirtualMachine_codec : Codec VirtualMachine := Build_Codec
  (λ m, obj_of
    [(lit "data", Some (enc VMData_codec (vm_data m)));
     (lit "node", Some (enc (option_codec string_codec) (vm_node m)));
     (lit "status", Some (enc VMStatus_codec (vm_status m)));
     (lit "metadata", Some (enc (option_codec ObjectMetadata_codec) (vm_metadata m)));
     (lit "affinity", Some (enc (option_codec (vec_codec AffinityRule_codec)) (vm_affinity m)))])
  (λ j, vs ← struct_fields false [lit "data"; lit "node"; lit "status"; lit "metadata"; lit "affinity"] j;
    match vs with
    | [data; node; status; metadata; affinity] =>
        data ← required VMData_codec data;
        node ← opt_field string_codec node;
        status ← required VMStatus_codec status;
        metadata ← opt_field ObjectMetadata_codec metadata;
        affinity ← opt_field (vec_codec AffinityRule_codec) affinity;
        Some {| vm_data := data; vm_node := node; vm_status := status; vm_metadata := metadata;
                vm_affinity := affinity |}
    | _ => None
    end).
End codecs.

(** ** Widths *)

(** A stored URI is in the form the [url] library prints, which it reads back. *)
Definition volume_typed (url_parse : rstring → option rstring) (v : Volume) : Prop :=
  ulid_ok (volume_id v) ∧ u64_ok (volume_size v) ∧ url_parse (volume_uri v) = Some (volume_uri v).
Definition data_typed (url_parse : rstring → option rstring) (d : VMData) : Prop :=
  ulid_ok (data_id d) ∧ u32_ok (data_vcpus d) ∧ opt_all u32_ok (data_max_vcpus d) ∧
  u64_ok (data_memory d) ∧ Forall (volume_typed url_parse) (data_volumes d).
Definition update_typed (url_parse : rstring → option rstring) (u : UpdateVMRequest) : Prop :=
  opt_all u32_ok (update_vcpus u) ∧ opt_all u32_ok (update_max_vcpus u) ∧
  opt_all u64_ok (update_memory u) ∧ Forall (volume_typed url_parse) (update_volumes u).
Definition strictness_typed (s : AffinityStrictness) : Prop :=
  match s with Required => True | Preferred weight => i64_ok weight end.
Definition rule_typed (r : AffinityRule) : Prop := strictness_typed (strictness r).
Definition vm_typed (url_parse : rstring → option rstring) (m : VirtualMachine) : Prop :=
  data_typed url_parse (vm_data m) ∧ opt_all (Forall rule_typed) (vm_affinity m).

(** ** Every type survives the wire *)

Section laws.
Context `{UlidTextLaws} (url_parse : rstring → option rstring).

#[local] Hint Resolve ulid_codec_ok ulid_non_null option_codec_ok : codec.
#[local] Hint Unfold bytesize_as_u64 opt_bytesize_as_u64 : codec.

Lemma struct_non_null (fs : list (rstring * option Json)) : obj_of fs ≠ JNull.
Proof. done. Qed.

Lemma Volume_codec_ok : codec_ok (Volume_codec url_parse) (volume_typed url_parse).
Proof.
  intros [id name size uri] (Hi & Hs & Hu). struct_ok Volume_codec. repeat field_ok.
  cbn in *. by rewrite Hu.
Qed.
#[local] Hint Resolve Volume_codec_ok : codec.

Ltac opt_fields_ok := unfold opt_field, bytesize_as_u64, opt_bytesize_as_u64; repeat field_ok.

Lemma VMData_codec_ok : codec_ok (VMData_codec url_parse) (data_typed url_parse).
Proof.
  intros [id name vcpus max memory image volumes networks] (Hi & Hv & Hm & Hr & Hvol).
  struct_ok VMData_codec. cbn in Hi, Hv, Hm, Hr, Hvol. cbn [data_id data_name data_vcpus data_max_vcpus
    data_memory data_image data_volumes data_networks]. assert (Forall always networks) by (by apply Forall_true).
  opt_fields_ok. done.
Qed.

Lemma UpdateVMRequest_codec_ok : codec_ok (UpdateVMRequest_codec url_parse) (update_typed url_parse).
Proof.
  intros [name vcpus max memory volumes] (Hv & Hm & Hr & Hvol). struct_ok UpdateVMRequest_codec.
  cbn in Hv, Hm, Hr, Hvol. cbn [update_name update_vcpus update_max_vcpus update_memory update_volumes].
  assert (opt_all always name) by by intros ?. opt_fields_ok. done.
Qed.

Lemma public_AffinityStrictness_ok : codec_ok AffinityStrictness_codec strictness_typed.
Proof.
  intros [|weight] Hs; [done|]. cbn [enc dec AffinityStrictness_codec tag mbind option_bind].
  rewrite bool_decide_eq_false_2, bool_decide_eq_true_2 by done. cbn [mbind option_bind].
  change [lit "weight"] with [(lit "weight", Some (enc i64_codec weight))].*1.
  rewrite struct_fields_obj by apply NoDup_singleton. cbn [fmap list_fmap snd mbind option_bind].
  field_ok. done.
Qed.

Lemma public_AffinityType_ok : codec_ok AffinityType_codec always.
Proof. enum_ok. Qed.
Lemma public_MetadataTable_ok : codec_ok MetadataTable_codec always.
Proof. enum_ok. Qed.
Lemma public_Operator_ok : codec_ok Operator_codec always.
Proof. enum_ok. Qed.
Lemma VMStatus_codec_ok : codec_ok VMStatus_codec always.
Proof. by intros []. Qed.

#[local] Hint Resolve public_AffinityStrictness_ok public_AffinityType_ok public_MetadataTable_ok
  public_Operator_ok VMStatus_codec_ok VMData_codec_ok : codec.

Lemma public_AffinityRequirement_ok : codec_ok AffinityRequirement_codec always.
Proof.
  intros [k t o vs] _. struct_ok AffinityRequirement_codec.
  assert (Forall always vs) by (by apply Forall_true). repeat field_ok. done.
Qed.
#[local] Hint Resolve public_AffinityRequirement_ok : codec.

Lemma public_AffinityRule_ok : codec_ok AffinityRule_codec rule_typed.
Proof.
  intros [s type inv reqs] Hr. struct_ok AffinityRule_codec.
  assert (Forall always reqs) by (by apply Forall_true). repeat field_ok. done.
Qed.

Lemma ObjectMetadata_codec_ok : codec_ok ObjectMetadata_codec always.
Proof. intros [labels annotations] _. struct_ok ObjectMetadata_codec. repeat field_ok. done. Qed.

Lemma ObjectMetadata_non_null : non_null ObjectMetadata_codec.
Proof. done. Qed.
Lemma vec_non_null {A} (c : Codec A) : non_null (vec_codec c).
Proof. done. Qed.
#[local] Hint Resolve public_AffinityRule_ok ObjectMetadata_codec_ok ObjectMetadata_non_null
  vec_non_null : codec.

Lemma VirtualMachine_codec_ok : codec_ok (VirtualMachine_codec url_parse) (vm_typed url_parse).
Proof.
  intros [data node status metadata affinity] (Hd & Ha). struct_ok VirtualMachine_codec.
  cbn in Hd, Ha. cbn [vm_data vm_node vm_status vm_metadata vm_affinity].
  assert (opt_all always node) by by intros ?. assert (opt_all always metadata) by by intros ?.
  opt_fields_ok. done.
Qed.

(** C17. The public types survive the wire: a described VM and an update request
    whose numbers fit their fields and whose URIs are in the form the [url]
    library prints are read back exactly as they were written. *)
Theorem types_json_roundtrip (m : VirtualMachine) (u : UpdateVMRequest) :
  vm_typed url_parse m → update_typed url_parse u →
  dec (VirtualMachine_codec url_parse) (enc (VirtualMachine_codec url_parse) m) = Some m ∧
  dec (UpdateVMRequest_codec url_parse) (enc (UpdateVMRequest_codec url_parse) u) = Some u.
Proof. split; [by apply VirtualMachine_codec_ok|by apply UpdateVMRequest_codec_ok]. Qed.

Lemma assoc_None k kvs : k ∉ kvs.*1 → assoc k kvs = None.
Proof.
  unfold assoc. induction kvs as [|[n v] kvs IH]; [done|]. rewrite fmap_cons, not_elem_of_cons.
  cbn [fst]. intros [Hn Hk]. cbn [find fst]. rewrite bool_decide_eq_false_2 by congruence. by apply IH.
Qed.

(** A partial update that does not mention [memory] is refused, although every
    other field may be left out. *)
Theorem update_requires_memory kvs :
  lit "memory" ∉ kvs.*1 → dec (UpdateVMRequest_codec url_parse) (JObj kvs) = None.
Proof.
  intros Hm. unfold UpdateVMRequest_codec. cbn [dec struct_fields].
  destruct (_ && _); [|done]. cbn [mbind option_bind fmap list_fmap].
  rewrite (assoc_None _ _ Hm). unfold required.
  destruct (opt_field string_codec _); [|done]. cbn [mbind option_bind].
  destruct (opt_field u32_codec (assoc (lit "vcpus") _)); [|done]. cbn [mbind option_bind].
  by destruct (opt_field u32_codec _).
Qed.
End laws.

(** ** A described VM *)

Definition example_volume : Volume := {|
  volume_id := 3; volume_name := lit "root"; volume_size := 1073741824;
  volume_uri := lit "rbd://vms/root" |}.
Definition example_vm : VirtualMachine := {|
  vm_data := {| data_id := 5; data_name := lit "web"; data_vcpus := 2; data_max_vcpus := None;
                data_memory := 536870912; data_image := lit "fedora"; data_volumes := [example_volume];
                data_networks := [lit "devnet"] |};
  vm_node := Some (lit "node-1"); vm_status := Error (lit "no capacity"); vm_metadata := None;
  vm_affinity := Some [{| strictness := Preferred (-5); affinity_type := AgentAffinity; inverse := true;
    requirements := [{| key := lit "zone"; table := Label; operator := NotIn; values := [lit "b"] |}] |}] |}.
Definition example_update : UpdateVMRequest := {|
  update_name := Some (lit "db"); update_vcpus := Some 4; update_max_vcpus := None;
  update_memory := None; update_volumes := [] |}.

Lemma types_json_roundtrip_witness :
  dec (VirtualMachine_codec Some) (enc (VirtualMachine_codec Some) example_vm) = Some example_vm ∧
  dec (UpdateVMRequest_codec Some) (enc (UpdateVMRequest_codec Some) example_update)
    = Some example_update.
Proof.
  apply (types_json_roundtrip Some).
  - split.
    + split_and!; [by vm_compute|by vm_compute|by intros ?|by vm_compute|].
      apply Forall_singleton. split_and!; [by vm_compute|by vm_compute|done].
    + intros rules [= <-]. apply Forall_singleton. by vm_compute.
  - split_and!; [intros n [= <-]; by vm_compute|by intros ?|by intros ?|constructor].
Defined.

(** The affinity rules of the public types are not those of the manifest: the
    variants are spelled differently, so neither reads the other's. *)
Example affinity_spellings_differ :
  dec ManifestJson.AffinityStrictness_codec (enc AffinityStrictness_codec Required) = None ∧
  dec AffinityStrictness_codec (enc ManifestJson.AffinityStrictness_codec Manifest.Required) = None.
Proof. split; vm_compute; reflexivity. Qed.
