(* ===== verification/ConfigJson.v ===== *)
(** * The configuration file

    The text of IPv4 addresses as the standard library reads it, the serde
    codecs of [odorobo/src/config.rs] with their per-field defaults, and
    [Config::init]. The text of a network is the [ipnet] library's, the command
    line and the merge function are generated by the [clap] and
    [fyra_proc_macros] derives: they are arguments. *)

From S2P Require Import Prelude RustString RustFloat Manifest Json ManifestJson Messages Config.
From S2P Require Import Network.
Open Scope N_scope.

(** ** IPv4 addresses *)

(** [read_number(10, Some(3), false)] for a [u8]: at most three digits, no
    leading zero, at most 255. *)
Definition read_octet (s : rstring) : option (N * rstring) :=
  let '(ds, rest) := span_digits s in
  match ds with
  | [] => None
  | 0 :: _ :: _ => None
  | _ => if Nat.leb (length ds) 3 && (digits_value ds <=? 255) then Some (digits_value ds, rest) else None
  end.
Definition read_dot (s : rstring) : option rstring :=
  match s with 46 :: s => Some s | _ => None end.

(** [<Ipv4Addr as FromStr>::from_str]. *)
Definition parse_ipv4 (s : rstring) : option N :=
  '(a, s) ← read_octet s; s ← read_dot s;
  '(b, s) ← read_octet s; s ← read_dot s;
  '(c, s) ← read_octet s; s ← read_dot s;
  '(d, s) ← read_octet s;
  match s with
  | [] => Some (((a * 256 + b) * 256 + c) * 256 + d)
  | _ :: _ => None
  end.

Definition ends_number (s : rstring) : bool :=
  match s with c :: _ => negb (is_ascii_digit c) | [] => true end.

Lemma span_digits_app s rest :
  Forall (λ c, is_ascii_digit c = true) s → ends_number rest = true →
  span_digits (s ++ rest) = ((λ c, c - 48) <$> s, rest).
Proof.
  intros Hs Hr. induction Hs as [|c s Hc _ IH]; cbn [app span_digits].
  - destruct rest as [|c rest]; [done|]. cbn in *. by destruct (is_ascii_digit c).
  - rewrite Hc, IH. done.
Qed.

Definition octet_digits (ds : list N) (o : N) : bool :=
  match ds with
  | [] => false
  | 0 :: _ :: _ => false
  | _ => Nat.leb (length ds) 3 && (digits_value ds <=? 255) && (digits_value ds =? o)
  end.

(** Every octet prints as a number the parser takes. *)
Lemma octets_read :
  forallb (λ o, octet_digits ((λ c, c - 48) <$> show_N o) o) (N.of_nat <$> seq 0 256) = true.
Proof. vm_compute. reflexivity. Qed.

Lemma read_octet_show o rest :
  o < 256 → ends_number rest = true → read_octet (show_N o ++ rest) = Some (o, rest).
Proof.
  intros Ho Hr. unfold read_octet. rewrite span_digits_app by (apply show_N_digits || done).
  assert (octet_digits ((λ c, c - 48) <$> show_N o) o = true) as Hd.
  { pose proof octets_read as Hall. rewrite forallb_forall in Hall. apply Hall.
    apply list_elem_of_In, list_elem_of_fmap. exists (N.to_nat o).
    rewrite N2Nat.id, elem_of_seq. split; [done|lia]. }
  unfold octet_digits in Hd. destruct ((λ c, c - 48) <$> show_N o) as [|[|p] ds]; [done| |].
  - destruct ds; [|done]. apply andb_prop in Hd as [_ <-%N.eqb_eq]. done.
  - apply andb_prop in Hd as [Hd Ho'%N.eqb_eq]. by rewrite Hd, Ho'.
Qed.

Lemma parse_show_ipv4 ip : ip < 2 ^ 32 → parse_ipv4 (show_ipv4 ip) = Some ip.
Proof.
  intros Hip. unfold parse_ipv4, show_ipv4. change (lit ".") with [46].
  rewrite read_octet_show by (done || by apply N.mod_lt). cbn [mbind option_bind app read_dot].
  rewrite read_octet_show by (done || by apply N.mod_lt). cbn [mbind option_bind app read_dot].
  rewrite read_octet_show by (done || by apply N.mod_lt). cbn [mbind option_bind app read_dot].
  rewrite <-(app_nil_r (show_N (ip mod 256))).
  rewrite read_octet_show by (done || by apply N.mod_lt). cbn [mbind option_bind]. f_equal.
  pose proof (N.Div0.div_div ip (2 ^ 8) (2 ^ 8)) as H16.
  pose proof (N.Div0.div_div ip (2 ^ 16) (2 ^ 8)) as H24.
  change (2 ^ 8 * 2 ^ 8) with (2 ^ 16) in H16. change (2 ^ 16 * 2 ^ 8) with (2 ^ 24) in H24.
  rewrite <-H24, <-H16. change (2 ^ 8) with 256. change (2 ^ 32) with 4294967296 in Hip.
  pose proof (N.div_mod ip 256 ltac:(done)). pose proof (N.div_mod (ip / 256) 256 ltac:(done)).
  pose proof (N.div_mod (ip / 256 / 256) 256 ltac:(done)).
  assert (ip / 256 / 256 / 256 < 256) as Hlt.
  { rewrite !N.Div0.div_div. apply N.Div0.div_lt_upper_bound. done. }
  rewrite (N.mod_small (ip / 256 / 256 / 256)) by done. lia.
Qed.

Definition ipv4_codec : Codec N :=
  Build_Codec (λ ip, JStr (show_ipv4 ip)) (λ j, match j with JStr s => parse_ipv4 s | _ => None end).

(** ** Codecs *)

(** An [AHashMap] is written in the order of its iteration. *)
Definition hash_map_codec (order : gmap rstring rstring → list (rstring * rstring)) :
    Codec (gmap rstring rstring) :=
  Build_Codec (λ m, JObj (prod_map id (enc string_codec) <$> order m)) (dec (map_codec string_codec)).

(** A tuple of two: exactly two elements are read. *)
Definition pair_codec {A} (c : Codec A) : Codec (A * A) :=
  Build_Codec (λ p, JArr [enc c p.1; enc c p.2])
    (λ j, match j with
          | JArr [a; b] => a ← dec c a; b ← dec c b; Some (a, b)
          | _ => None
          end).

Section codecs.
(** [<Ipv4Net as FromStr>::from_str], the output of [ip route], the iteration
    order of the hash maps. *)
Context (net_from_string : rstring → option Ipv4Net) (routes : option (option rstring))
  (order : gmap rstring rstring → list (rstring * rstring)).

Definition ipv4_net_codec : Codec Ipv4Net :=
  Build_Codec (λ n, JStr (show_ipv4_net n))
    (λ j, match j with JStr s => net_from_string s | _ => None end).

Definition DhcpConfig_codec : Codec DhcpConfig := Build_Codec
  (λ c, obj_of
    [(lit "range", Some (enc (pair_codec ipv4_codec) (dhcp_range c)));
     (lit "subnet", Some (enc ipv4_net_codec (dhcp_subnet c)));
     (lit "lease_time", Some (enc string_codec (dhcp_lease_time c)))])
  (λ j, vs ← struct_fields false [lit "range"; lit "subnet"; lit "lease_time"] j;
    match vs with
    | [range; subnet; lease_time] =>
        range ← required (pair_codec ipv4_codec) range;
        subnet ← required ipv4_net_codec subnet;
        lease_time ← required string_codec lease_time;
        Some {| dhcp_range := range; dhcp_subnet := subnet; dhcp_lease_time := lease_time |}
    | _ => None
    end).

(** The fields of the two variants: those of [HostonlyNat] have defaults. *)
Definition hostonly_fields (payload : Json) : option NetworkMode :=
  vs ← struct_fields false [lit "bridge"; lit "subnet"; lit "gateway"; lit "upstream_iface"] payload;
  match vs with
  | [bridge; subnet; gateway; upstream_iface] =>
      bridge ← defaulted string_codec default_bridge_name bridge;
      subnet ← defaulted ipv4_net_codec default_subnet subnet;
      gateway ← defaulted ipv4_codec default_gateway gateway;
      upstream_iface ← defaulted string_codec (default_upstream_iface routes) upstream_iface;
      Some (HostonlyNat bridge subnet gateway upstream_iface)
  | _ => None
  end.
Definition bridged_fields (payload : Json) : option NetworkMode :=
  vs ← struct_fields false [lit "bridge"; lit "subnet"; lit "gateway"] payload;
  match vs with
  | [bridge; subnet; gateway] =>
      bridge ← required string_codec bridge;
      subnet ← required ipv4_net_codec subnet;
      gateway ← required ipv4_codec gateway;
      Some (Bridged bridge subnet gateway)
  | _ => None
  end.

Definition NetworkMode_codec : Codec NetworkMode := Build_Codec
  (λ m, match m with
        | HostonlyNat bridge subnet gateway upstream_iface =>
            JObj [(lit "HostonlyNat", obj_of
              [(lit "bridge", Some (enc string_codec bridge));
               (lit "subnet", Some (enc ipv4_net_codec subnet));
               (lit "gateway", Some (enc ipv4_codec gateway));
               (lit "upstream_iface", Some (enc string_codec upstream_iface))])]
        | Bridged bridge subnet gateway =>
            JObj [(lit "Bridged", obj_of
              [(lit "bridge", Some (enc string_codec bridge));
               (lit "subnet", Some (enc ipv4_net_codec subnet));
               (lit "gateway", Some (enc ipv4_codec gateway))])]
        end)
  (λ j, '(k, v) ← tag j;
    if bool_decide (k = lit "HostonlyNat") then v ≫= hostonly_fields
    else if bool_decide (k = lit "Bridged") then v ≫= bridged_fields
    else None).

Definition NetworkConfig_codec : Codec NetworkConfig := Build_Codec
  (λ c, obj_of
    [(lit "dhcp_config", Some (enc (option_codec DhcpConfig_codec) (dhcp_config c)));
     (lit "network_mode", Some (enc NetworkMode_codec (network_mode c)))])
  (λ j, vs ← struct_fields false [lit "dhcp_config"; lit "network_mode"] j;
    match vs with
    | [dhcp_config; network_mode] =>
        dhcp_config ← defaulted (option_codec DhcpConfig_codec) None dhcp_config;
        network_mode ← required NetworkMode_codec network_mode;
        Some {| dhcp_config := dhcp_config; network_mode := network_mode |}
    | _ => None
    end).

(** [NetworkConfig::default()]. *)
Definition default_network_config : NetworkConfig :=
  {| dhcp_config := None; network_mode := default_network_mode (default_upstream_iface routes) |}.

Definition Config_codec : Codec Config := Build_Codec
  (λ c, obj_of
    [(lit "manager_enabled", Some (enc (option_codec bool_codec) (manager_enabled c)));
     (lit "hostname", Some (enc (option_codec string_codec) (hostname c)));
     (lit "datacenter", Some (enc (option_codec string_codec) (datacenter c)));
     (lit "region", Some (enc (option_codec string_codec) (region c)));
     (lit "sentry_dsn", Some (enc (option_codec string_codec) (sentry_dsn c)));
     (lit "reserved_vcpus", Some (enc (option_codec u32_codec) (reserved_vcpus c)));
     (lit "labels", Some (enc (hash_map_codec order) (config_labels c)));
     (lit "annotations", Some (enc (hash_map_codec order) (config_annotations c)));
     (lit "network", Some (enc NetworkConfig_codec (network c)));
     (lit "no_lockfile", Some (enc (option_codec bool_codec) (no_lockfile c)))])
  (λ j, vs ← struct_fields false
          [lit "manager_enabled"; lit "hostname"; lit "datacenter"; lit "region"; lit "sentry_dsn";
           lit "reserved_vcpus"; lit "labels"; lit "annotations"; lit "network"; lit "no_lockfile"] j;
    match vs with
    | [manager_enabled; hostname; datacenter; region; sentry_dsn; reserved_vcpus; labels;
       annotations; network; no_lockfile] =>
        manager_enabled ← defaulted (option_codec bool_codec) None manager_enabled;
        hostname ← defaulted (option_codec string_codec) None hostname;
        datacenter ← defaulted (option_codec string_codec) None datacenter;
        region ← defaulted (option_codec string_codec) None region;
        sentry_dsn ← defaulted (option_codec string_codec) None sentry_dsn;
        reserved_vcpus ← defaulted (option_codec u32_codec) None reserved_vcpus;
        labels ← defaulted (hash_map_codec order) ∅ labels;
        annotations ← defaulted (hash_map_codec order) ∅ annotations;
        network ← defaulted NetworkConfig_codec default_network_config network;
        no_lockfile ← defaulted (option_codec bool_codec) None no_lockfile;
        Some {| manager_enabled := manager_enabled; hostname := hostname; datacenter := datacenter;
                region := region; sentry_dsn := sentry_dsn; reserved_vcpus := reserved_vcpus;
                config_labels := labels; config_annotations := annotations; network := network;
                no_lockfile := no_lockfile |}
    | _ => None
    end).
End codecs.

(** ** Initialisation *)

Section init.
(** The file's JSON value as the generated merge function takes it. *)
Context {J : Type} (from_reader : rstring → option J) (serde_merge_fn : Config → J → Config).

Definition CONFIG_PATH : rstring := lit "config.json".

(** [Config::init]; [parsed] is the command line and the environment,
    [open] the contents of a file that can be opened. *)
Definition init (parsed : Config) (open : rstring → option rstring) : Config :=
  match open CONFIG_PATH with
  | None => parsed
  | Some contents =>
      match from_reader contents with
      | None => parsed
      | Some json => serde_merge_fn parsed json
      end
  end.
End init.

(** ** Every configuration survives the file *)

Definition ipv4_ok (ip : N) : Prop := ip < 2 ^ 32.
Definition net_ok (n : Ipv4Net) : Prop := ipv4_ok (net_addr n) ∧ net_prefix_len n ≤ 32.
Definition dhcp_typed (c : DhcpConfig) : Prop :=
  ipv4_ok (dhcp_range c).1 ∧ ipv4_ok (dhcp_range c).2 ∧ net_ok (dhcp_subnet c).
Definition mode_typed (m : NetworkMode) : Prop :=
  match m with
  | HostonlyNat _ subnet gateway _ | Bridged _ subnet gateway => net_ok subnet ∧ ipv4_ok gateway
  end.
Definition network_typed (c : NetworkConfig) : Prop :=
  opt_all dhcp_typed (dhcp_config c) ∧ mode_typed (network_mode c).
Definition config_typed (c : Config) : Prop :=
  opt_all u32_ok (reserved_vcpus c) ∧ network_typed (network c).

Section laws.
Context (net_from_string : rstring → option Ipv4Net) (routes : option (option rstring))
  (order : gmap rstring rstring → list (rstring * rstring)).
(** The [ipnet] library reads what it prints; an iteration visits every entry once. *)
Hypothesis net_text : ∀ n, net_ok n → net_from_string (show_ipv4_net n) = Some n.
Hypothesis order_perm : ∀ m, order m ≡ₚ map_to_list m.

Lemma ipv4_codec_ok : codec_ok ipv4_codec ipv4_ok.
Proof. intros ip Hip. by apply parse_show_ipv4. Qed.

Lemma ipv4_net_codec_ok : codec_ok (ipv4_net_codec net_from_string) net_ok.
Proof. intros n Hn. by apply net_text. Qed.

Lemma pair_codec_ok {A} (c : Codec A) P :
  codec_ok c P → codec_ok (pair_codec c) (λ p, P p.1 ∧ P p.2).
Proof. intros Hc [a b] [Ha Hb]. cbn in *. by rewrite (Hc a Ha), (Hc b Hb). Qed.

Lemma hash_map_codec_ok : codec_ok (hash_map_codec order) always.
Proof.
  intros m _. unfold hash_map_codec, map_codec. cbn [enc dec].
  assert (mapM (λ kv, pair kv.1 <$> dec string_codec kv.2)
    (prod_map id (enc string_codec) <$> order m) = Some (order m)) as ->.
  { apply mapM_Some, Forall2_fmap_l, Forall_Forall2_diag, Forall_forall. by intros [k v] _. }
  cbn. f_equal. rewrite foldl_insert_list_to_map.
  - rewrite (right_id_L ∅ (∪)). rewrite <-(list_to_map_to_list m) at 2.
    apply list_to_map_proper; [|apply order_perm]. rewrite order_perm. apply NoDup_fst_map_to_list.
  - rewrite order_perm. apply NoDup_fst_map_to_list.
Qed.

Lemma bool_non_null : non_null bool_codec.
Proof. done. Qed.
Lemma dhcp_non_null : non_null (DhcpConfig_codec net_from_string).
Proof. done. Qed.

#[local] Hint Resolve ipv4_codec_ok ipv4_net_codec_ok pair_codec_ok hash_map_codec_ok option_codec_ok
  bool_non_null dhcp_non_null : codec.

Lemma DhcpConfig_codec_ok : codec_ok (DhcpConfig_codec net_from_string) dhcp_typed.
Proof.
  intros [range subnet lease] (H1 & H2 & Hs). struct_ok DhcpConfig_codec. cbn in H1, H2, Hs.
  cbn [dhcp_range dhcp_subnet dhcp_lease_time]. assert (ipv4_ok range.1 ∧ ipv4_ok range.2) by done.
  repeat field_ok. done.
Qed.

Lemma NetworkMode_codec_ok : codec_ok (NetworkMode_codec net_from_string routes) mode_typed.
Proof.
  intros [bridge subnet gateway iface|bridge subnet gateway] [Hs Hg];
    cbn [enc dec NetworkMode_codec tag mbind option_bind].
  - rewrite bool_decide_eq_true_2 by done. struct_ok hostonly_fields. repeat field_ok. done.
  - rewrite bool_decide_eq_false_2, bool_decide_eq_true_2 by done. struct_ok bridged_fields.
    repeat field_ok. done.
Qed.
#[local] Hint Resolve DhcpConfig_codec_ok NetworkMode_codec_ok : codec.

Lemma NetworkConfig_codec_ok : codec_ok (NetworkConfig_codec net_from_string routes) network_typed.
Proof.
  intros [dhcp mode] [Hd Hm]. struct_ok NetworkConfig_codec. cbn in Hd, Hm.
  cbn [dhcp_config network_mode]. repeat field_ok. done.
Qed.
#[local] Hint Resolve NetworkConfig_codec_ok : codec.

(** C16. A configuration survives the configuration file: whatever the values,
    the network mode, the optional fields and the iteration order of the label
    maps, it is read back exactly as it was written, provided the addresses and
    the reserved vCPUs fit their types; the address text is the standard
    library's, down to its three-digit octets without leading zeros. *)
Theorem config_json_roundtrip (c : Config) :
  config_typed c →
  dec (Config_codec net_from_string routes order) (enc (Config_codec net_from_string routes order) c)
    = Some c.
Proof.
  destruct c as [manager host dc reg dsn vcpus labels annotations net lock]. intros [Hv Hn].
  struct_ok Config_codec. cbn in Hv, Hn.
  cbn [manager_enabled hostname datacenter region sentry_dsn reserved_vcpus config_labels
    config_annotations network no_lockfile].
  assert (opt_all always manager) by by intros ?. assert (opt_all always host) by by intros ?.
  assert (opt_all always dc) by by intros ?. assert (opt_all always reg) by by intros ?.
  assert (opt_all always dsn) by by intros ?. assert (opt_all always lock) by by intros ?.
  repeat field_ok. done.
Qed.
End laws.

(** ** Examples *)

(** A reader of networks: an address, a slash and a prefix length. *)
Definition read_net (s : rstring) : option Ipv4Net :=
  '(addr, len) ← split_once s (lit "/");
  addr ← parse_ipv4 addr; len ← parse_u32 len;
  if len <=? 32 then Some {| net_addr := addr; net_prefix_len := len |} else None.

Lemma show_ipv4_no_slash ip : 47 ∉ show_ipv4 ip.
Proof.
  assert (∀ n, 47 ∉ show_N n) as Hn.
  { intros n Hin. destruct (show_N_digits n) as [Hd _]. rewrite Forall_forall in Hd.
    by apply Hd in Hin. }
  unfold show_ipv4. change (lit ".") with [46]. rewrite !elem_of_app, !list_elem_of_singleton.
  intros [?|[?|[?|[?|[?|[?|?]]]]]]; try done; by eapply Hn.
Qed.

Lemma read_show_net n : net_ok n → read_net (show_ipv4_net n) = Some n.
Proof.
  destruct n as [addr len]. intros [Ha Hl]. unfold read_net, show_ipv4_net. cbn [net_addr net_prefix_len] in *.
  rewrite split_once_first.
  - cbn [mbind option_bind]. rewrite parse_show_ipv4 by done. cbn [mbind option_bind].
    rewrite parse_show_u32 by (unfold u32_max; lia). cbn [mbind option_bind].
    by rewrite (proj2 (N.leb_le _ _)).
  - done.
  - intros k l Hk. apply Nat.le_ngt. intros Hlt. apply (show_ipv4_no_slash addr).
    change (lit "/") with [47] in Hk. cbn [app] in Hk.
    apply (f_equal (.!! length k)) in Hk. rewrite lookup_app_l, list_lookup_middle in Hk by done.
    by eapply list_elem_of_lookup_2.
Qed.

(** The configuration of the source's own test. *)
Definition test_config : Config := {|
  manager_enabled := None; hostname := None; datacenter := None; region := None; sentry_dsn := None;
  reserved_vcpus := None; config_labels := ∅; config_annotations := ∅;
  network := {|
    dhcp_config := Some {| dhcp_range := (168427876, 168427976);
                           dhcp_subnet := {| net_addr := 168427776; net_prefix_len := 24 |};
                           dhcp_lease_time := lit "12h" |};
    network_mode := HostonlyNat (lit "vmbr0") {| net_addr := 168453120; net_prefix_len := 24 |}
                      168453121 (lit "test0") |};
  no_lockfile := None |}.
Definition test_codec : Codec Config := Config_codec read_net None map_to_list.

Lemma config_json_roundtrip_witness : dec test_codec (enc test_codec test_config) = Some test_config.
Proof.
  apply (config_json_roundtrip read_net None map_to_list read_show_net).
  - done.
  - split; [by intros ?|]. split; [intros d [= <-]|]; repeat split; vm_compute; done.
Defined.

Example test_config_text :
  show_ipv4 168427876 = lit "10.10.1.100" ∧ parse_ipv4 (lit "10.10.01.100") = None ∧
  parse_ipv4 (lit "10.10.1.256") = None ∧ parse_ipv4 (lit "10.10.1") = None.
Proof. vm_compute. done. Qed.

(** An empty file is the default configuration; a [network] section without a
    mode is an error, after which the whole file is ignored. *)
Example empty_config_defaults :
  network <$> dec test_codec (JObj []) = Some (default_network_config None).
Proof. vm_compute. reflexivity. Qed.
Example network_needs_mode :
  dec test_codec (JObj [(lit "network", JObj [(lit "dhcp_config", JNull)])]) = None.
Proof. vm_compute. reflexivity. Qed.
