(* ===== verification/DriverTests.v ===== *)
(** * The driver's error texts and unit tests on the model

    The texts of the errors of [odorobo/src/manifest.rs],
    [ch_driver/manifest.rs] and the transforms, and the unit tests of
    [ch_driver/manifest.rs], [ch_driver/actor.rs], [transform/networking.rs],
    [storage/iscsi.rs], [storage/rbd.rs] and [actors/ip_management_actor.rs],
    translated statement by statement: a test is [true] when all its
    assertions hold. [Ulid::generate] is an argument, and the tests that parse
    a URL are stated for any URL library. *)

From S2P Require Import Prelude RustString RustFloat SortedVec Manifest Json ManifestJson ManifestExamples.
From S2P Require Import ManifestTests ChConfig Transform Storage StorageExamples.
From S2P Require Console Services.
Open Scope N_scope.

(** ** Error texts *)

(** [Display] of [ManifestError]. *)
Definition manifest_error_text (e : ManifestError) : rstring :=
  match e with
  | UnsupportedVersion v => lit "manifest version " ++ show_N v ++ lit " is unsupported"
  | EmptyMetadataName => lit "metadata must define a non-empty name"
  | NoVcpus => lit "manifest must define at least one vCPU"
  | MaxVcpusLessThanBoot vcpus max =>
      lit "max_vcpus (" ++ show_N max ++ lit ") must be greater than or equal to vcpus (" ++
      show_N vcpus ++ lit ")"
  | NoMemory => lit "memory must be greater than zero"
  | EmptyStorageId => lit "storage attachment must define a non-empty id"
  | InvalidStorageSource id =>
      lit "storage attachment " ++ id ++
      lit " must define exactly one usable source (URI or volume reference)"
  | DuplicateStorageId id => lit "storage attachment " ++ id ++ lit " has a duplicate id"
  | NetworkWithoutId index => lit "network " ++ show_N (N.of_nat index) ++ lit " must define an id"
  | IncompleteCloudInit => lit "cloud-init user-data and meta-data must be supplied together"
  | EmptyCloudInitData => lit "cloud-init user-data and meta-data must both be non-empty"
  | InvalidVsockCid => lit "vsock requires a non-zero guest CID"
  | InvalidVsockSocket => lit "vsock requires a non-empty absolute socket path"
  | InvalidAffinityComparison key =>
      lit "affinity comparison for key " ++ key ++ lit " requires exactly one finite numeric value"
  end.

(** The reports of [to_vm_config] and [storage_to_disk]. *)
Definition convert_error_text `{UlidText} (e : ConvertError) : rstring :=
  match e with
  | InvalidManifest e => manifest_error_text e
  | UnsupportedScheme id uri => lit "storage " ++ id ++ lit " URI scheme is unsupported: " ++ uri
  | VolumeUnresolved id volume_id =>
      lit "storage " ++ id ++ lit " references volume " ++ ulid_to_string volume_id ++
      lit "; volume resolution contract is not defined yet"
  | NoUsableSource id => lit "storage " ++ id ++ lit " has no usable source"
  | CloudInitUnsupported => lit "Cloud Hypervisor cloud-init conversion is not implemented yet"
  | VcpusExceedLimits => lit "vCPU count exceeds Cloud Hypervisor limits"
  | MaxVcpusExceedLimits => lit "maximum vCPU count exceeds Cloud Hypervisor limits"
  | MemoryExceedsLimits => lit "memory size exceeds Cloud Hypervisor limits"
  end.

(** The outermost message of a failed transform; a storage driver's own
    report is passed on as it is, and its text is [storage]. *)
Definition transform_error_text (storage : rstring) (e : TransformError) : rstring :=
  match e with
  | InvalidNetworkId id => lit "invalid network URI id " ++ id
  | KernelNotAbsolute => lit "Kernel must be an absolute path"
  | InitramfsNotAbsolute => lit "initramfs must be an absolute path"
  | FirmwareNotAbsolute => lit "firmware must be an absolute path"
  | DiskNotAbsolute id => lit "disk path for " ++ id ++ lit " must be an absolute path"
  | StorageFailed => storage
  end.

(** [str::contains]. *)
Definition contains (s p : rstring) : bool :=
  match split_once s p with Some _ => true | None => false end.

(** ** Conversion *)

Definition driver_minimal (id : Ulid) : VmManifest := {|
  api_version := MANIFEST_VERSION;
  manifest_id := id;
  desired := {|
    metadata := {| metadata_name := lit "test"; metadata_labels := ∅; metadata_annotations := ∅ |};
    compute := {| compute_vcpus := 2; compute_max_vcpus := None; compute_memory_bytes := 1024 |};
    storage := []; networks := []; placement := default_placement;
    boot := {| boot_start := false; boot_firmware := None; boot_kernel := None;
               boot_cmdline := None |};
    cloud_init := None; vsock := None |};
  observed := None |}.

Definition set_boot (m : VmManifest) (kernel firmware : option rstring) : VmManifest :=
  with_desired (λ d, {| metadata := metadata d; compute := compute d; storage := storage d;
    networks := networks d; placement := placement d;
    boot := {| boot_start := boot_start (boot d); boot_firmware := firmware; boot_kernel := kernel;
               boot_cmdline := boot_cmdline (boot d) |};
    cloud_init := cloud_init d; vsock := vsock d |}) m.

(** [to_vm_config(&manifest).expect(..)] and what the test asserts of it. *)
Definition converts (m : VmManifest) (p : VmConfig → bool) : bool :=
  match to_vm_config m with Ok c => p c | Err _ => false end.

Definition converts_compute_and_defaults (id : Ulid) : bool :=
  converts (driver_minimal id) (λ c,
    bool_decide (boot_vcpus <$> cpus c = Some 2) &&
    bool_decide (memory_size <$> memory c = Some 1024) &&
    bool_decide (serial_number <$> platform c = Some (Some (lit "ds=nocloud")))).

Definition firmware_default_only_for_firmware_boot (id : Ulid) : bool :=
  let m := driver_minimal id in
  let kernel := Some (lit "/tmp/vmlinuz") in
  converts m (λ c,
    bool_decide (payload_firmware (payload c) = Some (lit "/var/lib/odorobo/CLOUDHV.fd"))) &&
  converts (set_boot m kernel None) (λ c,
    bool_decide (payload_firmware (payload c) = None) &&
    bool_decide (payload_kernel (payload c) = kernel)) &&
  converts (set_boot m kernel (Some (lit "/custom/fw.fd"))) (λ c,
    bool_decide (payload_firmware (payload c) = Some (lit "/custom/fw.fd"))).

Definition converts_networks_for_the_transform_pipeline (id : Ulid) : bool :=
  let mac := Some (lit "02:00:00:00:00:01") in
  converts (set_networks (driver_minimal id)
              [{| network_id := lit "private"; network_mac_address := mac |}]) (λ c,
    match net c with
    | Some (network :: _) =>
        bool_decide (net_id network = Some (lit "net://private")) &&
        bool_decide (net_mac network = mac)
    | _ => false
    end).

(** The serialized form the test looks at too is the client library's. *)
Definition preserves_manifest_storage_order_for_cloud_hypervisor_boot (id : Ulid) : bool :=
  converts (set_storage (driver_minimal id)
              [disk "data" (Some (lit "file:///var/lib/data.img")) None;
               disk "root" (Some (lit "file:///var/lib/root.img")) None]) (λ c,
    match disks c with
    | Some ds => bool_decide (omap disk_id ds = [lit "data"; lit "root"])
    | None => false
    end).

Definition converts_multiple_storage_attachments_for_storage_transforms (id : Ulid) : bool :=
  converts (set_storage (driver_minimal id)
              [disk "root" (Some (lit "rbd://pool/root")) None;
               {| storage_id := lit "data"; storage_uri := Some (lit "file:///var/lib/data.img");
                  storage_volume_id := None; storage_read_only := true |}]) (λ c,
    match disks c with
    | Some [d0; d1] =>
        bool_decide (disk_id d0 = Some (lit "root")) &&
        bool_decide (disk_path d0 = Some (lit "rbd://pool/root")) &&
        bool_decide (disk_id d1 = Some (lit "data")) &&
        bool_decide (disk_readonly d1 = Some true)
    | _ => false
    end).

Definition converts_vsock_configuration (id : Ulid) : bool :=
  converts (set_vsock (driver_minimal id)
              {| vsock_guest_cid := 42; vsock_socket := lit "/run/odorobo/vsock.sock" |}) (λ c,
    match vsock_device c with
    | Some v =>
        (vsock_config_cid v =? 42) &&
        bool_decide (vsock_config_socket v = lit "/run/odorobo/vsock.sock") &&
        bool_decide (vsock_config_id v = Some (lit "odorobo-vsock"))
    | None => false
    end).

Definition rejects_cloud_init_without_a_transport_contract `{UlidText} (id : Ulid) : bool :=
  match to_vm_config (set_cloud_init (driver_minimal id)
          {| cloud_user_data := Some (lit "#cloud-config" ++ [10]);
             cloud_meta_data := Some (lit "instance-id: test" ++ [10]) |}) with
  | Err e => contains (convert_error_text e) (lit "cloud-init")
  | Ok _ => false
  end.

(** ** The network transform *)

Definition net_named (id : rstring) : VmConfig :=
  set_net (Some [{| net_id := Some id; net_tap := None; net_mac := None |}]) default_vm_config.

(** The first network after the transform, or its error. *)
Definition transformed_net (vmid : rstring) (c : VmConfig) : result TransformError (option NetConfig) :=
  let '(c, _, r) := transform network_transform vmid c () in
  match r with
  | Ok _ => Ok (net c ≫= head)
  | Err e => Err e
  end.

Definition rewrites_net_uri_into_tap_and_plain_id : bool :=
  match transformed_net (lit "01KPB9AMVWXC2D1PF4W6E7MHWT") (net_named (lit "net://devnet")) with
  | Ok (Some n) => bool_decide (net_id n = Some (lit "net://devnet")) &&
                   bool_decide (net_tap n = Some (lit "vmtap-mhwt-vnet"))
  | _ => false
  end.

Definition ignores_non_network_uri_ids : bool :=
  match transformed_net (lit "vmid") (net_named (lit "net1")) with
  | Ok (Some n) => bool_decide (net_id n = Some (lit "net1")) && bool_decide (net_tap n = None)
  | _ => false
  end.

Definition rejects_invalid_network_id : bool :=
  match transformed_net (lit "vmid") (net_named (lit "net://bad/id")) with
  | Err e => contains (transform_error_text [] e) (lit "invalid network URI id")
  | Ok _ => false
  end.

(** ** Storage targets *)

Definition is_target (t : ISCSITarget) (h q : string) (l : N) : bool :=
  bool_decide (host t = lit h) && bool_decide (iqn t = lit q) && (lun t =? l).
Definition path_is_target (path : string) (h q : string) (l : N) : bool :=
  match iscsi_target_of_path (lit path) with Ok t => is_target t h q l | Err _ => false end.

Definition test_iscsi_target_parsing_from_path : bool :=
  path_is_target "/dev/disk/by-path/ip-127.0.0.1:3260-iscsi-iqn.2026-03.com.fyrastack:test-lun-0"
    "127.0.0.1:3260" "iqn.2026-03.com.fyrastack:test" 0.

Definition test_iscsi_iqn_with_dashes_from_path : bool :=
  path_is_target
    "/dev/disk/by-path/ip-127.0.0.1:3260-iscsi-iqn.2026-03.com.fyrastack:test-disk-lun-0"
    "127.0.0.1:3260" "iqn.2026-03.com.fyrastack:test-disk" 0.

Definition test_iscsi_nonzero_lun_from_path : bool :=
  path_is_target
    "/dev/disk/by-path/ip-192.168.1.1:3260-iscsi-iqn.2026-03.com.fyrastack:boot-lun-2"
    "192.168.1.1:3260" "iqn.2026-03.com.fyrastack:boot" 2.

Definition test_iscsi_device_path_roundtrip : bool :=
  let original := {| host := lit "10.0.0.1:3260"; iqn := lit "iqn.2026-03.com.fyrastack:test-disk";
                     lun := 3 |} in
  match iscsi_target_of_path (to_device_path original) with
  | Ok parsed => bool_decide (host parsed = host original) &&
                 bool_decide (iqn parsed = iqn original) && (lun parsed =? lun original)
  | Err _ => false
  end.

Section urls.
Context `{UrlOps}.

(** [Url::parse(text).unwrap()] and what the test asserts of it. *)
Definition parsed (text : string) (p : Url → bool) : bool :=
  match url_parse (lit text) with Some u => p u | None => false end.

Definition test_iscsi_target_parsing : bool :=
  parsed "iscsi://target.example.com:3260/iqn.2024-01.com.example:target1/lun0" (λ u,
    is_target (iscsi_target_of u) "target.example.com:3260" "iqn.2024-01.com.example:target1" 0) &&
  parsed "iscsi://target.example.com/iqn.2024-01.com.example:target1/0" (λ u,
    is_target (iscsi_target_of u) "target.example.com:3260" "iqn.2024-01.com.example:target1" 0).

(** The text of the URL is the text it was parsed from: it is normalised. *)
Definition test_iscsi_lossless_conversion : bool :=
  let text := "iscsi://target.example.com:3260/iqn.2024-01.com.example:target1/0"%string in
  parsed text (λ u,
    let t := iscsi_target_of u in
    bool_decide (lit text = lit "iscsi://" ++ host t ++ lit "/" ++ iqn t ++ lit "/" ++ show_N (lun t))).

Definition test_iscsi_uri_to_device_path : bool :=
  parsed "iscsi://target.example.com:3260/iqn.2026-03.com.fyrastack:test/0" (λ u,
    bool_decide (to_device_path (iscsi_target_of u) = lit
      "/dev/disk/by-path/ip-target.example.com:3260-iscsi-iqn.2026-03.com.fyrastack:test-lun-0")).

Definition test_iscsi_nonzero_lun_from_uri : bool :=
  parsed "iscsi://target.example.com:3260/iqn.2026-03.com.fyrastack:boot/1" (λ u,
    lun (iscsi_target_of u) =? 1) &&
  parsed "iscsi://target.example.com:3260/iqn.2026-03.com.fyrastack:boot/lun1" (λ u,
    lun (iscsi_target_of u) =? 1).

Definition test_rbd_image_from_uri : bool :=
  parsed "rbd://my-pool/my-image" (λ u,
    match rbd_image_of u with
    | Ok i => bool_decide (pool i = lit "my-pool") && bool_decide (image i = lit "my-image") &&
              bool_decide (rbd_path i = lit "my-pool/my-image") &&
              bool_decide (device_path i = lit "/dev/rbd/my-pool/my-image")
    | Err _ => false
    end).
End urls.

Definition test_rbd_lines_list : bool :=
  let input := lit "id  pool               namespace  image    snap  device" ++ [10] ++
               lit "0   kessoku-blockpool             testimg  -     /dev/rbd0" in
  match rbd_lines_list input with
  | [m] => bool_decide (m.1 = lit "kessoku-blockpool/testimg") && bool_decide (m.2 = lit "/dev/rbd0")
  | _ => false
  end.

(** ** Console and MAC addresses *)

Definition console_history_is_bounded_to_one_megabyte : bool :=
  let size := N.to_nat Console.CONSOLE_SPOOL_SIZE in
  let c := Console.console_push Console.default_console (replicate size 97) in
  let c := Console.console_push c (lit "tail") in
  let history := Console.history (Console.inner c) in
  Nat.eqb (length history) size && bool_decide (take 4 history = lit "aaaa") &&
  bool_decide (drop (size - 4) history = lit "tail").

Definition test_calculate_mac_address : bool :=
  bool_decide (Services.calculate_mac_address [192; 168; 1; 1] = [70; 89; 82; 168; 1; 1]).

(** ** The suites pass *)

Example driver_tests_pass : forallb id
  [converts_compute_and_defaults 7; firmware_default_only_for_firmware_boot 7;
   converts_networks_for_the_transform_pipeline 7;
   preserves_manifest_storage_order_for_cloud_hypervisor_boot 7;
   converts_multiple_storage_attachments_for_storage_transforms 7;
   converts_vsock_configuration 7; rejects_cloud_init_without_a_transport_contract 7;
   rewrites_net_uri_into_tap_and_plain_id; ignores_non_network_uri_ids; rejects_invalid_network_id;
   test_calculate_mac_address] = true.
Proof. vm_compute. reflexivity. Qed.

Example storage_tests_pass : forallb id
  [test_iscsi_target_parsing_from_path; test_iscsi_target_parsing; test_iscsi_lossless_conversion;
   test_iscsi_uri_to_device_path; test_iscsi_iqn_with_dashes_from_path;
   test_iscsi_nonzero_lun_from_path; test_iscsi_nonzero_lun_from_uri;
   test_iscsi_device_path_roundtrip; test_rbd_image_from_uri; test_rbd_lines_list] = true.
Proof. vm_compute. reflexivity. Qed.

(** The buffers are a mebibyte long: that test is decided by the lemmas on the
    spool and not by running it. *)
Lemma spool_at_least_8 : (8 ≤ N.to_nat Console.CONSOLE_SPOOL_SIZE)%nat.
Proof. assert (8 ≤ Console.CONSOLE_SPOOL_SIZE) by by vm_compute. lia. Qed.

Lemma console_test_history :
  let size := N.to_nat Console.CONSOLE_SPOOL_SIZE in
  Console.history (Console.push (Console.push Console.empty_buffer (replicate size 97)) (lit "tail"))
  = replicate (size - 4) 97 ++ lit "tail".
Proof.
  cbv zeta. set (size := N.to_nat Console.CONSOLE_SPOOL_SIZE).
  assert (Console.spool_wf Console.empty_buffer []) as H0 by done.
  pose proof (Console.push_spool_wf _ _ (lit "tail")
    (Console.push_spool_wf _ _ (replicate size 97) H0)) as [_ Hb].
  rewrite Console.history_concat, Hb. fold size. cbn [app].
  pose proof spool_at_least_8 as Hs. fold size in Hs. clearbody size. clear Hb.
  rewrite (Console.lastn_drop _ _ 4) by
    (rewrite length_app, length_replicate; change (length (lit "tail")) with 4%nat; lia).
  rewrite drop_app_le by (rewrite length_replicate; lia). by rewrite drop_replicate.
Qed.

Example console_test_passes : console_history_is_bounded_to_one_megabyte = true.
Proof.
  unfold console_history_is_bounded_to_one_megabyte. cbv zeta.
  cbn [Console.console_push Console.inner Console.default_console]. rewrite console_test_history.
  assert (∃ n, N.to_nat Console.CONSOLE_SPOOL_SIZE = (4 + (4 + n))%nat) as [n ->].
  { exists (N.to_nat Console.CONSOLE_SPOOL_SIZE - 8)%nat. pose proof spool_at_least_8. lia. }
  replace (4 + (4 + n) - 4)%nat with (4 + n)%nat by lia.
  rewrite drop_app_length' by (rewrite length_replicate; lia).
  rewrite length_app, length_replicate. change (length (lit "tail")) with 4%nat.
  replace (Nat.eqb _ _) with true by (symmetry; apply Nat.eqb_eq; lia).
  cbn [replicate Nat.add take app andb]. by rewrite !bool_decide_eq_true_2.
Qed.
