(* ===== verification/CliTests.v ===== *)
(** * The client's and the error type's unit tests on the model

    The tests of [odoroboctl/src/cli.rs] and [odorobo/src/utils/mod.rs]. The
    listening socket of the test manager is a client interface that records
    the requests it is given and answers each with [200] and an empty object;
    the values the argument parser fills in are [create_defaults]. The test
    whose command line sets every option is about the parser only. *)

From S2P Require Import Prelude RustString RustFloat SortedVec Manifest Json ManifestJson.
From S2P Require Import ManifestExamples DriverTests Messages HttpApi Cli.
Open Scope N_scope.

Definition gib (n : N) : N := n * 2 ^ 30.

(** ** The test manager *)

(** Method, address and body of every request received. *)
Definition Received : Type := list (rstring * rstring * Body).

Definition test_manager : HttpSend Received := {|
  client_send m url b w := (w ++ [(m, url, b)], Some {| status := 200; body := BJson (JObj []) |});
  response_url url := url;
  body_readable _ := true;
  body_json b := match b with BJson j => Some j | _ => None end;
  parse_timestamp := Some |}.

(** Nothing listens at the address: every request fails. *)
Definition no_manager : HttpSend Received := {|
  client_send m url b w := (w ++ [(m, url, b)], None);
  response_url url := url;
  body_readable _ := true;
  body_json _ := None;
  parse_timestamp := Some |}.

(** [request["a"]["b"]]. *)
Definition at_path (keys : list string) (j : Json) : Json :=
  foldl (λ j k, match j with
                | JObj kvs => default JNull (snd <$> List.find (λ kv, bool_decide (kv.1 = lit k)) kvs)
                | _ => JNull
                end) j keys.

(** ** [cli.rs] *)

Definition create_options_default_to_current_vm_settings : bool :=
  match create_defaults (lit "disk.img") with
  | Create _ name vcpus memory =>
      bool_decide (name = lit "test_vm") && (vcpus =? 4) && (memory =? gib 4)
  | _ => false
  end.

Section tests.
Context `{UlidText} (generated : Ulid).

Definition create_cli (addr name : rstring) (vcpus memory : N) : Cli := {|
  manager_addr := addr;
  command := Create (lit "file:///var/lib/odorobo/disk.img") name vcpus memory |}.

Definition create_rejects_invalid_settings_before_sending_request : bool :=
  forallb (λ setting : rstring * N * N * rstring,
    let '(name, vcpus, memory, expected_error) := setting in
    match run_command (HS := no_manager) (create_cli (lit "http://127.0.0.1:1") name vcpus memory)
            generated [] with
    | (_, _, Err (InvalidManifest e)) => contains (manifest_error_text e) expected_error
    | _ => false
    end)
    [(lit " ", 4, gib 4, lit "metadata must define a non-empty name");
     (lit "test_vm", 0, gib 4, lit "at least one vCPU");
     (lit "test_vm", 4, 0, lit "memory must be greater than zero")].

(** The single request the manager accepts, and the outcome of the command. *)
Definition create_sends_valid_settings_to_manager : bool :=
  let manager_addr := lit "http://127.0.0.1:40000" in
  match run_command (HS := test_manager) (create_cli manager_addr (lit "web") 2 (gib 8)) generated [] with
  | ([(m, url, BJson request)], _, Ok _) =>
      bool_decide (m = POST) && bool_decide (strip_prefix url manager_addr = Some (lit "/vms")) &&
      match at_path ["vm"; "desired"; "metadata"; "name"]%string request,
            at_path ["vm"; "desired"; "compute"; "vcpus"]%string request,
            at_path ["vm"; "desired"; "compute"; "memory_bytes"]%string request with
      | JStr name, JInt vcpus, JInt memory =>
          bool_decide (name = lit "web") && bool_decide (vcpus = 2%Z) &&
          bool_decide (memory = Z.of_N (gib 8))
      | _, _, _ => false
      end
  | _ => false
  end.
End tests.

(** ** [utils/mod.rs] *)

Definition handler : result OdoroboError () := Err (ReportError (report_msg (lit "error!"))).
Definition not_found_handler : result OdoroboError () := Err (NotFound (lit "missing")).

(** The body is compared as the JSON value of its text. *)
Definition test_error : bool :=
  let response := respond (λ _, BEmpty) handler in
  (status response =? 500) &&
  match body response with
  | BJson (JObj [(k, JStr m)]) => bool_decide (k = lit "message") && bool_decide (m = lit "error!")
  | _ => false
  end.
Definition test_not_found_error : bool :=
  status (respond (λ _, BEmpty) not_found_handler) =? 404.

(** The suites pass. *)
Example cli_tests_pass : forallb id
  [create_options_default_to_current_vm_settings;
   create_rejects_invalid_settings_before_sending_request 7;
   create_sends_valid_settings_to_manager 7; test_error; test_not_found_error] = true.
Proof. vm_compute. reflexivity. Qed.
